(** * Information-spread analysis pipeline: a shallow embedding

    This development embeds the analytics core of the information checker
    backend (NetworkAnalyzer, BotDetector, CoordinationDetector,
    AnomalyDetector and the AnalysisEngine orchestrator) and proves or
    refutes the properties its specification states about them.

    Conventions of the embedding.
    - A JavaScript [Date] is its [getTime()] value: milliseconds since the
      epoch, an integer ([Z]).  Counts, cascade depths and the other
      integer-valued numbers are [Z] as well.
    - A JavaScript number that can be fractional is a [num]: an exact
      rational, the two infinities, or NaN.  The IEEE rules for the special
      values are written out; rounding and the sign of zero are not
      modelled.  [Math.sqrt] is exact on squares of rationals and truncated
      to 64 fractional bits elsewhere.
    - A [Map] or [Set] is an association list or a duplicate-free list in
      insertion order, which is the order JavaScript iterates them in.
    - [Array.prototype.sort] is a stable insertion sort driven by the sign of
      the comparator.
    - [Date.now()], [new Date()], [Math.random()] and the local time zone
      are read from an explicit [World].
    - A loop over a work queue runs on fuel computed from its input; running
      out of fuel and dereferencing [undefined] are errors of the [result]
      type. *)

From Stdlib Require Import String Ascii List ZArith QArith Qabs Lia Lqa Bool.
From Stdlib Require Import Permutation DecimalString.
Import ListNotations.

Close Scope Q_scope.

Set Implicit Arguments.

(* ================================================================== *)
(** * JavaScript numbers *)
(* ================================================================== *)

Module Num.

Inductive num : Type :=
| NaN
| NInf
| Fin (q : Q)
| PInf.

Definition of_Z (z : Z) : num := Fin (inject_Z z).
Definition of_nat (n : nat) : num := of_Z (Z.of_nat n).

Definition zero : num := Fin 0.
Definition one : num := Fin 1.

Definition Qsign (q : Q) : comparison := (Qnum q ?= 0)%Z.

Definition neg (x : num) : num :=
  match x with
  | NaN => NaN
  | NInf => PInf
  | PInf => NInf
  | Fin q => Fin (Qred (- q))
  end.

Definition add (x y : num) : num :=
  match x, y with
  | NaN, _ | _, NaN => NaN
  | PInf, NInf | NInf, PInf => NaN
  | PInf, _ | _, PInf => PInf
  | NInf, _ | _, NInf => NInf
  | Fin a, Fin b => Fin (Qred (a + b))
  end.

Definition sub (x y : num) : num := add x (neg y).

(** An infinity of the sign of [s], NaN when [s] is zero. *)
Definition inf_of_sign (s : comparison) : num :=
  match s with
  | Gt => PInf
  | Lt => NInf
  | Eq => NaN
  end.

Definition flip (s : comparison) : comparison := CompOpp s.

Definition mul (x y : num) : num :=
  match x, y with
  | NaN, _ | _, NaN => NaN
  | PInf, PInf | NInf, NInf => PInf
  | PInf, NInf | NInf, PInf => NInf
  | PInf, Fin b | Fin b, PInf => inf_of_sign (Qsign b)
  | NInf, Fin b | Fin b, NInf => inf_of_sign (flip (Qsign b))
  | Fin a, Fin b => Fin (Qred (a * b))
  end.

Definition div (x y : num) : num :=
  match x, y with
  | NaN, _ | _, NaN => NaN
  | (PInf | NInf), (PInf | NInf) => NaN
  | PInf, Fin b => match Qsign b with Lt => NInf | _ => PInf end
  | NInf, Fin b => match Qsign b with Lt => PInf | _ => NInf end
  | Fin _, (PInf | NInf) => Fin 0
  | Fin a, Fin b =>
      match Qsign b with
      | Eq => inf_of_sign (Qsign a)
      | _ => Fin (Qred (a / b))
      end
  end.

Definition Qsqrt (q : Q) : Q :=
  if Qle_bool q 0 then 0%Q
  else Qred (Qmake (Z.sqrt (Qnum q * Zpos (Qden q) * 2 ^ 128)) (Qden q * 2 ^ 64)).

(** [Math.sqrt] *)
Definition sqrt (x : num) : num :=
  match x with
  | NaN | NInf => NaN
  | PInf => PInf
  | Fin q => match Qsign q with Lt => NaN | _ => Fin (Qsqrt q) end
  end.

(** [Math.abs] *)
Definition abs (x : num) : num :=
  match x with
  | NaN => NaN
  | NInf | PInf => PInf
  | Fin q => Fin (Qred (Qabs q))
  end.

(** [Math.pow(x, 2)] *)
Definition sq (x : num) : num := mul x x.

(** The comparison of two numbers, [None] when one of them is NaN. *)
Definition cmp (x y : num) : option comparison :=
  match x, y with
  | NaN, _ | _, NaN => None
  | NInf, NInf | PInf, PInf => Some Eq
  | NInf, _ | _, PInf => Some Lt
  | _, NInf | PInf, _ => Some Gt
  | Fin a, Fin b => Some (a ?= b)%Q
  end.

Definition ltb (x y : num) : bool :=
  match cmp x y with Some Lt => true | _ => false end.
Definition leb (x y : num) : bool :=
  match cmp x y with Some Lt | Some Eq => true | _ => false end.
Definition gtb (x y : num) : bool := ltb y x.
Definition geb (x y : num) : bool := leb y x.
Definition eqb (x y : num) : bool :=
  match cmp x y with Some Eq => true | _ => false end.

(** [Math.min(x, y)] and [Math.max(x, y)]: NaN as soon as one argument is. *)
Definition min (x y : num) : num :=
  match cmp x y with
  | None => NaN
  | Some Gt => y
  | Some _ => x
  end.

Definition max (x y : num) : num :=
  match cmp x y with
  | None => NaN
  | Some Lt => y
  | Some _ => x
  end.

(** [Math.min(...l)] is [Infinity] and [Math.max(...l)] is [-Infinity] on
    the empty list. *)
Definition min_list (l : list num) : num := fold_left min l PInf.
Definition max_list (l : list num) : num := fold_left max l NInf.

(** [l.reduce((a, b) => a + b, 0)] *)
Definition sum (l : list num) : num := fold_left add l zero.

End Num.

Abbreviation num := Num.num.
Abbreviation NaN := Num.NaN.
Abbreviation Fin := Num.Fin.
Abbreviation PInf := Num.PInf.
Abbreviation NInf := Num.NInf.

Declare Scope num_scope.
Delimit Scope num_scope with num.
Bind Scope num_scope with Num.num.
Infix "+" := Num.add : num_scope.
Infix "-" := Num.sub : num_scope.
Infix "*" := Num.mul : num_scope.
Infix "/" := Num.div : num_scope.
Infix "<?" := Num.ltb : num_scope.
Infix "<=?" := Num.leb : num_scope.
Infix ">?" := Num.gtb : num_scope.
Infix ">=?" := Num.geb : num_scope.

(* ================================================================== *)
(** * Errors and the world *)
(* ================================================================== *)

Inductive error : Type :=
| TypeError   (* a property of [undefined] was read *)
| RangeError  (* an array of negative length was asked for *)
| OutOfFuel.  (* a work-queue loop did not finish on its fuel *)

Inductive result (A : Type) : Type :=
| Ok (a : A)
| Throw (e : error).
Arguments Ok {A} a.
Arguments Throw {A} e.

Definition rbind {A B} (r : result A) (k : A -> result B) : result B :=
  match r with
  | Ok a => k a
  | Throw e => Throw e
  end.

(** [rmapM f l]: run [f] on the elements of [l] from left to right. *)
Fixpoint rmapM {A B} (f : A -> result B) (l : list A) : result (list B) :=
  match l with
  | [] => Ok []
  | x :: t => rbind (f x) (fun y => rbind (rmapM f t) (fun ys => Ok (y :: ys)))
  end.

(** The readings of the wall clock and the random draws of one run, in the
    order the program asks for them, and the local time zone. *)
Record World : Type := mkWorld {
  clock : nat -> Z;       (* the k-th value of [Date.now()] *)
  ticks : nat;            (* clock readings taken so far *)
  random : nat -> string; (* the k-th [Math.random().toString(36).substr(2, 9)] *)
  draws : nat;            (* random draws taken so far *)
  tzOffset : Z -> Z       (* local time minus UTC at an instant, in ms *)
}.

Definition M (A : Type) : Type := World -> result (A * World).

Definition ret {A} (a : A) : M A := fun w => Ok (a, w).

Definition bind {A B} (m : M A) (k : A -> M B) : M B :=
  fun w => match m w with
           | Ok (a, w') => k a w'
           | Throw e => Throw e
           end.

Definition lift {A} (r : result A) : M A :=
  fun w => match r with
           | Ok a => Ok (a, w)
           | Throw e => Throw e
           end.

(** [Date.now()], also the time of [new Date()] *)
Definition date_now : M Z :=
  fun w => Ok (clock w (ticks w),
               mkWorld (clock w) (S (ticks w)) (random w) (draws w) (tzOffset w)).

(** [Math.random().toString(36).substr(2, 9)] *)
Definition math_random36 : M string :=
  fun w => Ok (random w (draws w),
               mkWorld (clock w) (ticks w) (random w) (S (draws w)) (tzOffset w)).

Definition local_offset (t : Z) : M Z := fun w => Ok (tzOffset w t, w).

Fixpoint mapM {A B} (f : A -> M B) (l : list A) : M (list B) :=
  match l with
  | [] => ret []
  | x :: t => bind (f x) (fun y => bind (mapM f t) (fun ys => ret (y :: ys)))
  end.

Declare Scope monad_scope.
Delimit Scope monad_scope with monad.
Notation "x <- c ;; k" := (bind c (fun x => k))
  (at level 61, c at next level, right associativity) : monad_scope.
Notation "' p <- c ;; k" := (bind c (fun p => k))
  (at level 61, p pattern, c at next level, right associativity) : monad_scope.
Notation "x <-? c ;; k" := (rbind c (fun x => k))
  (at level 61, c at next level, right associativity) : monad_scope.
Notation "' p <-? c ;; k" := (rbind c (fun p => k))
  (at level 61, p pattern, c at next level, right associativity) : monad_scope.

(* ================================================================== *)
(** * JavaScript containers *)
(* ================================================================== *)

Module JS.

Section MapOps.
Variables (K V : Type) (keq : K -> K -> bool).

(** [m.get(k)] *)
Fixpoint get (m : list (K * V)) (k : K) : option V :=
  match m with
  | [] => None
  | (k', v) :: t => if keq k' k then Some v else get t k
  end.

(** [m.has(k)] *)
Definition has (m : list (K * V)) (k : K) : bool :=
  match get m k with Some _ => true | None => false end.

(** [m.set(k, v)]: an existing key keeps its place. *)
Fixpoint set (m : list (K * V)) (k : K) (v : V) : list (K * V) :=
  match m with
  | [] => [(k, v)]
  | (k', v') :: t => if keq k' k then (k', v) :: t else (k', v') :: set t k v
  end.

(** [Array.from(m.values())] and [Array.from(m.keys())] *)
Definition values (m : list (K * V)) : list V := map snd m.
Definition keys (m : list (K * V)) : list K := map fst m.
End MapOps.

Section SetOps.
Variables (K : Type) (keq : K -> K -> bool).

(** [s.has(k)], also [a.includes(k)] on an array *)
Definition mem (s : list K) (k : K) : bool := existsb (keq k) s.

(** [s.add(k)] *)
Definition add (s : list K) (k : K) : list K :=
  if mem s k then s else s ++ [k].

(** [new Set(l)], then spread back into an array *)
Definition uniq (l : list K) : list K := fold_left add l [].
End SetOps.

Section Sort.
Variable A : Type.
(** [after a b]: the comparator called on [(a, b)] is positive, so [a]
    sorts after [b]. *)
Variable after : A -> A -> bool.

Fixpoint insert (x : A) (l : list A) : list A :=
  match l with
  | [] => [x]
  | y :: t => if after x y then y :: insert x t else x :: l
  end.

(** [l.sort(comparator)] *)
Definition sort (l : list A) : list A := fold_right insert [] l.
End Sort.

End JS.

Abbreviation smem := (JS.mem String.eqb).
Abbreviation sadd := (JS.add String.eqb).
Abbreviation suniq := (JS.uniq String.eqb).
Abbreviation sget := (JS.get String.eqb).
Abbreviation shas := (JS.has String.eqb).
Abbreviation sset := (JS.set String.eqb).

(** [Math.max(...l)] on the non-empty list [x :: l] of integers *)
Definition Zmax_list (x : Z) (l : list Z) : Z := fold_left Z.max l x.
Definition Zsum (l : list Z) : Z := fold_left Z.add l 0%Z.

(** The differences of consecutive elements:
    [for (i = 1; i < l.length; i++) out.push(l[i] - l[i-1])] *)
Fixpoint intervals_of (l : list Z) : list Z :=
  match l with
  | a :: ((b :: _) as t) => (b - a)%Z :: intervals_of t
  | _ => []
  end.

Definition sort_times : list Z -> list Z := JS.sort (fun a b => (0 <? a - b)%Z).

(** [String(n)] for an integer-valued number *)
Definition string_of_Z (z : Z) : string := NilZero.string_of_int (Z.to_int z).

(** [l.join(sep)] *)
Fixpoint join (sep : string) (l : list string) : string :=
  match l with
  | [] => EmptyString
  | [x] => x
  | x :: t => (x ++ sep ++ join sep t)%string
  end.

(** [l.find(p)] *)
Definition find_first {A} (p : A -> bool) (l : list A) : option A := List.find p l.

(** [l.filter(p).length] as an integer *)
Definition count {A} (p : A -> bool) (l : list A) : Z := Z.of_nat (length (filter p l)).

Definition zlength {A} (l : list A) : Z := Z.of_nat (length l).

(* ================================================================== *)
(** * Data model (models/types.ts) *)
(* ================================================================== *)

Module Account.
Record t : Type := mk {
  id : string;
  username : string;
  displayName : string;
  createdAt : Z;
  followersCount : Z;
  followingCount : Z;
  tweetCount : Z;
  verified : bool;
  description : option string;
  location : option string;
  profileImageUrl : option string
}.
End Account.

Module Tweet.
Record t : Type := mk {
  id : string;
  authorId : string;
  author : option Account.t;
  text : string;
  createdAt : Z
}.
End Tweet.

Module Retweet.
Record t : Type := mk {
  id : string;
  authorId : string;
  author : option Account.t;
  text : option string;
  createdAt : Z;
  cascadeDepth : Z
}.
End Retweet.

Module Quote.
Record t : Type := mk {
  id : string;
  authorId : string;
  author : option Account.t;
  text : string;
  createdAt : Z;
  cascadeDepth : Z
}.
End Quote.

Module Reply.
Record t : Type := mk {
  id : string;
  authorId : string;
  author : option Account.t;
  text : string;
  createdAt : Z;
  cascadeDepth : Z;
  inReplyToId : string
}.
End Reply.

(** ['retweet' | 'quote' | 'reply'] *)
Inductive Interaction : Type := retweet | quote | reply.

(** ['original' | 'retweet' | 'quote' | 'reply'] *)
Inductive TimelineType : Type := original | spread (i : Interaction).

Definition Interaction_name (i : Interaction) : string :=
  match i with
  | retweet => "retweet"
  | quote => "quote"
  | reply => "reply"
  end.

Definition TimelineType_name (t : TimelineType) : string :=
  match t with
  | original => "original"
  | spread i => Interaction_name i
  end.

Definition Interaction_eqb (a b : Interaction) : bool :=
  match a, b with
  | retweet, retweet | quote, quote | reply, reply => true
  | _, _ => false
  end.

Module TimelineEvent.
Record t : Type := mk {
  id : string;
  type : TimelineType;
  timestamp : Z;
  accountId : string;
  cascadeDepth : Z
}.
End TimelineEvent.

Module SpreadEvent.
Record t : Type := mk {
  id : string;
  type : Interaction;
  sourceAccountId : string;
  targetTweetId : string;
  timestamp : Z;
  cascadeDepth : Z;
  content : option string
}.
End SpreadEvent.

Inductive NodeType : Type := source | spreader | endpoint.

Module NetworkNode.
Record t : Type := mk {
  id : string;
  accountId : string;
  type : NodeType;
  influence : Z;
  connections : list string;
  timestamp : Z
}.
End NetworkNode.

Module NetworkEdge.
Record t : Type := mk {
  source : string;
  target : string;
  type : Interaction;
  weight : num;
  timestamp : Z
}.
End NetworkEdge.

Module SpreadData.
Record t : Type := mk {
  originalTweet : Tweet.t;
  retweets : list Retweet.t;
  quotes : list Quote.t;
  replies : list Reply.t;
  timeline : list TimelineEvent.t;
  networkGraph : list NetworkNode.t
}.
End SpreadData.

Module TimeDistribution.
Record t : Type := mk {
  hourly : list num;
  daily : list num;
  timezone : string
}.
End TimeDistribution.

Module ActivityPattern.
Record t : Type := mk {
  timeDistribution : TimeDistribution.t;
  contentSimilarity : num;
  coordinationScore : num;
  burstiness : num
}.
End ActivityPattern.

Module Cluster.
Record t : Type := mk {
  id : string;
  nodes : list string;
  coherence : num;
  activityPattern : ActivityPattern.t;
  suspicionScore : num
}.
End Cluster.

Inductive InfluencerRole : Type := originator | amplifier | bridge.

Module Reach.
Record t : Type := mk {
  direct : Z;
  indirect : Z;
  depth : Z
}.
End Reach.

Module InfluencerNode.
Record t : Type := mk {
  accountId : string;
  influenceScore : num;
  directReach : Z;
  indirectReach : Z;
  cascadeDepth : Z;
  role : InfluencerRole
}.
End InfluencerNode.

Module PropagationPath.
Record t : Type := mk {
  nodes : list string;
  totalTime : num;
  velocity : num;
  reach : Z
}.
End PropagationPath.

Module NetworkMetrics.
Record t : Type := mk {
  totalNodes : Z;
  totalEdges : Z;
  density : num;
  averageDegree : num;
  clusteringCoefficient : num;
  modularity : num
}.
End NetworkMetrics.

Module NetworkAnalysis.
Record t : Type := mk {
  nodes : list NetworkNode.t;
  edges : list NetworkEdge.t;
  clusters : list Cluster.t;
  influencers : list InfluencerNode.t;
  propagationPaths : list PropagationPath.t;
  metrics : NetworkMetrics.t
}.
End NetworkAnalysis.

(* ================================================================== *)
(** * Work-queue traversals *)
(* ================================================================== *)

Module Traversal.

(** An adjacency map: [Map<string, Set<string>>] or [Map<string, string[]>]. *)
Definition adjacency : Type := list (string * list string).

Definition neighbours (adj : adjacency) (k : string) : list string :=
  match sget adj k with
  | Some s => s
  | None => []
  end.

(** The number of queue entries the keys not yet visited can still push. *)
Fixpoint pending (adj : adjacency) (visited : list string) : nat :=
  match adj with
  | [] => 0
  | (k, vs) :: t =>
      if smem visited k then pending t visited
      else length vs + pending t visited
  end.

(** Fuel that lets a traversal of [adj] from [queue] finish. *)
Definition fuel_for {A} (adj : adjacency) (visited : list string) (queue : list A) : nat :=
  length queue + pending adj visited.

(** The loop shared by [NetworkAnalyzer.expandCluster] and
    [CoordinationDetector.expandCluster]:
<<
    while (queue.length > 0) {
      const current = queue.shift()!;
      if (visited.has(current)) continue;
      visited.add(current);
      cluster.push(current);
      const neighbors = adjacencyList.get(current) || new Set();
      for (const neighbor of neighbors)
        if (!visited.has(neighbor)) queue.push(neighbor);
    }
>> *)
Fixpoint expandLoop (fuel : nat) (adj : adjacency)
    (queue visited cluster : list string) : result (list string * list string) :=
  match queue with
  | [] => Ok (cluster, visited)
  | current :: rest =>
      match fuel with
      | O => Throw OutOfFuel
      | S fuel' =>
          if smem visited current then expandLoop fuel' adj rest visited cluster
          else
            let visited' := sadd visited current in
            let pushed := filter (fun n => negb (smem visited' n)) (neighbours adj current) in
            expandLoop fuel' adj (rest ++ pushed) visited' (cluster ++ [current])
      end
  end.

(** [expandCluster(start, adjacencyList, visited)]: the cluster, and the
    shared [visited] set as the call leaves it. *)
Definition expandCluster (start : string) (adj : adjacency) (visited : list string)
  : result (list string * list string) :=
  expandLoop (fuel_for adj visited [start]) adj [start] visited [].

End Traversal.

(* ================================================================== *)
(** * NetworkAnalyzer *)
(* ================================================================== *)

Module NetworkAnalyzer.

Import Traversal.

Definition addNodeAndEdge
    (st : list (string * NetworkNode.t) * list NetworkEdge.t)
    (accountId targetId : string) (type : Interaction) (timestamp : Z) (weight : num)
  : list (string * NetworkNode.t) * list NetworkEdge.t :=
  let (nodeMap, edges) := st in
  let nodeMap' :=
    if shas nodeMap accountId then nodeMap
    else sset nodeMap accountId
           (NetworkNode.mk ("node-" ++ accountId) accountId spreader 0 [] timestamp) in
  (nodeMap', edges ++ [NetworkEdge.mk accountId targetId type weight timestamp]).

(** [if (node && !node.connections.includes(other)) node.connections.push(other)],
    on the node object the map holds under [key] *)
Definition connect (nodeMap : list (string * NetworkNode.t)) (key other : string)
  : list (string * NetworkNode.t) :=
  match sget nodeMap key with
  | Some n =>
      if smem (NetworkNode.connections n) other then nodeMap
      else sset nodeMap key
             (NetworkNode.mk (NetworkNode.id n) (NetworkNode.accountId n)
                (NetworkNode.type n) (NetworkNode.influence n)
                (NetworkNode.connections n ++ [other]) (NetworkNode.timestamp n))
  | None => nodeMap
  end.

Definition buildNetworkGraph (spreadData : SpreadData.t)
  : list NetworkNode.t * list NetworkEdge.t :=
  let tweet := SpreadData.originalTweet spreadData in
  let author := Tweet.authorId tweet in
  let sourceNode :=
    NetworkNode.mk ("node-" ++ author) author source 100 [] (Tweet.createdAt tweet) in
  let st0 := (sset [] author sourceNode, []) in
  let st1 := fold_left (fun st rt =>
      addNodeAndEdge st (Retweet.authorId rt) author retweet (Retweet.createdAt rt) (Fin 1))
    (SpreadData.retweets spreadData) st0 in
  let st2 := fold_left (fun st qt =>
      addNodeAndEdge st (Quote.authorId qt) author quote (Quote.createdAt qt) (Fin 2))
    (SpreadData.quotes spreadData) st1 in
  let st3 := fold_left (fun st rp =>
      addNodeAndEdge st (Reply.authorId rp) author reply (Reply.createdAt rp) (Fin (3 # 2)))
    (SpreadData.replies spreadData) st2 in
  let (nodeMap, edges) := st3 in
  let nodeMap' := fold_left (fun m e =>
      connect (connect m (NetworkEdge.source e) (NetworkEdge.target e))
              (NetworkEdge.target e) (NetworkEdge.source e))
    edges nodeMap in
  (JS.values nodeMap', edges).

(** [adjacencyList.get(key)?.add(other)] *)
Definition adj_add (adj : adjacency) (key other : string) : adjacency :=
  match sget adj key with
  | Some s => sset adj key (sadd s other)
  | None => adj
  end.

Definition buildAdjacencyList (nodes : list NetworkNode.t) (edges : list NetworkEdge.t)
  : adjacency :=
  let adj0 := fold_left (fun adj n => sset adj (NetworkNode.accountId n) []) nodes [] in
  fold_left (fun adj e =>
      adj_add (adj_add adj (NetworkEdge.source e) (NetworkEdge.target e))
              (NetworkEdge.target e) (NetworkEdge.source e))
    edges adj0.

Definition expandCluster := Traversal.expandCluster.

Definition getHours (t offset : Z) : Z := (((t + offset) / 3600000) mod 24)%Z.
Definition getDay (t offset : Z) : Z := (((t + offset) / 86400000 + 4) mod 7)%Z.

(** [arr[i]++] *)
Fixpoint bump (i : nat) (arr : list Z) : list Z :=
  match arr, i with
  | [], _ => []
  | c :: t, O => (c + 1)%Z :: t
  | c :: t, S i' => c :: bump i' t
  end.

Definition calculateTimeDistribution (timestamps : list Z) : M TimeDistribution.t :=
  (offsets <- mapM local_offset timestamps ;;
   let local := combine timestamps offsets in
   let hourly := fold_left (fun arr '(t, o) => bump (Z.to_nat (getHours t o)) arr)
                   local (repeat 0%Z 24) in
   let daily := fold_left (fun arr '(t, o) => bump (Z.to_nat (getDay t o)) arr)
                   local (repeat 0%Z 7) in
   let total := Num.of_nat (length timestamps) in
   ret (TimeDistribution.mk
          (map (fun c => Num.of_Z c / total)%num hourly)
          (map (fun c => Num.of_Z c / total)%num daily)
          "UTC"))%monad.

(** The score, and the [timestamps] array as the in-place sort leaves it. *)
Definition calculateCoordinationScore (timestamps : list Z) : num * list Z :=
  if (length timestamps <? 2)%nat then (Num.zero, timestamps)
  else
    let sorted := sort_times timestamps in
    let intervals := map Num.of_Z (intervals_of sorted) in
    let n := Num.of_nat (length intervals) in
    let avgInterval := (Num.sum intervals / n)%num in
    let variance :=
      (fold_left (fun sum interval => sum + Num.sq (interval - avgInterval))%num
         intervals Num.zero / n)%num in
    let stdDev := Num.sqrt variance in
    let cv := (stdDev / avgInterval)%num in
    (Num.max Num.zero (Num.one - cv)%num, sorted).

Definition calculateBurstiness (timestamps : list Z) : num :=
  if (length timestamps <? 2)%nat then Num.zero
  else
    let sorted := sort_times timestamps in
    let timeRange := (last sorted 0 - hd 0 sorted)%Z in
    if (timeRange =? 0)%Z then Num.one
    else
      let expectedInterval :=
        (Num.of_Z timeRange / Num.of_Z (zlength timestamps - 1))%num in
      let intervals := map Num.of_Z (intervals_of sorted) in
      (Num.of_Z (count (fun i => i <? expectedInterval * Fin (1 # 2))%num intervals)
       / Num.of_nat (length intervals))%num.

Definition node_timestamp (allNodes : list NetworkNode.t) (id : string) : option Z :=
  option_map NetworkNode.timestamp
    (find_first (fun n => String.eqb (NetworkNode.accountId n) id) allNodes).

(** [l.filter(t => t !== undefined)] *)
Fixpoint defined {A} (l : list (option A)) : list A :=
  match l with
  | [] => []
  | Some x :: t => x :: defined t
  | None :: t => defined t
  end.

Definition calculateActivityPattern (clusterNodes : list string)
    (allNodes : list NetworkNode.t) : M ActivityPattern.t :=
  (let timestamps := defined (map (node_timestamp allNodes) clusterNodes) in
   timeDistribution <- calculateTimeDistribution timestamps ;;
   let contentSimilarity := Fin (1 # 2) in
   let (coordinationScore, timestamps') := calculateCoordinationScore timestamps in
   let burstiness := calculateBurstiness timestamps' in
   ret (ActivityPattern.mk timeDistribution contentSimilarity coordinationScore burstiness))%monad.

Definition calculateClusterCoherence (nodes : list string) (edges : list NetworkEdge.t)
  : num :=
  let n := zlength nodes in
  if (n <? 2)%Z then Num.zero
  else
    let actualEdges := Num.of_nat (length edges) in
    let possibleEdges := (Num.of_Z (n * (n - 1)) / Fin 2)%num in
    (actualEdges / possibleEdges)%num.

Definition calculateSuspicionScore (activityPattern : ActivityPattern.t) (coherence : num)
  : num :=
  let coordScore := (ActivityPattern.coordinationScore activityPattern * Fin (2 # 5))%num in
  let burstScore := (ActivityPattern.burstiness activityPattern * Fin (3 # 10))%num in
  let cohScore := (coherence * Fin (3 # 10))%num in
  Num.min Num.one (coordScore + burstScore + cohScore)%num.

Definition analyzeCluster (clusterNodes : list string) (allNodes : list NetworkNode.t)
    (edges : list NetworkEdge.t) : M Cluster.t :=
  (let clusterEdges := filter (fun e =>
       smem clusterNodes (NetworkEdge.source e) && smem clusterNodes (NetworkEdge.target e))
     edges in
   activityPattern <- calculateActivityPattern clusterNodes allNodes ;;
   let coherence := calculateClusterCoherence clusterNodes clusterEdges in
   let suspicionScore := calculateSuspicionScore activityPattern coherence in
   now <- date_now ;;
   r <- math_random36 ;;
   ret (Cluster.mk ("cluster-" ++ string_of_Z now ++ "-" ++ r)
          clusterNodes coherence activityPattern suspicionScore))%monad.

(** The [for (const node of nodes)] loop of [detectClusters]. *)
Fixpoint detectClusters_loop (todo allNodes : list NetworkNode.t)
    (edges : list NetworkEdge.t) (adj : adjacency)
    (visited : list string) (clusters : list Cluster.t) : M (list Cluster.t) :=
  match todo with
  | [] => ret clusters
  | node :: rest =>
      if smem visited (NetworkNode.accountId node)
      then detectClusters_loop rest allNodes edges adj visited clusters
      else
        ('(cluster, visited') <- lift (expandCluster (NetworkNode.accountId node) adj visited) ;;
         if (3 <=? length cluster)%nat
         then (clusterData <- analyzeCluster cluster allNodes edges ;;
               detectClusters_loop rest allNodes edges adj visited' (clusters ++ [clusterData]))
         else detectClusters_loop rest allNodes edges adj visited' clusters)%monad
  end.

Definition detectClusters (nodes : list NetworkNode.t) (edges : list NetworkEdge.t)
  : M (list Cluster.t) :=
  detectClusters_loop nodes nodes edges (buildAdjacencyList nodes edges) [] [].

(** [degrees.set(k, (degrees.get(k) || 0) + 1)] *)
Definition incr (m : list (string * Z)) (k : string) : list (string * Z) :=
  sset m k (match sget m k with Some d => d | None => 0 end + 1)%Z.

Definition calculateDegrees (nodes : list NetworkNode.t) (edges : list NetworkEdge.t)
  : list (string * Z) :=
  let degrees0 := fold_left (fun m n => sset m (NetworkNode.accountId n) 0%Z) nodes [] in
  fold_left (fun m e => incr (incr m (NetworkEdge.source e)) (NetworkEdge.target e))
    edges degrees0.

(** The [while] loop of [bfsReach]; the queue holds [{ node, depth }]. *)
Fixpoint bfsReach_loop (fuel : nat) (adj : adjacency) (queue : list (string * Z))
    (visited : list string) (direct indirect maxDepth : Z) : result Reach.t :=
  match queue with
  | [] => Ok (Reach.mk direct indirect maxDepth)
  | (node, depth) :: rest =>
      match fuel with
      | O => Throw OutOfFuel
      | S fuel' =>
          if smem visited node
          then bfsReach_loop fuel' adj rest visited direct indirect maxDepth
          else
            let visited' := sadd visited node in
            let direct' := if (depth =? 1)%Z then (direct + 1)%Z else direct in
            let indirect' :=
              if (depth =? 1)%Z then indirect
              else if (1 <? depth)%Z then (indirect + 1)%Z else indirect in
            let pushed :=
              map (fun n => (n, (depth + 1)%Z))
                (filter (fun n => negb (smem visited' n)) (neighbours adj node)) in
            bfsReach_loop fuel' adj (rest ++ pushed) visited' direct' indirect'
              (Z.max maxDepth depth)
      end
  end.

Definition bfsReach (start : string) (adj : adjacency) : result Reach.t :=
  bfsReach_loop (fuel_for adj [] [(start, 0%Z)]) adj [(start, 0%Z)] [] 0 0 0.

Definition calculateReach (nodes : list NetworkNode.t) (edges : list NetworkEdge.t)
  : result (list (string * Reach.t)) :=
  let adj := buildAdjacencyList nodes edges in
  (fix loop (todo : list NetworkNode.t) (reachMap : list (string * Reach.t)) :=
     match todo with
     | [] => Ok reachMap
     | node :: rest =>
         (reach <-? bfsReach (NetworkNode.accountId node) adj ;;
          loop rest (sset reachMap (NetworkNode.accountId node) reach))%monad
     end) nodes [].

Definition edge_times (edges : list NetworkEdge.t) : list num :=
  map (fun e => Num.of_Z (NetworkEdge.timestamp e)) edges.

Definition calculateInfluenceScore (node : NetworkNode.t) (degree : Z) (reach : Reach.t)
    (edges : list NetworkEdge.t) : num :=
  let baseInfluence :=
    match NetworkNode.type node with source => Fin 50 | _ => Fin 10 end in
  let degreeFactor := (Num.min (Num.of_Z degree / Fin 10) Num.one * Fin 30)%num in
  let reachFactor :=
    ((Num.of_Z (Reach.direct reach) + Num.of_Z (Reach.indirect reach) * Fin (1 # 2))
     / Fin 20 * Fin 20)%num in
  let nodeEdges :=
    filter (fun e => String.eqb (NetworkEdge.source e) (NetworkNode.accountId node)) edges in
  let avgTimestamp :=
    if (0 <? length nodeEdges)%nat
    then (Num.sum (edge_times nodeEdges) / Num.of_nat (length nodeEdges))%num
    else Num.of_Z (NetworkNode.timestamp node) in
  let earliestTime := Num.min_list (edge_times edges) in
  let timeRange := (Num.max_list (edge_times edges) - earliestTime)%num in
  let temporalFactor :=
    if (timeRange >? Num.zero)%num
    then ((Num.one - (avgTimestamp - earliestTime) / timeRange) * Fin 20)%num
    else Num.zero in
  (baseInfluence + degreeFactor + reachFactor + temporalFactor)%num.

Definition determineInfluencerRole (node : NetworkNode.t) (spreadData : SpreadData.t)
  : InfluencerRole :=
  if String.eqb (NetworkNode.accountId node)
       (Tweet.authorId (SpreadData.originalTweet spreadData))
  then originator
  else if (5 <? length (NetworkNode.connections node))%nat then bridge
  else amplifier.

(** The comparator [(a, b) => b.influenceScore - a.influenceScore] is
    positive. *)
Definition influence_after (a b : InfluencerNode.t) : bool :=
  (InfluencerNode.influenceScore b - InfluencerNode.influenceScore a >? Num.zero)%num.

Definition identifyInfluencers (nodes : list NetworkNode.t) (edges : list NetworkEdge.t)
    (spreadData : SpreadData.t) : result (list InfluencerNode.t) :=
  (let degreeMap := calculateDegrees nodes edges in
   reachMap <-? calculateReach nodes edges ;;
   let influencers := fold_left (fun influencers node =>
       let degree :=
         match sget degreeMap (NetworkNode.accountId node) with
         | Some d => d
         | None => 0%Z
         end in
       let reach :=
         match sget reachMap (NetworkNode.accountId node) with
         | Some r => r
         | None => Reach.mk 0 0 0
         end in
       let influenceScore := calculateInfluenceScore node degree reach edges in
       if (influenceScore >? Fin 10)%num
       then influencers ++
              [InfluencerNode.mk (NetworkNode.accountId node) influenceScore
                 (Reach.direct reach) (Reach.indirect reach) (Reach.depth reach)
                 (determineInfluencerRole node spreadData)]
       else influencers)
     nodes [] in
   Ok (JS.sort influence_after influencers))%monad.

Definition findLeafNodes (nodes : list NetworkNode.t) (edges : list NetworkEdge.t)
  : list NetworkNode.t :=
  let hasOutgoing := suniq (map NetworkEdge.source edges) in
  filter (fun n => negb (smem hasOutgoing (NetworkNode.accountId n))) nodes.

(** [if (!m.has(k)) m.set(k, []); m.get(k)?.push(v)] *)
Definition push_parent (m : adjacency) (k v : string) : adjacency :=
  sset m k (neighbours m k ++ [v]).

(** The [while] loop of [findPath]; the queue holds [{ node, path }]. *)
Fixpoint findPath_loop (fuel : nat) (start : string) (adj : adjacency)
    (queue : list (string * list string)) (visited : list string) : result (list string) :=
  match queue with
  | [] => Ok []
  | (node, path) :: rest =>
      match fuel with
      | O => Throw OutOfFuel
      | S fuel' =>
          if String.eqb node start then Ok (rev path)
          else if smem visited node then findPath_loop fuel' start adj rest visited
          else
            let visited' := sadd visited node in
            let pushed :=
              map (fun parent => (parent, path ++ [parent]))
                (filter (fun parent => negb (smem visited' parent)) (neighbours adj node)) in
            findPath_loop fuel' start adj (rest ++ pushed) visited'
      end
  end.

Definition findPath (start finish : string) (edges : list NetworkEdge.t)
  : result (list string) :=
  let adjacencyMap := fold_left (fun m e =>
      push_parent m (NetworkEdge.target e) (NetworkEdge.source e)) edges [] in
  findPath_loop (fuel_for adjacencyMap [] [(finish, [finish])]) start adjacencyMap
    [(finish, [finish])] [].

(** [analyzeePath]: [nodes.find(...)!] may be [undefined], and reading its
    timestamp then throws. *)
Definition analyzeePath (path : list string) (nodes : list NetworkNode.t)
    (edges : list NetworkEdge.t) : result PropagationPath.t :=
  (pathNodes <-? rmapM (fun id =>
       match find_first (fun n => String.eqb (NetworkNode.accountId n) id) nodes with
       | Some n => Ok n
       | None => Throw TypeError
       end) path ;;
   let timestamps := map (fun n => Num.of_Z (NetworkNode.timestamp n)) pathNodes in
   let totalTime := (Num.max_list timestamps - Num.min_list timestamps)%num in
   let velocity := (Num.of_nat (length path) / (totalTime / Fin 60000))%num in
   let reach := Zsum (map (fun n => zlength (NetworkNode.connections n)) pathNodes) in
   Ok (PropagationPath.mk path totalTime velocity reach))%monad.

Definition tracePropagationPaths (nodes : list NetworkNode.t) (edges : list NetworkEdge.t)
    (spreadData : SpreadData.t) : result (list PropagationPath.t) :=
  let sourceId := Tweet.authorId (SpreadData.originalTweet spreadData) in
  let leafNodes := findLeafNodes nodes edges in
  (paths <-? (fix loop (todo : list NetworkNode.t) (paths : list PropagationPath.t) :=
       match todo with
       | [] => Ok paths
       | leaf :: rest =>
           path <-? findPath sourceId (NetworkNode.accountId leaf) edges ;;
           if (1 <? length path)%nat
           then (pathData <-? analyzeePath path nodes edges ;; loop rest (paths ++ [pathData]))
           else loop rest paths
       end) leafNodes [] ;;
   Ok (firstn 10
         (JS.sort (fun a b => (0 <? PropagationPath.reach b - PropagationPath.reach a)%Z)
            paths)))%monad.

Definition calculateDensity (nodeCount edgeCount : Z) : num :=
  if (nodeCount <? 2)%Z then Num.zero
  else
    let maxEdges := (Num.of_Z (nodeCount * (nodeCount - 1)) / Fin 2)%num in
    (Num.of_Z edgeCount / maxEdges)%num.

(** The pairs [i < j] of [neighbors] with [adjacencyList.get(neighbors[i])?.has(neighbors[j])] *)
Fixpoint linked_pairs (adj : adjacency) (neighbors : list string) : Z :=
  match neighbors with
  | [] => 0
  | x :: t => (count (fun y => smem (neighbours adj x) y) t + linked_pairs adj t)%Z
  end.

Definition calculateClusteringCoefficient (nodes : list NetworkNode.t)
    (edges : list NetworkEdge.t) : num :=
  let adj := buildAdjacencyList nodes edges in
  let '(totalCoefficient, validNodes) := fold_left (fun '(total, valid) node =>
      let neighbors := neighbours adj (NetworkNode.accountId node) in
      if (2 <=? length neighbors)%nat
      then
        let k := zlength neighbors in
        let possibleEdges := (Num.of_Z (k * (k - 1)) / Fin 2)%num in
        let actualEdges := linked_pairs adj neighbors in
        ((total + Num.of_Z actualEdges / possibleEdges)%num, (valid + 1)%Z)
      else (total, valid))
    nodes (Num.zero, 0%Z) in
  if (0 <? validNodes)%Z then (totalCoefficient / Num.of_Z validNodes)%num else Num.zero.

Definition calculateModularity (nodes : list NetworkNode.t) (edges : list NetworkEdge.t)
  : num := Fin (1 # 2).

Definition calculateNetworkMetrics (nodes : list NetworkNode.t) (edges : list NetworkEdge.t)
  : NetworkMetrics.t :=
  let degrees := calculateDegrees nodes edges in
  let totalDegree := Zsum (JS.values degrees) in
  NetworkMetrics.mk (zlength nodes) (zlength edges)
    (calculateDensity (zlength nodes) (zlength edges))
    (Num.of_Z totalDegree / Num.of_nat (length nodes))%num
    (calculateClusteringCoefficient nodes edges)
    (calculateModularity nodes edges).

(** [analyzeNetwork]; the writes to the graph store and to the database
    are taken to succeed and are left out: nothing is read back from them. *)
Definition analyzeNetwork (spreadData : SpreadData.t) (analysisId : string)
  : M NetworkAnalysis.t :=
  (let (nodes, edges) := buildNetworkGraph spreadData in
   clusters <- detectClusters nodes edges ;;
   influencers <- lift (identifyInfluencers nodes edges spreadData) ;;
   propagationPaths <- lift (tracePropagationPaths nodes edges spreadData) ;;
   let metrics := calculateNetworkMetrics nodes edges in
   ret (NetworkAnalysis.mk nodes edges clusters influencers propagationPaths metrics))%monad.

End NetworkAnalyzer.

(* ================================================================== *)
(** * Strings *)
(* ================================================================== *)

Module Str.

Definition chars (s : string) : list ascii := list_ascii_of_string s.

Definition between (lo hi : nat) (c : ascii) : bool :=
  let n := nat_of_ascii c in ((lo <=? n) && (n <=? hi))%nat.

Definition is_digit : ascii -> bool := between 48 57.
Definition is_upper : ascii -> bool := between 65 90.
Definition is_lower : ascii -> bool := between 97 122.
Definition is_alpha (c : ascii) : bool := is_upper c || is_lower c.

(** [s.includes(sub)] *)
Fixpoint includes (s sub : string) : bool :=
  if String.prefix sub s then true
  else match s with
       | EmptyString => false
       | String _ t => includes t sub
       end.

Fixpoint take_while {A} (p : A -> bool) (l : list A) : list A :=
  match l with
  | x :: t => if p x then x :: take_while p t else []
  | [] => []
  end.

Fixpoint drop_while {A} (p : A -> bool) (l : list A) : list A :=
  match l with
  | x :: t => if p x then drop_while p t else l
  | [] => []
  end.

(** [/^[a-zA-Z]{8,}[0-9]{4,}$/.test(s)] *)
Definition letters_then_digits (s : string) : bool :=
  let letters := take_while is_alpha (chars s) in
  let rest := drop_while is_alpha (chars s) in
  ((8 <=? length letters) && (4 <=? length rest))%nat && forallb is_digit rest.

(** [/[0-9]{8,}/.test(s)]: [run] digits end just before the suffix [l]. *)
Fixpoint digit_run (run : nat) (l : list ascii) : bool :=
  match l with
  | [] => false
  | c :: t =>
      if is_digit c
      then if (8 <=? S run)%nat then true else digit_run (S run) t
      else digit_run 0 t
  end.

(** [/[a-z][A-Z][a-z][A-Z]/.test(s)] *)
Fixpoint alternating_case (l : list ascii) : bool :=
  match l with
  | a :: ((b :: c :: d :: _) as t) =>
      (is_lower a && is_upper b && is_lower c && is_upper d) || alternating_case t
  | _ => false
  end.

(** [s.toLowerCase()] on the ASCII letters *)
Definition lower_char (c : ascii) : ascii :=
  if is_upper c then ascii_of_nat (nat_of_ascii c + 32) else c.
Definition toLowerCase (s : string) : string :=
  string_of_list_ascii (map lower_char (chars s)).

(** The white space of [\s] within ASCII: tab, line feed, vertical tab, form
    feed, carriage return and space. *)
Definition is_space (c : ascii) : bool :=
  let n := nat_of_ascii c in ((9 <=? n) && (n <=? 13) || (n =? 32))%nat.

(** [s.split(/\s+/)]: [cur] is the token being read, reversed, and
    [in_space] says that the previous character was white space. *)
Fixpoint split_loop (in_space : bool) (cur : list ascii) (l : list ascii) : list string :=
  match l with
  | [] => [string_of_list_ascii (rev cur)]
  | c :: t =>
      if is_space c
      then if in_space then split_loop true cur t
           else string_of_list_ascii (rev cur) :: split_loop true [] t
      else split_loop false (c :: cur) t
  end.

Definition split_spaces (s : string) : list string := split_loop false [] (chars s).

(** The decimal digits of [n], padded with zeros to [width] characters. *)
Definition pad (width : nat) (s : string) : string :=
  (string_of_list_ascii (repeat "0"%char (width - String.length s)) ++ s)%string.

(** [x.toFixed(k)] for [|x| < 1e21]: the magnitude is rounded half up. *)
Definition toFixed (k : nat) (x : num) : string :=
  match x with
  | NaN => "NaN"
  | PInf => "Infinity"
  | NInf => "-Infinity"
  | Fin q =>
      let scale := (10 ^ Z.of_nat k)%Z in
      let m := Qabs q in
      let n := ((2 * Qnum m * scale + Zpos (Qden m)) / (2 * Zpos (Qden m)))%Z in
      let sign := match Num.Qsign q with Lt => "-" | _ => "" end in
      let whole := string_of_Z (n / scale) in
      match k with
      | O => sign ++ whole
      | _ => sign ++ whole ++ "." ++ pad k (string_of_Z (n mod scale))
      end
  end%string.

End Str.

(* ================================================================== *)
(** * BotDetector *)
(* ================================================================== *)

Inductive Classification : Type := human | bot | cyborg | uncertain.

Module BotSignal.
Record t : Type := mk {
  type : string;
  value : num;
  weight : num;
  description : string
}.
End BotSignal.

Module BotDetectionResult.
Record t : Type := mk {
  accountId : string;
  botProbability : num;
  signals : list BotSignal.t;
  classification : Classification;
  confidence : num
}.
End BotDetectionResult.

Module ProfileMetrics.
Record t : Type := mk {
  averageTweetsPerDay : num;
  accountAgeInDays : num;
  followersToFollowingRatio : num;
  engagementRate : num;
  hashtagDiversity : num;
  urlUsageRate : num;
  replyRate : num;
  retweetRate : num
}.
End ProfileMetrics.

Module BotDetector.

Module thresholds.
Definition bot : num := Fin (4 # 5).
Definition cyborg : num := Fin (3 # 5).
Definition uncertain : num := Fin (2 # 5).
End thresholds.

Definition msPerDay : num := Fin 86400000.

Definition calculateMetrics (account : Account.t) : M ProfileMetrics.t :=
  (now <- date_now ;;
   let accountAgeInDays :=
     Num.max Num.one (Num.of_Z (now - Account.createdAt account) / msPerDay)%num in
   ret (ProfileMetrics.mk
          (Num.of_Z (Account.tweetCount account) / accountAgeInDays)%num
          accountAgeInDays
          (Num.of_Z (Account.followersCount account)
           / Num.of_Z (Z.max 1 (Account.followingCount account)))%num
          Num.zero Num.zero Num.zero Num.zero Num.zero))%monad.

Definition accountAgeAnalysis (account : Account.t) : M num :=
  (now <- date_now ;;
   let ageInDays := (Num.of_Z (now - Account.createdAt account) / msPerDay)%num in
   let followers := Account.followersCount account in
   ret (if (ageInDays <? Fin 30)%num && (1000 <? followers)%Z then Fin (9 # 10)
        else if (ageInDays <? Fin 90)%num && (5000 <? followers)%Z then Fin (7 # 10)
        else if (ageInDays <? Fin 180)%num && (10000 <? followers)%Z then Fin (1 # 2)
        else if (ageInDays >? Fin (365 * 3))%num && (followers <? 50)%Z then Fin (3 # 5)
        else Fin (1 # 10)))%monad.

Definition tweetFrequencyAnalysis (metrics : ProfileMetrics.t) : num :=
  let tweetsPerDay := ProfileMetrics.averageTweetsPerDay metrics in
  if (tweetsPerDay >? Fin 100)%num then Fin 1
  else if (tweetsPerDay >? Fin 50)%num then Fin (4 # 5)
  else if (tweetsPerDay >? Fin 30)%num then Fin (3 # 5)
  else if (tweetsPerDay >? Fin 10)%num && (tweetsPerDay <? Fin 15)%num then Fin (2 # 5)
  else Fin (1 # 10).

Definition followRatioAnalysis (account : Account.t) : num :=
  let following := Account.followingCount account in
  let followers := Account.followersCount account in
  let ratio := (Num.of_Z following / Num.of_Z (Z.max 1 followers))%num in
  if (ratio >? Fin 50)%num then Fin 1
  else if (ratio >? Fin 20)%num then Fin (4 # 5)
  else if (ratio >? Fin 10)%num then Fin (3 # 5)
  else if (ratio >? Fin 5)%num then Fin (2 # 5)
  else if (Z.abs (following - followers) <? 10)%Z && (100 <? following)%Z then Fin (7 # 10)
  else Fin (1 # 10).

(** [!s] for an optional string: [undefined] and the empty string *)
Definition falsy (s : option string) : bool :=
  match s with
  | None | Some EmptyString => true
  | Some _ => false
  end.

Definition profileCompletenessAnalysis (account : Account.t) : num :=
  let step (cond : bool) (w : num) (st : num * Z) : num * Z :=
    if cond then ((fst st + w)%num, (snd st + 1)%Z) else st in
  let st1 := step
      (falsy (Account.description account)
       || match Account.description account with
          | Some d => (String.length d <? 10)%nat
          | None => false
          end)
      (Fin (3 # 10)) (Num.zero, 0%Z) in
  let st2 := step (falsy (Account.location account)) (Fin (1 # 5)) st1 in
  let st3 := step
      (falsy (Account.profileImageUrl account)
       || match Account.profileImageUrl account with
          | Some u => Str.includes u "default"
          | None => false
          end)
      (Fin (3 # 10)) st2 in
  let st4 := step (String.eqb (Account.displayName account) (Account.username account))
      (Fin (1 # 5)) st3 in
  let (score, factors) := st4 in
  if (0 <? factors)%Z then (score / Num.of_Z factors)%num else Num.zero.

Definition usernamePatternAnalysis (username : string) : num :=
  let step (cond : bool) (w : num) (score : num) : num :=
    if cond then (score + w)%num else score in
  let score1 := step (Str.letters_then_digits username) (Fin (2 # 5)) Num.zero in
  let digitRatio :=
    (Num.of_Z (count Str.is_digit (Str.chars username))
     / Num.of_nat (String.length username))%num in
  let score2 := step (digitRatio >? Fin (1 # 2))%num (Fin (3 # 10)) score1 in
  let score3 := step (Str.includes username "bot" || Str.includes username "Bot")
      (Fin (1 # 5)) score2 in
  let score4 := step (Str.digit_run 0 (Str.chars username)) (Fin (3 # 10)) score3 in
  let score5 := step (Str.alternating_case (Str.chars username)) (Fin (1 # 5)) score4 in
  Num.min Num.one score5.

Definition engagementAnalysis (metrics : ProfileMetrics.t) : num := Fin (3 # 10).

Definition extractSignals (account : Account.t) : M (list BotSignal.t) :=
  (metrics <- calculateMetrics account ;;
   accountAgeScore <- accountAgeAnalysis account ;;
   let tweetFrequencyScore := tweetFrequencyAnalysis metrics in
   let ratioScore := followRatioAnalysis account in
   let profileScore := profileCompletenessAnalysis account in
   let defaultImageScore :=
     match Account.profileImageUrl account with
     | Some u => if Str.includes u "default_profile" then Fin 1 else Fin 0
     | None => Fin 0
     end in
   let usernameScore := usernamePatternAnalysis (Account.username account) in
   let engagementScore := engagementAnalysis metrics in
   ret [ BotSignal.mk "account_age" accountAgeScore (Fin (3 # 20))
           "Account age relative to follower count";
         BotSignal.mk "tweet_frequency" tweetFrequencyScore (Fin (1 # 5))
           "Abnormal tweeting patterns";
         BotSignal.mk "follow_ratio" ratioScore (Fin (3 # 20))
           "Following to follower ratio";
         BotSignal.mk "profile_completeness" profileScore (Fin (1 # 10))
           "Profile information completeness";
         BotSignal.mk "default_image" defaultImageScore (Fin (1 # 10))
           "Uses default profile image";
         BotSignal.mk "username_pattern" usernameScore (Fin (3 # 20))
           "Suspicious username patterns";
         BotSignal.mk "engagement_rate" engagementScore (Fin (3 # 20))
           "Abnormal engagement patterns" ])%monad.

Definition prepareFeatures (account : Account.t) (signals : list BotSignal.t)
  : M (list num) :=
  (metrics <- calculateMetrics account ;;
   ret ([ (ProfileMetrics.accountAgeInDays metrics / Fin 365)%num;
          Num.min (ProfileMetrics.averageTweetsPerDay metrics / Fin 100)%num Num.one;
          Num.min (Num.of_Z (Account.followersCount account) / Fin 10000)%num Num.one;
          Num.min (Num.of_Z (Account.followingCount account) / Fin 10000)%num Num.one;
          Num.min (ProfileMetrics.followersToFollowingRatio metrics / Fin 10)%num Num.one;
          if Account.verified account then Fin 0 else Fin 1 ]
        ++ map BotSignal.value signals))%monad.

(** [Array(features.length - 6)] throws on a negative length. *)
Definition fallbackCalculation (features : list num) : result num :=
  if (length features <? 6)%nat then Throw RangeError
  else
    let rest := (length features - 6)%nat in
    let weights :=
      [Fin (1 # 10); Fin (1 # 5); Fin (1 # 20); Fin (1 # 20); Fin (1 # 10); Fin (1 # 5)]
      ++ repeat (Fin (3 # 10) / Num.of_nat rest)%num rest in
    let sum := fold_left (fun sum '(f, w) => (sum + f * w)%num)
                 (combine features weights) Num.zero in
    Ok (Num.min Num.one (Num.max Num.zero sum)).

Definition calculateBotProbability (features : list num) : result num :=
  fallbackCalculation features.

Definition classify (probability : num) : Classification :=
  if (probability >=? thresholds.bot)%num then bot
  else if (probability >=? thresholds.cyborg)%num then cyborg
  else if (probability >=? thresholds.uncertain)%num then uncertain
  else human.

Definition calculateConfidence (signals : list BotSignal.t) (probability : num) : num :=
  let signalAverage := fold_left (fun sum signal =>
      (sum + BotSignal.value signal * BotSignal.weight signal)%num) signals Num.zero in
  let agreement := (Num.one - Num.abs (signalAverage - probability))%num in
  let extremity := (Num.abs (probability - Fin (1 # 2)) * Fin 2)%num in
  (agreement * Fin (7 # 10) + extremity * Fin (3 # 10))%num.

Definition analyzeAccount (account : Account.t) : M BotDetectionResult.t :=
  (signals <- extractSignals account ;;
   features <- prepareFeatures account signals ;;
   probability <- lift (calculateBotProbability features) ;;
   let classification := classify probability in
   ret (BotDetectionResult.mk (Account.id account) probability signals classification
          (calculateConfidence signals probability)))%monad.

(** [detectBots]; the database writes are caught and logged by the source
    and are left out. *)
Definition detectBots (accounts : list Account.t) : M (list BotDetectionResult.t) :=
  mapM analyzeAccount accounts.

End BotDetector.

(* ================================================================== *)
(** * AnomalyDetector *)
(* ================================================================== *)

Inductive Severity : Type := low | medium | high | critical.

Inductive AnomalyType : Type := spike | pattern | behavior | network.

Definition AnomalyType_name (t : AnomalyType) : string :=
  match t with
  | spike => "spike"
  | pattern => "pattern"
  | behavior => "behavior"
  | network => "network"
  end.

Module AnomalyMetrics.
Record t : Type := mk {
  deviation : num;
  baseline : num;
  observed : num;
  confidence : num
}.
End AnomalyMetrics.

Module Anomaly.
Record t : Type := mk {
  id : string;
  type : AnomalyType;
  severity : Severity;
  timestamp : Z;
  description : string;
  affectedAccounts : list string;
  metrics : AnomalyMetrics.t
}.
End Anomaly.

Module BehaviorChange.
Record t : Type := mk {
  timestamp : Z;
  severity : Severity;
  description : string;
  accounts : list string;
  metrics : AnomalyMetrics.t
}.
End BehaviorChange.

Module AnomalyDetector.

Definition spikeThreshold : num := Fin 3.
Definition minEventsForAnalysis : nat := 10.

Definition event_after (a b : TimelineEvent.t) : bool :=
  (0 <? TimelineEvent.timestamp a - TimelineEvent.timestamp b)%Z.

Definition calculateVolumeByWindow (timeline : list TimelineEvent.t) (windowSize : Z)
  : list (Z * Z) :=
  fold_left (fun volumeMap event =>
      let windowStart := (TimelineEvent.timestamp event / windowSize * windowSize)%Z in
      JS.set Z.eqb volumeMap windowStart
        (match JS.get Z.eqb volumeMap windowStart with Some v => v | None => 0 end + 1)%Z)
    timeline [].

Definition calculateStatistics (values : list num) : num * num :=
  match values with
  | [] => (Num.zero, Num.zero)
  | _ =>
      let n := Num.of_nat (length values) in
      let mean := (Num.sum values / n)%num in
      let variance :=
        (fold_left (fun sum val => sum + Num.sq (val - mean))%num values Num.zero / n)%num in
      (mean, Num.sqrt variance)
  end.

Definition calculateSpikeSeverity (zScore : num) : Severity :=
  let absZ := Num.abs zScore in
  if (absZ >=? Fin 5)%num then critical
  else if (absZ >=? Fin 4)%num then high
  else if (absZ >=? Fin 3)%num then medium
  else low.

(** [(volume - stats.mean) / stats.stdDev] *)
Definition zScore_of (volume : Z) (stats : num * num) : num :=
  ((Num.of_Z volume - fst stats) / snd stats)%num.

Definition detectVolumeSpikes (timeline : list TimelineEvent.t) : list Anomaly.t :=
  let windowSize := (5 * 60 * 1000)%Z in
  let volumeByWindow := calculateVolumeByWindow timeline windowSize in
  let volumes := map Num.of_Z (JS.values volumeByWindow) in
  let stats := calculateStatistics volumes in
  fold_left (fun anomalies '(timestamp, volume) =>
      let zScore := zScore_of volume stats in
      if (Num.abs zScore >? spikeThreshold)%num
      then
        let affectedEvents := filter (fun e =>
            (Z.abs (TimelineEvent.timestamp e - timestamp) <=? windowSize / 2)%Z) timeline in
        anomalies ++
          [Anomaly.mk ("spike-" ++ string_of_Z timestamp) spike
             (calculateSpikeSeverity zScore) timestamp
             ("Unusual " ++ (if (zScore >? Num.zero)%num then "spike" else "drop")
              ++ " in activity: " ++ string_of_Z volume ++ " events ("
              ++ Str.toFixed 2 zScore ++ " std devs from mean)")
             (suniq (map TimelineEvent.accountId affectedEvents))
             (AnomalyMetrics.mk zScore (fst stats) (Num.of_Z volume)
                (Num.min (Fin (99 # 100)) (Num.abs zScore / Fin 5)%num))]
      else anomalies)
    volumeByWindow [].

(** [const events = m.get(k) || []; events.push(e); m.set(k, events)] *)
Definition group_push (m : list (string * list TimelineEvent.t)) (k : string)
    (e : TimelineEvent.t) : list (string * list TimelineEvent.t) :=
  sset m k (match sget m k with Some l => l | None => [] end ++ [e]).

(** The intervals, and the [events] array as the in-place sort leaves it. *)
Definition calculateIntervals (events : list TimelineEvent.t)
  : list Z * list TimelineEvent.t :=
  let sorted := JS.sort event_after events in
  (intervals_of (map TimelineEvent.timestamp sorted), sorted).

Definition calculateRegularity (intervals : list Z) : num :=
  if (length intervals <? 2)%nat then Num.zero
  else
    let stats := calculateStatistics (map Num.of_Z intervals) in
    if Num.eqb (fst stats) Num.zero then Num.zero
    else
      let cv := (snd stats / fst stats)%num in
      Num.max Num.zero (Num.one - cv)%num.

(** The [for] over the accounts in [detectTemporalPatterns] *)
Fixpoint detectTemporalPatterns_loop (todo : list (string * list TimelineEvent.t))
    (anomalies : list Anomaly.t) : M (list Anomaly.t) :=
  match todo with
  | [] => ret anomalies
  | (accountId, events) :: rest =>
      if (length events <? 5)%nat then detectTemporalPatterns_loop rest anomalies
      else
        let (intervals, events') := calculateIntervals events in
        let regularityScore := calculateRegularity intervals in
        if (regularityScore >? Fin (4 # 5))%num
        then
          (now <- date_now ;;
           first <- lift (match events' with
                          | e :: _ => Ok e
                          | [] => Throw TypeError
                          end) ;;
           detectTemporalPatterns_loop rest
             (anomalies ++
                [Anomaly.mk ("pattern-" ++ accountId ++ "-" ++ string_of_Z now) pattern
                   medium (TimelineEvent.timestamp first)
                   ("Account " ++ accountId
                    ++ " shows suspiciously regular activity patterns (regularity: "
                    ++ Str.toFixed 1 (regularityScore * Fin 100)%num ++ "%)")
                   [accountId]
                   (AnomalyMetrics.mk regularityScore (Fin (1 # 2)) regularityScore
                      (Fin (7 # 10)))]))%monad
        else detectTemporalPatterns_loop rest anomalies
  end.

Definition detectTemporalPatterns (timeline : list TimelineEvent.t) : M (list Anomaly.t) :=
  let accountEvents :=
    fold_left (fun m e => group_push m (TimelineEvent.accountId e) e) timeline [] in
  detectTemporalPatterns_loop accountEvents [].

Definition groupByBehavior (timeline : list TimelineEvent.t)
  : list (string * list TimelineEvent.t) :=
  fold_left (fun groups event =>
      group_push groups
        (TimelineType_name (TimelineEvent.type event) ++ "-"
         ++ string_of_Z (TimelineEvent.cascadeDepth event)) event)
    timeline [].

(** The [for] loop of [splitIntoWindows] and the final push. *)
Fixpoint splitIntoWindows_loop (windowSize : Z) (todo : list TimelineEvent.t)
    (windows : list (list TimelineEvent.t)) (currentWindow : list TimelineEvent.t)
    (windowStart : Z) : list (list TimelineEvent.t) :=
  match todo with
  | [] => if (0 <? length currentWindow)%nat then windows ++ [currentWindow] else windows
  | event :: rest =>
      if (windowSize <? TimelineEvent.timestamp event - windowStart)%Z
      then splitIntoWindows_loop windowSize rest
             (if (0 <? length currentWindow)%nat then windows ++ [currentWindow] else windows)
             [event] (TimelineEvent.timestamp event)
      else splitIntoWindows_loop windowSize rest windows (currentWindow ++ [event]) windowStart
  end.

Definition splitIntoWindows (events : list TimelineEvent.t) (windowSize : Z)
  : list (list TimelineEvent.t) :=
  let sorted := JS.sort event_after events in
  let windowStart := match sorted with e :: _ => TimelineEvent.timestamp e | [] => 0%Z end in
  splitIntoWindows_loop windowSize sorted [] [] windowStart.

(** [compareBehavior]: [window2[0]] is read only when the rate changed. *)
Definition compareBehavior (window1 window2 : list TimelineEvent.t)
  : result (option BehaviorChange.t) :=
  let rate1 := zlength window1 in
  let rate2 := zlength window2 in
  let rateChange := (Num.of_Z (Z.abs (rate2 - rate1)) / Num.of_Z (Z.max rate1 1))%num in
  if (rateChange >? Fin 2)%num
  then
    match window2 with
    | [] => Throw TypeError
    | first :: _ =>
        Ok (Some (BehaviorChange.mk (TimelineEvent.timestamp first)
                    (if (rateChange >? Fin 5)%num then high else medium)
                    ("Sudden change in activity rate: " ++ string_of_Z rate1 ++ " → "
                     ++ string_of_Z rate2 ++ " events")
                    (suniq (map TimelineEvent.accountId window2))
                    (AnomalyMetrics.mk rateChange (Num.of_Z rate1) (Num.of_Z rate2)
                       (Fin (7 # 10)))))
    end
  else Ok None.

(** [for (let i = 1; i < windows.length; i++)] over consecutive windows *)
Fixpoint compare_consecutive (windows : list (list TimelineEvent.t))
    (changes : list BehaviorChange.t) : result (list BehaviorChange.t) :=
  match windows with
  | prevWindow :: ((currWindow :: _) as rest) =>
      (change <-? compareBehavior prevWindow currWindow ;;
       compare_consecutive rest
         (match change with Some c => changes ++ [c] | None => changes end))%monad
  | _ => Ok changes
  end.

Definition detectBehaviorChanges (events : list TimelineEvent.t)
  : result (list BehaviorChange.t) :=
  if (length events <? 10)%nat then Ok []
  else compare_consecutive (splitIntoWindows events (10 * 60 * 1000)) [].

Definition anomaly_of_change (behavior_key : string) (change : BehaviorChange.t)
  : Anomaly.t :=
  Anomaly.mk
    ("behavior-" ++ behavior_key ++ "-" ++ string_of_Z (BehaviorChange.timestamp change))
    behavior (BehaviorChange.severity change)
    (BehaviorChange.timestamp change) (BehaviorChange.description change)
    (BehaviorChange.accounts change) (BehaviorChange.metrics change).

(** The [for] over the behavior groups in [detectBehaviorAnomalies] *)
Fixpoint detectBehaviorAnomalies_loop (todo : list (string * list TimelineEvent.t))
    (anomalies : list Anomaly.t) : result (list Anomaly.t) :=
  match todo with
  | [] => Ok anomalies
  | (behavior_key, events) :: rest =>
      (changes <-? detectBehaviorChanges events ;;
       detectBehaviorAnomalies_loop rest
         (anomalies ++ map (anomaly_of_change behavior_key) changes))%monad
  end.

Definition detectBehaviorAnomalies (timeline : list TimelineEvent.t)
  : result (list Anomaly.t) :=
  detectBehaviorAnomalies_loop (groupByBehavior timeline) [].

(** [detectNetworkAnomalies].  On the empty timeline [Math.max()] is
    [-Infinity], nothing exceeds it and no event is looked at. *)
Definition detectNetworkAnomalies (timeline : list TimelineEvent.t) : M (list Anomaly.t) :=
  match map TimelineEvent.cascadeDepth timeline with
  | [] => ret []
  | d :: ds =>
      (let maxDepth := Zmax_list d ds in
       deep <- (if (10 <? maxDepth)%Z
                then
                  (now <- date_now ;;
                   stamp <- date_now ;;
                   ret [Anomaly.mk ("network-depth-" ++ string_of_Z now) network high stamp
                          ("Unusually deep cascade detected (depth: "
                           ++ string_of_Z maxDepth ++ ")")
                          (map TimelineEvent.accountId
                             (filter (fun e =>
                                (maxDepth - 2 <=? TimelineEvent.cascadeDepth e)%Z) timeline))
                          (AnomalyMetrics.mk (Num.of_Z maxDepth) (Fin 5) (Num.of_Z maxDepth)
                             (Fin (4 # 5)))])
                else ret []) ;;
       let triggerCounts := fold_left (fun m event =>
           if (TimelineEvent.cascadeDepth event =? 0)%Z
           then sset m (TimelineEvent.accountId event)
                  (count (fun e =>
                     (TimelineEvent.cascadeDepth e =? 1)%Z
                     && (Z.abs (TimelineEvent.timestamp e - TimelineEvent.timestamp event)
                         <? 60000)%Z) timeline)
           else m) timeline [] in
       stars <- mapM (fun '(accountId, n) =>
           stamp <- date_now ;;
           ret (Anomaly.mk ("network-star-" ++ accountId) network high stamp
                  ("Star pattern detected: " ++ accountId ++ " triggered "
                   ++ string_of_Z n ++ " immediate responses")
                  [accountId]
                  (AnomalyMetrics.mk (Num.of_Z n) (Fin 5) (Num.of_Z n) (Fin (9 # 10)))))
         (filter (fun '(_, n) => (20 <? n)%Z) triggerCounts) ;;
       ret (deep ++ stars))%monad
  end.

Definition getSeverityScore (anomaly : Anomaly.t) : Z :=
  match Anomaly.severity anomaly with
  | critical => 4
  | high => 3
  | medium => 2
  | low => 1
  end.

(** The deduplication key of [prioritizeAnomalies] *)
Definition anomaly_key (anomaly : Anomaly.t) : string :=
  AnomalyType_name (Anomaly.type anomaly) ++ "-"
  ++ join "," (Anomaly.affectedAccounts anomaly) ++ "-"
  ++ string_of_Z (Anomaly.timestamp anomaly / 60000).

Definition anomaly_score (anomaly : Anomaly.t) : num :=
  (Num.of_Z (getSeverityScore anomaly)
   * AnomalyMetrics.confidence (Anomaly.metrics anomaly))%num.

Definition deduplicate (anomalies : list Anomaly.t) : list (string * Anomaly.t) :=
  fold_left (fun unique anomaly =>
      let key := anomaly_key anomaly in
      match sget unique key with
      | None => sset unique key anomaly
      | Some kept =>
          if (getSeverityScore kept <? getSeverityScore anomaly)%Z
          then sset unique key anomaly
          else unique
      end)
    anomalies [].

Definition prioritizeAnomalies (anomalies : list Anomaly.t) : list Anomaly.t :=
  JS.sort (fun a b => (anomaly_score b - anomaly_score a >? Num.zero)%num)
    (JS.values (deduplicate anomalies)).

(** The anomalies of the four detectors, before deduplication. *)
Definition candidates (sortedTimeline : list TimelineEvent.t) : M (list Anomaly.t) :=
  (let spikes := detectVolumeSpikes sortedTimeline in
   patterns <- detectTemporalPatterns sortedTimeline ;;
   behaviors <- lift (detectBehaviorAnomalies sortedTimeline) ;;
   networks <- detectNetworkAnomalies sortedTimeline ;;
   ret (spikes ++ patterns ++ behaviors ++ networks))%monad.

(** [detectAnomalies]; the database writes are caught and logged by the
    source and are left out. *)
Definition detectAnomalies (timeline : list TimelineEvent.t) (analysisId : string)
  : M (list Anomaly.t) :=
  if (length timeline <? minEventsForAnalysis)%nat then ret []
  else
    (let sortedTimeline := JS.sort event_after timeline in
     anomalies <- candidates sortedTimeline ;;
     ret (prioritizeAnomalies anomalies))%monad.

End AnomalyDetector.

(* ================================================================== *)
(** * CoordinationDetector *)
(* ================================================================== *)

Module PatternType.
Inductive t : Type := temporal | content | network | mixed.
End PatternType.

Module CoordinationEvidence.
Record t : Type := mk {
  type : string;
  description : string;
  accounts : list string;
  timestamp : Z;
  strength : num
}.
End CoordinationEvidence.

(** [timeWindow]: the time values of its two dates, NaN for an invalid one. *)
Module TimeWindow.
Record t : Type := mk {
  start : num;
  finish : num
}.
End TimeWindow.

Module CoordinationPattern.
Record t : Type := mk {
  accounts : list string;
  type : PatternType.t;
  confidence : num;
  evidence : list CoordinationEvidence.t;
  timeWindow : TimeWindow.t
}.
End CoordinationPattern.

Module NetworkCluster.
Record t : Type := mk {
  accounts : list string;
  density : num
}.
End NetworkCluster.

Module CoordinationDetector.

Import Traversal.

Definition timeWindowThreshold : Z := 3 * 60 * 1000.
Definition contentSimilarityThreshold : num := Fin (4 # 5).
Definition minGroupSize : nat := 3.

Definition activity_after (a b : SpreadEvent.t) : bool :=
  (0 <? SpreadEvent.timestamp a - SpreadEvent.timestamp b)%Z.

(** The inner [for] of [groupByTimeWindow]: push onto the first group within
    the threshold, [None] when there is none. *)
Fixpoint push_near (groups : list (Z * list SpreadEvent.t)) (time : Z)
    (activity : SpreadEvent.t) : option (list (Z * list SpreadEvent.t)) :=
  match groups with
  | [] => None
  | (groupTime, group) :: rest =>
      if (Z.abs (time - groupTime) <=? timeWindowThreshold)%Z
      then Some ((groupTime, group ++ [activity]) :: rest)
      else option_map (cons (groupTime, group)) (push_near rest time activity)
  end.

Definition groupByTimeWindow (activities : list SpreadEvent.t)
  : list (Z * list SpreadEvent.t) :=
  fold_left (fun groups activity =>
      let time := SpreadEvent.timestamp activity in
      match push_near groups time activity with
      | Some groups' => groups'
      | None => JS.set Z.eqb groups time [activity]
      end)
    (JS.sort activity_after activities) [].

Definition accounts_of (group : list SpreadEvent.t) : list string :=
  suniq (map SpreadEvent.sourceAccountId group).

(** [new Date(x)] is an invalid date unless [x] is finite. *)
Definition date_of (x : num) : num :=
  match x with
  | Fin q => Fin q
  | _ => NaN
  end.

Definition times_of (activities : list SpreadEvent.t) : list num :=
  map (fun a => Num.of_Z (SpreadEvent.timestamp a)) activities.

Definition calculateTimeWindow (activities : list SpreadEvent.t) : TimeWindow.t :=
  let timestamps := times_of activities in
  TimeWindow.mk (date_of (Num.min_list timestamps)) (date_of (Num.max_list timestamps)).

Definition generateTemporalEvidence (activities : list SpreadEvent.t)
  : list CoordinationEvidence.t :=
  fold_left (fun evidence '(timestamp, group) =>
      if (2 <=? length group)%nat
      then evidence ++
             [CoordinationEvidence.mk "temporal_synchronization"
                (string_of_Z (zlength group) ++ " accounts acted within "
                 ++ string_of_Z (timeWindowThreshold / 1000) ++ " seconds")
                (accounts_of group) timestamp
                (Num.min Num.one (Num.of_nat (length group) / Fin 10)%num)]
      else evidence)
    (groupByTimeWindow activities) [].

Definition calculateTimeSpread (activities : list SpreadEvent.t) : num :=
  let timestamps := times_of activities in
  let spread := (Num.max_list timestamps - Num.min_list timestamps)%num in
  Num.min Num.one (spread / Fin (60 * 60 * 1000))%num.

Definition calculateAccountDiversity (activities : list SpreadEvent.t) : num :=
  (Num.of_nat (length (accounts_of activities)) / Num.of_nat (length activities))%num.

Definition calculateBurstiness (activities : list SpreadEvent.t) : num :=
  let timestamps := sort_times (map SpreadEvent.timestamp activities) in
  if (length timestamps <? 2)%nat then Num.zero
  else
    let intervals := map Num.of_Z (intervals_of timestamps) in
    let n := Num.of_nat (length intervals) in
    let mean := (Num.sum intervals / n)%num in
    let variance :=
      (fold_left (fun sum interval => sum + Num.sq (interval - mean))%num
         intervals Num.zero / n)%num in
    let cv := (Num.sqrt variance / mean)%num in
    Num.min Num.one cv.

Definition calculateTemporalConfidence (activities : list SpreadEvent.t) : num :=
  let timeSpread := calculateTimeSpread activities in
  let accountDiversity := calculateAccountDiversity activities in
  let burstiness := calculateBurstiness activities in
  ((Num.one - timeSpread) * Fin (2 # 5)
   + (Num.one - accountDiversity) * Fin (3 # 10)
   + burstiness * Fin (3 # 10))%num.

Definition createTemporalPattern (activities : list SpreadEvent.t) (accounts : list string)
  : CoordinationPattern.t :=
  let timeWindow := calculateTimeWindow activities in
  let evidence := generateTemporalEvidence activities in
  CoordinationPattern.mk accounts PatternType.temporal
    (calculateTemporalConfidence activities) evidence timeWindow.

Definition detectTemporalCoordination (activities : list SpreadEvent.t)
  : list CoordinationPattern.t :=
  fold_left (fun patterns '(_, group) =>
      if (minGroupSize <=? length group)%nat
      then
        let uniqueAccounts := accounts_of group in
        if (minGroupSize <=? length uniqueAccounts)%nat
        then patterns ++ [createTemporalPattern group uniqueAccounts]
        else patterns
      else patterns)
    (groupByTimeWindow activities) [].

Definition words (s : string) : list string :=
  suniq (Str.split_spaces (Str.toLowerCase s)).

Definition calculateContentSimilarity (a b : SpreadEvent.t) : num :=
  match SpreadEvent.content a, SpreadEvent.content b with
  | Some ca, Some cb =>
      if BotDetector.falsy (Some ca) || BotDetector.falsy (Some cb) then Num.zero
      else
        let wordsA := words ca in
        let wordsB := words cb in
        let intersection := suniq (filter (fun x => smem wordsB x) wordsA) in
        let union := suniq (wordsA ++ wordsB) in
        if (0 <? length union)%nat
        then (Num.of_nat (length intersection) / Num.of_nat (length union))%num
        else Num.zero
  | _, _ => Num.zero
  end.

(** The inner [for (j = i + 1; ...)] of [groupBySimilarContent] *)
Fixpoint similar_to (base : SpreadEvent.t) (rest : list SpreadEvent.t)
    (used : list string) (group : list SpreadEvent.t)
  : list SpreadEvent.t * list string :=
  match rest with
  | [] => (group, used)
  | other :: rest' =>
      if smem used (SpreadEvent.id other) then similar_to base rest' used group
      else if (calculateContentSimilarity base other >=? contentSimilarityThreshold)%num
      then similar_to base rest' (sadd used (SpreadEvent.id other)) (group ++ [other])
      else similar_to base rest' used group
  end.

Fixpoint groupBySimilarContent_loop (todo : list SpreadEvent.t) (used : list string)
    (groups : list (list SpreadEvent.t)) : list (list SpreadEvent.t) :=
  match todo with
  | [] => groups
  | base :: rest =>
      if smem used (SpreadEvent.id base) then groupBySimilarContent_loop rest used groups
      else
        let (group, used') :=
          similar_to base rest (sadd used (SpreadEvent.id base)) [base] in
        groupBySimilarContent_loop rest used'
          (if (minGroupSize <=? length group)%nat then groups ++ [group] else groups)
  end.

Definition groupBySimilarContent (activities : list SpreadEvent.t)
  : list (list SpreadEvent.t) :=
  groupBySimilarContent_loop activities [] [].

Definition generateContentEvidence (activities : list SpreadEvent.t)
  : list CoordinationEvidence.t :=
  fold_left (fun evidence group =>
      match group with
      | first :: _ :: _ =>
          evidence ++
            [CoordinationEvidence.mk "content_similarity"
               (string_of_Z (zlength group) ++ " accounts posted similar content")
               (accounts_of group) (SpreadEvent.timestamp first)
               (Num.min Num.one (Num.of_nat (length group) / Fin 10)%num)]
      | _ => evidence
      end)
    (groupBySimilarContent activities) [].

(** The double loop over [i < j] of [calculateAverageContentSimilarity] *)
Fixpoint pairwise_similarity (activities : list SpreadEvent.t) (acc : num * Z) : num * Z :=
  match activities with
  | [] => acc
  | a :: rest =>
      pairwise_similarity rest
        (fold_left (fun '(total, comparisons) b =>
             ((total + calculateContentSimilarity a b)%num, (comparisons + 1)%Z))
           rest acc)
  end.

Definition calculateAverageContentSimilarity (activities : list SpreadEvent.t) : num :=
  if (length activities <? 2)%nat then Num.zero
  else
    let (totalSimilarity, comparisons) := pairwise_similarity activities (Num.zero, 0%Z) in
    if (0 <? comparisons)%Z then (totalSimilarity / Num.of_Z comparisons)%num else Num.zero.

Definition calculateContentConfidence (activities : list SpreadEvent.t) : num :=
  let avgSimilarity := calculateAverageContentSimilarity activities in
  let accountDiversity := calculateAccountDiversity activities in
  (avgSimilarity * Fin (7 # 10) + (Num.one - accountDiversity) * Fin (3 # 10))%num.

Definition createContentPattern (activities : list SpreadEvent.t) (accounts : list string)
  : CoordinationPattern.t :=
  let timeWindow := calculateTimeWindow activities in
  let evidence := generateContentEvidence activities in
  CoordinationPattern.mk accounts PatternType.content
    (calculateContentConfidence activities) evidence timeWindow.

Definition detectContentCoordination (activities : list SpreadEvent.t)
  : list CoordinationPattern.t :=
  fold_left (fun patterns group =>
      if (minGroupSize <=? length group)%nat
      then
        let uniqueAccounts := accounts_of group in
        if (minGroupSize <=? length uniqueAccounts)%nat
        then patterns ++ [createContentPattern group uniqueAccounts]
        else patterns
      else patterns)
    (groupBySimilarContent activities) [].

Definition expandCluster := Traversal.expandCluster.

Definition calculateClusterDensity (cluster : list string) (adjacencyMap : adjacency) : num :=
  let n := zlength cluster in
  let edges := Zsum (map (fun account =>
      count (fun conn => smem cluster conn) (neighbours adjacencyMap account)) cluster) in
  let possibleEdges := (n * (n - 1))%Z in
  if (0 <? possibleEdges)%Z then (Num.of_Z edges / Num.of_Z possibleEdges)%num
  else Num.zero.

Definition buildInteractionMap (activities : list SpreadEvent.t) : adjacency :=
  fold_left (fun adjacencyMap activity =>
      let account := SpreadEvent.sourceAccountId activity in
      let m := if shas adjacencyMap account then adjacencyMap
               else sset adjacencyMap account [] in
      let related := filter (fun a =>
          String.eqb (SpreadEvent.targetTweetId a) (SpreadEvent.targetTweetId activity)
          && negb (String.eqb (SpreadEvent.sourceAccountId a) account)) activities in
      fold_left (fun m rel =>
          match sget m account with
          | Some s => sset m account (sadd s (SpreadEvent.sourceAccountId rel))
          | None => m
          end) related m)
    activities [].

(** The [for] over the entries of the adjacency map in
    [findNetworkClusters] *)
Fixpoint findNetworkClusters_loop (adjacencyMap todo : adjacency) (visited : list string)
    (clusters : list NetworkCluster.t) : result (list NetworkCluster.t) :=
  match todo with
  | [] => Ok clusters
  | (account, connections) :: rest =>
      if negb (smem visited account) && (minGroupSize - 1 <=? length connections)%nat
      then
        ('(cluster, visited') <-? expandCluster account adjacencyMap visited ;;
         findNetworkClusters_loop adjacencyMap rest visited'
           (if (minGroupSize <=? length cluster)%nat
            then clusters ++
                   [NetworkCluster.mk cluster (calculateClusterDensity cluster adjacencyMap)]
            else clusters))%monad
      else findNetworkClusters_loop adjacencyMap rest visited clusters
  end.

Definition findNetworkClusters (activities : list SpreadEvent.t)
  : result (list NetworkCluster.t) :=
  let adjacencyMap := buildInteractionMap activities in
  findNetworkClusters_loop adjacencyMap adjacencyMap [] [].

(** [activities[0].timestamp] throws on an empty [activities]. *)
Definition generateNetworkEvidence (activities : list SpreadEvent.t) (accounts : list string)
  : result (list CoordinationEvidence.t) :=
  match activities with
  | [] => Throw TypeError
  | first :: _ =>
      Ok [CoordinationEvidence.mk "network_cluster"
            ("Cluster of " ++ string_of_Z (zlength accounts)
             ++ " interconnected accounts detected")
            accounts (SpreadEvent.timestamp first)
            (Num.min Num.one (Num.of_nat (length accounts) / Fin 20)%num)]
  end.

Definition calculateActivityDensity (activities : list SpreadEvent.t)
    (accounts : list string) : num :=
  let avgActivities := (Num.of_nat (length activities) / Num.of_nat (length accounts))%num in
  Num.min Num.one (avgActivities / Fin 10)%num.

Definition calculateAccountConsistency (activities : list SpreadEvent.t) : num :=
  let types := map SpreadEvent.type activities in
  let typeConsistency :=
    (Num.of_nat (length (JS.uniq Interaction_eqb types)) / Num.of_nat (length types))%num in
  (Num.one - typeConsistency)%num.

Definition calculateBehaviorConsistency (activities : list SpreadEvent.t) : num :=
  let accountActivities := fold_left (fun m a =>
      sset m (SpreadEvent.sourceAccountId a)
        (match sget m (SpreadEvent.sourceAccountId a) with Some l => l | None => [] end
         ++ [a])) activities [] in
  let '(totalConsistency, accountCount) := fold_left (fun '(total, n) '(_, accountActs) =>
      if (2 <=? length accountActs)%nat
      then ((total + calculateAccountConsistency accountActs)%num, (n + 1)%Z)
      else (total, n))
    accountActivities (Num.zero, 0%Z) in
  if (0 <? accountCount)%Z then (totalConsistency / Num.of_Z accountCount)%num
  else Num.zero.

Definition calculateNetworkConfidence (activities : list SpreadEvent.t)
    (accounts : list string) : num :=
  let density := calculateActivityDensity activities accounts in
  let consistency := calculateBehaviorConsistency activities in
  (density * Fin (3 # 5) + consistency * Fin (2 # 5))%num.

Definition createNetworkPattern (activities : list SpreadEvent.t) (accounts : list string)
  : result CoordinationPattern.t :=
  (let timeWindow := calculateTimeWindow activities in
   evidence <-? generateNetworkEvidence activities accounts ;;
   Ok (CoordinationPattern.mk accounts PatternType.network
         (calculateNetworkConfidence activities accounts) evidence timeWindow))%monad.

(** The [for] over the clusters in [detectNetworkCoordination] *)
Fixpoint detectNetworkCoordination_loop (activities : list SpreadEvent.t)
    (todo : list NetworkCluster.t) (patterns : list CoordinationPattern.t)
  : result (list CoordinationPattern.t) :=
  match todo with
  | [] => Ok patterns
  | cluster :: rest =>
      if (minGroupSize <=? length (NetworkCluster.accounts cluster))%nat
      then
        let clusterActivities := filter (fun a =>
            smem (NetworkCluster.accounts cluster) (SpreadEvent.sourceAccountId a))
          activities in
        (pattern <-? createNetworkPattern clusterActivities (NetworkCluster.accounts cluster) ;;
         detectNetworkCoordination_loop activities rest (patterns ++ [pattern]))%monad
      else detectNetworkCoordination_loop activities rest patterns
  end.

Definition detectNetworkCoordination (activities : list SpreadEvent.t)
  : result (list CoordinationPattern.t) :=
  (networkClusters <-? findNetworkClusters activities ;;
   detectNetworkCoordination_loop activities networkClusters [])%monad.

Definition nmem : list nat -> nat -> bool := JS.mem Nat.eqb.

(** The inner [for (j = i + 1; ...)] of [mergePatterns]: [j] is the index of
    the head of [rest]. *)
Fixpoint merge_into (j : nat) (rest : list CoordinationPattern.t) (used : list nat)
    (accountSet : list string) (evidenceList : list CoordinationEvidence.t)
  : list nat * list string * list CoordinationEvidence.t :=
  match rest with
  | [] => (used, accountSet, evidenceList)
  | other :: rest' =>
      if nmem used j then merge_into (S j) rest' used accountSet evidenceList
      else
        let overlap := filter (fun a => smem accountSet a) (CoordinationPattern.accounts other) in
        if (minGroupSize - 1 <=? length overlap)%nat
        then merge_into (S j) rest' (JS.add Nat.eqb used j)
               (fold_left sadd (CoordinationPattern.accounts other) accountSet)
               (evidenceList ++ CoordinationPattern.evidence other)
        else merge_into (S j) rest' used accountSet evidenceList
  end.

(** [patterns.filter((_, idx) => used.has(idx))], with [idx] counted from [i] *)
Fixpoint used_patterns (i : nat) (patterns : list CoordinationPattern.t) (used : list nat)
  : list CoordinationPattern.t :=
  match patterns with
  | [] => []
  | p :: t => if nmem used i then p :: used_patterns (S i) t used
              else used_patterns (S i) t used
  end.

(** The outer [for] of [mergePatterns]: [i] is the index of the head of
    [todo] in [patterns]. *)
Fixpoint mergePatterns_loop (patterns : list CoordinationPattern.t) (i : nat)
    (todo : list CoordinationPattern.t) (used : list nat)
    (merged : list CoordinationPattern.t) : list CoordinationPattern.t :=
  match todo with
  | [] => merged
  | basePattern :: rest =>
      if nmem used i then mergePatterns_loop patterns (S i) rest used merged
      else
        let '(used', accountSet, evidenceList) :=
          merge_into (S i) rest used
            (suniq (CoordinationPattern.accounts basePattern))
            (CoordinationPattern.evidence basePattern) in
        mergePatterns_loop patterns (S i) rest used'
          (merged ++
             [CoordinationPattern.mk accountSet PatternType.mixed
                (Num.max_list
                   (CoordinationPattern.confidence basePattern
                    :: map CoordinationPattern.confidence (used_patterns 0 patterns used')))
                evidenceList (CoordinationPattern.timeWindow basePattern)])
  end.

Definition mergePatterns (patterns : list CoordinationPattern.t)
  : list CoordinationPattern.t :=
  mergePatterns_loop patterns 0 patterns [] [].

(** [detectCoordination]; the writes to the database and to the graph store
    are caught and logged by the source and are left out. *)
Definition detectCoordination (activities : list SpreadEvent.t) (analysisId : string)
  : result (list CoordinationPattern.t) :=
  (let temporalPatterns := detectTemporalCoordination activities in
   let contentPatterns := detectContentCoordination activities in
   networkPatterns <-? detectNetworkCoordination activities ;;
   Ok (mergePatterns (temporalPatterns ++ contentPatterns ++ networkPatterns)))%monad.

End CoordinationDetector.

(* ================================================================== *)
(** * AnalysisEngine *)
(* ================================================================== *)

Module TopInfluencer.
Record t : Type := mk {
  accountId : string;
  score : num;
  role : InfluencerRole
}.
End TopInfluencer.

Module Summary.
Record t : Type := mk {
  timestamp : Z;
  totalAccounts : Z;
  totalInteractions : Z;
  networkDensity : num;
  clusteringCoefficient : num;
  botsConfirmed : Z;
  botsSuspicious : Z;
  botsPercentage : num;
  patternsDetected : Z;
  highConfidence : Z;
  totalAccountsInvolved : Z;
  anomaliesTotal : Z;
  anomaliesCritical : Z;
  anomaliesHigh : Z;
  anomaliesMedium : Z;
  topInfluencers : list TopInfluencer.t
}.
End Summary.

Module FullAnalysis.
Record t : Type := mk {
  network : NetworkAnalysis.t;
  bots : list BotDetectionResult.t;
  coordination : list CoordinationPattern.t;
  anomalies : list Anomaly.t;
  summary : Summary.t
}.
End FullAnalysis.

Module AnalysisEngine.

(** [if (author) accountMap.set(author.id, author)] *)
Definition add_author (accountMap : list (string * Account.t)) (author : option Account.t)
  : list (string * Account.t) :=
  match author with
  | Some a => sset accountMap (Account.id a) a
  | None => accountMap
  end.

Definition extractAccounts (spreadData : SpreadData.t) : list Account.t :=
  let accountMap0 := add_author [] (Tweet.author (SpreadData.originalTweet spreadData)) in
  let authors :=
    map Retweet.author (SpreadData.retweets spreadData)
    ++ map Quote.author (SpreadData.quotes spreadData)
    ++ map Reply.author (SpreadData.replies spreadData) in
  JS.values (fold_left add_author authors accountMap0).

Definition extractActivities (spreadData : SpreadData.t) : list SpreadEvent.t :=
  let target := Tweet.id (SpreadData.originalTweet spreadData) in
  map (fun rt =>
         SpreadEvent.mk (Retweet.id rt) retweet (Retweet.authorId rt) target
           (Retweet.createdAt rt) (Retweet.cascadeDepth rt) (Retweet.text rt))
      (SpreadData.retweets spreadData)
  ++ map (fun qt =>
         SpreadEvent.mk (Quote.id qt) quote (Quote.authorId qt) target
           (Quote.createdAt qt) (Quote.cascadeDepth qt) (Some (Quote.text qt)))
      (SpreadData.quotes spreadData).

(** The events are numbered [String(eventId++)] in the order they are pushed. *)
Definition extractTimeline (spreadData : SpreadData.t) : list TimelineEvent.t :=
  let tweet := SpreadData.originalTweet spreadData in
  let events :=
    (original, Tweet.createdAt tweet, Tweet.authorId tweet)
    :: map (fun rt => (spread retweet, Retweet.createdAt rt, Retweet.authorId rt))
         (SpreadData.retweets spreadData)
    ++ map (fun qt => (spread quote, Quote.createdAt qt, Quote.authorId qt))
         (SpreadData.quotes spreadData) in
  map (fun '(eventId, (type, createdAt, authorId)) =>
         TimelineEvent.mk (string_of_Z (Z.of_nat eventId)) type createdAt authorId
           (match type with original => 0 | _ => 1 end)%Z)
      (combine (seq 0 (length events)) events).

Definition Classification_eqb (a b : Classification) : bool :=
  match a, b with
  | human, human | bot, bot | cyborg, cyborg | uncertain, uncertain => true
  | _, _ => false
  end.

Definition Severity_eqb (a b : Severity) : bool :=
  match a, b with
  | low, low | medium, medium | high, high | critical, critical => true
  | _, _ => false
  end.

Definition generateSummary (network : NetworkAnalysis.t) (bots : list BotDetectionResult.t)
    (coordination : list CoordinationPattern.t) (anomalies : list Anomaly.t) : M Summary.t :=
  (let botCount :=
     count (fun b => Classification_eqb (BotDetectionResult.classification b) bot) bots in
   let suspiciousCount :=
     count (fun b =>
         Classification_eqb (BotDetectionResult.classification b) cyborg
         || Classification_eqb (BotDetectionResult.classification b) uncertain) bots in
   let severity_count s :=
     count (fun a => Severity_eqb (Anomaly.severity a) s) anomalies in
   now <- date_now ;;
   ret (Summary.mk now
          (zlength (NetworkAnalysis.nodes network))
          (zlength (NetworkAnalysis.edges network))
          (NetworkMetrics.density (NetworkAnalysis.metrics network))
          (NetworkMetrics.clusteringCoefficient (NetworkAnalysis.metrics network))
          botCount suspiciousCount
          (Num.of_Z botCount / Num.of_nat (length (NetworkAnalysis.nodes network))
           * Fin 100)%num
          (zlength coordination)
          (count (fun c => (CoordinationPattern.confidence c >? Fin (4 # 5))%num) coordination)
          (zlength (suniq (flat_map CoordinationPattern.accounts coordination)))
          (zlength anomalies)
          (severity_count critical) (severity_count high) (severity_count medium)
          (map (fun i =>
                  TopInfluencer.mk (InfluencerNode.accountId i)
                    (InfluencerNode.influenceScore i) (InfluencerNode.role i))
             (firstn 5 (NetworkAnalysis.influencers network)))))%monad.

(** [runFullAnalysis]: an exception of a detector is rethrown after the
    status update.  The status and result writes to the database are taken
    to succeed and are left out. *)
Definition runFullAnalysis (spreadData : SpreadData.t) (analysisId : string)
  : M FullAnalysis.t :=
  (network <- NetworkAnalyzer.analyzeNetwork spreadData analysisId ;;
   let accounts := extractAccounts spreadData in
   bots <- BotDetector.detectBots accounts ;;
   let activities := extractActivities spreadData in
   coordination <- lift (CoordinationDetector.detectCoordination activities analysisId) ;;
   let timeline := extractTimeline spreadData in
   anomalies <- AnomalyDetector.detectAnomalies timeline analysisId ;;
   summary <- generateSummary network bots coordination anomalies ;;
   ret (FullAnalysis.mk network bots coordination anomalies summary))%monad.

(** [calculateEngagement]: the three filtered arrays are spread into one
    whose length alone is read. *)
Definition calculateEngagement (accountId : string) (context : SpreadData.t) : num :=
  let interactions :=
    (count (fun r => Retweet.authorId r =? accountId)%string (SpreadData.retweets context)
     + count (fun q => Quote.authorId q =? accountId)%string (SpreadData.quotes context)
     + count (fun r => Reply.authorId r =? accountId)%string (SpreadData.replies context))%Z in
  let totalInteractions :=
    (zlength (SpreadData.retweets context) + zlength (SpreadData.quotes context)
     + zlength (SpreadData.replies context))%Z in
  if (0 <? totalInteractions)%Z
  then (Num.of_Z interactions / Num.of_Z totalInteractions * Fin 100)%num
  else Num.zero.

(** [e.timestamp > action.timestamp && e.cascadeDepth > action.cascadeDepth] *)
Definition follows (action e : TimelineEvent.t) : bool :=
  (TimelineEvent.timestamp action <? TimelineEvent.timestamp e)%Z
  && (TimelineEvent.cascadeDepth action <? TimelineEvent.cascadeDepth e)%Z.

Definition calculateAmplification (accountId : string) (context : SpreadData.t) : num :=
  let accountActions :=
    filter (fun e => TimelineEvent.accountId e =? accountId)%string
      (SpreadData.timeline context) in
  if (length accountActions =? 0)%nat then Num.zero
  else
    let amplification :=
      fold_left (fun amplification action =>
                   (amplification + count (follows action) (SpreadData.timeline context))%Z)
        accountActions 0%Z in
    Num.min (Fin 100) (Num.of_Z amplification).

Definition calculateNetworkPosition (accountId : string)
    (networkAnalysis : NetworkAnalysis.t) : num :=
  match find (fun n => NetworkNode.accountId n =? accountId)%string
          (NetworkAnalysis.nodes networkAnalysis) with
  | None => Num.zero
  | Some node =>
      let connections := zlength (NetworkNode.connections node) in
      let totalNodes := zlength (NetworkAnalysis.nodes networkAnalysis) in
      let inClusters :=
        count (fun c => smem (Cluster.nodes c) accountId)
          (NetworkAnalysis.clusters networkAnalysis) in
      let centralityScore := (Num.of_Z connections / Num.of_Z totalNodes * Fin 50)%num in
      let bridgeScore := if (1 <? inClusters)%Z then Fin 30 else Num.zero in
      let typeScore :=
        match NetworkNode.type node with source => Fin 20 | _ => Num.zero end in
      (centralityScore + bridgeScore + typeScore)%num
  end.

End AnalysisEngine.

(* ================================================================== *)
(** * Vocabulary of the properties *)
(* ================================================================== *)

(** [x] is a number of the closed interval [[0,1]]. *)
Definition in_unit (x : num) : Prop :=
  match x with
  | Fin q => (0 <= q /\ q <= 1)%Q
  | _ => False
  end.

(** [x] is a non-negative number, [Infinity] included. *)
Definition nonneg (x : num) : Prop :=
  match x with
  | Fin q => (0 <= q)%Q
  | PInf => True
  | _ => False
  end.

(** The order [human < uncertain < cyborg < bot] *)
Definition Classification_rank (c : Classification) : nat :=
  match c with
  | human => 0
  | uncertain => 1
  | cyborg => 2
  | bot => 3
  end.

Definition is_source (n : NetworkNode.t) : bool :=
  match NetworkNode.type n with
  | source => true
  | _ => false
  end.

(** The author of the original post of a dataset *)
Definition author_of (spreadData : SpreadData.t) : string :=
  Tweet.authorId (SpreadData.originalTweet spreadData).

(** [x] is a finite non-negative number. *)
Definition finite_nonneg (x : num) : Prop :=
  match x with
  | Fin q => (0 <= q)%Q
  | _ => False
  end.

(** [x] is NaN or satisfies [P]. *)
Definition nan_or (P : num -> Prop) (x : num) : Prop := x = NaN \/ P x.

(** The node map while [buildNetworkGraph] runs: the source node of the
    author first, then spreaders only. *)
Definition map_ok (author : string) (m : list (string * NetworkNode.t)) : Prop :=
  exists n0 rest,
    m = (author, n0) :: rest /\
    NetworkNode.type n0 = source /\
    NetworkNode.influence n0 = 100%Z /\
    NetworkNode.accountId n0 = author /\
    Forall (fun kv => NetworkNode.type (snd kv) = spreader) rest.

Definition edges_ok (author : string) (edges : list NetworkEdge.t) : Prop :=
  Forall (fun e => NetworkEdge.target e = author) edges.

(** What holds of every cluster: at least three members, a finite
    non-negative coherence, and a suspicion score that is NaN or in the
    unit interval. *)
Definition cluster_ok (c : Cluster.t) : Prop :=
  3 <= length (Cluster.nodes c) /\
  finite_nonneg (Cluster.coherence c) /\
  nan_or in_unit (Cluster.suspicionScore c).

(** What the specification asks of every cluster. *)
Definition cluster_in_bounds (c : Cluster.t) : Prop :=
  3 <= length (Cluster.nodes c) /\
  in_unit (Cluster.coherence c) /\
  in_unit (Cluster.suspicionScore c).

(** ** Example data *)

(** A world whose clock stands still. *)
Definition still_world (now : Z) : World :=
  mkWorld (fun _ => now) 0 (fun _ => "k3j9x0q1z"%string) 0 (fun _ => 0%Z).

Definition tweet_of (author : string) (createdAt : Z) : Tweet.t :=
  Tweet.mk "tweet-1" author None "original post" createdAt.

Definition retweet_by (author : string) (createdAt : Z) : Retweet.t :=
  Retweet.mk ("rt-" ++ author) author None None createdAt 1.

Definition quote_by (author : string) (createdAt : Z) : Quote.t :=
  Quote.mk ("qt-" ++ author) author None "look at this" createdAt 1.

(** Two accounts that each repost and quote the post of A. *)
Definition parallel_edges : SpreadData.t :=
  SpreadData.mk (tweet_of "A" 0)
    [retweet_by "B" 10; retweet_by "C" 20] [quote_by "B" 30; quote_by "C" 40] [] [] [].

(** Two reposts in the same millisecond as the post. *)
Definition simultaneous : SpreadData.t :=
  SpreadData.mk (tweet_of "A" 0) [retweet_by "B" 0; retweet_by "C" 0] [] [] [] [].

(** The author reposts their own post. *)
Definition self_repost : SpreadData.t :=
  SpreadData.mk (tweet_of "A" 0) [retweet_by "A" 5; retweet_by "B" 10] [] [] [] [].

(** A post nobody reacted to. *)
Definition lonely : SpreadData.t :=
  SpreadData.mk (tweet_of "A" 0) [] [] [] [] [].

Definition timeline_event (type : TimelineType) (timestamp : Z) (account : string)
  : TimelineEvent.t :=
  TimelineEvent.mk "e" type timestamp account
    (match type with original => 0 | _ => 1 end)%Z.

(** Twelve events, three in each of four consecutive 5-minute windows. *)
Definition steady_timeline : list TimelineEvent.t :=
  flat_map (fun k =>
      [timeline_event (spread retweet) (300000 * k) "a";
       timeline_event (spread retweet) (300000 * k + 1000) "b";
       timeline_event (spread quote) (300000 * k + 2000) "c"])
    [0; 1; 2; 3]%Z.

Definition is_mixed (p : CoordinationPattern.t) : Prop :=
  CoordinationPattern.type p = PatternType.mixed.

(** The number of accounts of [q] that [p] has too: the overlap
    [mergePatterns] computes before any merge into [p]. *)
Definition overlap (p q : CoordinationPattern.t) : nat :=
  length (filter (fun a => smem (CoordinationPattern.accounts p) a)
            (CoordinationPattern.accounts q)).

(** No pattern shares two accounts or more with a later one. *)
Definition low_overlap (patterns : list CoordinationPattern.t) : Prop :=
  ForallOrdPairs (fun p q => overlap p q < 2) patterns.

(** Two pattern lists have the same account sets: every set of accounts
    that is the account set of a pattern of one list is the account set of a
    pattern of the other. *)
Definition same_set (s t : list string) : Prop := forall a, In a s <-> In a t.

Definition same_account_sets (l1 l2 : list CoordinationPattern.t) : Prop :=
  (forall p, In p l1 ->
     exists q, In q l2 /\ same_set (CoordinationPattern.accounts p) (CoordinationPattern.accounts q))
  /\
  (forall q, In q l2 ->
     exists p, In p l1 /\ same_set (CoordinationPattern.accounts p) (CoordinationPattern.accounts q)).

Definition pattern_of (accounts : list string) : CoordinationPattern.t :=
  CoordinationPattern.mk accounts PatternType.temporal (Fin (1 # 2)) []
    (TimeWindow.mk (Fin 0) (Fin 1000)).

(** Three patterns: the third overlaps the first, and once it is merged into
    the first, the second overlaps the result. *)
Definition chained_patterns : list CoordinationPattern.t :=
  [pattern_of ["a"; "b"; "c"]; pattern_of ["c"; "d"; "e"]; pattern_of ["a"; "b"; "d"; "e"]]%string.

(** Two patterns with one account in common. *)
Definition apart_patterns : list CoordinationPattern.t :=
  [pattern_of ["a"; "b"; "c"]; pattern_of ["c"; "d"; "e"]]%string.

Definition activity (id account target : string) (timestamp : Z) : SpreadEvent.t :=
  SpreadEvent.mk id retweet account target timestamp 1 None.

(** Three accounts that act within a minute, each on a post of its own. *)
Definition synchronous_activities : list SpreadEvent.t :=
  [activity "1" "a" "t1" 0; activity "2" "b" "t2" 20000; activity "3" "c" "t3" 40000]%string.

(** [k] is the account of one of the activities. *)
Definition acts (activities : list SpreadEvent.t) (k : string) : Prop :=
  exists a, In a activities /\ SpreadEvent.sourceAccountId a = k.

(** The cluster holds the account of one of the activities. *)
Definition cluster_acts (activities : list SpreadEvent.t) (c : NetworkCluster.t) : Prop :=
  exists a, In a activities /\
            smem (NetworkCluster.accounts c) (SpreadEvent.sourceAccountId a) = true.

(** What the deduplication key is made of. *)
Definition same_slot (a b : Anomaly.t) : Prop :=
  Anomaly.type a = Anomaly.type b /\
  Anomaly.affectedAccounts a = Anomaly.affectedAccounts b /\
  (Anomaly.timestamp a / 60000 = Anomaly.timestamp b / 60000)%Z.

(** What the specification takes the key to be made of: the accounts count
    as a set. *)
Definition same_slot_as_sets (a b : Anomaly.t) : Prop :=
  Anomaly.type a = Anomaly.type b /\
  same_set (Anomaly.affectedAccounts a) (Anomaly.affectedAccounts b) /\
  (Anomaly.timestamp a / 60000 = Anomaly.timestamp b / 60000)%Z.

(** The entries of the deduplication map carry their own key and come from
    the anomalies processed so far, and every processed anomaly has an entry
    that is at least as severe. *)
Definition dedup_ok (processed : list Anomaly.t) (m : list (string * Anomaly.t)) : Prop :=
  NoDup (JS.keys m) /\
  (forall k a, In (k, a) m -> AnomalyDetector.anomaly_key a = k /\ In a processed) /\
  (forall x, In x processed ->
     exists y, In (AnomalyDetector.anomaly_key x, y) m /\
               (AnomalyDetector.getSeverityScore x <= AnomalyDetector.getSeverityScore y)%Z).

(** One repost and one quote at time 0, then nine reposts and nine quotes
    eleven minutes later, by the accounts a and b in opposite orders. *)
Definition swapped_timeline : list TimelineEvent.t :=
  [timeline_event (spread retweet) 0 "p"; timeline_event (spread quote) 0 "q"]
  ++ map (timeline_event (spread retweet) 700000)
       ["a"; "b"; "a"; "b"; "a"; "b"; "a"; "b"; "a"]%string
  ++ map (timeline_event (spread quote) 700000)
       ["b"; "a"; "b"; "a"; "b"; "a"; "b"; "a"; "b"]%string.

(** The action returns in every world. *)
Definition total {A} (m : M A) : Prop := forall w, exists a w', m w = Ok (a, w').

(** A cluster without its id and its time-of-day histograms, which are
    drawn from the clock, the random source and the time zone. *)
Definition cluster_core (c : Cluster.t)
  : list string * num * num * num * num * num :=
  (Cluster.nodes c, Cluster.coherence c,
   ActivityPattern.contentSimilarity (Cluster.activityPattern c),
   ActivityPattern.coordinationScore (Cluster.activityPattern c),
   ActivityPattern.burstiness (Cluster.activityPattern c),
   Cluster.suspicionScore c).

(** What two runs on one dataset agree on. *)
Definition same_analysis (r1 r2 : FullAnalysis.t) : Prop :=
  let n1 := FullAnalysis.network r1 in
  let n2 := FullAnalysis.network r2 in
  NetworkAnalysis.nodes n1 = NetworkAnalysis.nodes n2 /\
  NetworkAnalysis.edges n1 = NetworkAnalysis.edges n2 /\
  map cluster_core (NetworkAnalysis.clusters n1)
  = map cluster_core (NetworkAnalysis.clusters n2) /\
  NetworkAnalysis.influencers n1 = NetworkAnalysis.influencers n2 /\
  NetworkAnalysis.propagationPaths n1 = NetworkAnalysis.propagationPaths n2 /\
  NetworkAnalysis.metrics n1 = NetworkAnalysis.metrics n2 /\
  FullAnalysis.coordination r1 = FullAnalysis.coordination r2.

(** [runFullAnalysis] called twice in a row on the same arguments *)
Definition run_twice (spreadData : SpreadData.t) (analysisId : string)
  : M (FullAnalysis.t * FullAnalysis.t) :=
  (first <- AnalysisEngine.runFullAnalysis spreadData analysisId ;;
   second <- AnalysisEngine.runFullAnalysis spreadData analysisId ;;
   ret (first, second))%monad.

Definition msPerDay : Z := 86400000.

(** An account created at time 0 with 2000 followers and 500 posts. *)
Definition alice : Account.t :=
  Account.mk "u1" "alice" "Alice" 0 2000 100 500 false
    (Some "writes about gardening"%string) (Some "Paris"%string)
    (Some "https://img.example/alice.png"%string).

(** A post of alice nobody reacted to. *)
Definition alice_alone : SpreadData.t :=
  SpreadData.mk (Tweet.mk "tweet-1" "u1" (Some alice) "original post" msPerDay)
    [] [] [] [] [].

(** A world where the first run happens when alice's account is one day
    old and the second run when it is 2000 days old: a run on [alice_alone]
    reads the clock four times. *)
Definition later_world : World :=
  mkWorld (fun k => if (k <? 4)%nat then msPerDay else (2000 * msPerDay)%Z) 0
    (fun _ => "k3j9x0q1z"%string) 0 (fun _ => 0%Z).

(** ** Vocabulary of the further properties *)

(** [x] is neither NaN nor an infinity. *)
Definition is_finite (x : num) : Prop :=
  match x with
  | Fin _ => True
  | _ => False
  end.

(** [x] is a number between 0 and [hi]. *)
Definition in_range (hi : Q) (x : num) : Prop :=
  match x with
  | Fin q => (0 <= q /\ q <= hi)%Q
  | _ => False
  end.

(** The names of the seven signals, in the order they are pushed. *)
Definition signal_types : list string :=
  ["account_age"; "tweet_frequency"; "follow_ratio"; "profile_completeness";
   "default_image"; "username_pattern"; "engagement_rate"]%string.

(** What holds of every bot detection result. *)
Definition result_ok (r : BotDetectionResult.t) : Prop :=
  in_unit (BotDetectionResult.botProbability r) /\
  in_unit (BotDetectionResult.confidence r) /\
  map BotSignal.type (BotDetectionResult.signals r) = signal_types /\
  Forall (fun s => in_unit (BotSignal.value s)) (BotDetectionResult.signals r) /\
  BotDetectionResult.classification r
  = BotDetector.classify (BotDetectionResult.botProbability r).

(** The world after [k] more readings of the clock. *)
Definition advance (k : nat) (w : World) : World :=
  mkWorld (clock w) (k + ticks w) (random w) (draws w) (tzOffset w).

(** Thirteen features, all finite. *)
Definition sample_features : list num :=
  [Fin 2; Fin (1 # 2); Fin (1 # 5); Fin (1 # 100); Fin 1; Fin 1;
   Fin (1 # 10); Fin (1 # 10); Fin (1 # 10); Fin (3 # 10); Fin 0; Fin (1 # 5); Fin (3 # 10)].

(** ** The interaction graph in closed form *)

(** The interactions of a dataset as edges towards the author of the post:
    the reposts with weight 1, then the quotes with weight 2, then the
    replies with weight 1.5. *)
Definition interaction_edges (spreadData : SpreadData.t) : list NetworkEdge.t :=
  let author := author_of spreadData in
  map (fun rt => NetworkEdge.mk (Retweet.authorId rt) author retweet (Fin 1)
                   (Retweet.createdAt rt))
    (SpreadData.retweets spreadData)
  ++ map (fun qt => NetworkEdge.mk (Quote.authorId qt) author quote (Fin 2)
                      (Quote.createdAt qt))
       (SpreadData.quotes spreadData)
  ++ map (fun rp => NetworkEdge.mk (Reply.authorId rp) author reply (Fin (3 # 2))
                      (Reply.createdAt rp))
       (SpreadData.replies spreadData).

(** The accounts that interacted, each once, in the order of their first
    interaction. *)
Definition interacting (spreadData : SpreadData.t) : list string :=
  suniq (map NetworkEdge.source (interaction_edges spreadData)).

(** The interacting accounts other than the author. *)
Definition spreaders_of (spreadData : SpreadData.t) : list string :=
  filter (fun k => negb (String.eqb k (author_of spreadData))) (interacting spreadData).

(** The time of the first edge that leaves [k]. *)
Definition first_time (edges : list NetworkEdge.t) (k : string) : Z :=
  match find_first (fun e => String.eqb (NetworkEdge.source e) k) edges with
  | Some e => NetworkEdge.timestamp e
  | None => 0%Z
  end.

Definition spreader_node (author : string) (edges : list NetworkEdge.t) (k : string)
  : NetworkNode.t :=
  NetworkNode.mk ("node-" ++ k) k spreader 0 [author] (first_time edges k).

(** A star: the author, connected to every account that interacted, and
    these accounts, each connected to the author alone. *)
Definition star_nodes (spreadData : SpreadData.t) : list NetworkNode.t :=
  let author := author_of spreadData in
  NetworkNode.mk ("node-" ++ author) author source 100 (interacting spreadData)
    (Tweet.createdAt (SpreadData.originalTweet spreadData))
  :: map (spreader_node author (interaction_edges spreadData)) (spreaders_of spreadData).

(** [addNodeAndEdge] called with the fields of an edge *)
Definition add_edge (st : list (string * NetworkNode.t) * list NetworkEdge.t)
    (e : NetworkEdge.t) : list (string * NetworkNode.t) * list NetworkEdge.t :=
  NetworkAnalyzer.addNodeAndEdge st (NetworkEdge.source e) (NetworkEdge.target e)
    (NetworkEdge.type e) (NetworkEdge.timestamp e) (NetworkEdge.weight e).

(** A node with another list of connections *)
Definition with_connections (n : NetworkNode.t) (connections : list string) : NetworkNode.t :=
  NetworkNode.mk (NetworkNode.id n) (NetworkNode.accountId n) (NetworkNode.type n)
    (NetworkNode.influence n) connections (NetworkNode.timestamp n).

(** The adjacency of the star *)
Definition star_adjacency (spreadData : SpreadData.t) : Traversal.adjacency :=
  (author_of spreadData, interacting spreadData)
  :: map (fun k => (k, [author_of spreadData])) (spreaders_of spreadData).

(** [connect] and [adj_add] in one: the set of connections a value of the
    map holds under [key] receives [other]. *)
Definition link {V} (conn : V -> list string) (upd : V -> list string -> V)
    (m : list (string * V)) (key other : string) : list (string * V) :=
  match sget m key with
  | Some v => sset m key (upd v (sadd (conn v) other))
  | None => m
  end.

Definition link_both {V} (conn : V -> list string) (upd : V -> list string -> V)
    (m : list (string * V)) (e : NetworkEdge.t) : list (string * V) :=
  link conn upd (link conn upd m (NetworkEdge.source e) (NetworkEdge.target e))
    (NetworkEdge.target e) (NetworkEdge.source e).

(** A map with the entry of the author first, then one entry for each key
    of [ks]. *)
Definition star_map {V} (author : string) (va : V) (F : string -> V) (ks : list string)
  : list (string * V) :=
  (author, va) :: map (fun k => (k, F k)) ks.

(** ** The influencers in closed form *)

(** [degreeMap.get(node.accountId) || 0] *)
Definition degree_of (degreeMap : list (string * Z)) (node : NetworkNode.t) : Z :=
  match sget degreeMap (NetworkNode.accountId node) with
  | Some d => d
  | None => 0%Z
  end.

(** [reachMap.get(node.accountId) || { direct: 0, indirect: 0, depth: 0 }] *)
Definition reach_of (reachMap : list (string * Reach.t)) (node : NetworkNode.t) : Reach.t :=
  match sget reachMap (NetworkNode.accountId node) with
  | Some r => r
  | None => Reach.mk 0 0 0
  end.

Definition score_of (nodes : list NetworkNode.t) (edges : list NetworkEdge.t)
    (reachMap : list (string * Reach.t)) (node : NetworkNode.t) : num :=
  NetworkAnalyzer.calculateInfluenceScore node
    (degree_of (NetworkAnalyzer.calculateDegrees nodes edges) node)
    (reach_of reachMap node) edges.

(** The entry [identifyInfluencers] pushes for a node *)
Definition influencer_of (nodes : list NetworkNode.t) (edges : list NetworkEdge.t)
    (reachMap : list (string * Reach.t)) (spreadData : SpreadData.t)
    (node : NetworkNode.t) : InfluencerNode.t :=
  InfluencerNode.mk (NetworkNode.accountId node) (score_of nodes edges reachMap node)
    (Reach.direct (reach_of reachMap node)) (Reach.indirect (reach_of reachMap node))
    (Reach.depth (reach_of reachMap node))
    (NetworkAnalyzer.determineInfluencerRole node spreadData).

(** The role of an account: the author is the originator, everybody else an
    amplifier. *)
Definition star_role (spreadData : SpreadData.t) (accountId : string) : InfluencerRole :=
  if String.eqb accountId (author_of spreadData) then originator else amplifier.

(** ** Windows of a timeline *)

(** The start of the window of [windowSize] milliseconds an event falls in *)
Definition window_start (windowSize : Z) (e : TimelineEvent.t) : Z :=
  (TimelineEvent.timestamp e / windowSize * windowSize)%Z.

(** The event happens in the [windowSize] milliseconds from [k] on. *)
Definition in_window (windowSize k : Z) (e : TimelineEvent.t) : bool :=
  ((k <=? TimelineEvent.timestamp e) && (TimelineEvent.timestamp e <? k + windowSize))%Z.

(** A volume map of a timeline: its keys are distinct multiples of the
    window size, each with the number of events of its window, which is not
    zero. *)
Definition volumes_ok (windowSize : Z) (timeline : list TimelineEvent.t)
    (volumeMap : list (Z * Z)) : Prop :=
  NoDup (JS.keys volumeMap) /\
  Forall (fun kv =>
            (fst kv mod windowSize = 0)%Z /\
            snd kv = count (in_window windowSize (fst kv)) timeline /\
            (1 <= snd kv)%Z) volumeMap.

(** What holds of every anomaly [detectVolumeSpikes] reports. *)
Definition spike_ok (a : Anomaly.t) : Prop :=
  Anomaly.type a = spike /\
  Anomaly.severity a <> low /\
  match AnomalyMetrics.confidence (Anomaly.metrics a) with
  | Fin q => (3 # 5 < q /\ q <= 99 # 100)%Q
  | _ => False
  end.

(** [o || 0] for the result of a lookup *)
Definition value_of (o : option Z) : Z :=
  match o with
  | Some v => v
  | None => 0%Z
  end.

(** A window of [splitIntoWindows]: it has a first event, and no event of
    the window is more than [windowSize] milliseconds after it. *)
Definition window_ok (windowSize : Z) (window : list TimelineEvent.t) : Prop :=
  exists first rest,
    window = first :: rest /\
    Forall (fun e => (TimelineEvent.timestamp e - TimelineEvent.timestamp first
                      <= windowSize)%Z) window.

(** The state of the loop of [splitIntoWindows]: the current window starts
    at [windowStart], which is the time of the next event while the window
    is empty. *)
Definition window_state (windowSize : Z) (todo currentWindow : list TimelineEvent.t)
    (windowStart : Z) : Prop :=
  match currentWindow with
  | [] => match todo with
          | [] => True
          | e :: _ => windowStart = TimelineEvent.timestamp e
          end
  | first :: _ =>
      TimelineEvent.timestamp first = windowStart /\
      Forall (fun e => (TimelineEvent.timestamp e - windowStart <= windowSize)%Z)
        currentWindow
  end.

(** What [compareBehavior] answers on two windows of [rate1] and [rate2]
    events. *)
Definition rate_verdict (rate1 rate2 : Z) (r : result (option BehaviorChange.t)) : Prop :=
  match r with
  | Ok None => (rate2 - rate1 <= 2 * Z.max rate1 1)%Z
  | Ok (Some change) =>
      (2 * Z.max rate1 1 < rate2 - rate1)%Z /\
      BehaviorChange.severity change
      = (if (5 * Z.max rate1 1 <? rate2 - rate1)%Z then high else medium)
  | Throw _ => False
  end.

(** An event of the original post by [author], or an event of depth 1. *)
Definition first_hand (author : string) (e : TimelineEvent.t) : Prop :=
  (TimelineEvent.cascadeDepth e = 0%Z /\ TimelineEvent.accountId e = author) \/
  TimelineEvent.cascadeDepth e = 1%Z.

(** A star pattern around [author] *)
Definition star_around (author : string) (a : Anomaly.t) : Prop :=
  Anomaly.type a = network /\
  Anomaly.severity a = high /\
  Anomaly.affectedAccounts a = [author] /\
  AnomalyMetrics.confidence (Anomaly.metrics a) = Fin (9 # 10).

(** A network anomaly is a star pattern around [author]. *)
Definition network_is_star (author : string) (a : Anomaly.t) : Prop :=
  Anomaly.type a = network -> star_around author a.

(** ** Groups of activities *)

(** A time group: its key is the time of its first activity, and every
    activity of the group is within the threshold of 3 minutes of it. *)
Definition group_ok (kv : Z * list SpreadEvent.t) : Prop :=
  exists first rest,
    snd kv = first :: rest /\
    SpreadEvent.timestamp first = fst kv /\
    Forall (fun a => (Z.abs (SpreadEvent.timestamp a - fst kv)
                      <= CoordinationDetector.timeWindowThreshold)%Z) (snd kv).

(** Two keys of time groups are more than the threshold apart. *)
Definition anchors_apart (k1 k2 : Z) : Prop :=
  (CoordinationDetector.timeWindowThreshold < Z.abs (k1 - k2))%Z.

(** The event has a text, and the text is not empty. *)
Definition has_content (a : SpreadEvent.t) : Prop :=
  BotDetector.falsy (SpreadEvent.content a) = false.

(** The accounts of the activities, with repetitions *)
Definition accounts_in (activities : list SpreadEvent.t) : list string :=
  map SpreadEvent.sourceAccountId activities.

(** What holds of the accounts of every coordination pattern: at least
    three, no account twice, each the account of an activity. *)
Definition pattern_ok (activities : list SpreadEvent.t) (p : CoordinationPattern.t) : Prop :=
  NoDup (CoordinationPattern.accounts p) /\
  3 <= length (CoordinationPattern.accounts p) /\
  incl (CoordinationPattern.accounts p) (accounts_in activities).

(** A pattern of [merged] lists every account of [p]. *)
Definition covered (p : CoordinationPattern.t) (merged : list CoordinationPattern.t) : Prop :=
  exists q, In q merged /\
            incl (CoordinationPattern.accounts p) (CoordinationPattern.accounts q).

(** ** Activities on one post *)

(** All the activities react to the same post. *)
Definition same_target (activities : list SpreadEvent.t) : Prop :=
  forall a b, In a activities -> In b activities ->
              SpreadEvent.targetTweetId a = SpreadEvent.targetTweetId b.

(** The accounts of the activities other than [k], each once *)
Definition others (activities : list SpreadEvent.t) (k : string) : list string :=
  suniq (filter (fun x => negb (String.eqb x k)) (accounts_in activities)).

(** Every account linked to every other account *)
Definition complete_adjacency (activities : list SpreadEvent.t) (processed : list SpreadEvent.t)
  : Traversal.adjacency :=
  map (fun k => (k, others activities k)) (suniq (accounts_in processed)).

(** The pattern lists the accounts of the activities, all of them. *)
Definition lists_everyone (activities : list SpreadEvent.t) (q : CoordinationPattern.t) : Prop :=
  forall k, In k (CoordinationPattern.accounts q) <-> In k (accounts_in activities).

(** Three accounts repost the post of A, hours apart. *)
Definition three_reposts : SpreadData.t :=
  SpreadData.mk (tweet_of "A" 0)
    [retweet_by "B" 3600000; retweet_by "C" 7200000; retweet_by "D" 10800000] [] [] [] [].

(** Two activities of one account *)
Definition lone_activities : list SpreadEvent.t :=
  [activity "1" "a" "t1" 0; activity "2" "a" "t1" 1000]%string.

(** Three accounts that repost one post, an hour apart each *)
Definition one_post_activities : list SpreadEvent.t :=
  [activity "1" "a" "t1" 0; activity "2" "b" "t1" 3600000;
   activity "3" "c" "t1" 7200000]%string.

(** ** The accounts of a dataset *)

(** The author objects a dataset carries, in the order post, reposts,
    quotes and replies *)
Definition present (o : option Account.t) : list Account.t :=
  match o with Some a => [a] | None => [] end.

Definition authors_of (spreadData : SpreadData.t) : list Account.t :=
  flat_map present
    (Tweet.author (SpreadData.originalTweet spreadData)
     :: map Retweet.author (SpreadData.retweets spreadData)
     ++ map Quote.author (SpreadData.quotes spreadData)
     ++ map Reply.author (SpreadData.replies spreadData)).

(** The last author object with the id [id] *)
Definition last_author (spreadData : SpreadData.t) (id : string) : option Account.t :=
  find (fun a => Account.id a =? id)%string (rev (authors_of spreadData)).

(** ** The scores of an account *)

(** The interactions of an account, counted on the edges *)
Definition interactions_of (context : SpreadData.t) (k : string) : Z :=
  count (fun e => NetworkEdge.source e =? k)%string (interaction_edges context).

(** The pairs of an action of [accountId] and of an event that comes later
    and deeper in the cascade *)
Definition following_pairs (accountId : string) (timeline : list TimelineEvent.t) : Z :=
  Zsum (map (fun action => count (AnalysisEngine.follows action) timeline)
          (filter (fun e => TimelineEvent.accountId e =? accountId)%string timeline)).

(** A dataset that carries the timeline [timeline] *)
Definition with_timeline (timeline : list TimelineEvent.t) : SpreadData.t :=
  SpreadData.mk (tweet_of "A" 0) [] [] [] timeline [].

(** The network position of an account in the star: the share of the nodes
    it is connected to, times 50, and 20 more for the author. *)
Definition star_position (spreadData : SpreadData.t) (accountId : string) : Q :=
  let n := inject_Z (zlength (star_nodes spreadData)) in
  if (accountId =? author_of spreadData)%string
  then (inject_Z (zlength (interacting spreadData)) / n * 50 + 20)%Q
  else if smem (spreaders_of spreadData) accountId then (1 / n * 50)%Q
  else 0%Q.

(** [x] is the number [q]. *)
Definition is_number (x : num) (q : Q) : Prop :=
  match x with
  | Fin p => (p == q)%Q
  | _ => False
  end.

(** ** The clustering coefficient of the star *)

(** Two neighbours of the author are linked when one of them is the author:
    the coefficient is 0 unless the author reacted to the post and has a
    second neighbour, and then 2 over the number of neighbours. *)
Definition star_clustering (spreadData : SpreadData.t) : Q :=
  if smem (interacting spreadData) (author_of spreadData)
     && (2 <=? length (interacting spreadData))%nat
  then (2 / inject_Z (zlength (interacting spreadData)))%Q
  else 0%Q.

(** ** The time-of-day histograms *)

(** A histogram of [size] bins: every instant is counted in one bin, and
    each bin is its count divided by the number of instants, a number
    between 0 and 1; on no instant at all each bin is 0/0. *)
Definition histogram_ok (timestamps : list Z) (size : nat) (bins : list num) : Prop :=
  exists counts : list Z,
    length counts = size /\
    Forall (fun c => 0 <= c)%Z counts /\
    Zsum counts = zlength timestamps /\
    bins = map (fun c => Num.of_Z c / Num.of_nat (length timestamps))%num counts /\
    match timestamps with
    | [] => Forall (fun x => x = NaN) bins
    | _ :: _ => Forall in_unit bins
    end.

(** ** The confidence of a pattern *)

(** The confidence of [p] is NaN or a number between 0 and 1. *)
Definition confidence_ok (p : CoordinationPattern.t) : Prop :=
  nan_or in_unit (CoordinationPattern.confidence p).

(** A running total of [n] numbers of the unit interval *)
Definition running (total : num) (n : Z) : Prop :=
  (0 <= n)%Z /\ exists t, total = Fin t /\ (0 <= t)%Q /\ (t <= inject_Z n)%Q.

(** ** Two runs on one dataset *)

(** The two worlds have the same time zone. *)
Definition same_zone (w1 w2 : World) : Prop := forall t, tzOffset w1 t = tzOffset w2 t.

(** Two clusters are the same but for their ids, which are drawn from the
    clock and the random source. *)
Definition same_cluster (c1 c2 : Cluster.t) : Prop :=
  Cluster.nodes c1 = Cluster.nodes c2 /\
  Cluster.coherence c1 = Cluster.coherence c2 /\
  Cluster.activityPattern c1 = Cluster.activityPattern c2 /\
  Cluster.suspicionScore c1 = Cluster.suspicionScore c2.

(** The fields of an anomaly that no detector takes from the clock *)
Definition anomaly_core (a : Anomaly.t)
  : AnomalyType * Severity * string * list string * AnomalyMetrics.t :=
  (Anomaly.type a, Anomaly.severity a, Anomaly.description a,
   Anomaly.affectedAccounts a, Anomaly.metrics a).

(** Two anomalies are the same but for the clock readings they carry: the
    id of a pattern anomaly ends with the time of the run, and the timestamp
    of a network anomaly is the time of the run. *)
Definition same_anomaly (a b : Anomaly.t) : Prop :=
  anomaly_core a = anomaly_core b /\
  (Anomaly.type a <> pattern -> Anomaly.id a = Anomaly.id b) /\
  (Anomaly.type a <> network -> Anomaly.timestamp a = Anomaly.timestamp b).

(** The same anomaly of a detector other than the network detector: the
    timestamps are equal, and so are the deduplication keys. *)
Definition tied (a b : Anomaly.t) : Prop :=
  same_anomaly a b /\ Anomaly.type a <> network.

Definition tied_entries (kv1 kv2 : string * Anomaly.t) : Prop :=
  fst kv1 = fst kv2 /\ tied (snd kv1) (snd kv2).

(** The signals that are computed without a reading of the clock: all but
    the first two, account_age and tweet_frequency. *)
Definition clock_free_signals (r : BotDetectionResult.t) : list BotSignal.t :=
  skipn 2 (BotDetectionResult.signals r).

(** Two results for the same account, with the same clock-free signals *)
Definition same_account (r1 r2 : BotDetectionResult.t) : Prop :=
  BotDetectionResult.accountId r1 = BotDetectionResult.accountId r2 /\
  clock_free_signals r1 = clock_free_signals r2.

(* ================================================================== *)
(** * Facts about numbers *)
(* ================================================================== *)

(* Rational arithmetic stays folded under [simpl]. *)
Arguments Qred : simpl never.
Arguments Qplus : simpl never.
Arguments Qmult : simpl never.
Arguments Qdiv : simpl never.
Arguments Qopp : simpl never.
Arguments Qabs : simpl never.
Arguments Qcompare : simpl never.
Arguments inject_Z : simpl never.
Arguments Num.Qsign : simpl never.
Arguments Num.Qsqrt : simpl never.

Module NumFacts.

Lemma Qred_zero (a : Q) : (a == 0)%Q -> Qred a = 0%Q.
Proof. intro H. apply (Qred_complete a 0) in H. exact H. Qed.

Lemma cmp_Fin (a b : Q) : Num.cmp (Fin a) (Fin b) = Some (a ?= b)%Q.
Proof. reflexivity. Qed.

Lemma leb_Fin (a b : Q) : Num.leb (Fin a) (Fin b) = true <-> (a <= b)%Q.
Proof.
  unfold Num.leb. rewrite cmp_Fin. rewrite Qle_alt.
  destruct (a ?= b)%Q; split; intro H; try reflexivity; try discriminate.
  exfalso. apply H. reflexivity.
Qed.

Lemma ltb_Fin (a b : Q) : Num.ltb (Fin a) (Fin b) = true <-> (a < b)%Q.
Proof.
  unfold Num.ltb. rewrite cmp_Fin. rewrite Qlt_alt.
  destruct (a ?= b)%Q; split; intro H; try reflexivity; try discriminate.
Qed.

Lemma leb_Fin_false (a b : Q) : Num.leb (Fin a) (Fin b) = false <-> (b < a)%Q.
Proof.
  rewrite <- Bool.not_true_iff_false, leb_Fin. split; intro H.
  - apply Qnot_le_lt. exact H.
  - apply Qlt_not_le. exact H.
Qed.

Lemma ltb_Fin_false (a b : Q) : Num.ltb (Fin a) (Fin b) = false <-> (b <= a)%Q.
Proof.
  rewrite <- Bool.not_true_iff_false, ltb_Fin. split; intro H.
  - apply Qnot_lt_le. exact H.
  - apply Qle_not_lt. exact H.
Qed.

Lemma Qsign_Lt (q : Q) : Num.Qsign q = Lt <-> (q < 0)%Q.
Proof.
  unfold Num.Qsign, Qlt. simpl. rewrite Z.mul_1_r. apply Z.compare_lt_iff.
Qed.

Lemma Qsign_Gt (q : Q) : Num.Qsign q = Gt <-> (0 < q)%Q.
Proof.
  unfold Num.Qsign, Qlt. simpl. rewrite Z.mul_1_r. apply Z.compare_gt_iff.
Qed.

Lemma Qsign_Eq (q : Q) : Num.Qsign q = Eq <-> (q == 0)%Q.
Proof.
  unfold Num.Qsign, Qeq. simpl. rewrite Z.mul_1_r. apply Z.compare_eq_iff.
Qed.

Lemma Qsign_nonneg (q : Q) : (0 <= q)%Q -> Num.Qsign q <> Lt.
Proof. intros H E. apply Qsign_Lt in E. lra. Qed.

Lemma Qsign_pos (q : Q) : (0 < q)%Q -> Num.Qsign q = Gt.
Proof. apply Qsign_Gt. Qed.

Lemma Qred_nonneg (q : Q) : (0 <= q)%Q -> (0 <= Qred q)%Q.
Proof. intro H. rewrite Qred_correct. exact H. Qed.

(** [Math.max(0, y)] is NaN or a non-negative number. *)
Lemma max_zero_nonneg (y : num) : nan_or nonneg (Num.max Num.zero y).
Proof.
  unfold nan_or, Num.max, Num.zero.
  destruct y as [| |b|]; simpl.
  - left. reflexivity.
  - right. simpl. lra.
  - destruct (0 ?= b)%Q eqn:E; right; simpl; try lra.
    apply Qlt_alt in E. lra.
  - right. exact I.
Qed.

Lemma mul_pos_const (x : num) (c : Q) :
  (0 < c)%Q -> nan_or nonneg x -> nan_or nonneg (Num.mul x (Fin c)).
Proof.
  intros Hc [->|Hx]; [left; reflexivity|].
  destruct x as [| |a|]; simpl in Hx; try contradiction; simpl.
  - right. simpl. apply Qred_nonneg. nra.
  - rewrite (Qsign_pos Hc). right. exact I.
Qed.

Lemma add_nonneg (x y : num) :
  nan_or nonneg x -> nan_or nonneg y -> nan_or nonneg (Num.add x y).
Proof.
  intros [->|Hx] [->|Hy]; try (left; reflexivity).
  - left. destruct x; reflexivity.
  - destruct x as [| |a|], y as [| |b|]; simpl in *; try contradiction;
      right; simpl; try exact I.
    apply Qred_nonneg. lra.
Qed.

(** [Math.min(1, x)] of a non-negative [x] is NaN or in the unit interval. *)
Lemma min_one_unit (x : num) : nan_or nonneg x -> nan_or in_unit (Num.min Num.one x).
Proof.
  intros [->|Hx]; [left; reflexivity|].
  destruct x as [| |a|]; simpl in Hx; try contradiction; right.
  - unfold Num.min, Num.one. simpl.
    destruct (1 ?= a)%Q eqn:E; simpl; try lra.
    apply Qgt_alt in E. lra.
  - simpl. lra.
Qed.

(** A quotient of two non-negative numbers is NaN or non-negative. *)
Lemma div_nonneg (a b : Q) :
  (0 <= a)%Q -> (0 <= b)%Q -> nan_or nonneg (Num.div (Fin a) (Fin b)).
Proof.
  intros Ha Hb. simpl.
  destruct (Num.Qsign b) eqn:Eb.
  - destruct (Num.Qsign a) eqn:Ea; simpl.
    + left. reflexivity.
    + exfalso. exact (Qsign_nonneg Ha Ea).
    + right. exact I.
  - exfalso. exact (Qsign_nonneg Hb Eb).
  - right. simpl. apply Qred_nonneg. apply Qsign_Gt in Eb.
    apply Qle_shift_div_l; [exact Eb | lra].
Qed.

(** A quotient by a positive number is finite. *)
Lemma div_pos (a b : Q) :
  (0 <= a)%Q -> (0 < b)%Q -> finite_nonneg (Num.div (Fin a) (Fin b)).
Proof.
  intros Ha Hb. simpl. rewrite (Qsign_pos Hb). simpl.
  apply Qred_nonneg. apply Qle_shift_div_l; [exact Hb | lra].
Qed.

Lemma inject_Z_nonneg (z : Z) : (0 <= z)%Z -> (0 <= inject_Z z)%Q.
Proof. intro H. unfold Qle. simpl. lia. Qed.

Lemma inject_Z_pos (z : Z) : (0 < z)%Z -> (0 < inject_Z z)%Q.
Proof. intro H. unfold Qlt. simpl. lia. Qed.

End NumFacts.

(* ================================================================== *)
(** * BotDetector: classification *)
(* ================================================================== *)

(** C6.  Classification is monotone in the probability: when
    [p1 <= p2], the class of [p1] is not above the class of [p2] in the
    order human < uncertain < cyborg < bot, with the thresholds 0.8, 0.6
    and 0.4. *)
Theorem classify_monotone (p1 p2 : num) :
  Num.leb p1 p2 = true ->
  Classification_rank (BotDetector.classify p1)
  <= Classification_rank (BotDetector.classify p2).
Proof.
  intro Hle.
  destruct p1 as [| |a|], p2 as [| |b|]; try discriminate Hle.
  - (* both -Infinity *) apply Nat.le_refl.
  - (* -Infinity is human *) apply Nat.le_0_l.
  - apply Nat.le_0_l.
  - (* two finite probabilities *)
    apply NumFacts.leb_Fin in Hle.
    unfold BotDetector.classify, Num.geb,
      BotDetector.thresholds.bot, BotDetector.thresholds.cyborg,
      BotDetector.thresholds.uncertain.
    destruct (Num.leb (Fin (4 # 5)) (Fin a)) eqn:Ha1;
      destruct (Num.leb (Fin (4 # 5)) (Fin b)) eqn:Hb1;
      destruct (Num.leb (Fin (3 # 5)) (Fin a)) eqn:Ha2;
      destruct (Num.leb (Fin (3 # 5)) (Fin b)) eqn:Hb2;
      destruct (Num.leb (Fin (2 # 5)) (Fin a)) eqn:Ha3;
      destruct (Num.leb (Fin (2 # 5)) (Fin b)) eqn:Hb3;
      simpl; try lia;
      repeat match goal with
             | H : Num.leb _ _ = true |- _ => apply NumFacts.leb_Fin in H
             | H : Num.leb _ _ = false |- _ => apply NumFacts.leb_Fin_false in H
             end; exfalso; lra.
  - (* Infinity is a bot *)
    change (BotDetector.classify PInf) with bot.
    destruct (BotDetector.classify (Fin a)); simpl; lia.
  - apply Nat.le_refl.
Qed.

Lemma classify_monotone_witness :
  Num.leb (Fin (1 # 2)) (Fin (7 # 10)) = true /\
  Classification_rank (BotDetector.classify (Fin (1 # 2)))
  <= Classification_rank (BotDetector.classify (Fin (7 # 10))).
Proof.
  split; [reflexivity | apply classify_monotone; reflexivity].
Defined.

(** The four classes are all reached, so the order is not trivial. *)
Example classify_values :
  BotDetector.classify (Fin (1 # 10)) = human /\
  BotDetector.classify (Fin (2 # 5)) = uncertain /\
  BotDetector.classify (Fin (3 # 5)) = cyborg /\
  BotDetector.classify (Fin (4 # 5)) = bot /\
  BotDetector.classify NaN = human.
Proof. repeat split. Qed.

(* ================================================================== *)
(** * AnomalyDetector: too few events *)
(* ================================================================== *)

(** C8.  On a timeline of fewer than 10 events, for every analysis id,
    [detectAnomalies] returns the empty list: it does not throw, and it
    does not read the clock. *)
Theorem detectAnomalies_few_events
    (timeline : list TimelineEvent.t) (analysisId : string) (w : World) :
  length timeline < 10 ->
  AnomalyDetector.detectAnomalies timeline analysisId w = Ok ([], w).
Proof.
  intro H. unfold AnomalyDetector.detectAnomalies, AnomalyDetector.minEventsForAnalysis.
  apply Nat.ltb_lt in H. rewrite H. reflexivity.
Qed.

Lemma detectAnomalies_few_events_witness :
  length [TimelineEvent.mk "0" original 0 "A" 0] < 10 /\
  AnomalyDetector.detectAnomalies [TimelineEvent.mk "0" original 0 "A" 0] "analysis-1"
    (mkWorld (fun _ => 0%Z) 0 (fun _ => EmptyString) 0 (fun _ => 0%Z))
  = Ok ([], mkWorld (fun _ => 0%Z) 0 (fun _ => EmptyString) 0 (fun _ => 0%Z)).
Proof.
  split; [simpl; lia | apply detectAnomalies_few_events; simpl; lia].
Defined.

(* ================================================================== *)
(** * Facts about the containers *)
(* ================================================================== *)

Module JSFacts.

Section Keyed.
Variables (K : Type) (keq : K -> K -> bool).
Hypothesis keq_eq : forall a b, keq a b = true <-> a = b.

Lemma keq_refl (a : K) : keq a a = true.
Proof. apply keq_eq. reflexivity. Qed.

Lemma keq_neq (a b : K) : a <> b -> keq a b = false.
Proof.
  intro H. destruct (keq a b) eqn:E; [|reflexivity].
  apply keq_eq in E. contradiction.
Qed.

Lemma mem_In (s : list K) (k : K) : JS.mem keq s k = true <-> In k s.
Proof.
  unfold JS.mem. rewrite existsb_exists. split.
  - intros [x [Hx E]]. apply keq_eq in E. subst. exact Hx.
  - intro H. exists k. split; [exact H | apply keq_refl].
Qed.

Lemma mem_app (s t : list K) (k : K) :
  JS.mem keq (s ++ t) k = JS.mem keq s k || JS.mem keq t k.
Proof. unfold JS.mem. apply existsb_app. Qed.

Lemma mem_add (s : list K) (c k : K) :
  JS.mem keq (JS.add keq s c) k = JS.mem keq s k || keq k c.
Proof.
  unfold JS.add. destruct (JS.mem keq s c) eqn:E.
  - destruct (keq k c) eqn:Ek.
    + apply keq_eq in Ek. subst. rewrite E. reflexivity.
    + rewrite orb_false_r. reflexivity.
  - rewrite mem_app. simpl. rewrite orb_false_r. reflexivity.
Qed.

Lemma add_incl (s : list K) (c : K) : incl s (JS.add keq s c).
Proof.
  unfold JS.add. destruct (JS.mem keq s c); [apply incl_refl | apply incl_appl, incl_refl].
Qed.

Lemma add_In (s : list K) (c x : K) : In x (JS.add keq s c) <-> In x s \/ x = c.
Proof.
  unfold JS.add. destruct (JS.mem keq s c) eqn:E.
  - split; [auto|]. intros [H|H]; [exact H|]. subst. apply mem_In. exact E.
  - rewrite in_app_iff. simpl. intuition.
Qed.

Lemma add_NoDup (s : list K) (c : K) : NoDup s -> NoDup (JS.add keq s c).
Proof.
  intro H. unfold JS.add. destruct (JS.mem keq s c) eqn:E; [exact H|].
  apply NoDup_app; [exact H | repeat constructor; intros [] | ].
  intros x Hx [Hc|[]]. subst.
  apply mem_In in Hx. rewrite Hx in E. discriminate.
Qed.

Lemma fold_add_NoDup (l s : list K) : NoDup s -> NoDup (fold_left (JS.add keq) l s).
Proof.
  revert s. induction l as [|x l IH]; intros s H; simpl; [exact H|].
  apply IH, add_NoDup, H.
Qed.

Lemma uniq_NoDup (l : list K) : NoDup (JS.uniq keq l).
Proof. apply fold_add_NoDup. constructor. Qed.

Lemma fold_add_In (l s : list K) (x : K) :
  In x (fold_left (JS.add keq) l s) <-> In x s \/ In x l.
Proof.
  revert s. induction l as [|y l IH]; intros s; simpl.
  - intuition.
  - rewrite IH, add_In. intuition.
Qed.

Lemma uniq_In (l : list K) (x : K) : In x (JS.uniq keq l) <-> In x l.
Proof. unfold JS.uniq. rewrite fold_add_In. simpl. intuition. Qed.

Lemma mem_uniq (l : list K) (x : K) : JS.mem keq (JS.uniq keq l) x = JS.mem keq l x.
Proof.
  apply eq_true_iff_eq. rewrite !mem_In. apply uniq_In.
Qed.

Lemma fold_add_fresh (l s : list K) :
  NoDup (s ++ l) -> fold_left (JS.add keq) l s = s ++ l.
Proof.
  revert s. induction l as [|x l IH]; intros s H; simpl.
  - symmetry. apply app_nil_r.
  - assert (E : JS.mem keq s x = false).
    { destruct (JS.mem keq s x) eqn:E; [|reflexivity].
      apply mem_In in E. apply NoDup_remove_2 in H.
      exfalso. apply H. apply in_or_app. left. exact E. }
    unfold JS.add at 2. rewrite E.
    rewrite IH; rewrite <- app_assoc; simpl; [reflexivity | exact H].
Qed.

Lemma uniq_id (l : list K) : NoDup l -> JS.uniq keq l = l.
Proof. intro H. unfold JS.uniq. apply (fold_add_fresh l []). exact H. Qed.

Variable V : Type.

Lemma has_get (m : list (K * V)) (k : K) :
  JS.has keq m k = true <-> exists v, JS.get keq m k = Some v.
Proof.
  unfold JS.has. destruct (JS.get keq m k); split; intro H;
    try reflexivity; try discriminate; eauto.
  destruct H as [v H]. discriminate.
Qed.

Lemma get_In_keys (m : list (K * V)) (k : K) (v : V) :
  JS.get keq m k = Some v -> In (k, v) m.
Proof.
  induction m as [|[k' v'] t IH]; simpl; [discriminate|].
  destruct (keq k' k) eqn:E.
  - intro H. injection H as <-. apply keq_eq in E. subst. left. reflexivity.
  - intro H. right. apply IH, H.
Qed.

Lemma get_None_keys (m : list (K * V)) (k : K) :
  JS.get keq m k = None <-> ~ In k (JS.keys m).
Proof.
  induction m as [|[k' v'] t IH]; simpl.
  - intuition.
  - destruct (keq k' k) eqn:E.
    + apply keq_eq in E. subst. split; [discriminate|]. intro H. exfalso. apply H. auto.
    + rewrite IH. split; intro H.
      * intros [H1|H1]; [|contradiction]. subst. rewrite keq_refl in E. discriminate.
      * intro H1. apply H. auto.
Qed.

Lemma set_fresh (m : list (K * V)) (k : K) (v : V) :
  JS.get keq m k = None -> JS.set keq m k v = m ++ [(k, v)].
Proof.
  induction m as [|[k' v'] t IH]; simpl; [reflexivity|].
  destruct (keq k' k); [discriminate|]. intro H. rewrite IH; [reflexivity | exact H].
Qed.

Lemma get_set_same (m : list (K * V)) (k : K) (v : V) :
  JS.get keq (JS.set keq m k v) k = Some v.
Proof.
  induction m as [|[k' v'] t IH]; simpl.
  - rewrite keq_refl. reflexivity.
  - destruct (keq k' k) eqn:E; simpl; rewrite E; [reflexivity | exact IH].
Qed.

Lemma get_set_other (m : list (K * V)) (k k' : K) (v : V) :
  k <> k' -> JS.get keq (JS.set keq m k v) k' = JS.get keq m k'.
Proof.
  intro Hne. induction m as [|[k0 v0] t IH]; simpl.
  - rewrite keq_neq; [reflexivity | exact Hne].
  - destruct (keq k0 k) eqn:E; simpl.
    + apply keq_eq in E. subst. rewrite (keq_neq Hne). reflexivity.
    + rewrite IH. reflexivity.
Qed.

Lemma keys_set_present (m : list (K * V)) (k : K) (v v0 : V) :
  JS.get keq m k = Some v0 -> JS.keys (JS.set keq m k v) = JS.keys m.
Proof.
  unfold JS.keys. induction m as [|[k' v'] t IH]; simpl; [discriminate|].
  destruct (keq k' k) eqn:E; simpl; [reflexivity|].
  intro H. rewrite IH; [reflexivity | exact H].
Qed.

Lemma set_In (m : list (K * V)) (k : K) (v : V) (e : K * V) :
  In e (JS.set keq m k v) -> e = (k, v) \/ In e m.
Proof.
  induction m as [|[k' v'] t IH]; simpl.
  - intuition.
  - destruct (keq k' k) eqn:E; simpl.
    + apply keq_eq in E. subst. intuition.
    + intros [H|H]; [auto|]. apply IH in H. intuition.
Qed.

End Keyed.

Section Sorting.
Variables (A : Type) (after : A -> A -> bool).

Lemma insert_perm (x : A) (l : list A) : Permutation (x :: l) (JS.insert after x l).
Proof.
  induction l as [|y t IH]; simpl; [apply Permutation_refl|].
  destruct (after x y); [|apply Permutation_refl].
  apply perm_trans with (y :: x :: t); [apply perm_swap|].
  apply perm_skip, IH.
Qed.

Lemma sort_perm (l : list A) : Permutation l (JS.sort after l).
Proof.
  induction l as [|x t IH]; simpl; [apply perm_nil|].
  apply perm_trans with (x :: JS.sort after t); [apply perm_skip, IH|].
  apply insert_perm.
Qed.

Lemma sort_length (l : list A) : length (JS.sort after l) = length l.
Proof. symmetry. apply Permutation_length, sort_perm. Qed.

Lemma sort_In (l : list A) (x : A) : In x (JS.sort after l) <-> In x l.
Proof.
  split; apply Permutation_in; [apply Permutation_sym|]; apply sort_perm.
Qed.

End Sorting.

End JSFacts.

Lemma seq_refl (a : string) : String.eqb a a = true.
Proof. apply String.eqb_refl. Qed.

Lemma smem_In (s : list string) (k : string) : smem s k = true <-> In k s.
Proof. apply JSFacts.mem_In, String.eqb_eq. Qed.

Lemma smem_sadd (s : list string) (c k : string) :
  smem (sadd s c) k = smem s k || String.eqb k c.
Proof. apply JSFacts.mem_add, String.eqb_eq. Qed.

Lemma sadd_In (s : list string) (c x : string) : In x (sadd s c) <-> In x s \/ x = c.
Proof. apply JSFacts.add_In, String.eqb_eq. Qed.

Lemma suniq_NoDup (l : list string) : NoDup (suniq l).
Proof. apply JSFacts.uniq_NoDup, String.eqb_eq. Qed.

Lemma suniq_In (l : list string) (x : string) : In x (suniq l) <-> In x l.
Proof. apply JSFacts.uniq_In, String.eqb_eq. Qed.

Lemma smem_suniq (l : list string) (x : string) : smem (suniq l) x = smem l x.
Proof. apply JSFacts.mem_uniq, String.eqb_eq. Qed.

Lemma suniq_id (l : list string) : NoDup l -> suniq l = l.
Proof. apply JSFacts.uniq_id, String.eqb_eq. Qed.

Section StringMaps.
Variable V : Type.
Implicit Types (m : list (string * V)) (k : string) (v : V).

Lemma sget_In m k v : sget m k = Some v -> In (k, v) m.
Proof. apply JSFacts.get_In_keys, String.eqb_eq. Qed.

Lemma sget_None m k : sget m k = None <-> ~ In k (JS.keys m).
Proof. apply JSFacts.get_None_keys, String.eqb_eq. Qed.

Lemma sset_fresh m k v : sget m k = None -> sset m k v = m ++ [(k, v)].
Proof. apply JSFacts.set_fresh. Qed.

Lemma sget_sset_same m k v : sget (sset m k v) k = Some v.
Proof. apply JSFacts.get_set_same, String.eqb_eq. Qed.

Lemma sget_sset_other m k k' v : k <> k' -> sget (sset m k v) k' = sget m k'.
Proof. apply JSFacts.get_set_other, String.eqb_eq. Qed.

Lemma skeys_sset_present m k v v0 :
  sget m k = Some v0 -> JS.keys (sset m k v) = JS.keys m.
Proof. apply JSFacts.keys_set_present. Qed.

Lemma sset_In m k v (e : string * V) : In e (sset m k v) -> e = (k, v) \/ In e m.
Proof. apply JSFacts.set_In, String.eqb_eq. Qed.

End StringMaps.

(* ================================================================== *)
(** * The work-queue loops finish *)
(* ================================================================== *)

Module TraversalFacts.

Import Traversal.

Lemma pending_mono (adj : adjacency) (visited : list string) (c : string) :
  pending adj (sadd visited c) <= pending adj visited.
Proof.
  induction adj as [|[k vs] t IH]; simpl; [lia|].
  rewrite smem_sadd.
  destruct (smem visited k); simpl; [exact IH|].
  destruct (String.eqb k c); lia.
Qed.

(** Visiting [c] uses up what [c] could push. *)
Lemma pending_visit (adj : adjacency) (visited : list string) (c : string) :
  smem visited c = false ->
  pending adj (sadd visited c) + length (neighbours adj c) <= pending adj visited.
Proof.
  intro Hc. unfold neighbours.
  induction adj as [|[k vs] t IH]; simpl; [lia|].
  rewrite smem_sadd.
  destruct (String.eqb k c) eqn:E.
  - apply String.eqb_eq in E. subst k. rewrite Hc. simpl.
    pose proof (pending_mono t visited c). lia.
  - rewrite orb_false_r. destruct (smem visited k); lia.
Qed.

Lemma filter_length_le {A} (p : A -> bool) (l : list A) : length (filter p l) <= length l.
Proof.
  induction l as [|x t IH]; simpl; [lia|]. destruct (p x); simpl; lia.
Qed.

Lemma expandLoop_total (fuel : nat) (adj : adjacency) :
  forall queue visited cluster,
    length queue + pending adj visited <= fuel ->
    exists r, expandLoop fuel adj queue visited cluster = Ok r.
Proof.
  induction fuel as [|fuel IH]; intros queue visited cluster Hf.
  - destruct queue; simpl in *; [eauto | lia].
  - destruct queue as [|c rest]; simpl; [eauto|].
    destruct (smem visited c) eqn:Hc.
    + apply IH. simpl in Hf. lia.
    + apply IH. rewrite length_app.
      pose proof (pending_visit adj visited c Hc).
      pose proof (filter_length_le
                    (fun n => negb (smem (sadd visited c) n)) (neighbours adj c)).
      simpl in Hf. lia.
Qed.

Lemma expandCluster_total (start : string) (adj : adjacency) (visited : list string) :
  exists r, expandCluster start adj visited = Ok r.
Proof. apply expandLoop_total. unfold fuel_for. lia. Qed.

(** The cluster only grows, at its end. *)
Lemma expandLoop_extends (fuel : nat) (adj : adjacency) :
  forall queue visited cluster r v,
    expandLoop fuel adj queue visited cluster = Ok (r, v) ->
    exists l, r = cluster ++ l.
Proof.
  induction fuel as [|fuel IH]; intros queue visited cluster r v H.
  - destruct queue; simpl in H; [|discriminate].
    injection H as <- <-. exists []. symmetry. apply app_nil_r.
  - destruct queue as [|c rest]; simpl in H.
    + injection H as <- <-. exists []. symmetry. apply app_nil_r.
    + destruct (smem visited c).
      * eapply IH, H.
      * apply IH in H. destruct H as [l ->]. exists (c :: l).
        rewrite <- app_assoc. reflexivity.
Qed.

(** A start not yet visited is the first member of its cluster. *)
Lemma expandCluster_start (start : string) (adj : adjacency) (visited : list string) r v :
  smem visited start = false ->
  expandCluster start adj visited = Ok (r, v) ->
  exists l, r = start :: l.
Proof.
  intros Hs H. unfold expandCluster, fuel_for in H. simpl in H.
  rewrite Hs in H. apply expandLoop_extends in H. exact H.
Qed.

Lemma bfsReach_loop_total (fuel : nat) (adj : adjacency) :
  forall queue visited direct indirect maxDepth,
    length queue + pending adj visited <= fuel ->
    exists r,
      NetworkAnalyzer.bfsReach_loop fuel adj queue visited direct indirect maxDepth = Ok r.
Proof.
  induction fuel as [|fuel IH]; intros queue visited direct indirect maxDepth Hf.
  - destruct queue as [|[n d] rest]; simpl in *; [eauto | lia].
  - destruct queue as [|[n d] rest]; simpl; [eauto|].
    destruct (smem visited n) eqn:Hc.
    + apply IH. simpl in Hf. lia.
    + apply IH. rewrite length_app, length_map.
      pose proof (pending_visit adj visited n Hc).
      pose proof (filter_length_le
                    (fun x => negb (smem (sadd visited n) x)) (neighbours adj n)).
      simpl in Hf. lia.
Qed.

Lemma bfsReach_total (start : string) (adj : adjacency) :
  exists r, NetworkAnalyzer.bfsReach start adj = Ok r.
Proof. apply bfsReach_loop_total. unfold fuel_for. lia. Qed.

Lemma findPath_loop_total (fuel : nat) (start : string) (adj : adjacency) :
  forall queue visited,
    length queue + pending adj visited <= fuel ->
    exists r, NetworkAnalyzer.findPath_loop fuel start adj queue visited = Ok r.
Proof.
  induction fuel as [|fuel IH]; intros queue visited Hf.
  - destruct queue as [|[n p] rest]; simpl in *; [eauto | lia].
  - destruct queue as [|[n p] rest]; simpl; [eauto|].
    destruct (String.eqb n start); [eauto|].
    destruct (smem visited n) eqn:Hc.
    + apply IH. simpl in Hf. lia.
    + apply IH. rewrite length_app, length_map.
      pose proof (pending_visit adj visited n Hc).
      pose proof (filter_length_le
                    (fun x => negb (smem (sadd visited n) x)) (neighbours adj n)).
      simpl in Hf. lia.
Qed.

Lemma findPath_total (start finish : string) (edges : list NetworkEdge.t) :
  exists r, NetworkAnalyzer.findPath start finish edges = Ok r.
Proof. apply findPath_loop_total. unfold fuel_for. lia. Qed.

End TraversalFacts.

(* ================================================================== *)
(** * NetworkAnalyzer: the graph *)
(* ================================================================== *)

Module GraphFacts.

Import NetworkAnalyzer.

Lemma Forall_set (Q : NetworkNode.t -> Prop) (m : list (string * NetworkNode.t)) k n :
  Forall (fun kv => Q (snd kv)) m -> Q n -> Forall (fun kv => Q (snd kv)) (sset m k n).
Proof.
  intros Hm Hn. induction Hm as [|[k' v'] t Hv Ht IH]; simpl.
  - repeat constructor. exact Hn.
  - destruct (String.eqb k' k); constructor; auto.
Qed.

Lemma Forall_get (Q : NetworkNode.t -> Prop) (m : list (string * NetworkNode.t)) k n :
  Forall (fun kv => Q (snd kv)) m -> sget m k = Some n -> Q n.
Proof.
  intros Hm Hg. apply sget_In in Hg.
  rewrite Forall_forall in Hm. apply (Hm _ Hg).
Qed.

(** Replacing a node by one of the same kind keeps the map well formed. *)
Lemma map_ok_update author m k n n' :
  map_ok author m ->
  sget m k = Some n ->
  NetworkNode.type n' = NetworkNode.type n ->
  NetworkNode.influence n' = NetworkNode.influence n ->
  NetworkNode.accountId n' = NetworkNode.accountId n ->
  map_ok author (sset m k n').
Proof.
  intros (n0 & rest & -> & Ht & Hi & Ha & Hrest) Hg Et Ei Ea.
  simpl in *. destruct (String.eqb author k) eqn:E.
  - injection Hg as <-. exists n', rest. repeat split; congruence.
  - exists n0, (sset rest k n'). repeat split; try assumption.
    apply (Forall_set (fun x => NetworkNode.type x = spreader)); [exact Hrest|].
    rewrite Et. apply (@Forall_get (fun x => NetworkNode.type x = spreader) _ _ _ Hrest Hg).
Qed.

Lemma map_ok_addNodeAndEdge author st accountId type timestamp weight :
  map_ok author (fst st) -> edges_ok author (snd st) ->
  map_ok author (fst (addNodeAndEdge st accountId author type timestamp weight)) /\
  edges_ok author (snd (addNodeAndEdge st accountId author type timestamp weight)).
Proof.
  destruct st as [m edges]. simpl. intros Hm He. split.
  - unfold JS.has. destruct (sget m accountId) eqn:Hg; [exact Hm|].
    rewrite (@sset_fresh _ _ _ _ Hg).
    destruct Hm as (n0 & rest & -> & Ht & Hi & Ha & Hrest).
    exists n0, (rest ++ [(accountId,
      NetworkNode.mk ("node-" ++ accountId) accountId spreader 0 [] timestamp)]).
    repeat split; try assumption.
    apply Forall_app. split; [exact Hrest|]. repeat constructor.
  - apply Forall_app. split; [exact He|]. repeat constructor.
Qed.

Lemma map_ok_connect author m key other :
  map_ok author m -> map_ok author (connect m key other).
Proof.
  intro Hm. unfold connect. destruct (sget m key) as [n|] eqn:Hg; [|exact Hm].
  destruct (smem (NetworkNode.connections n) other); [exact Hm|].
  eapply map_ok_update; eauto.
Qed.

Lemma fold_invariant {A B} (P : A -> Prop) (f : A -> B -> A) (l : list B) (a : A) :
  P a -> (forall a b, P a -> P (f a b)) -> P (fold_left f l a).
Proof.
  intros Ha Hf. revert a Ha. induction l as [|b l IH]; simpl; auto.
Qed.

(** The graph of a dataset: its nodes start with the source node of the
    author, the other nodes are spreaders, and every edge points to the
    author. *)
Lemma buildNetworkGraph_shape (spreadData : SpreadData.t) :
  exists n0 rest,
    fst (buildNetworkGraph spreadData) = n0 :: rest /\
    NetworkNode.type n0 = source /\
    NetworkNode.influence n0 = 100%Z /\
    NetworkNode.accountId n0 = author_of spreadData /\
    Forall (fun n => NetworkNode.type n = spreader) rest /\
    edges_ok (author_of spreadData) (snd (buildNetworkGraph spreadData)).
Proof.
  unfold buildNetworkGraph, author_of.
  set (author := Tweet.authorId (SpreadData.originalTweet spreadData)).
  set (P := fun st : list (string * NetworkNode.t) * list NetworkEdge.t =>
              map_ok author (fst st) /\ edges_ok author (snd st)).
  match goal with
  | |- context [fold_left ?f (SpreadData.replies spreadData) ?st2] =>
      assert (H3 : P (fold_left f (SpreadData.replies spreadData) st2))
  end.
  { apply (fold_invariant P).
    - apply (fold_invariant P).
      + apply (fold_invariant P).
        * split; simpl; [|constructor].
          eexists _, []. repeat split. constructor.
        * intros st rt [Hm He]. apply map_ok_addNodeAndEdge; assumption.
      + intros st qt [Hm He]. apply map_ok_addNodeAndEdge; assumption.
    - intros st rp [Hm He]. apply map_ok_addNodeAndEdge; assumption. }
  match goal with
  | H : P ?st |- _ => destruct st as [nodeMap edges]
  end.
  destruct H3 as [Hm He]. simpl in Hm, He. simpl.
  assert (Hm' : map_ok author
    (fold_left (fun m e =>
        connect (connect m (NetworkEdge.source e) (NetworkEdge.target e))
          (NetworkEdge.target e) (NetworkEdge.source e)) edges nodeMap)).
  { apply (fold_invariant (map_ok author)); [exact Hm|].
    intros m e H. apply map_ok_connect, map_ok_connect, H. }
  destruct Hm' as (n0 & rest & -> & Ht & Hi & Ha & Hrest).
  exists n0, (JS.values rest). simpl. repeat split; try assumption.
  unfold JS.values. apply Forall_map. exact Hrest.
Qed.

End GraphFacts.

(* ================================================================== *)
(** * NetworkAnalyzer: the analysis returns *)
(* ================================================================== *)

Lemma bind_Ok {A B} (m : M A) (k : A -> M B) (w w1 : World) (a : A) :
  m w = Ok (a, w1) -> bind m k w = k a w1.
Proof. intro H. unfold bind. rewrite H. reflexivity. Qed.

Lemma lift_Ok {A} (r : result A) (a : A) (w : World) : r = Ok a -> lift r w = Ok (a, w).
Proof. intros ->. reflexivity. Qed.

(** Run the first [bind] of the goal with the outcome [H] of its action. *)
Ltac bind_step H := rewrite (@bind_Ok _ _ _ _ _ _ _ H).

Module ClusterFacts.

Import NetworkAnalyzer.

Lemma mapM_local_offset (timestamps : list Z) (w : World) :
  mapM local_offset timestamps w = Ok (map (tzOffset w) timestamps, w).
Proof.
  induction timestamps as [|t ts IH]; simpl; [reflexivity|].
  unfold bind at 1. simpl. unfold bind at 1. rewrite IH. reflexivity.
Qed.

Lemma calculateTimeDistribution_ok (timestamps : list Z) (w : World) :
  exists td, calculateTimeDistribution timestamps w = Ok (td, w).
Proof.
  unfold calculateTimeDistribution.
  bind_step ((mapM_local_offset timestamps w)).
  eexists. reflexivity.
Qed.

Lemma calculateActivityPattern_ok (clusterNodes : list string)
    (allNodes : list NetworkNode.t) (w : World) :
  exists td,
    let timestamps := defined (map (node_timestamp allNodes) clusterNodes) in
    calculateActivityPattern clusterNodes allNodes w
    = Ok (ActivityPattern.mk td (Fin (1 # 2))
            (fst (calculateCoordinationScore timestamps))
            (calculateBurstiness (snd (calculateCoordinationScore timestamps))), w).
Proof.
  unfold calculateActivityPattern.
  destruct (calculateTimeDistribution_ok
              (defined (map (node_timestamp allNodes) clusterNodes)) w) as [td Htd].
  exists td. cbv zeta. bind_step (Htd).
  destruct (calculateCoordinationScore _) as [score ts']. reflexivity.
Qed.

Lemma coordinationScore_bound (timestamps : list Z) :
  nan_or nonneg (fst (calculateCoordinationScore timestamps)).
Proof.
  unfold calculateCoordinationScore.
  destruct (length timestamps <? 2)%nat; simpl.
  - right. simpl. lra.
  - apply NumFacts.max_zero_nonneg.
Qed.

Lemma count_nonneg {A} (p : A -> bool) (l : list A) : (0 <= count p l)%Z.
Proof. unfold count. lia. Qed.

Lemma burstiness_bound (timestamps : list Z) :
  nan_or nonneg (calculateBurstiness timestamps).
Proof.
  unfold calculateBurstiness.
  destruct (length timestamps <? 2)%nat; [right; simpl; lra|].
  cbv zeta. destruct (_ =? 0)%Z; [right; simpl; lra|].
  apply NumFacts.div_nonneg; apply NumFacts.inject_Z_nonneg.
  - apply count_nonneg.
  - lia.
Qed.

Lemma coherence_bound (nodes : list string) (edges : list NetworkEdge.t) :
  finite_nonneg (calculateClusterCoherence nodes edges).
Proof.
  unfold calculateClusterCoherence. cbv zeta.
  destruct (zlength nodes <? 2)%Z eqn:E; [simpl; lra|].
  apply Z.ltb_ge in E.
  change (Num.of_Z (zlength nodes * (zlength nodes - 1)) / Fin 2)%num
    with (Fin (Qred (inject_Z (zlength nodes * (zlength nodes - 1)) / 2))).
  apply NumFacts.div_pos.
  - apply NumFacts.inject_Z_nonneg. lia.
  - rewrite Qred_correct. apply Qlt_shift_div_l; [lra|].
    rewrite Qmult_0_l. apply NumFacts.inject_Z_pos. nia.
Qed.

Lemma finite_nonneg_nonneg (x : num) : finite_nonneg x -> nan_or nonneg x.
Proof. intro H. right. destruct x; simpl in *; auto. Qed.

Lemma suspicion_bound (ap : ActivityPattern.t) (coherence : num) :
  nan_or nonneg (ActivityPattern.coordinationScore ap) ->
  nan_or nonneg (ActivityPattern.burstiness ap) ->
  finite_nonneg coherence ->
  nan_or in_unit (calculateSuspicionScore ap coherence).
Proof.
  intros Hc Hb Hk. unfold calculateSuspicionScore. cbv zeta.
  apply NumFacts.min_one_unit.
  repeat apply NumFacts.add_nonneg; apply NumFacts.mul_pos_const;
    try reflexivity; auto using finite_nonneg_nonneg.
Qed.

Lemma analyzeCluster_spec (clusterNodes : list string) (allNodes : list NetworkNode.t)
    (edges : list NetworkEdge.t) (w : World) :
  exists c w',
    analyzeCluster clusterNodes allNodes edges w = Ok (c, w') /\
    Cluster.nodes c = clusterNodes /\
    finite_nonneg (Cluster.coherence c) /\
    nan_or in_unit (Cluster.suspicionScore c).
Proof.
  unfold analyzeCluster. cbv zeta.
  destruct (calculateActivityPattern_ok clusterNodes allNodes w) as [td Hap].
  cbv zeta in Hap. bind_step (Hap).
  unfold bind, date_now, math_random36, ret. simpl.
  eexists _, _. split; [reflexivity|]. simpl. repeat split.
  - apply coherence_bound.
  - apply suspicion_bound; simpl.
    + apply coordinationScore_bound.
    + apply burstiness_bound.
    + apply coherence_bound.
Qed.

Lemma detectClusters_loop_spec (allNodes : list NetworkNode.t)
    (edges : list NetworkEdge.t) (adj : Traversal.adjacency) :
  forall todo visited clusters w,
    Forall cluster_ok clusters ->
    exists cs w',
      detectClusters_loop todo allNodes edges adj visited clusters w = Ok (cs, w') /\
      Forall cluster_ok cs.
Proof.
  induction todo as [|node rest IH]; intros visited clusters w Hcs;
    cbn [detectClusters_loop].
  - eexists _, _. split; [reflexivity | exact Hcs].
  - destruct (smem visited (NetworkNode.accountId node)); [apply IH, Hcs|].
    destruct (TraversalFacts.expandCluster_total (NetworkNode.accountId node) adj visited)
      as [[cluster visited'] Hex].
    unfold expandCluster.
    bind_step (lift_Ok w Hex). cbv beta iota.
    destruct (3 <=? length cluster)%nat eqn:E3.
    + destruct (analyzeCluster_spec cluster allNodes edges w)
        as (c & w1 & Hc & Hn & Hk & Hs).
      bind_step Hc. apply IH.
      apply Forall_app. split; [exact Hcs|]. constructor; [|constructor].
      split; [rewrite Hn; apply Nat.leb_le, E3 | split; assumption].
    + apply IH, Hcs.
Qed.

Lemma detectClusters_spec (nodes : list NetworkNode.t) (edges : list NetworkEdge.t)
    (w : World) :
  exists cs w', detectClusters nodes edges w = Ok (cs, w') /\ Forall cluster_ok cs.
Proof. apply detectClusters_loop_spec. constructor. Qed.

Lemma calculateReach_total (nodes : list NetworkNode.t) (edges : list NetworkEdge.t) :
  exists r, calculateReach nodes edges = Ok r.
Proof.
  unfold calculateReach. cbv zeta.
  generalize (buildAdjacencyList nodes edges) as adj.
  generalize (@nil (string * Reach.t)).
  induction nodes as [|node rest IH]; intros reachMap adj.
  - eexists. reflexivity.
  - destruct (TraversalFacts.bfsReach_total (NetworkNode.accountId node) adj) as [r Hr].
    rewrite Hr. simpl. apply IH.
Qed.

Lemma identifyInfluencers_total (nodes : list NetworkNode.t) (edges : list NetworkEdge.t)
    (spreadData : SpreadData.t) :
  exists r, identifyInfluencers nodes edges spreadData = Ok r.
Proof.
  unfold identifyInfluencers. cbv zeta.
  destruct (calculateReach_total nodes edges) as [r ->]. simpl. eexists. reflexivity.
Qed.

Lemma fold_invariant_In {A B} (P : A -> Prop) (f : A -> B -> A) (l : list B) (a : A) :
  P a -> (forall a b, In b l -> P a -> P (f a b)) -> P (fold_left f l a).
Proof.
  revert a. induction l as [|b l IH]; intros a Ha Hf; simpl; [exact Ha|].
  apply IH.
  - apply Hf; [left; reflexivity | exact Ha].
  - intros a' b' Hb. apply Hf. right. exact Hb.
Qed.

(** In the reversed adjacency of a graph whose edges all point to
    [author], no other key exists. *)
Lemma parents_keys (author : string) (edges : list NetworkEdge.t) :
  edges_ok author edges ->
  forall k,
    k <> author ->
    Traversal.neighbours
      (fold_left (fun m e => push_parent m (NetworkEdge.target e) (NetworkEdge.source e))
         edges []) k = [].
Proof.
  intros He k Hk.
  assert (H : forall k', In k'
            (JS.keys (fold_left (fun m e =>
               push_parent m (NetworkEdge.target e) (NetworkEdge.source e)) edges []))
            -> k' = author).
  { apply (fold_invariant_In
             (fun m : Traversal.adjacency => forall k', In k' (JS.keys m) -> k' = author)).
    - intros k' [].
    - intros m e Hin Hm k' Hk'.
      unfold edges_ok in He. rewrite Forall_forall in He.
      unfold JS.keys in Hk'. apply in_map_iff in Hk'. destruct Hk' as [[k0 v0] [<- Hkv]].
      apply sset_In in Hkv. destruct Hkv as [Hkv|Hkv].
      + injection Hkv as -> _. simpl. apply He, Hin.
      + apply Hm. unfold JS.keys. apply in_map_iff. exists (k0, v0). auto. }
  unfold Traversal.neighbours.
  destruct (sget _ k) eqn:E; [|reflexivity].
  exfalso. apply Hk, H. apply sget_In in E.
  unfold JS.keys. apply in_map_iff. exists (k, l). auto.
Qed.

Lemma findPath_loop_nil (fuel : nat) (start : string) (adj : Traversal.adjacency)
    (visited : list string) :
  findPath_loop fuel start adj [] visited = Ok [].
Proof. destruct fuel; reflexivity. Qed.

(** So the search from a leaf back to the author never finds a path of two
    nodes or more. *)
Lemma findPath_short (author leaf : string) (edges : list NetworkEdge.t) :
  edges_ok author edges ->
  exists path, findPath author leaf edges = Ok path /\ length path <= 1.
Proof.
  intro He. unfold findPath, Traversal.fuel_for. cbv zeta. simpl.
  destruct (String.eqb leaf author) eqn:E.
  - eexists. split; [reflexivity | simpl; lia].
  - apply String.eqb_neq in E.
    rewrite (parents_keys He E). simpl. rewrite findPath_loop_nil.
    eexists. split; [reflexivity | simpl; lia].
Qed.

Lemma tracePropagationPaths_empty (nodes : list NetworkNode.t) (edges : list NetworkEdge.t)
    (spreadData : SpreadData.t) :
  edges_ok (author_of spreadData) edges ->
  tracePropagationPaths nodes edges spreadData = Ok [].
Proof.
  intro He. unfold tracePropagationPaths. cbv zeta.
  fold (author_of spreadData).
  assert (H : forall leaves,
    (fix loop (todo : list NetworkNode.t) (paths : list PropagationPath.t) :=
       match todo with
       | [] => Ok paths
       | leaf :: rest =>
           (path <-? findPath (author_of spreadData) (NetworkNode.accountId leaf) edges ;;
            if (1 <? length path)%nat
            then (pathData <-? analyzeePath path nodes edges ;; loop rest (paths ++ [pathData]))
            else loop rest paths)%monad
       end) leaves [] = Ok []).
  { induction leaves as [|leaf rest IH]; [reflexivity|].
    destruct (findPath_short (NetworkNode.accountId leaf) He) as (path & -> & Hlen).
    simpl rbind. replace (1 <? length path)%nat with false; [exact IH|].
    symmetry. apply Nat.ltb_ge. exact Hlen. }
  rewrite H. reflexivity.
Qed.

(** [analyzeNetwork] returns on every dataset: the graph of
    [buildNetworkGraph], clusters that satisfy [cluster_ok], and no
    propagation path. *)
Lemma analyzeNetwork_spec (spreadData : SpreadData.t) (analysisId : string) (w : World) :
  exists clusters influencers w',
    analyzeNetwork spreadData analysisId w
    = Ok (NetworkAnalysis.mk
            (fst (buildNetworkGraph spreadData)) (snd (buildNetworkGraph spreadData))
            clusters influencers []
            (calculateNetworkMetrics (fst (buildNetworkGraph spreadData))
               (snd (buildNetworkGraph spreadData))), w') /\
    Forall cluster_ok clusters /\
    detectClusters (fst (buildNetworkGraph spreadData))
      (snd (buildNetworkGraph spreadData)) w = Ok (clusters, w') /\
    identifyInfluencers (fst (buildNetworkGraph spreadData))
      (snd (buildNetworkGraph spreadData)) spreadData = Ok influencers.
Proof.
  unfold analyzeNetwork.
  destruct (GraphFacts.buildNetworkGraph_shape spreadData)
    as (n0 & rest & Hn & _ & _ & _ & _ & He).
  destruct (buildNetworkGraph spreadData) as [nodes edges]. simpl in *.
  destruct (detectClusters_spec nodes edges w) as (cs & w1 & Hcs & Hok).
  destruct (identifyInfluencers_total nodes edges spreadData) as [infl Hinfl].
  exists cs, infl, w1. bind_step Hcs.
  bind_step (lift_Ok w1 Hinfl).
  bind_step (lift_Ok w1 (tracePropagationPaths_empty nodes spreadData He)).
  repeat split; assumption.
Qed.

End ClusterFacts.

(* ================================================================== *)
(** * NetworkAnalyzer: the claims *)
(* ================================================================== *)

(** C2.  On every dataset [analyzeNetwork] returns, and the graph it
    returns has exactly one node of role source, the node of the author of
    the original post, with influence 100; every edge has the author as its
    target.  The exception the claim allows for is not needed: an author who
    also appears as a spreader gets no second node. *)
Theorem analyzeNetwork_one_source
    (spreadData : SpreadData.t) (analysisId : string) (w : World) :
  exists r w' src,
    NetworkAnalyzer.analyzeNetwork spreadData analysisId w = Ok (r, w') /\
    filter is_source (NetworkAnalysis.nodes r) = [src] /\
    NetworkNode.accountId src = author_of spreadData /\
    NetworkNode.influence src = 100%Z /\
    Forall (fun e => NetworkEdge.target e = author_of spreadData) (NetworkAnalysis.edges r).
Proof.
  destruct (ClusterFacts.analyzeNetwork_spec spreadData analysisId w)
    as (cs & infl & w' & Hr & _).
  destruct (GraphFacts.buildNetworkGraph_shape spreadData)
    as (n0 & rest & Hn & Ht & Hi & Ha & Hrest & He).
  eexists _, w', n0. split; [exact Hr|]. simpl. rewrite Hn.
  repeat split; try assumption.
  simpl. unfold is_source at 1. rewrite Ht. f_equal.
  clear Hn. induction Hrest as [|n t Hs _ IH]; simpl; [reflexivity|].
  unfold is_source at 1. rewrite Hs. exact IH.
Qed.

(** An author who reposts their own post stays the one source node, and
    the self-edge points to them as well. *)
Example self_repost_graph :
  NetworkAnalyzer.buildNetworkGraph self_repost
  = ([NetworkNode.mk "node-A" "A" source 100 ["A"; "B"]%string 0;
      NetworkNode.mk "node-B" "B" spreader 0 ["A"]%string 10],
     [NetworkEdge.mk "A" "A" retweet (Fin 1) 5;
      NetworkEdge.mk "B" "A" retweet (Fin 1) 10]).
Proof. reflexivity. Qed.

(** C1, as stated, fails.  With two accounts that each repost and quote
    the post, the cluster of three accounts has four edges against three
    possible ones, so its coherence is 4/3; and when all the members act in
    the same millisecond the suspicion score is NaN. *)
Lemma cluster_bounds_counterexample :
  (exists r w' c,
     NetworkAnalyzer.analyzeNetwork parallel_edges "analysis-1" (still_world 1000)
     = Ok (r, w') /\
     In c (NetworkAnalysis.clusters r) /\
     Cluster.coherence c = Fin (4 # 3) /\
     ~ cluster_in_bounds c) /\
  (exists r w' c,
     NetworkAnalyzer.analyzeNetwork simultaneous "analysis-1" (still_world 1000)
     = Ok (r, w') /\
     In c (NetworkAnalysis.clusters r) /\
     Cluster.suspicionScore c = NaN /\
     ~ cluster_in_bounds c).
Proof.
  split.
  - eexists _, _, _. split; [vm_compute; reflexivity|].
    split; [left; reflexivity|]. split; [reflexivity|].
    intros (_ & (_ & H) & _). revert H. vm_compute. intro H. apply H. reflexivity.
  - eexists _, _, _. split; [vm_compute; reflexivity|].
    split; [left; reflexivity|]. split; [reflexivity|].
    intros (_ & _ & H). exact H.
Qed.

(** C1, amended.  On every dataset [analyzeNetwork] returns, and each
    cluster it returns has at least 3 member accounts, a finite coherence
    that is at least 0, and a suspicion score that is NaN or lies in
    [[0,1]]. *)
Theorem analyzeNetwork_clusters
    (spreadData : SpreadData.t) (analysisId : string) (w : World) :
  exists r w',
    NetworkAnalyzer.analyzeNetwork spreadData analysisId w = Ok (r, w') /\
    Forall cluster_ok (NetworkAnalysis.clusters r).
Proof.
  destruct (ClusterFacts.analyzeNetwork_spec spreadData analysisId w)
    as (cs & infl & w' & Hr & Hok & _).
  eexists _, w'. split; [exact Hr | exact Hok].
Qed.

(** The score of a source node without any edge is its base score: the
    degree and reach terms are zero, and so is the temporal term, because
    the time range of no edge at all is [-Infinity]. *)
Lemma source_alone_score (node : NetworkNode.t) :
  NetworkNode.type node = source ->
  NetworkAnalyzer.calculateInfluenceScore node 0 (Reach.mk 0 0 0) [] = Fin 50.
Proof.
  intro H. unfold NetworkAnalyzer.calculateInfluenceScore. rewrite H. reflexivity.
Qed.

(** C7.  When the dataset has no repost, no quote and no reply,
    [analyzeNetwork] returns one node, no edge, no cluster, one influencer
    (the author, as originator, with the base score 50, which is above the
    threshold 10) and no propagation path. *)
Theorem analyzeNetwork_no_interaction
    (spreadData : SpreadData.t) (analysisId : string) (w : World) :
  SpreadData.retweets spreadData = [] ->
  SpreadData.quotes spreadData = [] ->
  SpreadData.replies spreadData = [] ->
  exists r,
    NetworkAnalyzer.analyzeNetwork spreadData analysisId w = Ok (r, w) /\
    length (NetworkAnalysis.nodes r) = 1 /\
    NetworkAnalysis.edges r = [] /\
    NetworkAnalysis.clusters r = [] /\
    NetworkAnalysis.influencers r
    = [InfluencerNode.mk (author_of spreadData) (Fin 50) 0 0 0 originator] /\
    NetworkAnalysis.propagationPaths r = [].
Proof.
  intros Hrt Hqt Hrp.
  unfold NetworkAnalyzer.analyzeNetwork, NetworkAnalyzer.buildNetworkGraph.
  rewrite Hrt, Hqt, Hrp. cbn [fold_left JS.set JS.values map snd].
  fold (author_of spreadData). set (author := author_of spreadData).
  eexists. split.
  - unfold bind, lift, ret.
    unfold NetworkAnalyzer.detectClusters, NetworkAnalyzer.buildAdjacencyList.
    cbn [fold_left JS.set NetworkAnalyzer.detectClusters_loop NetworkNode.accountId
         JS.mem existsb].
    unfold NetworkAnalyzer.expandCluster, Traversal.expandCluster, Traversal.fuel_for.
    unfold NetworkAnalyzer.identifyInfluencers, NetworkAnalyzer.calculateReach,
      NetworkAnalyzer.bfsReach, NetworkAnalyzer.tracePropagationPaths,
      NetworkAnalyzer.findLeafNodes, NetworkAnalyzer.findPath,
      NetworkAnalyzer.buildAdjacencyList, NetworkAnalyzer.calculateDegrees,
      Traversal.fuel_for.
    repeat (cbn; unfold Traversal.neighbours; rewrite ?seq_refl).
    reflexivity.
  - cbn [NetworkAnalysis.nodes NetworkAnalysis.edges NetworkAnalysis.clusters
         NetworkAnalysis.influencers NetworkAnalysis.propagationPaths length].
    rewrite source_alone_score by reflexivity.
    unfold NetworkAnalyzer.determineInfluencerRole. cbn [NetworkNode.accountId].
    fold (author_of spreadData). fold author. rewrite seq_refl.
    repeat split.
Qed.

Lemma analyzeNetwork_no_interaction_witness :
  SpreadData.retweets lonely = [] /\
  SpreadData.quotes lonely = [] /\
  SpreadData.replies lonely = [] /\
  exists r,
    NetworkAnalyzer.analyzeNetwork lonely "analysis-1" (still_world 1000)
    = Ok (r, still_world 1000) /\
    length (NetworkAnalysis.nodes r) = 1 /\
    NetworkAnalysis.edges r = [] /\
    NetworkAnalysis.clusters r = [] /\
    NetworkAnalysis.influencers r
    = [InfluencerNode.mk (author_of lonely) (Fin 50) 0 0 0 originator] /\
    NetworkAnalysis.propagationPaths r = [].
Proof.
  split; [reflexivity|]. split; [reflexivity|]. split; [reflexivity|].
  apply analyzeNetwork_no_interaction; reflexivity.
Defined.

(* ================================================================== *)
(** * AnomalyDetector: volume spikes on a steady timeline *)
(* ================================================================== *)

Module SpikeFacts.

Import AnomalyDetector.

Lemma sub_equal (a b : Q) : (a == b)%Q -> Num.sub (Fin a) (Fin b) = Fin 0.
Proof.
  intro H. unfold Num.sub, Num.neg, Num.add. f_equal.
  apply NumFacts.Qred_zero. rewrite Qred_correct, H. ring.
Qed.

(** The sum of [n] copies of the integer [c], started from [a]. *)
Lemma sum_constant (c : Z) (l : list Z) :
  Forall (eq c) l ->
  forall a, exists q,
    fold_left Num.add (map Num.of_Z l) (Fin a) = Fin q /\
    (q == a + inject_Z (Z.of_nat (length l)) * inject_Z c)%Q.
Proof.
  induction 1 as [|x l Hx _ IH]; intro a.
  - exists a. split; [reflexivity|]. simpl length. change (inject_Z (Z.of_nat 0)) with 0%Q.
    ring.
  - subst x. cbn [map fold_left length].
    change (Num.add (Fin a) (Num.of_Z c)) with (Fin (Qred (a + inject_Z c))).
    destruct (IH (Qred (a + inject_Z c))) as (q & Hq & Eq). exists q. split; [exact Hq|].
    rewrite Eq, Qred_correct, Nat2Z.inj_succ. unfold Z.succ. rewrite inject_Z_plus.
    change (inject_Z 1) with 1%Q. ring.
Qed.

(** The squared deviations from a mean equal to every value add up to 0. *)
Lemma deviations_constant (c : Z) (m : Q) (l : list Z) :
  Forall (eq c) l -> (m == inject_Z c)%Q ->
  fold_left (fun sum val => sum + Num.sq (val - Fin m))%num (map Num.of_Z l) (Fin 0)
  = Fin 0.
Proof.
  intros Hl Hm. induction Hl as [|x l Hx _ IH]; [reflexivity|].
  subst x. cbn [map fold_left]. change (Num.of_Z c) with (Fin (inject_Z c)).
  rewrite sub_equal by (symmetry; exact Hm). exact IH.
Qed.

Lemma statistics_constant (c : Z) (l : list Z) :
  Forall (eq c) l ->
  l <> [] ->
  exists m, calculateStatistics (map Num.of_Z l) = (Fin m, Fin 0) /\ (m == inject_Z c)%Q.
Proof.
  intros Hl Hne. unfold calculateStatistics.
  destruct l as [|x l']; [contradiction|]. set (l := x :: l') in *.
  change (map Num.of_Z l) with (Num.of_Z x :: map Num.of_Z l').
  cbv iota beta zeta. change (Num.of_Z x :: map Num.of_Z l') with (map Num.of_Z l).
  rewrite length_map.
  destruct (sum_constant Hl 0) as (q & Hq & Eq).
  unfold Num.sum, Num.zero. rewrite Hq.
  assert (Hk : (0 < inject_Z (Z.of_nat (length l)))%Q).
  { apply NumFacts.inject_Z_pos. subst l. simpl length. lia. }
  assert (Hdiv : forall a, Num.div (Fin a) (Num.of_nat (length l))
                           = Fin (Qred (a / inject_Z (Z.of_nat (length l))))).
  { intro a. unfold Num.of_nat, Num.of_Z, Num.div.
    rewrite (NumFacts.Qsign_pos Hk). reflexivity. }
  rewrite !Hdiv.
  assert (Hm : (Qred (q / inject_Z (Z.of_nat (length l))) == inject_Z c)%Q).
  { rewrite Qred_correct, Eq. field. lra. }
  exists (Qred (q / inject_Z (Z.of_nat (length l)))). split; [|exact Hm].
  f_equal. rewrite (deviations_constant Hl Hm). rewrite Hdiv.
  rewrite NumFacts.Qred_zero; [reflexivity|]. field. lra.
Qed.

Lemma zScore_constant (c : Z) (m : Q) :
  (m == inject_Z c)%Q -> zScore_of c (Fin m, Fin 0) = NaN.
Proof.
  intro Hm. unfold zScore_of. cbn [fst snd]. change (Num.of_Z c) with (Fin (inject_Z c)).
  rewrite sub_equal by (symmetry; exact Hm). reflexivity.
Qed.

End SpikeFacts.

(** C10.  The z-score divides by the standard deviation of the window
    counts without a zero guard.  On every timeline whose 5-minute windows
    all hold the same number [c] of events (timelines of at least 10 events
    among them), the standard deviation is zero, the z-score of every window
    is NaN, NaN fails the test [|z| > 3], and [detectVolumeSpikes] returns
    normally with no anomaly. *)
Theorem detectVolumeSpikes_steady (timeline : list TimelineEvent.t) (c : Z) :
  let volumeByWindow := AnomalyDetector.calculateVolumeByWindow timeline (5 * 60 * 1000) in
  let stats := AnomalyDetector.calculateStatistics (map Num.of_Z (JS.values volumeByWindow)) in
  Forall (eq c) (JS.values volumeByWindow) ->
  snd stats = Fin 0 /\
  Forall (fun v => AnomalyDetector.zScore_of v stats = NaN) (JS.values volumeByWindow) /\
  (Num.abs NaN >? AnomalyDetector.spikeThreshold)%num = false /\
  AnomalyDetector.detectVolumeSpikes timeline = [].
Proof.
  intros volumeByWindow stats Hc.
  assert (Hs : snd stats = Fin 0 /\
               Forall (fun v => AnomalyDetector.zScore_of v stats = NaN)
                 (JS.values volumeByWindow)).
  { destruct (JS.values volumeByWindow) as [|v vs] eqn:Ev.
    - split; [reflexivity | constructor].
    - destruct (@SpikeFacts.statistics_constant c (v :: vs) Hc) as (m & Hm & Em);
        [discriminate|].
      subst stats. rewrite Hm. split; [reflexivity|].
      apply Forall_impl with (P := eq c); [|exact Hc].
      intros x <-. apply SpikeFacts.zScore_constant, Em. }
  destruct Hs as [Hsd Hz]. split; [exact Hsd|]. split; [exact Hz|].
  split; [reflexivity|].
  unfold AnomalyDetector.detectVolumeSpikes. cbv zeta.
  fold volumeByWindow. fold stats.
  unfold JS.values in Hz. rewrite Forall_map in Hz.
  clearbody stats. clearbody volumeByWindow. clear Hc Hsd.
  match goal with
  | |- fold_left ?F _ _ = _ =>
      enough (H : forall acc : list Anomaly.t, fold_left F volumeByWindow acc = acc)
        by apply H
  end.
  induction Hz as [|[ts v] rest Hv _ IH]; intro acc'; [reflexivity|].
  cbn [fold_left]. cbn [snd] in Hv. cbv zeta. rewrite Hv.
  cbn [Num.abs]. change (NaN >? AnomalyDetector.spikeThreshold)%num with false.
  cbv iota. apply IH.
Qed.

Lemma detectVolumeSpikes_steady_witness :
  Forall (eq 3%Z)
    (JS.values (AnomalyDetector.calculateVolumeByWindow steady_timeline (5 * 60 * 1000))) /\
  10 <= length steady_timeline /\
  snd (AnomalyDetector.calculateStatistics
         (map Num.of_Z
            (JS.values
               (AnomalyDetector.calculateVolumeByWindow steady_timeline (5 * 60 * 1000)))))
  = Fin 0 /\
  Forall (fun v =>
      AnomalyDetector.zScore_of v
        (AnomalyDetector.calculateStatistics
           (map Num.of_Z
              (JS.values
                 (AnomalyDetector.calculateVolumeByWindow steady_timeline (5 * 60 * 1000)))))
      = NaN)
    (JS.values (AnomalyDetector.calculateVolumeByWindow steady_timeline (5 * 60 * 1000))) /\
  (Num.abs NaN >? AnomalyDetector.spikeThreshold)%num = false /\
  AnomalyDetector.detectVolumeSpikes steady_timeline = [].
Proof.
  assert (H : Forall (eq 3%Z)
    (JS.values (AnomalyDetector.calculateVolumeByWindow steady_timeline (5 * 60 * 1000)))).
  { vm_compute. repeat constructor. }
  split; [exact H|]. split; [vm_compute; lia|].
  exact (detectVolumeSpikes_steady steady_timeline H).
Defined.


(* ================================================================== *)
(** * CoordinationDetector: the merge pass *)
(* ================================================================== *)

Module MergeFacts.

Import CoordinationDetector.

Lemma mergePatterns_loop_mixed (patterns : list CoordinationPattern.t) :
  forall todo i used merged,
    Forall is_mixed merged ->
    Forall is_mixed (mergePatterns_loop patterns i todo used merged).
Proof.
  induction todo as [|basePattern rest IH]; intros i used merged Hm;
    cbn [mergePatterns_loop]; [exact Hm|].
  destruct (nmem used i); [apply IH, Hm|].
  destruct (merge_into _ _ _ _ _) as [[used' accountSet] evidenceList].
  apply IH. apply Forall_app. split; [exact Hm|]. repeat constructor.
Qed.

Lemma mergePatterns_mixed (patterns : list CoordinationPattern.t) :
  Forall is_mixed (mergePatterns patterns).
Proof. apply mergePatterns_loop_mixed. constructor. Qed.

(** The account set of a merge is duplicate free. *)
Lemma merge_into_NoDup :
  forall rest j used accountSet evidenceList,
    NoDup accountSet ->
    NoDup (snd (fst (merge_into j rest used accountSet evidenceList))).
Proof.
  induction rest as [|other rest IH]; intros j used accountSet evidenceList Hs;
    cbn [merge_into]; [exact Hs|].
  destruct (nmem used j); [apply IH, Hs|].
  destruct (_ <=? _)%nat; [|apply IH, Hs].
  apply IH. apply JSFacts.fold_add_NoDup; [apply String.eqb_eq | exact Hs].
Qed.

Lemma mergePatterns_loop_NoDup (patterns : list CoordinationPattern.t) :
  forall todo i used merged,
    Forall (fun p => NoDup (CoordinationPattern.accounts p)) merged ->
    Forall (fun p => NoDup (CoordinationPattern.accounts p))
      (mergePatterns_loop patterns i todo used merged).
Proof.
  induction todo as [|basePattern rest IH]; intros i used merged Hm;
    cbn [mergePatterns_loop]; [exact Hm|].
  destruct (nmem used i); [apply IH, Hm|].
  pose proof (@merge_into_NoDup rest (S i) used
                (suniq (CoordinationPattern.accounts basePattern))
                (CoordinationPattern.evidence basePattern)
                (suniq_NoDup _)) as Hn.
  destruct (merge_into _ _ _ _ _) as [[used' accountSet] evidenceList].
  apply IH. apply Forall_app. split; [exact Hm|]. repeat constructor. exact Hn.
Qed.

Lemma mergePatterns_NoDup (patterns : list CoordinationPattern.t) :
  Forall (fun p => NoDup (CoordinationPattern.accounts p)) (mergePatterns patterns).
Proof. apply mergePatterns_loop_NoDup. constructor. Qed.

(** Against patterns that share fewer than two accounts with the base, the
    inner loop merges nothing. *)
Lemma merge_into_apart (base : CoordinationPattern.t) :
  forall rest j evidenceList,
    Forall (fun q => overlap base q < 2) rest ->
    merge_into j rest [] (suniq (CoordinationPattern.accounts base)) evidenceList
    = ([], suniq (CoordinationPattern.accounts base), evidenceList).
Proof.
  induction rest as [|other rest IH]; intros j evidenceList Hr;
    cbn [merge_into]; [reflexivity|].
  inversion Hr as [|? ? Ho Hr']; subst.
  change (nmem [] j) with false. cbv iota.
  replace (filter (fun a => smem (suniq (CoordinationPattern.accounts base)) a)
             (CoordinationPattern.accounts other))
    with (filter (fun a => smem (CoordinationPattern.accounts base) a)
            (CoordinationPattern.accounts other)).
  - unfold overlap in Ho. unfold minGroupSize.
    replace (3 - 1 <=? _)%nat with false; [apply IH, Hr'|].
    symmetry. apply Nat.leb_gt. exact Ho.
  - apply filter_ext. intro a. symmetry. apply smem_suniq.
Qed.

Lemma mergePatterns_loop_apart (patterns : list CoordinationPattern.t) :
  forall todo i merged,
    low_overlap todo ->
    map CoordinationPattern.accounts (mergePatterns_loop patterns i todo [] merged)
    = map CoordinationPattern.accounts merged
      ++ map (fun p => suniq (CoordinationPattern.accounts p)) todo.
Proof.
  induction todo as [|base rest IH]; intros i merged Hl; cbn [mergePatterns_loop].
  - cbn [map]. symmetry. apply app_nil_r.
  - inversion Hl as [|? ? Hb Hrest]; subst.
    change (nmem [] i) with false. cbv iota.
    rewrite (merge_into_apart base (S i) (CoordinationPattern.evidence base) Hb).
    rewrite IH by exact Hrest.
    rewrite map_app, <- app_assoc. reflexivity.
Qed.

(** On a list without overlaps the merge keeps every pattern, with its
    accounts deduplicated. *)
Lemma mergePatterns_apart (patterns : list CoordinationPattern.t) :
  low_overlap patterns ->
  map CoordinationPattern.accounts (mergePatterns patterns)
  = map (fun p => suniq (CoordinationPattern.accounts p)) patterns.
Proof. intro H. apply (mergePatterns_loop_apart patterns 0 [] H). Qed.

End MergeFacts.

(** C5, as stated, fails.  Merging the three chained patterns gives
    [{a,b,c,d,e}] and [{c,d,e}]; merging that list again, or that list
    appended to itself, gives the single pattern [{a,b,c,d,e}]: the account
    set [{c,d,e}] is gone. *)
Lemma mergePatterns_not_idempotent :
  let merged := CoordinationDetector.mergePatterns chained_patterns in
  map CoordinationPattern.accounts merged
  = [["a"; "b"; "c"; "d"; "e"]; ["c"; "d"; "e"]]%string /\
  map CoordinationPattern.accounts (CoordinationDetector.mergePatterns merged)
  = [["a"; "b"; "c"; "d"; "e"]]%string /\
  ~ same_account_sets (CoordinationDetector.mergePatterns merged) merged /\
  ~ same_account_sets (CoordinationDetector.mergePatterns (merged ++ merged)) merged.
Proof.
  cbv zeta. split; [reflexivity|]. split; [reflexivity|].
  assert (Hgone : forall l,
    map CoordinationPattern.accounts l = [["a"; "b"; "c"; "d"; "e"]]%string ->
    ~ same_account_sets l (CoordinationDetector.mergePatterns chained_patterns)).
  { intros l Hl [_ H].
    destruct (H (nth 1 (CoordinationDetector.mergePatterns chained_patterns)
                   (pattern_of [])))
      as (p & Hp & Hsame); [right; left; reflexivity|].
    apply (in_map CoordinationPattern.accounts) in Hp. rewrite Hl in Hp.
    destruct Hp as [Hp|[]]. rewrite <- Hp in Hsame.
    assert (Ha : In "a"%string ["a"; "b"; "c"; "d"; "e"]%string) by (left; reflexivity).
    apply Hsame in Ha. vm_compute in Ha.
    repeat (destruct Ha as [Ha|Ha]; [discriminate Ha|]). exact Ha. }
  split; apply Hgone; reflexivity.
Qed.

(** C5, amended.  A second merge pass leaves the account sets of an
    already merged list as they are when no pattern of that list shares two
    accounts or more with a later one. *)
Theorem mergePatterns_idempotent_apart (patterns : list CoordinationPattern.t) :
  low_overlap (CoordinationDetector.mergePatterns patterns) ->
  map CoordinationPattern.accounts
    (CoordinationDetector.mergePatterns (CoordinationDetector.mergePatterns patterns))
  = map CoordinationPattern.accounts (CoordinationDetector.mergePatterns patterns).
Proof.
  intro H. rewrite (MergeFacts.mergePatterns_apart H).
  apply map_ext_in. intros p Hp.
  apply suniq_id.
  pose proof (MergeFacts.mergePatterns_NoDup patterns) as Hn.
  rewrite Forall_forall in Hn. apply Hn, Hp.
Qed.

Lemma mergePatterns_idempotent_apart_witness :
  low_overlap (CoordinationDetector.mergePatterns apart_patterns) /\
  map CoordinationPattern.accounts
    (CoordinationDetector.mergePatterns (CoordinationDetector.mergePatterns apart_patterns))
  = map CoordinationPattern.accounts (CoordinationDetector.mergePatterns apart_patterns).
Proof.
  assert (H : low_overlap (CoordinationDetector.mergePatterns apart_patterns)).
  { vm_compute. repeat constructor. }
  split; [exact H | exact (mergePatterns_idempotent_apart apart_patterns H)].
Defined.

(* ================================================================== *)
(** * CoordinationDetector: the detection returns *)
(* ================================================================== *)

Module CoordinationFacts.

Import CoordinationDetector.

Lemma buildInteractionMap_keys (activities : list SpreadEvent.t) :
  forall k v, In (k, v) (buildInteractionMap activities) -> acts activities k.
Proof.
  unfold buildInteractionMap.
  apply (ClusterFacts.fold_invariant_In
           (fun m : Traversal.adjacency => forall k v, In (k, v) m -> acts activities k)).
  - intros k v [].
  - intros m a Ha Hm.
    set (account := SpreadEvent.sourceAccountId a).
    assert (Hacc : acts activities account) by (exists a; auto).
    apply GraphFacts.fold_invariant.
    + destruct (shas m account); [exact Hm|].
      intros k v Hin. apply sset_In in Hin. destruct Hin as [Hin|Hin].
      * injection Hin as -> _. exact Hacc.
      * eapply Hm, Hin.
    + intros m' rel Hm'. destruct (sget m' account); [|exact Hm'].
      intros k v Hin. apply sset_In in Hin. destruct Hin as [Hin|Hin].
      * injection Hin as -> _. exact Hacc.
      * eapply Hm', Hin.
Qed.

Lemma findNetworkClusters_loop_spec (activities : list SpreadEvent.t)
    (adjacencyMap : Traversal.adjacency) :
  forall todo visited clusters,
    (forall k v, In (k, v) todo -> acts activities k) ->
    Forall (cluster_acts activities) clusters ->
    exists cs,
      findNetworkClusters_loop adjacencyMap todo visited clusters = Ok cs /\
      Forall (cluster_acts activities) cs.
Proof.
  induction todo as [|[account connections] rest IH]; intros visited clusters Hkeys Hc;
    cbn [findNetworkClusters_loop].
  - eexists. split; [reflexivity | exact Hc].
  - assert (Hrest : forall k v, In (k, v) rest -> acts activities k).
    { intros k v Hin. apply (Hkeys k v). right. exact Hin. }
    destruct (negb (smem visited account) && _)%bool eqn:E.
    + apply andb_prop in E. destruct E as [Ev _].
      apply negb_true_iff in Ev.
      destruct (TraversalFacts.expandCluster_total account adjacencyMap visited)
        as [[cluster visited'] Hex].
      unfold expandCluster. rewrite Hex. cbn [rbind].
      apply IH; [exact Hrest|].
      destruct (_ <=? _)%nat; [|exact Hc].
      apply Forall_app. split; [exact Hc|]. constructor; [|constructor].
      destruct (TraversalFacts.expandCluster_start _ _ _ Ev Hex) as [l ->].
      destruct (Hkeys account connections) as (a & Ha & Hs); [left; reflexivity|].
      exists a. split; [exact Ha|]. cbn [NetworkCluster.accounts].
      apply smem_In. left. symmetry. exact Hs.
    + apply IH; assumption.
Qed.

Lemma findNetworkClusters_spec (activities : list SpreadEvent.t) :
  exists clusters,
    findNetworkClusters activities = Ok clusters /\
    Forall (cluster_acts activities) clusters.
Proof.
  apply findNetworkClusters_loop_spec; [apply buildInteractionMap_keys | constructor].
Qed.

Lemma filter_nonempty {A} (p : A -> bool) (l : list A) (x : A) :
  In x l -> p x = true -> exists y ys, filter p l = y :: ys.
Proof.
  intros Hin Hp. induction l as [|z l IH]; [contradiction|].
  simpl. destruct (p z) eqn:E; [eauto|].
  destruct Hin as [->|Hin]; [congruence | auto].
Qed.

Lemma detectNetworkCoordination_total (activities : list SpreadEvent.t) :
  exists patterns, detectNetworkCoordination activities = Ok patterns.
Proof.
  unfold detectNetworkCoordination.
  destruct (findNetworkClusters_spec activities) as (clusters & -> & Hc).
  cbn [rbind]. generalize (@nil CoordinationPattern.t) as patterns.
  induction Hc as [|cluster rest Hcl _ IH]; intro patterns;
    cbn [detectNetworkCoordination_loop].
  - eexists. reflexivity.
  - destruct (_ <=? _)%nat; [|apply IH].
    destruct Hcl as (a & Ha & Hs).
    destruct (filter_nonempty
                (fun a => smem (NetworkCluster.accounts cluster)
                            (SpreadEvent.sourceAccountId a)) activities a Ha Hs)
      as (y & ys & Hf).
    cbv zeta. rewrite Hf. unfold createNetworkPattern, generateNetworkEvidence.
    cbn [rbind]. apply IH.
Qed.

End CoordinationFacts.

Lemma detectCoordination_total
    (activities : list SpreadEvent.t) (analysisId : string) :
  exists patterns,
    CoordinationDetector.detectCoordination activities analysisId = Ok patterns.
Proof.
  unfold CoordinationDetector.detectCoordination.
  destruct (CoordinationFacts.detectNetworkCoordination_total activities) as [np ->].
  cbn [rbind]. eexists. reflexivity.
Qed.

(** C9.  On every list of events, the empty one included,
    [detectCoordination] returns, and every pattern it returns has the type
    mixed: the merge pass retypes each pattern it emits, merged with another
    one or not, so the types temporal, content and network never reach the
    output. *)
Theorem detectCoordination_all_mixed
    (activities : list SpreadEvent.t) (analysisId : string) :
  exists patterns,
    CoordinationDetector.detectCoordination activities analysisId = Ok patterns /\
    Forall is_mixed patterns.
Proof.
  unfold CoordinationDetector.detectCoordination.
  destruct (CoordinationFacts.detectNetworkCoordination_total activities) as [np ->].
  cbn [rbind]. eexists. split; [reflexivity|].
  apply MergeFacts.mergePatterns_mixed.
Qed.

(** Three accounts acting within a minute on different posts form one
    temporal pattern, which is merged with nothing and still comes out as
    mixed. *)
Example lone_pattern_is_mixed :
  map CoordinationPattern.type
    (CoordinationDetector.detectTemporalCoordination synchronous_activities)
  = [PatternType.temporal] /\
  CoordinationDetector.detectContentCoordination synchronous_activities = [] /\
  CoordinationDetector.detectNetworkCoordination synchronous_activities = Ok [] /\
  exists p,
    CoordinationDetector.detectCoordination synchronous_activities "analysis-1" = Ok [p] /\
    CoordinationPattern.type p = PatternType.mixed /\
    CoordinationPattern.accounts p = ["a"; "b"; "c"]%string.
Proof.
  split; [reflexivity|]. split; [reflexivity|]. split; [reflexivity|].
  eexists. split; [vm_compute; reflexivity|]. split; reflexivity.
Qed.

(* ================================================================== *)
(** * AnomalyDetector: the detection returns *)
(* ================================================================== *)

Lemma total_ret {A} (a : A) : total (ret a).
Proof. intro w. eexists _, _. reflexivity. Qed.

Lemma total_bind {A B} (m : M A) (k : A -> M B) :
  total m -> (forall a, total (k a)) -> total (bind m k).
Proof.
  intros Hm Hk w. destruct (Hm w) as (a & w1 & Ha). bind_step Ha. apply Hk.
Qed.

Lemma total_date_now : total date_now.
Proof. intro w. eexists _, _. reflexivity. Qed.

Lemma total_lift {A} (r : result A) : (exists a, r = Ok a) -> total (lift r).
Proof. intros [a ->] w. eexists _, _. reflexivity. Qed.

Lemma total_mapM {A B} (f : A -> M B) (l : list A) :
  (forall x, total (f x)) -> total (mapM f l).
Proof.
  intro Hf. induction l as [|x l IH]; cbn [mapM].
  - apply total_ret.
  - apply total_bind; [apply Hf|]. intro y.
    apply total_bind; [exact IH|]. intro ys. apply total_ret.
Qed.

Module AnomalyFacts.

Import AnomalyDetector.

Lemma detectTemporalPatterns_loop_total :
  forall todo anomalies w,
    exists out w', detectTemporalPatterns_loop todo anomalies w = Ok (out, w').
Proof.
  induction todo as [|[accountId events] rest IH]; intros anomalies w;
    cbn [detectTemporalPatterns_loop].
  - eexists _, _. reflexivity.
  - destruct (length events <? 5)%nat eqn:E5; [apply IH|].
    unfold calculateIntervals.
    destruct (_ >? _)%num; [|apply IH].
    unfold bind at 1, date_now at 1.
    destruct (JS.sort event_after events) as [|e sorted] eqn:Es.
    + exfalso. apply Nat.ltb_ge in E5.
      rewrite <- (JSFacts.sort_length event_after events), Es in E5. simpl in E5. lia.
    + unfold bind at 1, lift at 1. apply IH.
Qed.

Lemma detectTemporalPatterns_total (timeline : list TimelineEvent.t) (w : World) :
  exists out w', detectTemporalPatterns timeline w = Ok (out, w').
Proof. apply detectTemporalPatterns_loop_total. Qed.

(** The windows of [splitIntoWindows] are not empty. *)
Lemma splitIntoWindows_loop_nonempty (windowSize : Z) :
  forall todo windows currentWindow windowStart,
    Forall (fun win => win <> []) windows ->
    Forall (fun win => win <> [])
      (splitIntoWindows_loop windowSize todo windows currentWindow windowStart).
Proof.
  assert (Hpush : forall windows currentWindow,
    Forall (fun win : list TimelineEvent.t => win <> []) windows ->
    Forall (fun win => win <> [])
      (if (0 <? length currentWindow)%nat then windows ++ [currentWindow] else windows)).
  { intros windows currentWindow Hw. destruct currentWindow as [|e t]; [exact Hw|].
    cbn. apply Forall_app. split; [exact Hw|]. repeat constructor. discriminate. }
  induction todo as [|event rest IH]; intros windows currentWindow windowStart Hw;
    cbn [splitIntoWindows_loop].
  - apply Hpush, Hw.
  - destruct (_ <? _)%Z; apply IH; [apply Hpush, Hw | exact Hw].
Qed.

Lemma compareBehavior_total (window1 window2 : list TimelineEvent.t) :
  window2 <> [] -> exists r, compareBehavior window1 window2 = Ok r.
Proof.
  intro H. unfold compareBehavior. cbv zeta.
  destruct (_ >? _)%num; [|eauto].
  destruct window2; [contradiction | eauto].
Qed.

Lemma compare_consecutive_total :
  forall windows changes,
    Forall (fun win => win <> []) windows ->
    exists r, compare_consecutive windows changes = Ok r.
Proof.
  induction windows as [|prevWindow rest IH]; intros changes Hw;
    cbn [compare_consecutive]; [eauto|].
  destruct rest as [|currWindow rest']; [eauto|].
  inversion Hw as [|? ? _ Hrest]; subst.
  inversion Hrest as [|? ? Hcurr _]; subst.
  destruct (compareBehavior_total prevWindow Hcurr) as [r ->]. cbn [rbind].
  apply IH, Hrest.
Qed.

Lemma detectBehaviorChanges_total (events : list TimelineEvent.t) :
  exists r, detectBehaviorChanges events = Ok r.
Proof.
  unfold detectBehaviorChanges. destruct (_ <? _)%nat; [eauto|].
  apply compare_consecutive_total, splitIntoWindows_loop_nonempty. constructor.
Qed.

Lemma detectBehaviorAnomalies_total (timeline : list TimelineEvent.t) :
  exists r, detectBehaviorAnomalies timeline = Ok r.
Proof.
  unfold detectBehaviorAnomalies. generalize (@nil Anomaly.t) as anomalies.
  induction (groupByBehavior timeline) as [|[key events] rest IH]; intro anomalies;
    cbn [detectBehaviorAnomalies_loop]; [eauto|].
  destruct (detectBehaviorChanges_total events) as [r ->]. cbn [rbind]. apply IH.
Qed.

Lemma detectNetworkAnomalies_total (timeline : list TimelineEvent.t) :
  total (detectNetworkAnomalies timeline).
Proof.
  unfold detectNetworkAnomalies.
  destruct (map TimelineEvent.cascadeDepth timeline) as [|d ds]; [apply total_ret|].
  cbv zeta. apply total_bind.
  - destruct (10 <? Zmax_list d ds)%Z; [|apply total_ret].
    apply total_bind; [apply total_date_now|]. intro now.
    apply total_bind; [apply total_date_now|]. intro stamp. apply total_ret.
  - intro deep. apply total_bind; [|intro stars; apply total_ret].
    apply total_mapM. intros [accountId n].
    apply total_bind; [apply total_date_now|]. intro stamp. apply total_ret.
Qed.

Lemma candidates_total (sortedTimeline : list TimelineEvent.t) (w : World) :
  exists cands w', candidates sortedTimeline w = Ok (cands, w').
Proof.
  unfold candidates. cbv zeta.
  destruct (detectTemporalPatterns_total sortedTimeline w) as (ps & w1 & Hp).
  bind_step Hp.
  destruct (detectBehaviorAnomalies_total sortedTimeline) as [bs Hb].
  bind_step (lift_Ok w1 Hb).
  destruct (detectNetworkAnomalies_total sortedTimeline w1) as (ns & w2 & Hn).
  bind_step Hn. eexists _, _. reflexivity.
Qed.

Lemma detectAnomalies_total (timeline : list TimelineEvent.t) (analysisId : string)
    (w : World) :
  exists out w', detectAnomalies timeline analysisId w = Ok (out, w').
Proof.
  unfold detectAnomalies. destruct (_ <? _)%nat; [eexists _, _; reflexivity|].
  cbv zeta.
  destruct (candidates_total (JS.sort event_after timeline) w) as (cs & w1 & Hc).
  bind_step Hc. eexists _, _. reflexivity.
Qed.

End AnomalyFacts.

(* ================================================================== *)
(** * AnomalyDetector: deduplication *)
(* ================================================================== *)

Unset Implicit Arguments.

Module DedupFacts.

Import AnomalyDetector.

Section UniqueKeys.
Variable V : Type.
Implicit Types (m : list (string * V)) (k : string) (v : V).

Lemma keys_sset_absent m k v :
  sget m k = None -> JS.keys (sset m k v) = JS.keys m ++ [k].
Proof.
  intro H. rewrite (@sset_fresh V m k v H). unfold JS.keys. rewrite map_app. reflexivity.
Qed.

Lemma NoDup_keys_get m k v : NoDup (JS.keys m) -> In (k, v) m -> sget m k = Some v.
Proof.
  induction m as [|[k' v'] t IH]; intros Hn Hin; [contradiction|].
  cbn [JS.keys map fst] in Hn. inversion Hn as [|? ? Hk Ht]; subst. cbn [JS.get].
  destruct Hin as [Hin|Hin].
  - injection Hin as -> ->. rewrite seq_refl. reflexivity.
  - destruct (String.eqb k' k) eqn:E.
    + apply String.eqb_eq in E. subst k'. exfalso. apply Hk.
      unfold JS.keys. apply in_map_iff. exists (k, v). auto.
    + apply IH; assumption.
Qed.

Lemma NoDup_keys_sset m k v : NoDup (JS.keys m) -> NoDup (JS.keys (sset m k v)).
Proof.
  intro Hn. destruct (sget m k) as [v0|] eqn:E.
  - rewrite (@skeys_sset_present V m k v v0 E). exact Hn.
  - rewrite (keys_sset_absent m k v E).
    apply NoDup_app; [exact Hn | repeat constructor; intros [] |].
    intros k' Hk' [<-|[]]. apply sget_None in E. contradiction.
Qed.

End UniqueKeys.

(** The map after [unique.set(key, x)]. *)
Lemma dedup_replace (processed : list Anomaly.t) (m : list (string * Anomaly.t))
    (x : Anomaly.t) :
  dedup_ok processed m ->
  (forall kept, sget m (anomaly_key x) = Some kept ->
                (getSeverityScore kept <= getSeverityScore x)%Z) ->
  dedup_ok (processed ++ [x]) (sset m (anomaly_key x) x).
Proof.
  intros (Hn & He & Hc) Hkept.
  split; [apply NoDup_keys_sset, Hn|]. split.
  - intros k a Hin. apply sset_In in Hin. destruct Hin as [Hin|Hin].
    + injection Hin as -> ->. split; [reflexivity | apply in_or_app; right; left; reflexivity].
    + destruct (He k a Hin). split; [assumption | apply in_or_app; left; assumption].
  - intros x' Hx'. apply in_app_or in Hx'. destruct Hx' as [Hx'|[<-|[]]].
    + destruct (Hc x' Hx') as (y & Hy & Hs).
      apply (NoDup_keys_get _ m _ _ Hn) in Hy.
      destruct (String.eqb (anomaly_key x) (anomaly_key x')) eqn:Ek.
      * apply String.eqb_eq in Ek. exists x. split.
        -- rewrite <- Ek. apply sget_In, sget_sset_same.
        -- rewrite <- Ek in Hy. specialize (Hkept y Hy). lia.
      * apply String.eqb_neq in Ek. exists y. split; [|exact Hs].
        apply sget_In. rewrite sget_sset_other by exact Ek. exact Hy.
    + exists x. split; [apply sget_In, sget_sset_same | lia].
Qed.

(** The map when the anomaly kept under the key of [x] stays. *)
Lemma dedup_keep (processed : list Anomaly.t) (m : list (string * Anomaly.t))
    (x kept : Anomaly.t) :
  dedup_ok processed m ->
  sget m (anomaly_key x) = Some kept ->
  (getSeverityScore x <= getSeverityScore kept)%Z ->
  dedup_ok (processed ++ [x]) m.
Proof.
  intros (Hn & He & Hc) Hg Hs.
  split; [exact Hn|]. split.
  - intros k a Hin. destruct (He k a Hin).
    split; [assumption | apply in_or_app; left; assumption].
  - intros x' Hx'. apply in_app_or in Hx'. destruct Hx' as [Hx'|[<-|[]]]; [apply Hc, Hx'|].
    exists kept. split; [apply sget_In, Hg | exact Hs].
Qed.

Lemma deduplicate_ok (anomalies : list Anomaly.t) :
  dedup_ok anomalies (deduplicate anomalies).
Proof.
  unfold deduplicate.
  assert (H : forall todo processed m,
    dedup_ok processed m ->
    dedup_ok (processed ++ todo)
      (fold_left (fun unique anomaly =>
           let key := anomaly_key anomaly in
           match sget unique key with
           | None => sset unique key anomaly
           | Some kept =>
               if (getSeverityScore kept <? getSeverityScore anomaly)%Z
               then sset unique key anomaly
               else unique
           end) todo m)).
  { induction todo as [|x todo IH]; intros processed m Hm; cbn [fold_left].
    - rewrite app_nil_r. exact Hm.
    - replace (processed ++ x :: todo) with ((processed ++ [x]) ++ todo)
        by (rewrite <- app_assoc; reflexivity).
      apply IH. cbv zeta.
      destruct (sget m (anomaly_key x)) as [kept|] eqn:Eg.
      + destruct (getSeverityScore kept <? getSeverityScore x)%Z eqn:Es.
        * apply dedup_replace; [exact Hm|]. intros kept' Hk.
          rewrite Eg in Hk. injection Hk as <-. apply Z.ltb_lt in Es. lia.
        * apply (dedup_keep _ _ _ _ Hm Eg). apply Z.ltb_ge in Es. exact Es.
      + apply dedup_replace; [exact Hm|]. intros kept' Hk. rewrite Eg in Hk. discriminate. }
  apply (H anomalies [] []).
  split; [constructor|]. split; [intros k a [] | intros x []].
Qed.

(** The output of [prioritizeAnomalies]: no two anomalies share a key, every
    input anomaly has a survivor under its key that is at least as severe,
    and nothing is invented. *)
Lemma prioritizeAnomalies_spec (anomalies : list Anomaly.t) :
  NoDup (map anomaly_key (prioritizeAnomalies anomalies)) /\
  (forall x, In x anomalies ->
     exists y, In y (prioritizeAnomalies anomalies) /\
               anomaly_key y = anomaly_key x /\
               (getSeverityScore x <= getSeverityScore y)%Z) /\
  incl (prioritizeAnomalies anomalies) anomalies.
Proof.
  destruct (deduplicate_ok anomalies) as (Hn & He & Hc).
  unfold prioritizeAnomalies.
  set (after := fun a b => (anomaly_score b - anomaly_score a >? Num.zero)%num).
  assert (Hkeys : map anomaly_key (JS.values (deduplicate anomalies))
                  = JS.keys (deduplicate anomalies)).
  { unfold JS.values, JS.keys. rewrite map_map. apply map_ext_in.
    intros [k a] Hin. apply (He k a Hin). }
  split; [|split].
  - apply (Permutation_NoDup (l := JS.keys (deduplicate anomalies))); [|exact Hn].
    rewrite <- Hkeys. apply Permutation_map, JSFacts.sort_perm.
  - intros x Hx. destruct (Hc x Hx) as (y & Hy & Hs). exists y. split; [|split].
    + apply JSFacts.sort_In. unfold JS.values. apply in_map_iff.
      exists (anomaly_key x, y). auto.
    + apply (He _ _ Hy).
    + exact Hs.
  - intros y Hy. apply JSFacts.sort_In in Hy. unfold JS.values in Hy.
    apply in_map_iff in Hy. destruct Hy as ([k a] & <- & Hin). apply (He k a Hin).
Qed.

Lemma same_slot_key (a b : Anomaly.t) : same_slot a b -> anomaly_key a = anomaly_key b.
Proof. intros (Ht & Ha & Hm). unfold anomaly_key. rewrite Ht, Ha, Hm. reflexivity. Qed.

End DedupFacts.

(** C4, as stated, fails.  The key joins the affected accounts in the
    order they are listed.  On the timeline below, the reposts and the
    quotes both change rate in the same millisecond; the two anomalies have
    the same type, the same timestamp and the same set of affected
    accounts, listed as a, b and as b, a, and both are returned. *)
Lemma deduplication_counterexample :
  exists out w' a b,
    AnomalyDetector.detectAnomalies swapped_timeline "analysis-1" (still_world 1000)
    = Ok (out, w') /\
    nth_error out 0 = Some a /\
    nth_error out 1 = Some b /\
    Anomaly.affectedAccounts a = ["a"; "b"]%string /\
    Anomaly.affectedAccounts b = ["b"; "a"]%string /\
    Anomaly.timestamp a = Anomaly.timestamp b /\
    same_slot_as_sets a b.
Proof.
  eexists _, _, _, _. split; [vm_compute; reflexivity|].
  split; [reflexivity|]. split; [reflexivity|].
  split; [reflexivity|]. split; [reflexivity|]. split; [reflexivity|].
  split; [reflexivity|]. split; [|reflexivity].
  intro x. cbn [Anomaly.affectedAccounts]. simpl. tauto.
Qed.

(** C4, amended.  On every timeline [detectAnomalies] returns, and the
    list it returns never holds, at two positions, anomalies of the same
    type, with the same list of affected accounts in the same order, and
    with timestamps in the same minute (the timestamp is rounded down).
    Every anomaly the detectors produce has a survivor in the list with the
    same key that is at least as severe. *)
Theorem detectAnomalies_deduplicated
    (timeline : list TimelineEvent.t) (analysisId : string) (w : World) :
  exists out w',
    AnomalyDetector.detectAnomalies timeline analysisId w = Ok (out, w') /\
    (forall i j a b,
       i <> j -> nth_error out i = Some a -> nth_error out j = Some b ->
       ~ same_slot a b) /\
    (forall cands w1,
       10 <= length timeline ->
       AnomalyDetector.candidates (JS.sort AnomalyDetector.event_after timeline) w
       = Ok (cands, w1) ->
       forall x, In x cands ->
         exists y, In y out /\
                   AnomalyDetector.anomaly_key y = AnomalyDetector.anomaly_key x /\
                   (AnomalyDetector.getSeverityScore x
                    <= AnomalyDetector.getSeverityScore y)%Z).
Proof.
  unfold AnomalyDetector.detectAnomalies, AnomalyDetector.minEventsForAnalysis.
  destruct (length timeline <? 10) eqn:E.
  - eexists _, _. split; [reflexivity|]. split.
    + intros i j a b _ Ha. destruct i; discriminate Ha.
    + intros cands w1 Hlen. apply Nat.ltb_lt in E. lia.
  - cbv zeta.
    destruct (AnomalyFacts.candidates_total
                (JS.sort AnomalyDetector.event_after timeline) w) as (cs & w1 & Hc).
    bind_step Hc.
    destruct (DedupFacts.prioritizeAnomalies_spec cs) as (Hn & Hs & _).
    eexists _, _. split; [reflexivity|]. split.
    + intros i j a b Hij Ha Hb Hslot.
      apply DedupFacts.same_slot_key in Hslot.
      apply Hij.
      apply (proj1 (NoDup_nth_error _) Hn).
      * rewrite length_map. apply nth_error_Some. rewrite Ha. discriminate.
      * rewrite !nth_error_map, Ha, Hb. cbn. rewrite Hslot. reflexivity.
    + intros cands w2 _ Hc'. rewrite Hc in Hc'. injection Hc' as <- <-. exact Hs.
Qed.

Lemma detectAnomalies_deduplicated_witness :
  10 <= length swapped_timeline /\
  exists out w',
    AnomalyDetector.detectAnomalies swapped_timeline "analysis-1" (still_world 1000)
    = Ok (out, w') /\
    forall a b, nth_error out 0 = Some a -> nth_error out 1 = Some b -> ~ same_slot a b.
Proof.
  split; [vm_compute; lia|].
  destruct (detectAnomalies_deduplicated swapped_timeline "analysis-1" (still_world 1000))
    as (out & w' & Hout & Hslot & _).
  exists out, w'. split; [exact Hout|].
  intros a b. apply Hslot. discriminate.
Defined.

(* ================================================================== *)
(** * AnalysisEngine: the pipeline and the clock *)
(* ================================================================== *)

Module EngineFacts.

Lemma total_lift_Ok {A} (a : A) : total (lift (Ok a)).
Proof. apply total_lift. eexists. reflexivity. Qed.

Lemma calculateMetrics_total (account : Account.t) :
  total (BotDetector.calculateMetrics account).
Proof.
  unfold BotDetector.calculateMetrics.
  apply total_bind; [apply total_date_now | intro now; apply total_ret].
Qed.

Lemma extractSignals_total (account : Account.t) :
  forall w, exists signals w',
    BotDetector.extractSignals account w = Ok (signals, w') /\ length signals = 7.
Proof.
  intro w. unfold BotDetector.extractSignals, BotDetector.calculateMetrics,
    BotDetector.accountAgeAnalysis, bind, date_now, ret.
  eexists _, _. split; reflexivity.
Qed.

Lemma fallbackCalculation_total (features : list num) :
  6 <= length features -> exists p, BotDetector.fallbackCalculation features = Ok p.
Proof.
  intro H. unfold BotDetector.fallbackCalculation.
  replace (length features <? 6) with false by (symmetry; apply Nat.ltb_ge; exact H).
  eexists. reflexivity.
Qed.

Lemma prepareFeatures_spec (account : Account.t) (signals : list BotSignal.t) :
  forall w, exists features w',
    BotDetector.prepareFeatures account signals w = Ok (features, w') /\
    length features = 6 + length signals.
Proof.
  intro w. unfold BotDetector.prepareFeatures, BotDetector.calculateMetrics,
    bind, date_now, ret.
  eexists _, _. split; [reflexivity|].
  rewrite length_app, length_map. reflexivity.
Qed.

Lemma analyzeAccount_total (account : Account.t) :
  total (BotDetector.analyzeAccount account).
Proof.
  intro w. unfold BotDetector.analyzeAccount.
  destruct (extractSignals_total account w) as (signals & w1 & Hs & Hlen).
  bind_step Hs.
  destruct (prepareFeatures_spec account signals w1) as (features & w2 & Hf & Hfl).
  bind_step Hf.
  destruct (@fallbackCalculation_total features) as [p Hp]; [lia|].
  unfold BotDetector.calculateBotProbability.
  bind_step (lift_Ok w2 Hp). eexists _, _. reflexivity.
Qed.

Lemma detectBots_total (accounts : list Account.t) : total (BotDetector.detectBots accounts).
Proof. apply total_mapM, analyzeAccount_total. Qed.

Lemma generateSummary_total network bots coordination anomalies :
  total (AnalysisEngine.generateSummary network bots coordination anomalies).
Proof.
  unfold AnalysisEngine.generateSummary. cbv zeta.
  apply total_bind; [apply total_date_now | intro now; apply total_ret].
Qed.

(** The clusters found in two worlds differ in their ids and histograms
    only. *)
Lemma analyzeCluster_core (clusterNodes : list string) (allNodes : list NetworkNode.t)
    (edges : list NetworkEdge.t) (w1 w2 : World) :
  exists c1 c2 w1' w2',
    NetworkAnalyzer.analyzeCluster clusterNodes allNodes edges w1 = Ok (c1, w1') /\
    NetworkAnalyzer.analyzeCluster clusterNodes allNodes edges w2 = Ok (c2, w2') /\
    cluster_core c1 = cluster_core c2.
Proof.
  unfold NetworkAnalyzer.analyzeCluster. cbv zeta.
  destruct (ClusterFacts.calculateActivityPattern_ok clusterNodes allNodes w1) as [td1 H1].
  destruct (ClusterFacts.calculateActivityPattern_ok clusterNodes allNodes w2) as [td2 H2].
  cbv zeta in H1, H2. bind_step H1. bind_step H2.
  unfold bind, date_now, math_random36, ret.
  eexists _, _, _, _. split; [reflexivity|]. split; reflexivity.
Qed.

Lemma detectClusters_loop_core (allNodes : list NetworkNode.t)
    (edges : list NetworkEdge.t) (adj : Traversal.adjacency) :
  forall todo visited cs1 cs2 w1 w2,
    map cluster_core cs1 = map cluster_core cs2 ->
    exists o1 o2 w1' w2',
      NetworkAnalyzer.detectClusters_loop todo allNodes edges adj visited cs1 w1
      = Ok (o1, w1') /\
      NetworkAnalyzer.detectClusters_loop todo allNodes edges adj visited cs2 w2
      = Ok (o2, w2') /\
      map cluster_core o1 = map cluster_core o2.
Proof.
  induction todo as [|node rest IH]; intros visited cs1 cs2 w1 w2 Hcs;
    cbn [NetworkAnalyzer.detectClusters_loop].
  - eexists _, _, _, _. split; [reflexivity|]. split; [reflexivity | exact Hcs].
  - destruct (smem visited (NetworkNode.accountId node)); [apply IH, Hcs|].
    destruct (TraversalFacts.expandCluster_total (NetworkNode.accountId node) adj visited)
      as [[cluster visited'] Hex].
    unfold NetworkAnalyzer.expandCluster.
    rewrite (@bind_Ok _ _ _ _ w1 _ _ (lift_Ok w1 Hex)).
    rewrite (@bind_Ok _ _ _ _ w2 _ _ (lift_Ok w2 Hex)).
    cbv beta iota.
    destruct (3 <=? length cluster)%nat; [|apply IH, Hcs].
    destruct (analyzeCluster_core cluster allNodes edges w1 w2)
      as (c1 & c2 & w1' & w2' & H1 & H2 & Hc).
    rewrite (@bind_Ok _ _ _ _ w1 _ _ H1). rewrite (@bind_Ok _ _ _ _ w2 _ _ H2).
    apply IH. rewrite !map_app, Hcs. cbn [map]. rewrite Hc. reflexivity.
Qed.

End EngineFacts.

(** C3, as stated, fails.  Two runs in a row on the same dataset, the
    first when the one account is a day old and the second when it is 2000
    days old, classify the account as a cyborg and as a bot: the bot
    probability is computed from the age of the account at the time of the
    run. *)
Lemma pipeline_depends_on_clock :
  exists first second w',
    run_twice alice_alone "analysis-1" later_world = Ok ((first, second), w') /\
    map BotDetectionResult.classification (FullAnalysis.bots first) = [cyborg] /\
    map BotDetectionResult.classification (FullAnalysis.bots second) = [bot] /\
    FullAnalysis.bots first <> FullAnalysis.bots second.
Proof.
  eexists _, _, _. split; [vm_compute; reflexivity|].
  split; [reflexivity|]. split; [reflexivity|].
  intro H. apply (f_equal (map BotDetectionResult.classification)) in H.
  discriminate H.
Qed.
Unset Implicit Arguments.

(* ================================================================== *)
(** * BotDetector: the signals and the probability *)
(* ================================================================== *)

Module BotFacts.

Lemma in_unit_const (q : Q) : (0 <= q)%Q -> (q <= 1)%Q -> in_unit (Fin q).
Proof. intros H0 H1. split; assumption. Qed.

Lemma in_unit_finite (x : num) : in_unit x -> is_finite x.
Proof. destruct x; simpl; tauto. Qed.

Lemma in_range_unit (x : num) : in_range (3 # 10) x -> in_unit x.
Proof. destruct x; simpl; try tauto. intros [H0 H1]. split; lra. Qed.

Ltac closed_unit := vm_compute; split; discriminate.

(** Destructs the tests that mention the input [x]. *)
Ltac split_tests x :=
  repeat match goal with
         | |- context [if ?c then _ else _] =>
             lazymatch c with context [x] => destruct c end
         end.

Lemma accountAgeAnalysis_unit (account : Account.t) (w : World) :
  exists v w', BotDetector.accountAgeAnalysis account w = Ok (v, w') /\ in_unit v.
Proof.
  unfold BotDetector.accountAgeAnalysis, bind, date_now, ret.
  eexists _, _. split; [reflexivity|].
  split_tests account; closed_unit.
Qed.

Lemma tweetFrequencyAnalysis_unit (metrics : ProfileMetrics.t) :
  in_unit (BotDetector.tweetFrequencyAnalysis metrics).
Proof.
  unfold BotDetector.tweetFrequencyAnalysis. cbv zeta.
  split_tests metrics; closed_unit.
Qed.

Lemma followRatioAnalysis_unit (account : Account.t) :
  in_unit (BotDetector.followRatioAnalysis account).
Proof.
  unfold BotDetector.followRatioAnalysis. cbv zeta.
  split_tests account; closed_unit.
Qed.

Lemma profileCompletenessAnalysis_range (account : Account.t) :
  in_range (3 # 10) (BotDetector.profileCompletenessAnalysis account).
Proof.
  unfold BotDetector.profileCompletenessAnalysis. cbv zeta beta.
  split_tests account; closed_unit.
Qed.

Lemma usernamePatternAnalysis_unit (username : string) :
  in_unit (BotDetector.usernamePatternAnalysis username).
Proof.
  unfold BotDetector.usernamePatternAnalysis. cbv zeta beta.
  split_tests username; closed_unit.
Qed.

Lemma finite_add (x y : num) : is_finite x -> is_finite y -> is_finite (Num.add x y).
Proof. destruct x, y; simpl; tauto. Qed.

Lemma finite_mul (x y : num) : is_finite x -> is_finite y -> is_finite (Num.mul x y).
Proof. destruct x, y; simpl; tauto. Qed.

Lemma finite_min (x y : num) : is_finite x -> is_finite y -> is_finite (Num.min x y).
Proof.
  destruct x as [| |a|], y as [| |b|]; simpl; try tauto. intros _ _.
  unfold Num.min. rewrite NumFacts.cmp_Fin. destruct (a ?= b)%Q; exact I.
Qed.

Lemma finite_max (x y : num) : is_finite x -> is_finite y -> is_finite (Num.max x y).
Proof.
  destruct x as [| |a|], y as [| |b|]; simpl; try tauto. intros _ _.
  unfold Num.max. rewrite NumFacts.cmp_Fin. destruct (a ?= b)%Q; exact I.
Qed.

(** A quotient by a finite number other than zero is finite. *)
Lemma finite_div (x : num) (b : Q) :
  is_finite x -> ~ (b == 0)%Q -> is_finite (Num.div x (Fin b)).
Proof.
  destruct x as [| |a|]; simpl; try tauto. intros _ Hb.
  destruct (Num.Qsign b) eqn:E; try exact I.
  exfalso. apply Hb. apply NumFacts.Qsign_Eq. exact E.
Qed.

(** [Math.max(1, x)] of a finite [x] is a number from 1 on. *)
Lemma max_one_ge (x : num) :
  is_finite x -> exists q, Num.max Num.one x = Fin q /\ (1 <= q)%Q.
Proof.
  destruct x as [| |a|]; simpl; try tauto. intros _.
  unfold Num.max, Num.one. rewrite NumFacts.cmp_Fin.
  destruct (1 ?= a)%Q eqn:E.
  - exists 1%Q. split; [reflexivity | lra].
  - exists a. split; [reflexivity|]. apply Qlt_alt in E. lra.
  - exists 1%Q. split; [reflexivity | lra].
Qed.

Lemma inject_Z_nonzero (z : Z) : z <> 0%Z -> ~ (inject_Z z == 0)%Q.
Proof. intros H E. apply H. unfold Qeq in E. simpl in E. lia. Qed.

Lemma of_nat_S_nonzero (n : nat) : ~ (inject_Z (Z.of_nat (S n)) == 0)%Q.
Proof. apply inject_Z_nonzero. lia. Qed.

(** [Math.min(1, Math.max(0, x))] of a finite [x] *)
Lemma clamp_unit (x : num) : is_finite x -> in_unit (Num.min Num.one (Num.max Num.zero x)).
Proof.
  destruct x as [| |a|]; simpl; try tauto. intros _.
  unfold Num.max, Num.min, Num.zero, Num.one. rewrite NumFacts.cmp_Fin.
  destruct (0 ?= a)%Q eqn:E; rewrite NumFacts.cmp_Fin.
  - vm_compute. split; discriminate.
  - apply Qlt_alt in E.
    destruct (1 ?= a)%Q eqn:E1; simpl.
    + split; lra.
    + apply Qlt_alt in E1. split; lra.
    + apply Qgt_alt in E1. split; lra.
  - vm_compute. split; discriminate.
Qed.

Lemma weighted_sum_finite (l : list (num * num)) :
  forall acc,
    is_finite acc ->
    Forall (fun fw => is_finite (fst fw) /\ is_finite (snd fw)) l ->
    is_finite (fold_left (fun sum '(f, w) => (sum + f * w)%num) l acc).
Proof.
  induction l as [|[f w] t IH]; intros acc Hacc Hl; simpl; [exact Hacc|].
  inversion Hl as [|? ? [Hf Hw] Ht]; subst.
  apply IH; [|exact Ht]. apply finite_add; [exact Hacc | apply finite_mul; assumption].
Qed.

Lemma Forall_combine {A B} (P : A -> Prop) (Q : B -> Prop) (l1 : list A) :
  forall l2,
    Forall P l1 -> Forall Q l2 ->
    Forall (fun p => P (fst p) /\ Q (snd p)) (combine l1 l2).
Proof.
  induction l1 as [|a t IH]; intros l2 H1 H2; simpl; [constructor|].
  destruct l2 as [|b u]; [constructor|].
  inversion H1; inversion H2; subst. constructor; [split; assumption | apply IH; assumption].
Qed.

Lemma Forall_repeat {A} (P : A -> Prop) (x : A) (n : nat) : P x -> Forall P (repeat x n).
Proof. intro H. induction n; simpl; constructor; assumption. Qed.

Lemma fallbackCalculation_unit (features : list num) :
  6 <= length features ->
  Forall is_finite features ->
  exists p, BotDetector.fallbackCalculation features = Ok p /\ in_unit p.
Proof.
  intros Hlen Hfin. unfold BotDetector.fallbackCalculation.
  replace (length features <? 6) with false by (symmetry; apply Nat.ltb_ge; exact Hlen).
  eexists. split; [reflexivity|]. apply clamp_unit.
  apply weighted_sum_finite; [exact I|].
  apply Forall_combine; [exact Hfin|].
  apply Forall_app. split.
  - repeat constructor.
  - destruct (length features - 6) as [|n]; [constructor|].
    apply Forall_repeat. apply finite_div; [exact I | apply of_nat_S_nonzero].
Qed.

Lemma extractSignals_spec (account : Account.t) (w : World) :
  exists signals w',
    BotDetector.extractSignals account w = Ok (signals, w') /\
    map BotSignal.type signals = signal_types /\
    map BotSignal.weight signals
    = [Fin (3 # 20); Fin (1 # 5); Fin (3 # 20); Fin (1 # 10); Fin (1 # 10);
       Fin (3 # 20); Fin (3 # 20)] /\
    Forall (fun s => in_unit (BotSignal.value s)) signals.
Proof.
  unfold BotDetector.extractSignals.
  destruct (EngineFacts.calculateMetrics_total account w) as (metrics & w1 & Hm).
  bind_step Hm.
  destruct (accountAgeAnalysis_unit account w1) as (v & w2 & Hv & Hu).
  bind_step Hv. cbv zeta. unfold ret.
  eexists _, _. split; [reflexivity|]. split; [reflexivity|]. split; [reflexivity|].
  repeat apply Forall_cons; [| | | | | | | apply Forall_nil]; cbn [BotSignal.value].
  - exact Hu.
  - apply tweetFrequencyAnalysis_unit.
  - apply followRatioAnalysis_unit.
  - apply in_range_unit, profileCompletenessAnalysis_range.
  - destruct (Account.profileImageUrl account) as [u|]; [|closed_unit].
    destruct (Str.includes u "default_profile"); closed_unit.
  - apply usernamePatternAnalysis_unit.
  - closed_unit.
Qed.

Lemma prepareFeatures_finite (account : Account.t) (signals : list BotSignal.t) (w : World) :
  Forall (fun s => in_unit (BotSignal.value s)) signals ->
  exists features w',
    BotDetector.prepareFeatures account signals w = Ok (features, w') /\
    length features = 6 + length signals /\
    Forall is_finite features.
Proof.
  intro Hs. unfold BotDetector.prepareFeatures, BotDetector.calculateMetrics,
    bind, date_now, ret. cbv zeta.
  eexists _, _. split; [reflexivity|].
  split; [rewrite length_app, length_map; reflexivity|].
  cbn [ProfileMetrics.accountAgeInDays ProfileMetrics.averageTweetsPerDay
       ProfileMetrics.followersToFollowingRatio].
  set (age := Num.max Num.one _).
  destruct (max_one_ge (Num.of_Z (clock w (ticks w) - Account.createdAt account)
                        / BotDetector.msPerDay)%num) as (q & Hq & Hge).
  { apply finite_div; [exact I | discriminate]. }
  fold age in Hq. rewrite Hq.
  apply Forall_app. split.
  - repeat constructor.
    + apply finite_min; [|exact I]. apply finite_div; [|discriminate].
      apply finite_div; [exact I|]. intro E. rewrite E in Hge. lra.
    + apply finite_min; [|exact I]. apply finite_div; [exact I | discriminate].
    + apply finite_min; [|exact I]. apply finite_div; [exact I | discriminate].
    + apply finite_min; [|exact I]. apply finite_div; [|discriminate].
      apply finite_div; [exact I|]. apply inject_Z_nonzero. lia.
    + destruct (Account.verified account); exact I.
  - apply Forall_map. revert Hs. apply Forall_impl. intro s. apply in_unit_finite.
Qed.

Lemma in_unit_inv (x : num) : in_unit x -> exists q, x = Fin q /\ (0 <= q)%Q /\ (q <= 1)%Q.
Proof. destruct x as [| |q|]; simpl; try tauto. intros [H0 H1]. exists q. auto. Qed.

(** The weighted average of the seven signals and the probability are both
    in the unit interval, and so is the confidence. *)
Lemma calculateConfidence_unit (signals : list BotSignal.t) (p : num) :
  map BotSignal.weight signals
  = [Fin (3 # 20); Fin (1 # 5); Fin (3 # 20); Fin (1 # 10); Fin (1 # 10);
     Fin (3 # 20); Fin (3 # 20)] ->
  Forall (fun s => in_unit (BotSignal.value s)) signals ->
  in_unit p ->
  in_unit (BotDetector.calculateConfidence signals p).
Proof.
  intros Hw Hv Hp.
  do 7 (destruct signals as [|[? ? ? ?] signals]; [discriminate Hw|]).
  destruct signals; [|discriminate Hw].
  cbn [map BotSignal.weight] in Hw. injection Hw as -> -> -> -> -> -> ->.
  repeat match goal with
         | H : Forall _ (_ :: _) |- _ => inversion H; clear H; subst
         end.
  cbn [BotSignal.value] in *.
  repeat match goal with
         | H : in_unit _ |- _ =>
             apply in_unit_inv in H; destruct H as (? & -> & ? & ?)
         end.
  unfold BotDetector.calculateConfidence.
  cbn [fold_left BotSignal.value BotSignal.weight Num.add Num.mul Num.sub Num.neg
       Num.abs Num.zero Num.one in_unit].
  rewrite !Qred_correct.
  match goal with
  | |- context [Qabs (?a + - ?b)] =>
      set (avg := a); rename b into q
  end.
  assert (Havg : (0 <= avg <= 1)%Q) by (unfold avg; rewrite ?Qred_correct; lra).
  assert (Hq : (0 <= q <= 1)%Q) by lra.
  clearbody avg.
  assert (Habs1 : (0 <= Qabs (avg + - q) <= 1)%Q).
  { split; [apply Qabs_nonneg | apply Qabs_Qle_condition; lra]. }
  assert (Habs2 : (0 <= Qabs (q + - (1 # 2)) <= 1 # 2)%Q).
  { split; [apply Qabs_nonneg | apply Qabs_Qle_condition; lra]. }
  rewrite ?Qred_correct. lra.
Qed.

Lemma analyzeAccount_spec (account : Account.t) (w : World) :
  exists r w',
    BotDetector.analyzeAccount account w = Ok (r, w') /\
    BotDetectionResult.accountId r = Account.id account /\
    result_ok r.
Proof.
  unfold BotDetector.analyzeAccount.
  destruct (extractSignals_spec account w) as (signals & w1 & Hs & Ht & Hw & Hv).
  bind_step Hs.
  destruct (prepareFeatures_finite account signals w1 Hv)
    as (features & w2 & Hf & Hlen & Hfin).
  bind_step Hf.
  destruct (fallbackCalculation_unit features) as (p & Hp & Hu); [lia | exact Hfin |].
  unfold BotDetector.calculateBotProbability.
  bind_step (@lift_Ok _ _ _ w2 Hp). unfold ret.
  eexists _, _. split; [reflexivity|]. split; [reflexivity|].
  unfold result_ok. cbn [BotDetectionResult.botProbability BotDetectionResult.confidence
    BotDetectionResult.signals BotDetectionResult.classification].
  split; [exact Hu|]. split; [apply calculateConfidence_unit; assumption|].
  split; [exact Ht|]. split; [exact Hv | reflexivity].
Qed.

Lemma mapM_spec {A B} (f : A -> M B) (P : A -> B -> Prop) (l : list A) :
  (forall x w, exists y w', f x w = Ok (y, w') /\ P x y) ->
  forall w, exists ys w', mapM f l w = Ok (ys, w') /\ Forall2 P l ys.
Proof.
  intro Hf. induction l as [|x t IH]; intro w; cbn [mapM].
  - eexists _, _. split; [reflexivity | constructor].
  - destruct (Hf x w) as (y & w1 & Hy & HP). bind_step Hy.
    destruct (IH w1) as (ys & w2 & Hys & HPs). bind_step Hys.
    eexists _, _. split; [reflexivity|]. constructor; assumption.
Qed.

Lemma analyzeAccount_clock (account : Account.t) (w : World) :
  exists r, BotDetector.analyzeAccount account w = Ok (r, advance 3 w).
Proof.
  unfold BotDetector.analyzeAccount, BotDetector.extractSignals,
    BotDetector.prepareFeatures, BotDetector.calculateMetrics,
    BotDetector.accountAgeAnalysis, BotDetector.calculateBotProbability,
    BotDetector.fallbackCalculation, bind, date_now, ret, lift.
  cbn [length app map Nat.ltb Nat.leb ticks clock random draws tzOffset].
  eexists. reflexivity.
Qed.

Lemma detectBots_clock (accounts : list Account.t) :
  forall w, exists rs,
    BotDetector.detectBots accounts w = Ok (rs, advance (3 * length accounts) w).
Proof.
  unfold BotDetector.detectBots.
  induction accounts as [|a t IH]; intro w; cbn [mapM].
  - exists []. destruct w. reflexivity.
  - destruct (analyzeAccount_clock a w) as [r Hr]. bind_step Hr.
    destruct (IH (advance 3 w)) as [rs Hrs]. bind_step Hrs.
    exists (r :: rs). unfold ret, advance. cbn [ticks clock random draws tzOffset length].
    replace (3 * S (length t) + ticks w) with (3 * length t + (3 + ticks w)) by lia.
    reflexivity.
Qed.

End BotFacts.

(** X1.  The profile completeness signal never exceeds 0.3: the penalties of the
    missing fields (0.3, 0.2, 0.3 and 0.2) are averaged over the fields that
    are missing, not summed, so an account with every field missing scores
    0.25 and no account scores more than 0.3. *)
Theorem profileCompletenessAnalysis_at_most_03 (account : Account.t) :
  in_range (3 # 10) (BotDetector.profileCompletenessAnalysis account).
Proof. apply BotFacts.profileCompletenessAnalysis_range. Qed.

(** X2.  For every account and at every time, [extractSignals] returns the seven
    signals account_age, tweet_frequency, follow_ratio,
    profile_completeness, default_image, username_pattern and
    engagement_rate in this order; their weights add up to 1 and each
    value is a number of the interval [0,1]. *)
Theorem extractSignals_seven_signals (account : Account.t) (w : World) :
  exists signals w',
    BotDetector.extractSignals account w = Ok (signals, w') /\
    map BotSignal.type signals = signal_types /\
    Num.sum (map BotSignal.weight signals) = Num.one /\
    Forall (fun s => in_unit (BotSignal.value s)) signals.
Proof.
  destruct (BotFacts.extractSignals_spec account w) as (signals & w' & Hs & Ht & Hw & Hv).
  exists signals, w'. split; [exact Hs|]. split; [exact Ht|]. split; [|exact Hv].
  rewrite Hw. reflexivity.
Qed.

(** X3.  On a feature vector of at least six finite numbers the weighted sum of
    [fallbackCalculation] is clamped: the probability is a number of the
    interval [0,1], whatever the size of the features. *)
Theorem fallbackCalculation_clamped (features : list num) :
  6 <= length features ->
  Forall is_finite features ->
  exists p, BotDetector.fallbackCalculation features = Ok p /\ in_unit p.
Proof. apply BotFacts.fallbackCalculation_unit. Qed.

Lemma fallbackCalculation_clamped_witness :
  6 <= length sample_features /\
  Forall is_finite sample_features /\
  exists p, BotDetector.fallbackCalculation sample_features = Ok p /\ in_unit p.
Proof.
  assert (Hlen : 6 <= length sample_features) by (simpl; lia).
  assert (Hfin : Forall is_finite sample_features) by (repeat constructor).
  split; [exact Hlen|]. split; [exact Hfin|].
  exact (fallbackCalculation_clamped sample_features Hlen Hfin).
Defined.

(** X4.  [detectBots] never fails and returns one result per account, in the
    order of the accounts.  In every result the bot probability and the
    confidence are numbers of the interval [0,1], the seven signals have
    values in [0,1], and the class is the class of the probability. *)
Theorem detectBots_results (accounts : list Account.t) (w : World) :
  exists results w',
    BotDetector.detectBots accounts w = Ok (results, w') /\
    map BotDetectionResult.accountId results = map Account.id accounts /\
    Forall result_ok results.
Proof.
  destruct (@BotFacts.mapM_spec _ _ BotDetector.analyzeAccount
              (fun a r => BotDetectionResult.accountId r = Account.id a /\ result_ok r)
              accounts BotFacts.analyzeAccount_spec w) as (rs & w' & Hrs & Hall).
  exists rs, w'. split; [exact Hrs|]. clear Hrs.
  induction Hall as [|a r l rs' [Hid Hok] _ [IH1 IH2]].
  - split; [reflexivity | constructor].
  - split; [cbn [map]; rewrite Hid, IH1; reflexivity | constructor; assumption].
Qed.

(** X5.  [detectBots] reads the clock exactly three times for each
    account, twice for the metrics and once for the age signal: the age of
    one account is measured at three instants. *)
Theorem detectBots_reads_clock (accounts : list Account.t) (w : World) :
  exists results w',
    BotDetector.detectBots accounts w = Ok (results, w') /\
    ticks w' = 3 * length accounts + ticks w.
Proof.
  destruct (BotFacts.detectBots_clock accounts w) as [results H].
  exists results, (advance (3 * length accounts) w). split; [exact H | reflexivity].
Qed.
Unset Implicit Arguments.

(* ================================================================== *)
(** * NetworkAnalyzer: the graph is a star *)
(* ================================================================== *)

Module StarFacts.

Import NetworkAnalyzer.

Lemma shas_keys {V} (m : list (string * V)) (k : string) :
  shas m k = smem (JS.keys m) k.
Proof.
  unfold JS.has. induction m as [|[k' v] t IH]; simpl; [reflexivity|].
  rewrite (String.eqb_sym k k'). destruct (String.eqb k' k); [reflexivity | exact IH].
Qed.

Lemma sset_same {V} (m : list (string * V)) (k : string) (v : V) :
  sget m k = Some v -> sset m k v = m.
Proof.
  induction m as [|[k' v'] t IH]; simpl; [discriminate|].
  destruct (String.eqb k' k).
  - intro H. injection H as ->. reflexivity.
  - intro H. rewrite (IH H). reflexivity.
Qed.

Lemma sadd_idem (s : list string) (k : string) : sadd (sadd s k) k = sadd s k.
Proof.
  unfold JS.add at 1. rewrite smem_sadd, seq_refl, Bool.orb_true_r. reflexivity.
Qed.

Lemma suniq_snoc (l : list string) (k : string) : suniq (l ++ [k]) = sadd (suniq l) k.
Proof. unfold JS.uniq. rewrite fold_left_app. reflexivity. Qed.

Lemma smem_snoc (l : list string) (k x : string) :
  smem (l ++ [k]) x = smem l x || String.eqb x k.
Proof.
  unfold JS.mem. rewrite existsb_app. simpl. rewrite Bool.orb_false_r. reflexivity.
Qed.

Lemma smem_false (s : list string) (k : string) : smem s k = false <-> ~ In k s.
Proof.
  rewrite <- smem_In. destruct (smem s k); split; intro H; try reflexivity;
    try discriminate; try (intro; discriminate). exfalso. apply H. reflexivity.
Qed.

Lemma sadd_fresh (s : list string) (k : string) : ~ In k s -> sadd s k = s ++ [k].
Proof. intro H. unfold JS.add. apply smem_false in H. rewrite H. reflexivity. Qed.

Lemma sadd_present (s : list string) (k : string) : In k s -> sadd s k = s.
Proof. intro H. unfold JS.add. apply smem_In in H. rewrite H. reflexivity. Qed.

Section StarMap.
Variable V : Type.

Lemma star_map_ext (a : string) (va : V) (F G : string -> V) (ks : list string) :
  (forall k, In k ks -> F k = G k) -> star_map a va F ks = star_map a va G ks.
Proof.
  intro H. unfold star_map. f_equal. apply map_ext_in. intros k Hk.
  rewrite (H k Hk). reflexivity.
Qed.

Lemma sget_star_author (a : string) (va : V) (F : string -> V) (ks : list string) :
  sget (star_map a va F ks) a = Some va.
Proof. unfold star_map. simpl. rewrite seq_refl. reflexivity. Qed.

Lemma sget_map_key (F : string -> V) (ks : list string) (k : string) :
  In k ks -> sget (map (fun k => (k, F k)) ks) k = Some (F k).
Proof.
  induction ks as [|k0 t IH]; simpl; [tauto|].
  destruct (String.eqb_spec k0 k) as [->|Hne]; [reflexivity|].
  intros [H|H]; [contradiction | exact (IH H)].
Qed.

Lemma sget_star_key (a : string) (va : V) (F : string -> V) (ks : list string) (k : string) :
  k <> a -> In k ks -> sget (star_map a va F ks) k = Some (F k).
Proof.
  intros Hne Hin. unfold star_map. simpl.
  destruct (String.eqb_spec a k) as [E|_]; [congruence|].
  apply sget_map_key, Hin.
Qed.

Lemma sget_star_none (a : string) (va : V) (F : string -> V) (ks : list string) (k : string) :
  k <> a -> ~ In k ks -> sget (star_map a va F ks) k = None.
Proof.
  intros Hne Hin. apply sget_None. unfold star_map, JS.keys. simpl.
  rewrite map_map. simpl. rewrite map_id. intros [H|H]; [congruence | contradiction].
Qed.

Lemma sset_star_author (a : string) (va v : V) (F : string -> V) (ks : list string) :
  sset (star_map a va F ks) a v = star_map a v F ks.
Proof. unfold star_map. simpl. rewrite seq_refl. reflexivity. Qed.

Lemma sset_map_key (F : string -> V) (ks : list string) (k : string) (v : V) :
  NoDup ks -> In k ks ->
  sset (map (fun k => (k, F k)) ks) k v
  = map (fun k' => (k', if String.eqb k' k then v else F k')) ks.
Proof.
  induction ks as [|k0 t IH]; simpl; [tauto|].
  intros Hnd Hin. inversion Hnd as [|? ? Hk0 Ht]; subst.
  destruct (String.eqb_spec k0 k) as [->|Hne].
  - f_equal. apply map_ext_in. intros k' Hk'.
    destruct (String.eqb_spec k' k) as [->|_]; [contradiction | reflexivity].
  - f_equal. destruct Hin as [H|H]; [contradiction|]. exact (IH Ht H).
Qed.

Lemma sset_star_key (a : string) (va v : V) (F : string -> V) (ks : list string) (k : string) :
  k <> a -> NoDup ks -> In k ks ->
  sset (star_map a va F ks) k v
  = star_map a va (fun k' => if String.eqb k' k then v else F k') ks.
Proof.
  intros Hne Hnd Hin. unfold star_map. simpl.
  destruct (String.eqb_spec a k) as [E|_]; [congruence|].
  f_equal. apply sset_map_key; assumption.
Qed.

Variables (conn : V -> list string) (upd : V -> list string -> V).
Hypothesis conn_upd : forall v l, conn (upd v l) = l.
Hypothesis upd_upd : forall v l l', upd (upd v l) l' = upd v l'.
Hypothesis upd_conn : forall v, upd v (conn v) = v.

(** Linking both ends of edges that point to the author turns a map
    without connections into a star. *)
Lemma link_fold (a : string) (v0 : V) (G : string -> V) (ks : list string) :
  conn v0 = [] -> (forall k, conn (G k) = []) -> NoDup ks -> ~ In a ks ->
  forall P,
    Forall (fun e => NetworkEdge.target e = a /\ In (NetworkEdge.source e) (a :: ks)) P ->
    fold_left (link_both conn upd) P (star_map a v0 G ks)
    = star_map a (upd v0 (suniq (map NetworkEdge.source P)))
        (fun k => upd (G k) (if smem (map NetworkEdge.source P) k then [a] else [])) ks.
Proof.
  intros Hv0 HG Hnd Ha P. induction P as [|e P IH] using rev_ind; intro HP.
  - cbn [fold_left map]. change (suniq []) with (@nil string).
    assert (E0 : upd v0 [] = v0) by (rewrite <- Hv0; apply upd_conn).
    rewrite E0. apply star_map_ext. intros k _.
    cbn [JS.mem existsb]. rewrite <- (HG k). symmetry. apply upd_conn.
  - apply Forall_app in HP. destruct HP as [HP He].
    apply Forall_inv in He. destruct He as [Ht Hs].
    rewrite fold_left_app, (IH HP). cbn [fold_left]. unfold link_both. rewrite Ht.
    rewrite map_app. cbn [map]. rewrite suniq_snoc.
    set (U := suniq (map NetworkEdge.source P)).
    set (s := NetworkEdge.source e) in *.
    destruct (String.eqb_spec s a) as [Es|Es].
    + (* the author interacts with their own post *)
      rewrite Es. unfold link.
      rewrite sget_star_author, sset_star_author, sget_star_author, sset_star_author.
      rewrite !conn_upd, !upd_upd, sadd_idem.
      apply star_map_ext. intros k Hk. rewrite smem_snoc.
      destruct (String.eqb_spec k a) as [->|_]; [contradiction|].
      rewrite Bool.orb_false_r. reflexivity.
    + destruct Hs as [Hs|Hs]; [congruence|].
      unfold link at 2. rewrite (sget_star_key _ _ _ _ _ Es Hs).
      rewrite (sset_star_key _ _ _ _ _ _ Es Hnd Hs).
      unfold link. rewrite sget_star_author, sset_star_author.
      rewrite !conn_upd, !upd_upd.
      apply star_map_ext. intros k Hk. rewrite smem_snoc.
      destruct (String.eqb_spec k s) as [->|_].
      * rewrite Bool.orb_true_r.
        destruct (smem (map NetworkEdge.source P) s); unfold JS.add;
          cbn [JS.mem existsb app]; rewrite ?seq_refl; reflexivity.
      * rewrite Bool.orb_false_r. reflexivity.
Qed.

End StarMap.

Lemma keys_star_map {V} (a : string) (va : V) (F : string -> V) (ks : list string) :
  JS.keys (star_map a va F ks) = a :: ks.
Proof. unfold star_map, JS.keys. simpl. rewrite map_map. simpl. rewrite map_id. reflexivity. Qed.

Lemma values_star_map {V} (a : string) (va : V) (F : string -> V) (ks : list string) :
  JS.values (star_map a va F ks) = va :: map F ks.
Proof. unfold star_map, JS.values. simpl. rewrite map_map. reflexivity. Qed.

Lemma fold_left_eq {A B} (f g : A -> B -> A) (l : list B) :
  (forall a b, f a b = g a b) -> forall a, fold_left f l a = fold_left g l a.
Proof.
  intro H. induction l as [|b t IH]; intro a; simpl; [reflexivity|].
  rewrite H. apply IH.
Qed.

Lemma fold_left_mapped {A B C} (f : A -> C -> A) (g : B -> C) (l : list B) :
  forall a, fold_left (fun a b => f a (g b)) l a = fold_left f (map g l) a.
Proof. induction l as [|b t IH]; intro a; simpl; [reflexivity | apply IH]. Qed.

Lemma first_time_old (E : list NetworkEdge.t) (e : NetworkEdge.t) (k : string) :
  In k (map NetworkEdge.source E) -> first_time (E ++ [e]) k = first_time E k.
Proof.
  unfold first_time, find_first. induction E as [|e0 t IH]; simpl; [tauto|].
  destruct (String.eqb_spec (NetworkEdge.source e0) k) as [_|Hne]; [reflexivity|].
  intros [H|H]; [contradiction | exact (IH H)].
Qed.

Lemma first_time_new (E : list NetworkEdge.t) (e : NetworkEdge.t) :
  ~ In (NetworkEdge.source e) (map NetworkEdge.source E) ->
  first_time (E ++ [e]) (NetworkEdge.source e) = NetworkEdge.timestamp e.
Proof.
  unfold first_time, find_first. induction E as [|e0 t IH]; simpl.
  - rewrite seq_refl. reflexivity.
  - intro H. destruct (String.eqb_spec (NetworkEdge.source e0) (NetworkEdge.source e))
      as [E|_]; [exfalso; apply H; left; exact E|].
    apply IH. intro H'. apply H. right. exact H'.
Qed.

(** A node as [addNodeAndEdge] creates it *)
Lemma add_edges_nodes (a : string) (src0 : NetworkNode.t) (E : list NetworkEdge.t) :
  fold_left add_edge E ([(a, src0)], [])
  = (star_map a src0
       (fun k => NetworkNode.mk ("node-" ++ k) k spreader 0 [] (first_time E k))
       (filter (fun k => negb (String.eqb k a)) (suniq (map NetworkEdge.source E))),
     E).
Proof.
  induction E as [|e E IH] using rev_ind; [reflexivity|].
  rewrite fold_left_app, IH. cbn [fold_left]. unfold add_edge, addNodeAndEdge.
  rewrite map_app. cbn [map]. rewrite suniq_snoc.
  set (U := suniq (map NetworkEdge.source E)).
  set (s := NetworkEdge.source e).
  assert (Hold : forall k, In k (filter (fun k => negb (String.eqb k a)) U) ->
                           In k (map NetworkEdge.source E)).
  { intros k Hk. apply filter_In in Hk. apply (suniq_In (map NetworkEdge.source E)), Hk. }
  assert (He : NetworkEdge.mk s (NetworkEdge.target e) (NetworkEdge.type e)
                 (NetworkEdge.weight e) (NetworkEdge.timestamp e) = e)
    by (destruct e; reflexivity).
  rewrite He. f_equal.
  rewrite shas_keys, keys_star_map.
  destruct (smem (a :: filter (fun k => negb (String.eqb k a)) U) s) eqn:Hmem.
  - (* the account has a node already *)
    assert (Hf : filter (fun k => negb (String.eqb k a)) (sadd U s)
                 = filter (fun k => negb (String.eqb k a)) U).
    { apply smem_In in Hmem. destruct Hmem as [Hs|Hs].
      - unfold JS.add. destruct (smem U s); [reflexivity|].
        rewrite filter_app. cbn [filter]. rewrite <- Hs, seq_refl. apply app_nil_r.
      - apply filter_In in Hs. rewrite (sadd_present U s); [reflexivity | apply Hs]. }
    rewrite Hf. apply star_map_ext. intros k Hk.
    rewrite (first_time_old E e k (Hold k Hk)). reflexivity.
  - (* a new spreader *)
    apply smem_false in Hmem.
    assert (Hsa : s <> a) by (intro E'; apply Hmem; left; symmetry; exact E').
    assert (HsU : ~ In s U).
    { intro H. apply Hmem. right. apply filter_In. split; [exact H|].
      destruct (String.eqb_spec s a); [contradiction | reflexivity]. }
    rewrite (sadd_fresh U s HsU), filter_app. cbn [filter].
    destruct (String.eqb_spec s a) as [?|_]; [contradiction|]. cbn [negb].
    rewrite sset_fresh.
    + unfold star_map. rewrite map_app. cbn [map app].
      pose proof (first_time_new E e) as Hnew. fold s in Hnew.
      rewrite Hnew; [|intro H; apply HsU, suniq_In, H].
      f_equal. f_equal. apply map_ext_in. intros k Hk.
      rewrite (first_time_old E e k (Hold k Hk)). reflexivity.
    + apply sget_star_none; [exact Hsa|]. intro H. apply Hmem. right. exact H.
Qed.

Lemma with_connections_id (n : NetworkNode.t) :
  with_connections n (NetworkNode.connections n) = n.
Proof. destruct n. reflexivity. Qed.

Lemma connect_link (m : list (string * NetworkNode.t)) (key other : string) :
  connect m key other = link NetworkNode.connections with_connections m key other.
Proof.
  unfold connect, link. destruct (sget m key) as [n|] eqn:E; [|reflexivity].
  unfold JS.add. destruct (smem (NetworkNode.connections n) other).
  - assert (Hn : with_connections n (NetworkNode.connections n) = n)
      by (destruct n; reflexivity).
    rewrite Hn. symmetry. apply sset_same, E.
  - reflexivity.
Qed.

Lemma interaction_edges_target (spreadData : SpreadData.t) :
  Forall (fun e => NetworkEdge.target e = author_of spreadData) (interaction_edges spreadData).
Proof.
  unfold interaction_edges. cbv zeta.
  repeat (apply Forall_app; split); apply Forall_map, Forall_forall; intros; reflexivity.
Qed.

Lemma spreaders_NoDup (spreadData : SpreadData.t) : NoDup (spreaders_of spreadData).
Proof. apply NoDup_filter, suniq_NoDup. Qed.

Lemma spreaders_not_author (spreadData : SpreadData.t) :
  ~ In (author_of spreadData) (spreaders_of spreadData).
Proof.
  intro H. apply filter_In in H. destruct H as [_ H]. rewrite seq_refl in H. discriminate.
Qed.

Lemma spreaders_source (spreadData : SpreadData.t) (k : string) :
  In k (spreaders_of spreadData) ->
  In k (map NetworkEdge.source (interaction_edges spreadData)).
Proof.
  intro H. apply filter_In in H.
  apply (suniq_In (map NetworkEdge.source (interaction_edges spreadData))), H.
Qed.

Lemma source_cases (spreadData : SpreadData.t) (k : string) :
  In k (map NetworkEdge.source (interaction_edges spreadData)) ->
  In k (author_of spreadData :: spreaders_of spreadData).
Proof.
  intro H. destruct (String.eqb_spec k (author_of spreadData)) as [->|Hne].
  - left. reflexivity.
  - right. apply filter_In. split.
    + apply (suniq_In (map NetworkEdge.source (interaction_edges spreadData))), H.
    + destruct (String.eqb_spec k (author_of spreadData)); [contradiction | reflexivity].
Qed.

Lemma interaction_edges_ends (spreadData : SpreadData.t) :
  Forall (fun e => NetworkEdge.target e = author_of spreadData /\
                   In (NetworkEdge.source e)
                     (author_of spreadData :: spreaders_of spreadData))
    (interaction_edges spreadData).
Proof.
  apply Forall_forall. intros e He. split.
  - exact (proj1 (Forall_forall _ _) (interaction_edges_target spreadData) e He).
  - apply source_cases, in_map, He.
Qed.

(** The graph [buildNetworkGraph] returns, in closed form. *)
Lemma buildNetworkGraph_star (spreadData : SpreadData.t) :
  buildNetworkGraph spreadData = (star_nodes spreadData, interaction_edges spreadData).
Proof.
  unfold buildNetworkGraph. cbv zeta.
  set (a := Tweet.authorId (SpreadData.originalTweet spreadData)).
  change (sset [] a ?n) with [(a, n)].
  rewrite (fold_left_mapped add_edge
             (fun rt => NetworkEdge.mk (Retweet.authorId rt) a retweet (Fin 1)
                          (Retweet.createdAt rt))).
  rewrite (fold_left_mapped add_edge
             (fun qt => NetworkEdge.mk (Quote.authorId qt) a quote (Fin 2)
                          (Quote.createdAt qt))).
  rewrite (fold_left_mapped add_edge
             (fun rp => NetworkEdge.mk (Reply.authorId rp) a reply (Fin (3 # 2))
                          (Reply.createdAt rp))).
  rewrite <- !fold_left_app.
  change (map _ (SpreadData.retweets spreadData) ++ _ ++ _)
    with (interaction_edges spreadData).
  rewrite add_edges_nodes.
  rewrite (fold_left_eq _ (link_both NetworkNode.connections with_connections));
    [|intros m e; unfold link_both; rewrite !connect_link; reflexivity].
  change (filter _ (suniq (map NetworkEdge.source (interaction_edges spreadData))))
    with (spreaders_of spreadData).
  rewrite (link_fold _ NetworkNode.connections with_connections
             (fun _ _ => eq_refl) (fun _ _ _ => eq_refl) with_connections_id
             a
             (NetworkNode.mk ("node-" ++ a) a source 100 []
                (Tweet.createdAt (SpreadData.originalTweet spreadData)))
             (fun k => NetworkNode.mk ("node-" ++ k) k spreader 0 []
                         (first_time (interaction_edges spreadData) k))
             (spreaders_of spreadData) eq_refl (fun _ => eq_refl)
             (spreaders_NoDup spreadData) (spreaders_not_author spreadData)
             (interaction_edges spreadData) (interaction_edges_ends spreadData)).
  rewrite values_star_map. unfold star_nodes. f_equal.
  apply f_equal2; [reflexivity|].
  apply map_ext_in. intros k Hk.
  apply spreaders_source, smem_In in Hk. rewrite Hk. reflexivity.
Qed.

Lemma star_nodes_ids (spreadData : SpreadData.t) :
  map NetworkNode.accountId (star_nodes spreadData)
  = author_of spreadData :: spreaders_of spreadData.
Proof.
  unfold star_nodes. cbn [map NetworkNode.accountId]. f_equal.
  rewrite map_map. cbn [spreader_node NetworkNode.accountId]. apply map_id.
Qed.

Lemma star_ids_NoDup (spreadData : SpreadData.t) :
  NoDup (author_of spreadData :: spreaders_of spreadData).
Proof. constructor; [apply spreaders_not_author | apply spreaders_NoDup]. Qed.

Lemma empty_sets_fold {V} (v : V) (l : list string) :
  forall acc : list (string * V),
    NoDup (JS.keys acc ++ l) ->
    fold_left (fun m k => sset m k v) l acc = acc ++ map (fun k => (k, v)) l.
Proof.
  induction l as [|k t IH]; intros acc Hnd; cbn [fold_left map].
  - symmetry. apply app_nil_r.
  - rewrite sset_fresh.
    + rewrite IH.
      * rewrite <- app_assoc. reflexivity.
      * unfold JS.keys in *. rewrite map_app. cbn [map fst]. rewrite <- app_assoc. exact Hnd.
    + apply sget_None. intro H. apply NoDup_remove_2 in Hnd. apply Hnd.
      apply in_or_app. left. exact H.
Qed.

Lemma adj_add_link (adj : Traversal.adjacency) (key other : string) :
  adj_add adj key other = link (fun v : list string => v) (fun _ l => l) adj key other.
Proof. reflexivity. Qed.

(** The adjacency list of the graph, in closed form. *)
Lemma buildAdjacencyList_star (spreadData : SpreadData.t) :
  buildAdjacencyList (star_nodes spreadData) (interaction_edges spreadData)
  = star_adjacency spreadData.
Proof.
  unfold buildAdjacencyList. cbv zeta.
  rewrite (fold_left_mapped (fun adj k => sset adj k []) NetworkNode.accountId).
  rewrite star_nodes_ids, empty_sets_fold by apply star_ids_NoDup.
  change ([] ++ map (fun k => (k, [])) (author_of spreadData :: spreaders_of spreadData))
    with (star_map (author_of spreadData) (@nil string) (fun _ => @nil string)
            (spreaders_of spreadData)).
  rewrite (fold_left_eq _ (link_both (fun v : list string => v) (fun _ l => l)));
    [|intros m e; reflexivity].
  rewrite (link_fold _ (fun v : list string => v) (fun _ l => l)
             (fun _ _ => eq_refl) (fun _ _ _ => eq_refl) (fun _ => eq_refl)
             (author_of spreadData) [] (fun _ => []) (spreaders_of spreadData)
             eq_refl (fun _ => eq_refl)
             (spreaders_NoDup spreadData) (spreaders_not_author spreadData)
             (interaction_edges spreadData) (interaction_edges_ends spreadData)).
  unfold star_adjacency. apply star_map_ext. intros k Hk.
  apply spreaders_source, smem_In in Hk. rewrite Hk. reflexivity.
Qed.

Lemma star_neighbours_author (spreadData : SpreadData.t) :
  Traversal.neighbours (star_adjacency spreadData) (author_of spreadData)
  = interacting spreadData.
Proof.
  unfold Traversal.neighbours, star_adjacency.
  fold (star_map (author_of spreadData) (interacting spreadData)
          (fun _ => [author_of spreadData]) (spreaders_of spreadData)).
  rewrite sget_star_author. reflexivity.
Qed.

Lemma star_neighbours_spreader (spreadData : SpreadData.t) (k : string) :
  In k (spreaders_of spreadData) ->
  Traversal.neighbours (star_adjacency spreadData) k = [author_of spreadData].
Proof.
  intro Hk. unfold Traversal.neighbours, star_adjacency.
  fold (star_map (author_of spreadData) (interacting spreadData)
          (fun _ => [author_of spreadData]) (spreaders_of spreadData)).
  rewrite sget_star_key; [reflexivity | | exact Hk].
  intro E. subst k. exact (spreaders_not_author spreadData Hk).
Qed.

Lemma filter_none {A} (p : A -> bool) (l : list A) :
  (forall x, In x l -> p x = false) -> filter p l = [].
Proof.
  induction l as [|x t IH]; intro H; simpl; [reflexivity|].
  rewrite (H x (or_introl eq_refl)). apply IH. intros y Hy. apply H. right. exact Hy.
Qed.

(** Visiting nodes whose neighbours are all visited adds them to the
    cluster one by one. *)
Lemma expandLoop_leaves (adj : Traversal.adjacency) :
  forall queue fuel visited cluster,
    length queue <= fuel ->
    NoDup queue ->
    (forall k, In k queue -> ~ In k visited) ->
    (forall k n, In k queue -> In n (Traversal.neighbours adj k) -> In n visited) ->
    Traversal.expandLoop fuel adj queue visited cluster
    = Ok (cluster ++ queue, visited ++ queue).
Proof.
  induction queue as [|k t IH]; intros fuel visited cluster Hf Hnd Hfresh Hnb.
  - destruct fuel; cbn [Traversal.expandLoop]; rewrite !app_nil_r; reflexivity.
  - destruct fuel as [|fuel]; [simpl in Hf; lia|].
    cbn [Traversal.expandLoop].
    assert (Hk : smem visited k = false) by (apply smem_false, Hfresh; left; reflexivity).
    rewrite Hk. cbv zeta.
    rewrite (sadd_fresh visited k) by (apply Hfresh; left; reflexivity).
    assert (Hpushed : filter (fun n => negb (smem (visited ++ [k]) n))
                        (Traversal.neighbours adj k) = []).
    { apply filter_none. intros n Hn.
      assert (Hv : smem (visited ++ [k]) n = true).
      { apply smem_In, in_or_app. left. apply (Hnb k n); [left; reflexivity | exact Hn]. }
      rewrite Hv. reflexivity. }
    rewrite Hpushed, app_nil_r.
    inversion Hnd as [|? ? Hkt Ht]; subst.
    rewrite IH.
    + rewrite <- !app_assoc. reflexivity.
    + simpl in Hf. lia.
    + exact Ht.
    + intros x Hx Hin. apply in_app_or in Hin. destruct Hin as [Hin|[<-|[]]].
      * exact (Hfresh x (or_intror Hx) Hin).
      * exact (Hkt Hx).
    + intros x n Hx Hn. apply in_or_app. left.
      exact (Hnb x n (or_intror Hx) Hn).
Qed.

Lemma pending_leaves (a : string) (ks : list string) :
  Traversal.pending (map (fun k => (k, [a])) ks) [] = length ks.
Proof. induction ks as [|k t IH]; simpl; [reflexivity | rewrite IH; reflexivity]. Qed.

(** From the author the traversal reaches every account. *)
Lemma expandCluster_star (spreadData : SpreadData.t) :
  Traversal.expandCluster (author_of spreadData) (star_adjacency spreadData) []
  = Ok (author_of spreadData :: spreaders_of spreadData,
        author_of spreadData :: spreaders_of spreadData).
Proof.
  unfold Traversal.expandCluster, Traversal.fuel_for.
  cbn [length Nat.add Traversal.expandLoop JS.mem existsb]. cbv zeta.
  change (sadd [] (author_of spreadData)) with [author_of spreadData].
  rewrite star_neighbours_author.
  assert (Hpushed : filter (fun n => negb (smem [author_of spreadData] n))
                      (interacting spreadData) = spreaders_of spreadData).
  { unfold spreaders_of. apply filter_ext. intro n. cbn [JS.mem existsb].
    rewrite Bool.orb_false_r. reflexivity. }
  rewrite Hpushed. cbn [app].
  apply (expandLoop_leaves (star_adjacency spreadData) (spreaders_of spreadData)
           _ [author_of spreadData] [author_of spreadData]).
  - unfold star_adjacency. cbn [Traversal.pending JS.mem existsb].
    rewrite pending_leaves. lia.
  - apply spreaders_NoDup.
  - intros k Hk [E|[]]. subst k. exact (spreaders_not_author spreadData Hk).
  - intros k n Hk Hn. rewrite (star_neighbours_spreader spreadData k Hk) in Hn.
    exact Hn.
Qed.

Lemma detectClusters_loop_visited (allNodes : list NetworkNode.t)
    (edges : list NetworkEdge.t) (adj : Traversal.adjacency) (visited : list string)
    (clusters : list Cluster.t) (w : World) :
  forall todo,
    (forall n, In n todo -> In (NetworkNode.accountId n) visited) ->
    detectClusters_loop todo allNodes edges adj visited clusters w = Ok (clusters, w).
Proof.
  induction todo as [|n t IH]; intro H; cbn [detectClusters_loop]; [reflexivity|].
  assert (Hn : smem visited (NetworkNode.accountId n) = true)
    by (apply smem_In, H; left; reflexivity).
  rewrite Hn. apply IH. intros x Hx. apply H. right. exact Hx.
Qed.

(** The accounts of a dataset form one connected component: it is the one
    cluster when it has three accounts or more, and there is no cluster
    otherwise. *)
Lemma detectClusters_star (spreadData : SpreadData.t) (w : World) :
  exists clusters w',
    detectClusters (star_nodes spreadData) (interaction_edges spreadData) w
    = Ok (clusters, w') /\
    if (3 <=? length (star_nodes spreadData))%nat
    then exists c, clusters = [c] /\
                   Cluster.nodes c = map NetworkNode.accountId (star_nodes spreadData)
    else clusters = [].
Proof.
  unfold detectClusters. rewrite buildAdjacencyList_star.
  assert (Hlen : length (star_nodes spreadData)
                 = length (author_of spreadData :: spreaders_of spreadData))
    by (rewrite <- star_nodes_ids, length_map; reflexivity).
  rewrite Hlen, star_nodes_ids.
  assert (Hrest : forall n,
             In n (map (spreader_node (author_of spreadData) (interaction_edges spreadData))
                     (spreaders_of spreadData)) ->
             In (NetworkNode.accountId n) (author_of spreadData :: spreaders_of spreadData)).
  { intros n Hn. apply in_map_iff in Hn. destruct Hn as (k & <- & Hk). right. exact Hk. }
  unfold star_nodes at 1. cbn [detectClusters_loop NetworkNode.accountId JS.mem existsb].
  unfold expandCluster.
  rewrite (@bind_Ok _ _ _ _ w _ _ (@lift_Ok _ _ _ w (expandCluster_star spreadData))).
  cbv beta iota.
  destruct (3 <=? length (author_of spreadData :: spreaders_of spreadData))%nat.
  - destruct (ClusterFacts.analyzeCluster_spec
                (author_of spreadData :: spreaders_of spreadData)
                (star_nodes spreadData) (interaction_edges spreadData) w)
      as (c & w1 & Hc & Hnodes & _).
    rewrite (@bind_Ok _ _ _ _ w _ _ Hc).
    rewrite detectClusters_loop_visited by exact Hrest.
    eexists _, _. split; [reflexivity|]. exists c. split; [reflexivity | exact Hnodes].
  - rewrite detectClusters_loop_visited by exact Hrest.
    eexists _, _. split; reflexivity.
Qed.

Lemma analyzeNetwork_star (spreadData : SpreadData.t) (analysisId : string) (w : World) :
  exists clusters influencers w',
    analyzeNetwork spreadData analysisId w
    = Ok (NetworkAnalysis.mk (star_nodes spreadData) (interaction_edges spreadData)
            clusters influencers []
            (calculateNetworkMetrics (star_nodes spreadData)
               (interaction_edges spreadData)), w') /\
    detectClusters (star_nodes spreadData) (interaction_edges spreadData) w
    = Ok (clusters, w') /\
    identifyInfluencers (star_nodes spreadData) (interaction_edges spreadData) spreadData
    = Ok influencers.
Proof.
  destruct (ClusterFacts.analyzeNetwork_spec spreadData analysisId w)
    as (cs & infl & w' & Hr & _ & Hc & Hi).
  rewrite buildNetworkGraph_star in Hr, Hc, Hi. cbn [fst snd] in Hr, Hc, Hi.
  exists cs, infl, w'. split; [exact Hr|]. split; [exact Hc | exact Hi].
Qed.

End StarFacts.
Unset Implicit Arguments.

(* ================================================================== *)
(** * NetworkAnalyzer: the influencers *)
(* ================================================================== *)

(** ** Integers as JavaScript numbers *)

Module IntFacts.

Lemma Qred_inject_Z (z : Z) : Qred (inject_Z z) = inject_Z z.
Proof.
  unfold Qred, inject_Z. cbn [Qnum Qden].
  generalize (Z.ggcd_gcd z 1) (Z.ggcd_correct_divisors z 1).
  destruct (Z.ggcd z 1) as [g [n d]]. cbn [fst snd].
  intros Hg [Hn Hd]. rewrite Z.gcd_1_r in Hg. subst g.
  rewrite Z.mul_1_l in Hn, Hd. subst n d. reflexivity.
Qed.

Lemma add_of_Z (a b : Z) : Num.add (Num.of_Z a) (Num.of_Z b) = Num.of_Z (a + b).
Proof.
  unfold Num.of_Z. cbn [Num.add]. f_equal.
  rewrite <- inject_Z_plus. apply Qred_inject_Z.
Qed.

Lemma neg_of_Z (a : Z) : Num.neg (Num.of_Z a) = Num.of_Z (- a).
Proof.
  unfold Num.of_Z. cbn [Num.neg]. f_equal.
  rewrite <- inject_Z_opp. apply Qred_inject_Z.
Qed.

Lemma sub_of_Z (a b : Z) : Num.sub (Num.of_Z a) (Num.of_Z b) = Num.of_Z (a - b).
Proof. unfold Num.sub. rewrite neg_of_Z, add_of_Z. reflexivity. Qed.

Lemma cmp_of_Z (a b : Z) : Num.cmp (Num.of_Z a) (Num.of_Z b) = Some (a ?= b)%Z.
Proof.
  unfold Num.of_Z. rewrite NumFacts.cmp_Fin. f_equal.
  unfold Qcompare, inject_Z. cbn [Qnum Qden]. rewrite !Z.mul_1_r. reflexivity.
Qed.

Lemma min_of_Z (a b : Z) : Num.min (Num.of_Z a) (Num.of_Z b) = Num.of_Z (Z.min a b).
Proof.
  unfold Num.min, Z.min. rewrite cmp_of_Z. destruct (a ?= b)%Z; reflexivity.
Qed.

Lemma max_of_Z (a b : Z) : Num.max (Num.of_Z a) (Num.of_Z b) = Num.of_Z (Z.max a b).
Proof.
  unfold Num.max, Z.max. rewrite cmp_of_Z. destruct (a ?= b)%Z; reflexivity.
Qed.

Lemma ltb_of_Z (a b : Z) : Num.ltb (Num.of_Z a) (Num.of_Z b) = (a <? b)%Z.
Proof. unfold Num.ltb, Z.ltb. rewrite cmp_of_Z. destruct (a ?= b)%Z; reflexivity. Qed.

Lemma fold_add_of_Z (l : list Z) :
  forall acc, fold_left Num.add (map Num.of_Z l) (Num.of_Z acc)
              = Num.of_Z (fold_left Z.add l acc).
Proof.
  induction l as [|x t IH]; intro acc; cbn [map fold_left]; [reflexivity|].
  rewrite add_of_Z. apply IH.
Qed.

Lemma sum_of_Z (l : list Z) : Num.sum (map Num.of_Z l) = Num.of_Z (Zsum l).
Proof. exact (fold_add_of_Z l 0%Z). Qed.

Lemma fold_min_of_Z (l : list Z) :
  forall acc, fold_left Num.min (map Num.of_Z l) (Num.of_Z acc)
              = Num.of_Z (fold_left Z.min l acc).
Proof.
  induction l as [|x t IH]; intro acc; cbn [map fold_left]; [reflexivity|].
  rewrite min_of_Z. apply IH.
Qed.

Lemma fold_max_of_Z (l : list Z) :
  forall acc, fold_left Num.max (map Num.of_Z l) (Num.of_Z acc)
              = Num.of_Z (fold_left Z.max l acc).
Proof.
  induction l as [|x t IH]; intro acc; cbn [map fold_left]; [reflexivity|].
  rewrite max_of_Z. apply IH.
Qed.

(** [Math.min(...l)] and [Math.max(...l)] of a non-empty list of integers *)
Lemma min_list_of_Z (x : Z) (l : list Z) :
  Num.min_list (map Num.of_Z (x :: l)) = Num.of_Z (fold_left Z.min l x).
Proof. unfold Num.min_list. cbn [map fold_left]. apply fold_min_of_Z. Qed.

Lemma max_list_of_Z (x : Z) (l : list Z) :
  Num.max_list (map Num.of_Z (x :: l)) = Num.of_Z (fold_left Z.max l x).
Proof. unfold Num.max_list. cbn [map fold_left]. apply fold_max_of_Z. Qed.

Lemma fold_min_le (l : list Z) :
  forall acc, (fold_left Z.min l acc <= acc)%Z /\
              (forall t, In t l -> fold_left Z.min l acc <= t)%Z.
Proof.
  induction l as [|x t IH]; intro acc; cbn [fold_left].
  - split; [lia | intros ? []].
  - destruct (IH (Z.min acc x)) as [H1 H2]. split; [lia|].
    intros y [<-|Hy]; [lia | exact (H2 y Hy)].
Qed.

Lemma fold_max_ge (l : list Z) :
  forall acc, (acc <= fold_left Z.max l acc)%Z /\
              (forall t, In t l -> t <= fold_left Z.max l acc)%Z.
Proof.
  induction l as [|x t IH]; intro acc; cbn [fold_left].
  - split; [lia | intros ? []].
  - destruct (IH (Z.max acc x)) as [H1 H2]. split; [lia|].
    intros y [<-|Hy]; [lia | exact (H2 y Hy)].
Qed.

Lemma fold_add_between (lo hi : Z) (l : list Z) :
  (forall t, In t l -> lo <= t <= hi)%Z ->
  forall acc,
    (acc + lo * Z.of_nat (length l) <= fold_left Z.add l acc
     <= acc + hi * Z.of_nat (length l))%Z.
Proof.
  induction l as [|x t IH]; intros H acc; cbn [fold_left length].
  - lia.
  - assert (Hx := H x (or_introl eq_refl)).
    assert (Ht : forall y, In y t -> (lo <= y <= hi)%Z) by (intros y Hy; apply H; right; exact Hy).
    specialize (IH Ht (acc + x)%Z). lia.
Qed.

Lemma div_Fin_of_Z (a : Q) (n : Z) :
  (0 < n)%Z -> Num.div (Fin a) (Num.of_Z n) = Fin (Qred (a / inject_Z n)).
Proof.
  intro Hn. unfold Num.of_Z. cbn [Num.div].
  rewrite (NumFacts.Qsign_pos (NumFacts.inject_Z_pos Hn)). reflexivity.
Qed.

Lemma div_of_Z (a n : Z) :
  (0 < n)%Z ->
  Num.div (Num.of_Z a) (Num.of_Z n) = Fin (Qred (inject_Z a / inject_Z n)).
Proof. intro Hn. unfold Num.of_Z at 1. apply div_Fin_of_Z, Hn. Qed.

End IntFacts.

Module InfluencerFacts.

Import NetworkAnalyzer.

Lemma fold_push {A B} (c : A -> bool) (f : A -> B) (l : list A) :
  forall acc,
    fold_left (fun acc x => if c x then acc ++ [f x] else acc) l acc
    = acc ++ map f (filter c l).
Proof.
  induction l as [|x t IH]; intro acc; cbn [fold_left filter].
  - symmetry. apply app_nil_r.
  - rewrite IH. destruct (c x); [|reflexivity].
    cbn [map]. rewrite <- app_assoc. reflexivity.
Qed.

(** The influencers are the nodes whose score exceeds 10, sorted. *)
Lemma identifyInfluencers_shape (nodes : list NetworkNode.t) (edges : list NetworkEdge.t)
    (spreadData : SpreadData.t) (influencers : list InfluencerNode.t) :
  identifyInfluencers nodes edges spreadData = Ok influencers ->
  exists reachMap,
    calculateReach nodes edges = Ok reachMap /\
    influencers
    = JS.sort influence_after
        (map (influencer_of nodes edges reachMap spreadData)
           (filter (fun n => (score_of nodes edges reachMap n >? Fin 10)%num) nodes)).
Proof.
  unfold identifyInfluencers. cbv zeta.
  destruct (calculateReach nodes edges) as [reachMap|e]; [|discriminate].
  cbn [rbind]. intro H. injection H as <-. exists reachMap. split; [reflexivity|].
  f_equal.
  exact (fold_push (fun n => (score_of nodes edges reachMap n >? Fin 10)%num)
           (influencer_of nodes edges reachMap spreadData) nodes []).
Qed.

Lemma star_node_role (spreadData : SpreadData.t) (n : NetworkNode.t) :
  In n (star_nodes spreadData) ->
  determineInfluencerRole n spreadData = star_role spreadData (NetworkNode.accountId n).
Proof.
  unfold determineInfluencerRole, star_role, author_of.
  intros [<-|Hn]; cbn [NetworkNode.accountId].
  - unfold author_of. rewrite seq_refl. reflexivity.
  - apply in_map_iff in Hn. destruct Hn as (k & <- & Hk).
    cbn [spreader_node NetworkNode.accountId NetworkNode.connections].
    destruct (String.eqb k (Tweet.authorId (SpreadData.originalTweet spreadData)));
      reflexivity.
Qed.

(** The degree term of the score of a node with an edge is 3 at least. *)
Lemma degree_factor (d : Z) :
  (1 <= d)%Z ->
  exists q, (Num.min (Num.of_Z d / Fin 10) Num.one * Fin 30)%num = Fin q /\ (3 <= q)%Q.
Proof.
  intro H. unfold Num.of_Z. cbn [Num.div]. change (Num.Qsign 10) with Gt. cbv iota.
  assert (Hd : (inject_Z 1 <= inject_Z d)%Q) by (rewrite <- Zle_Qle; exact H).
  change (inject_Z 1) with 1%Q in Hd.
  unfold Num.min, Num.one. rewrite NumFacts.cmp_Fin.
  destruct (Qred (inject_Z d / 10) ?= 1)%Q eqn:E; cbn [Num.mul];
    eexists; (split; [reflexivity|]); rewrite ?Qred_correct; try lra;
    unfold Qdiv; change (/ 10)%Q with (1 # 10)%Q; lra.
Qed.

(** The reach term is not negative. *)
Lemma reach_factor (direct indirect : Z) :
  (0 <= direct)%Z -> (0 <= indirect)%Z ->
  exists q,
    ((Num.of_Z direct + Num.of_Z indirect * Fin (1 # 2)) / Fin 20 * Fin 20)%num = Fin q /\
    (0 <= q)%Q.
Proof.
  intros Hd Hi. unfold Num.of_Z. cbn [Num.add Num.mul Num.div].
  change (Num.Qsign 20) with Gt. cbv iota. cbn [Num.mul].
  assert (Hd' : (0 <= inject_Z direct)%Q) by (apply NumFacts.inject_Z_nonneg; exact Hd).
  assert (Hi' : (0 <= inject_Z indirect)%Q) by (apply NumFacts.inject_Z_nonneg; exact Hi).
  eexists. split; [reflexivity|]. rewrite !Qred_correct.
  unfold Qdiv. change (/ 20)%Q with (1 # 20)%Q. lra.
Qed.

Lemma edge_times_of_Z (edges : list NetworkEdge.t) :
  edge_times edges = map Num.of_Z (map NetworkEdge.timestamp edges).
Proof. unfold edge_times. rewrite map_map. reflexivity. Qed.

(** The temporal term of a node with an edge is not negative: the mean
    time of its edges is not after the last edge. *)
Lemma temporal_factor (nodeEdges edges : list NetworkEdge.t) (fallback : num) :
  nodeEdges <> [] -> incl nodeEdges edges ->
  exists q,
    (let avgTimestamp :=
       if (0 <? length nodeEdges)%nat
       then (Num.sum (edge_times nodeEdges) / Num.of_nat (length nodeEdges))%num
       else fallback in
     let earliestTime := Num.min_list (edge_times edges) in
     let timeRange := (Num.max_list (edge_times edges) - earliestTime)%num in
     if (timeRange >? Num.zero)%num
     then ((Num.one - (avgTimestamp - earliestTime) / timeRange) * Fin 20)%num
     else Num.zero) = Fin q /\ (0 <= q)%Q.
Proof.
  intros Hne Hincl. cbv zeta.
  destruct edges as [|e0 et].
  { destruct nodeEdges as [|x ?]; [congruence | destruct (Hincl x (or_introl eq_refl))]. }
  rewrite !edge_times_of_Z.
  change (map NetworkEdge.timestamp (e0 :: et))
    with (NetworkEdge.timestamp e0 :: map NetworkEdge.timestamp et).
  rewrite IntFacts.min_list_of_Z, IntFacts.max_list_of_Z, IntFacts.sum_of_Z.
  set (lo := fold_left Z.min (map NetworkEdge.timestamp et) (NetworkEdge.timestamp e0)).
  set (hi := fold_left Z.max (map NetworkEdge.timestamp et) (NetworkEdge.timestamp e0)).
  set (n := length nodeEdges).
  assert (Hn : 0 < n) by (unfold n; destruct nodeEdges; [congruence | simpl; lia]).
  assert (Hbounds : forall t, In t (map NetworkEdge.timestamp nodeEdges) ->
                              (lo <= t <= hi)%Z).
  { intros t Ht. apply in_map_iff in Ht. destruct Ht as (e & <- & He).
    destruct (IntFacts.fold_min_le (map NetworkEdge.timestamp et) (NetworkEdge.timestamp e0))
      as [Hmin0 Hmin].
    destruct (IntFacts.fold_max_ge (map NetworkEdge.timestamp et) (NetworkEdge.timestamp e0))
      as [Hmax0 Hmax].
    fold lo in Hmin0, Hmin. fold hi in Hmax0, Hmax.
    destruct (Hincl e He) as [<-|Hin]; [lia|].
    split; [apply Hmin | apply Hmax]; apply in_map; exact Hin. }
  pose proof (IntFacts.fold_add_between lo hi _ Hbounds 0%Z) as Hsum.
  fold (Zsum (map NetworkEdge.timestamp nodeEdges)) in Hsum.
  rewrite length_map in Hsum. fold n in Hsum.
  set (S := Zsum (map NetworkEdge.timestamp nodeEdges)) in *.
  replace (0 <? n)%nat with true by (symmetry; apply Nat.ltb_lt; exact Hn).
  rewrite IntFacts.sub_of_Z. unfold Num.gtb.
  change Num.zero with (Num.of_Z 0) at 1. rewrite IntFacts.ltb_of_Z.
  destruct (0 <? hi - lo)%Z eqn:Hrange.
  - apply Z.ltb_lt in Hrange.
    assert (Hnz : (0 < Z.of_nat n)%Z) by lia.
    unfold Num.of_nat.
    rewrite (IntFacts.div_of_Z S (Z.of_nat n) Hnz).
    unfold Num.of_Z at 1. cbn [Num.sub Num.neg Num.add].
    rewrite (IntFacts.div_Fin_of_Z _ (hi - lo)%Z Hrange).
    unfold Num.one. cbn [Num.sub Num.neg Num.add Num.mul].
    eexists. split; [reflexivity|]. rewrite !Qred_correct.
    assert (HS : (inject_Z S / inject_Z (Z.of_nat n) <= inject_Z hi)%Q).
    { apply Qle_shift_div_r.
      - change 0%Q with (inject_Z 0). rewrite <- Zlt_Qlt. exact Hnz.
      - rewrite <- inject_Z_mult, <- Zle_Qle. lia. }
    assert (Hpos : (0 < inject_Z (hi - lo))%Q)
      by (change 0%Q with (inject_Z 0); rewrite <- Zlt_Qlt; exact Hrange).
    assert (Hq : ((inject_Z S / inject_Z (Z.of_nat n) + - inject_Z lo)
                  / inject_Z (hi - lo) <= 1)%Q).
    { apply Qle_shift_div_r; [exact Hpos|].
      unfold Z.sub. rewrite inject_Z_plus, inject_Z_opp. lra. }
    lra.
  - exists 0%Q. split; [reflexivity | lra].
Qed.

(** ** Degrees *)

Lemma sget_incr_same (m : list (string * Z)) (k : string) :
  sget (incr m k) k = Some (match sget m k with Some d => d | None => 0 end + 1)%Z.
Proof. unfold incr. apply sget_sset_same. Qed.

Lemma sget_incr_other (m : list (string * Z)) (k k' : string) :
  k <> k' -> sget (incr m k) k' = sget m k'.
Proof. intro H. unfold incr. apply sget_sset_other, H. Qed.

Lemma incr_nonneg (m : list (string * Z)) (x : string) :
  (forall k v, sget m k = Some v -> (0 <= v)%Z) ->
  forall k v, sget (incr m x) k = Some v -> (0 <= v)%Z.
Proof.
  intros Hm k v. destruct (String.eqb_spec x k) as [->|Hne].
  - rewrite sget_incr_same. intro H. injection H as <-.
    destruct (sget m k) as [d|] eqn:E; [specialize (Hm k d E)|]; lia.
  - rewrite (sget_incr_other m x k Hne). apply Hm.
Qed.

Lemma incr_positive (m : list (string * Z)) (x : string) :
  (forall k v, sget m k = Some v -> (0 <= v)%Z) ->
  exists v, sget (incr m x) x = Some v /\ (1 <= v)%Z.
Proof.
  intro Hm. rewrite sget_incr_same. eexists. split; [reflexivity|].
  destruct (sget m x) as [d|] eqn:E; [specialize (Hm x d E)|]; lia.
Qed.

Lemma incr_keeps_positive (m : list (string * Z)) (x k : string) :
  (exists v, sget m k = Some v /\ (1 <= v)%Z) ->
  exists v, sget (incr m x) k = Some v /\ (1 <= v)%Z.
Proof.
  intros (v & Hv & H1). destruct (String.eqb_spec x k) as [->|Hne].
  - rewrite sget_incr_same, Hv. eexists. split; [reflexivity | lia].
  - rewrite (sget_incr_other m x k Hne). exists v. split; assumption.
Qed.

Lemma degrees_fold (k : string) (edges : list NetworkEdge.t) :
  forall m,
    (forall k v, sget m k = Some v -> (0 <= v)%Z) ->
    (exists v, sget m k = Some v /\ (1 <= v)%Z) \/ In k (map NetworkEdge.source edges) ->
    exists v,
      sget (fold_left (fun m e => incr (incr m (NetworkEdge.source e)) (NetworkEdge.target e))
              edges m) k = Some v /\ (1 <= v)%Z.
Proof.
  induction edges as [|e t IH]; intros m Hm H; cbn [fold_left].
  - destruct H as [H|[]]. exact H.
  - apply IH.
    + apply incr_nonneg, incr_nonneg, Hm.
    + cbn [map] in H. destruct H as [H|[H|H]].
      * left. apply incr_keeps_positive, incr_keeps_positive, H.
      * left. subst k. apply incr_keeps_positive, incr_positive, Hm.
      * right. exact H.
Qed.

(** An account that is the source of an edge has degree 1 at least. *)
Lemma degree_positive (nodes : list NetworkNode.t) (edges : list NetworkEdge.t)
    (node : NetworkNode.t) :
  In (NetworkNode.accountId node) (map NetworkEdge.source edges) ->
  (1 <= degree_of (calculateDegrees nodes edges) node)%Z.
Proof.
  intro H. unfold degree_of, calculateDegrees. cbv zeta.
  destruct (degrees_fold (NetworkNode.accountId node) edges
              (fold_left (fun m n => sset m (NetworkNode.accountId n) 0%Z) nodes []))
    as (v & -> & Hv); [|right; exact H | exact Hv].
  apply (@GraphFacts.fold_invariant _ _
           (fun m : list (string * Z) => forall k v, sget m k = Some v -> (0 <= v)%Z)).
  - intros k v Hk. discriminate Hk.
  - intros m n Hm k v. destruct (String.eqb_spec (NetworkNode.accountId n) k) as [->|Hne].
    + rewrite sget_sset_same. intro E. injection E as <-. lia.
    + rewrite sget_sset_other by exact Hne. apply Hm.
Qed.

(** ** Reach *)

Lemma bfsReach_loop_nonneg (adj : Traversal.adjacency) :
  forall fuel queue visited direct indirect maxDepth r,
    bfsReach_loop fuel adj queue visited direct indirect maxDepth = Ok r ->
    (0 <= direct)%Z -> (0 <= indirect)%Z ->
    (0 <= Reach.direct r)%Z /\ (0 <= Reach.indirect r)%Z.
Proof.
  induction fuel as [|fuel IH]; intros queue visited direct indirect maxDepth r;
    destruct queue as [|[node depth] rest]; cbn [bfsReach_loop].
  - intro H. injection H as <-. cbn [Reach.direct Reach.indirect]. auto.
  - discriminate.
  - intro H. injection H as <-. cbn [Reach.direct Reach.indirect]. auto.
  - destruct (smem visited node).
    + apply IH.
    + cbv zeta. intros H Hd Hi. apply IH in H; [exact H | |].
      * destruct (depth =? 1)%Z; lia.
      * destruct (depth =? 1)%Z; [lia|]. destruct (1 <? depth)%Z; lia.
Qed.

Lemma calculateReach_nonneg (nodes : list NetworkNode.t) (edges : list NetworkEdge.t)
    (reachMap : list (string * Reach.t)) (node : NetworkNode.t) :
  calculateReach nodes edges = Ok reachMap ->
  (0 <= Reach.direct (reach_of reachMap node))%Z /\
  (0 <= Reach.indirect (reach_of reachMap node))%Z.
Proof.
  unfold calculateReach. cbv zeta.
  generalize (buildAdjacencyList nodes edges) as adj. intro adj.
  assert (H0 : forall k r, sget (@nil (string * Reach.t)) k = Some r ->
                           (0 <= Reach.direct r)%Z /\ (0 <= Reach.indirect r)%Z)
    by (intros k r H; discriminate H).
  revert H0. generalize (@nil (string * Reach.t)) as m0.
  induction nodes as [|n rest IH]; intros m0 Hm0.
  - intro H. injection H as <-. unfold reach_of.
    destruct (sget m0 (NetworkNode.accountId node)) as [r|] eqn:E.
    + exact (Hm0 _ r E).
    + cbn [Reach.direct Reach.indirect]. lia.
  - cbv beta iota fix.
    destruct (bfsReach (NetworkNode.accountId n) adj) as [r|e] eqn:Hr; [|discriminate].
    cbn [rbind]. apply IH. intros k r' Hk.
    destruct (String.eqb_spec (NetworkNode.accountId n) k) as [E|Hne].
    + rewrite E, sget_sset_same in Hk. injection Hk as <-.
      unfold bfsReach in Hr. apply bfsReach_loop_nonneg in Hr; [exact Hr | lia | lia].
    + rewrite sget_sset_other in Hk by exact Hne. exact (Hm0 k r' Hk).
Qed.

(** ** The score of a node with an edge *)

Lemma score_lower (node : NetworkNode.t) (degree : Z) (reach : Reach.t)
    (edges : list NetworkEdge.t) :
  (1 <= degree)%Z ->
  (0 <= Reach.direct reach)%Z -> (0 <= Reach.indirect reach)%Z ->
  In (NetworkNode.accountId node) (map NetworkEdge.source edges) ->
  exists q, calculateInfluenceScore node degree reach edges = Fin q /\ (13 <= q)%Q.
Proof.
  intros Hdeg Hd Hi Hsrc. unfold calculateInfluenceScore. cbv zeta.
  destruct (degree_factor degree Hdeg) as (q1 & -> & H1).
  destruct (reach_factor _ _ Hd Hi) as (q2 & -> & H2).
  set (nodeEdges := filter _ edges).
  assert (Hne : nodeEdges <> []).
  { apply in_map_iff in Hsrc. destruct Hsrc as (e & He & Hin).
    destruct (@CoordinationFacts.filter_nonempty _
                (fun e => String.eqb (NetworkEdge.source e) (NetworkNode.accountId node))
                edges e Hin) as (y & ys & Hy).
    - rewrite He. apply seq_refl.
    - unfold nodeEdges. rewrite Hy. discriminate. }
  assert (Hincl : incl nodeEdges edges)
    by (intros e He; apply filter_In in He; apply He).
  destruct (temporal_factor nodeEdges edges (Num.of_Z (NetworkNode.timestamp node))
              Hne Hincl) as (q3 & H3 & Hq3).
  cbv zeta in H3. rewrite H3.
  destruct (NetworkNode.type node); cbn [Num.add];
    eexists; (split; [reflexivity|]); rewrite !Qred_correct; lra.
Qed.

Lemma NoDup_map_filter {A B} (f : A -> B) (c : A -> bool) (l : list A) :
  NoDup (map f l) -> NoDup (map f (filter c l)).
Proof.
  induction l as [|x t IH]; cbn [map filter]; intro H; [constructor|].
  inversion H as [|? ? Hx Ht]; subst.
  destruct (c x); [|exact (IH Ht)].
  cbn [map]. constructor; [|exact (IH Ht)].
  intro Hin. apply Hx. apply in_map_iff in Hin. destruct Hin as (y & Hy & Hyin).
  apply in_map_iff. exists y. split; [exact Hy|]. apply filter_In in Hyin. apply Hyin.
Qed.

Lemma star_influencers (spreadData : SpreadData.t) (influencers : list InfluencerNode.t) :
  identifyInfluencers (star_nodes spreadData) (interaction_edges spreadData) spreadData
  = Ok influencers ->
  Forall (fun i => InfluencerNode.role i = star_role spreadData (InfluencerNode.accountId i) /\
                   (InfluencerNode.influenceScore i >? Fin 10)%num = true) influencers /\
  NoDup (map InfluencerNode.accountId influencers) /\
  (forall k, In k (spreaders_of spreadData) ->
             In k (map InfluencerNode.accountId influencers)).
Proof.
  intro H. apply identifyInfluencers_shape in H. destruct H as (reachMap & Hreach & ->).
  set (nodes := star_nodes spreadData) in *.
  set (edges := interaction_edges spreadData) in *.
  set (f := influencer_of nodes edges reachMap spreadData).
  set (c := fun n => (score_of nodes edges reachMap n >? Fin 10)%num).
  split; [|split].
  - apply Forall_forall. intros i Hi. apply JSFacts.sort_In in Hi.
    apply in_map_iff in Hi. destruct Hi as (n & <- & Hn).
    apply filter_In in Hn. destruct Hn as [Hn Hc].
    unfold f, influencer_of. cbn [InfluencerNode.role InfluencerNode.accountId
                                  InfluencerNode.influenceScore].
    split; [apply star_node_role; exact Hn | exact Hc].
  - apply (Permutation_NoDup
             (l := map InfluencerNode.accountId (map f (filter c nodes)))).
    + apply Permutation_map, JSFacts.sort_perm.
    + rewrite map_map. unfold f, influencer_of. cbn [InfluencerNode.accountId].
      apply NoDup_map_filter. unfold nodes. rewrite StarFacts.star_nodes_ids.
      apply StarFacts.star_ids_NoDup.
  - intros k Hk. apply in_map_iff.
    set (n := spreader_node (author_of spreadData) edges k).
    exists (f n). split; [reflexivity|].
    apply JSFacts.sort_In. apply in_map. apply filter_In. split.
    + right. apply in_map. exact Hk.
    + assert (Hsrc : In (NetworkNode.accountId n) (map NetworkEdge.source edges))
        by (apply StarFacts.spreaders_source; exact Hk).
      destruct (calculateReach_nonneg nodes edges reachMap n Hreach) as [Hd Hi].
      destruct (score_lower n _ _ edges (degree_positive nodes edges n Hsrc) Hd Hi Hsrc)
        as (q & Hq & Hge).
      unfold c, score_of. rewrite Hq. unfold Num.gtb. apply NumFacts.ltb_Fin. lra.
Qed.

End InfluencerFacts.

(** X6.  The graph [buildNetworkGraph] returns is a star.  Its edges are the
    reposts, the quotes and the replies, in this order, each as an edge from
    its account to the author of the post.  Its nodes are the author, as the
    source, connected to every account that interacted (itself included when
    the author reacts to the post), and then the other accounts in the order
    of their first interaction, each a spreader connected to the author
    alone and stamped with the time of its first interaction. *)
Theorem buildNetworkGraph_is_star (spreadData : SpreadData.t) :
  NetworkAnalyzer.buildNetworkGraph spreadData
  = (star_nodes spreadData, interaction_edges spreadData).
Proof. apply StarFacts.buildNetworkGraph_star. Qed.

(** X7.  The cluster detection finds connected components, and the graph is
    connected: [analyzeNetwork] returns no cluster when the dataset has fewer
    than three accounts, and otherwise one cluster that holds every account
    of the graph. *)
Theorem analyzeNetwork_one_component
    (spreadData : SpreadData.t) (analysisId : string) (w : World) :
  exists r w',
    NetworkAnalyzer.analyzeNetwork spreadData analysisId w = Ok (r, w') /\
    if (3 <=? length (NetworkAnalysis.nodes r))%nat
    then exists c,
        NetworkAnalysis.clusters r = [c] /\
        Cluster.nodes c = map NetworkNode.accountId (NetworkAnalysis.nodes r)
    else NetworkAnalysis.clusters r = [].
Proof.
  destruct (StarFacts.analyzeNetwork_star spreadData analysisId w)
    as (cs & infl & w' & Hr & Hc & _).
  destruct (StarFacts.detectClusters_star spreadData w) as (cs' & w'' & Hc' & Hshape).
  rewrite Hc in Hc'. injection Hc' as <- <-.
  eexists _, _. split; [exact Hr|].
  cbn [NetworkAnalysis.nodes NetworkAnalysis.clusters]. exact Hshape.
Qed.

(** X8.  [analyzeNetwork] never returns a propagation path: every edge points to
    the author of the post, so the walk back from a leaf along reversed edges
    stops at the leaf, and paths of one node are dropped. *)
Theorem analyzeNetwork_no_path
    (spreadData : SpreadData.t) (analysisId : string) (w : World) :
  exists r w',
    NetworkAnalyzer.analyzeNetwork spreadData analysisId w = Ok (r, w') /\
    NetworkAnalysis.propagationPaths r = [].
Proof.
  destruct (StarFacts.analyzeNetwork_star spreadData analysisId w)
    as (cs & infl & w' & Hr & _).
  eexists _, _. split; [exact Hr | reflexivity].
Qed.

(** X9.  No influencer is ever a bridge: an account other than the author has
    one connection, not more than five.  The author is the originator and
    every other influencer an amplifier; each influencer has a score above
    10, and no account is listed twice. *)
Theorem analyzeNetwork_roles
    (spreadData : SpreadData.t) (analysisId : string) (w : World) :
  exists r w',
    NetworkAnalyzer.analyzeNetwork spreadData analysisId w = Ok (r, w') /\
    Forall (fun i =>
              InfluencerNode.role i = star_role spreadData (InfluencerNode.accountId i) /\
              (InfluencerNode.influenceScore i >? Fin 10)%num = true)
      (NetworkAnalysis.influencers r) /\
    NoDup (map InfluencerNode.accountId (NetworkAnalysis.influencers r)).
Proof.
  destruct (StarFacts.analyzeNetwork_star spreadData analysisId w)
    as (cs & infl & w' & Hr & _ & Hi).
  destruct (InfluencerFacts.star_influencers spreadData infl Hi) as (Hroles & Hnd & _).
  eexists _, _. split; [exact Hr|]. split; [exact Hroles | exact Hnd].
Qed.

(** X10.  The threshold of 10 on the influence score filters no spreader out:
    every account that interacted with the post, the author aside, is
    returned as an influencer.  Its base score is 10, its degree is 1 at
    least, which adds 3 or more, and its reach and temporal terms are not
    negative. *)
Theorem analyzeNetwork_spreaders_are_influencers
    (spreadData : SpreadData.t) (analysisId : string) (w : World) :
  exists r w',
    NetworkAnalyzer.analyzeNetwork spreadData analysisId w = Ok (r, w') /\
    forall k, In k (spreaders_of spreadData) ->
              In k (map InfluencerNode.accountId (NetworkAnalysis.influencers r)).
Proof.
  destruct (StarFacts.analyzeNetwork_star spreadData analysisId w)
    as (cs & infl & w' & Hr & _ & Hi).
  destruct (InfluencerFacts.star_influencers spreadData infl Hi) as (_ & _ & Hall).
  eexists _, _. split; [exact Hr | exact Hall].
Qed.
Unset Implicit Arguments.

(* ================================================================== *)
(** * NetworkAnalyzer: the degrees *)
(* ================================================================== *)

Module DegreeFacts.

Import NetworkAnalyzer.

Lemma fold_add_acc (l : list Z) :
  forall a, fold_left Z.add l a = (a + Zsum l)%Z.
Proof.
  unfold Zsum. induction l as [|x t IH]; intro a; cbn [fold_left]; [lia|].
  rewrite (IH (a + x)%Z), (IH (0 + x)%Z). lia.
Qed.

Lemma Zsum_cons (x : Z) (l : list Z) : Zsum (x :: l) = (x + Zsum l)%Z.
Proof. unfold Zsum at 1. cbn [fold_left]. rewrite fold_add_acc. lia. Qed.

(** Writing [v] under [k] changes the sum of the values by [v] minus the
    value [k] had. *)
Lemma Zsum_sset (m : list (string * Z)) (k : string) (v : Z) :
  Zsum (JS.values (sset m k v))
  = (Zsum (JS.values m) - match sget m k with Some d => d | None => 0 end + v)%Z.
Proof.
  unfold JS.values. induction m as [|[k' d] t IH]; cbn [JS.set JS.get map snd].
  - rewrite Zsum_cons. unfold Zsum. cbn [fold_left]. lia.
  - destruct (String.eqb k' k); cbn [map snd]; rewrite !Zsum_cons; [lia|].
    rewrite IH. lia.
Qed.

Lemma Zsum_incr (m : list (string * Z)) (k : string) :
  Zsum (JS.values (incr m k)) = (Zsum (JS.values m) + 1)%Z.
Proof. unfold incr. rewrite Zsum_sset. destruct (sget m k); lia. Qed.

Lemma degrees0_zero (nodes : list NetworkNode.t) :
  let degrees0 := fold_left (fun m n => sset m (NetworkNode.accountId n) 0%Z) nodes [] in
  (forall k v, sget degrees0 k = Some v -> v = 0%Z) /\ Zsum (JS.values degrees0) = 0%Z.
Proof.
  cbv zeta.
  apply (@GraphFacts.fold_invariant _ _
           (fun m : list (string * Z) =>
              (forall k v, sget m k = Some v -> v = 0%Z) /\ Zsum (JS.values m) = 0%Z)).
  - split; [intros k v H; discriminate H | reflexivity].
  - intros m n [Hz Hs]. split.
    + intros k v. destruct (String.eqb_spec (NetworkNode.accountId n) k) as [E|Hne].
      * rewrite E, sget_sset_same. intro H. injection H as <-. reflexivity.
      * rewrite sget_sset_other by exact Hne. apply Hz.
    + rewrite Zsum_sset, Hs.
      destruct (sget m (NetworkNode.accountId n)) as [d|] eqn:E; [|reflexivity].
      rewrite (Hz _ d E). reflexivity.
Qed.

Lemma degrees_sum (nodes : list NetworkNode.t) (edges : list NetworkEdge.t) :
  Zsum (JS.values (calculateDegrees nodes edges)) = (2 * zlength edges)%Z.
Proof.
  unfold calculateDegrees. cbv zeta.
  destruct (degrees0_zero nodes) as [_ H0]. cbv zeta in H0. revert H0.
  generalize (fold_left (fun m n => sset m (NetworkNode.accountId n) 0%Z) nodes []) as m.
  unfold zlength.
  assert (Hgen : forall (l : list NetworkEdge.t) (m : list (string * Z)),
             Zsum (JS.values
                     (fold_left (fun m e =>
                          incr (incr m (NetworkEdge.source e)) (NetworkEdge.target e)) l m))
             = (Zsum (JS.values m) + 2 * Z.of_nat (length l))%Z).
  { induction l as [|e t IH]; intro m; cbn [fold_left length]; [lia|].
    rewrite IH, !Zsum_incr. lia. }
  intros m Hm. rewrite Hgen, Hm. lia.
Qed.

End DegreeFacts.

(** X11.  Every edge adds one to the degree of each of its two ends, whether or
    not they are nodes of the graph: the degrees add up to twice the number
    of edges, and the average degree [calculateNetworkMetrics] reports is
    twice the number of edges over the number of nodes. *)
Theorem calculateNetworkMetrics_handshake
    (nodes : list NetworkNode.t) (edges : list NetworkEdge.t) :
  Zsum (JS.values (NetworkAnalyzer.calculateDegrees nodes edges)) = (2 * zlength edges)%Z /\
  NetworkMetrics.averageDegree (NetworkAnalyzer.calculateNetworkMetrics nodes edges)
  = (Num.of_Z (2 * zlength edges) / Num.of_nat (length nodes))%num.
Proof.
  split; [apply DegreeFacts.degrees_sum|].
  unfold NetworkAnalyzer.calculateNetworkMetrics. cbv zeta.
  cbn [NetworkMetrics.averageDegree]. rewrite DegreeFacts.degrees_sum. reflexivity.
Qed.
Unset Implicit Arguments.

(* ================================================================== *)
(** * AnomalyDetector: volumes, windows and rate changes *)
(* ================================================================== *)

Module KeyFacts.

Section Keys.
Variables (K V : Type) (keq : K -> K -> bool).
Hypothesis keq_eq : forall a b, keq a b = true <-> a = b.
Implicit Types (m : list (K * V)) (k : K) (v : V).

Lemma keyed_get_same m k v : JS.get keq (JS.set keq m k v) k = Some v.
Proof. exact (@JSFacts.get_set_same K keq keq_eq V m k v). Qed.

Lemma keyed_get_other m k k' v :
  k <> k' -> JS.get keq (JS.set keq m k v) k' = JS.get keq m k'.
Proof. exact (@JSFacts.get_set_other K keq keq_eq V m k k' v). Qed.

Lemma keys_set_absent m k v :
  JS.get keq m k = None -> JS.keys (JS.set keq m k v) = JS.keys m ++ [k].
Proof.
  intro H. rewrite (@JSFacts.set_fresh K keq V m k v H).
  unfold JS.keys. rewrite map_app. reflexivity.
Qed.

Lemma NoDup_keys_set m k v : NoDup (JS.keys m) -> NoDup (JS.keys (JS.set keq m k v)).
Proof.
  intro Hn. destruct (JS.get keq m k) as [v0|] eqn:E.
  - rewrite (@JSFacts.keys_set_present K keq V m k v v0 E). exact Hn.
  - rewrite (keys_set_absent m k v E).
    apply NoDup_app; [exact Hn | repeat constructor; intros [] |].
    intros k' Hk' [<-|[]]. apply (@JSFacts.get_None_keys K keq keq_eq V m k) in E.
    contradiction.
Qed.

Lemma keyed_entry_get m k v : NoDup (JS.keys m) -> In (k, v) m -> JS.get keq m k = Some v.
Proof.
  induction m as [|[k' v'] t IH]; intros Hn Hin; [contradiction|].
  cbn [JS.keys map fst] in Hn. inversion Hn as [|? ? Hk Ht]; subst. cbn [JS.get].
  destruct Hin as [Hin|Hin].
  - injection Hin as -> ->. rewrite (proj2 (keq_eq k k) eq_refl). reflexivity.
  - destruct (keq k' k) eqn:E.
    + apply keq_eq in E. subst k'. exfalso. apply Hk.
      unfold JS.keys. apply in_map_iff. exists (k, v). auto.
    + apply IH; assumption.
Qed.

End Keys.

Lemma count_cons {A} (p : A -> bool) (x : A) (l : list A) :
  count p (x :: l) = ((if p x then 1 else 0) + count p l)%Z.
Proof. unfold count. cbn [filter]. destruct (p x); cbn [length]; lia. Qed.

Lemma count_ext {A} (p q : A -> bool) (l : list A) :
  (forall x, In x l -> p x = q x) -> count p l = count q l.
Proof. intro H. unfold count. rewrite (filter_ext_in p q l H). reflexivity. Qed.

Lemma count_bounds {A} (p : A -> bool) (l : list A) : (0 <= count p l <= zlength l)%Z.
Proof.
  unfold count, zlength. pose proof (TraversalFacts.filter_length_le p l). lia.
Qed.

End KeyFacts.

Module VolumeFacts.

Import AnomalyDetector.

Lemma volume_fold (windowSize k : Z) (timeline : list TimelineEvent.t) :
  forall m,
    let m' := fold_left (fun volumeMap event =>
                  let windowStart :=
                    (TimelineEvent.timestamp event / windowSize * windowSize)%Z in
                  JS.set Z.eqb volumeMap windowStart
                    (match JS.get Z.eqb volumeMap windowStart with
                     | Some v => v
                     | None => 0
                     end + 1)%Z) timeline m in
    value_of (JS.get Z.eqb m' k)
    = (value_of (JS.get Z.eqb m k)
       + count (fun e => (window_start windowSize e =? k)%Z) timeline)%Z /\
    (JS.get Z.eqb m' k = None <->
     JS.get Z.eqb m k = None /\
     count (fun e => (window_start windowSize e =? k)%Z) timeline = 0%Z).
Proof.
  induction timeline as [|e t IH]; intro m; cbv zeta; cbn [fold_left].
  - unfold count. cbn [filter length Z.of_nat]. split; [lia | tauto].
  - specialize (IH (JS.set Z.eqb m (window_start windowSize e)
                      (value_of (JS.get Z.eqb m (window_start windowSize e)) + 1)%Z)).
    cbv zeta in IH. destruct IH as [IHv IHn].
    fold (window_start windowSize e).
    change (match JS.get Z.eqb m (window_start windowSize e) with
            | Some v => v
            | None => 0%Z
            end) with (value_of (JS.get Z.eqb m (window_start windowSize e))).
    rewrite KeyFacts.count_cons.
    pose proof (KeyFacts.count_bounds (fun e => (window_start windowSize e =? k)%Z) t) as Hc.
    destruct (Z.eqb_spec (window_start windowSize e) k) as [E|Hne].
    + rewrite E in IHv, IHn. rewrite (KeyFacts.keyed_get_same Z Z Z.eqb Z.eqb_eq) in IHv, IHn.
      cbn [value_of] in IHv. rewrite E. split; [lia|].
      rewrite IHn. split; [intros [H _]; discriminate H | intros [_ H]; lia].
    + rewrite (KeyFacts.keyed_get_other Z Z Z.eqb Z.eqb_eq) in IHv, IHn by exact Hne.
      split; [lia|]. rewrite IHn. split; intros [H1 H2]; (split; [exact H1 | lia]).
Qed.

Lemma window_start_spec (windowSize k : Z) (e : TimelineEvent.t) :
  (0 < windowSize)%Z -> (k mod windowSize = 0)%Z ->
  (window_start windowSize e =? k)%Z = in_window windowSize k e.
Proof.
  intros HW Hk. unfold window_start, in_window.
  set (t := TimelineEvent.timestamp e).
  pose proof (Z.div_mod t windowSize ltac:(lia)) as Hdm.
  pose proof (Z.mod_pos_bound t windowSize HW) as Hb.
  apply Z.div_exact in Hk; [|lia].
  destruct (Z.eqb_spec (t / windowSize * windowSize) k) as [E|Hne].
  - symmetry. apply andb_true_intro. split; [apply Z.leb_le | apply Z.ltb_lt]; lia.
  - symmetry. apply Bool.andb_false_iff.
    destruct (Z.leb_spec k t) as [Hle|Hlt]; [right | left; reflexivity].
    apply Z.ltb_ge. apply Z.nlt_ge. intro Hlt. apply Hne.
    assert (Hq : (t / windowSize = k / windowSize)%Z).
    { symmetry. apply (Z.div_unique t windowSize (k / windowSize) (t - k)); lia. }
    rewrite Hq. lia.
Qed.

Lemma window_start_multiple (windowSize : Z) (e : TimelineEvent.t) :
  (window_start windowSize e mod windowSize = 0)%Z.
Proof.
  unfold window_start. destruct (Z.eq_dec windowSize 0) as [->|H].
  - rewrite Z.mul_0_r. reflexivity.
  - apply Z.mod_mul, H.
Qed.

Lemma count_positive {A} (p : A -> bool) (l : list A) :
  count p l <> 0%Z -> exists x, In x l /\ p x = true.
Proof.
  unfold count. destruct (filter p l) as [|x t] eqn:E; [intro H; exfalso; apply H; reflexivity|].
  intros _. exists x. apply filter_In. rewrite E. left. reflexivity.
Qed.

Lemma calculateVolumeByWindow_ok (timeline : list TimelineEvent.t) (windowSize : Z) :
  (0 < windowSize)%Z ->
  volumes_ok windowSize timeline (calculateVolumeByWindow timeline windowSize).
Proof.
  intro HW. unfold volumes_ok.
  assert (Hnd : NoDup (JS.keys (calculateVolumeByWindow timeline windowSize))).
  { unfold calculateVolumeByWindow. apply GraphFacts.fold_invariant; [constructor|].
    intros m e Hm. apply (KeyFacts.NoDup_keys_set Z Z Z.eqb Z.eqb_eq), Hm. }
  split; [exact Hnd|]. apply Forall_forall. intros [k v] Hin. cbn [fst snd].
  apply (KeyFacts.keyed_entry_get Z Z Z.eqb Z.eqb_eq _ _ _ Hnd) in Hin.
  destruct (volume_fold windowSize k timeline []) as [Hv Hn]. cbv zeta in Hv, Hn.
  fold (calculateVolumeByWindow timeline windowSize) in Hv, Hn.
  rewrite Hin in Hv, Hn. cbn [value_of JS.get] in Hv.
  assert (Hc : count (fun e => (window_start windowSize e =? k)%Z) timeline <> 0%Z).
  { intro H. assert (Hnone : @None Z = None /\
                             count (fun e => (window_start windowSize e =? k)%Z) timeline = 0%Z)
      by (split; [reflexivity | exact H]).
    apply Hn in Hnone. discriminate Hnone. }
  assert (Hk : (k mod windowSize = 0)%Z).
  { destruct (count_positive _ _ Hc) as (e & _ & He). apply Z.eqb_eq in He.
    rewrite <- He. apply window_start_multiple. }
  split; [exact Hk|].
  pose proof (KeyFacts.count_bounds (fun e => (window_start windowSize e =? k)%Z) timeline).
  rewrite <- (KeyFacts.count_ext (fun e => (window_start windowSize e =? k)%Z)
                (in_window windowSize k) timeline)
    by (intros e _; apply window_start_spec; assumption).
  split; lia.
Qed.

Lemma volume_sum (timeline : list TimelineEvent.t) (windowSize : Z) :
  Zsum (JS.values (calculateVolumeByWindow timeline windowSize)) = zlength timeline.
Proof.
  unfold calculateVolumeByWindow, zlength.
  assert (Hgen : forall (l : list TimelineEvent.t) (m : list (Z * Z)),
             Zsum (JS.values
                     (fold_left (fun volumeMap event =>
                          let windowStart :=
                            (TimelineEvent.timestamp event / windowSize * windowSize)%Z in
                          JS.set Z.eqb volumeMap windowStart
                            (match JS.get Z.eqb volumeMap windowStart with
                             | Some v => v
                             | None => 0
                             end + 1)%Z) l m))
             = (Zsum (JS.values m) + Z.of_nat (length l))%Z).
  { induction l as [|e t IH]; intro m; cbn [fold_left length]; [lia|].
    rewrite IH. cbv zeta.
    assert (Hset : forall (m : list (Z * Z)) k v,
               Zsum (JS.values (JS.set Z.eqb m k v))
               = (Zsum (JS.values m) - value_of (JS.get Z.eqb m k) + v)%Z).
    { clear. unfold JS.values.
      induction m as [|[k' d] t IH]; intros k v; cbn [JS.set JS.get map snd value_of].
      - rewrite DegreeFacts.Zsum_cons. unfold Zsum. cbn [fold_left]. lia.
      - destruct (Z.eqb k' k); cbn [map snd value_of]; rewrite !DegreeFacts.Zsum_cons; [lia|].
        rewrite IH. lia. }
    rewrite Hset. unfold value_of. lia. }
  rewrite Hgen. reflexivity.
Qed.

End VolumeFacts.

Module SpikeBounds.

Import AnomalyDetector.

(** A z-score beyond the threshold of 3 gives a severity above low and a
    confidence between 0.6 and 0.99. *)
Lemma beyond_threshold (zScore : num) :
  (Num.abs zScore >? spikeThreshold)%num = true ->
  calculateSpikeSeverity zScore <> low /\
  match Num.min (Fin (99 # 100)) (Num.abs zScore / Fin 5)%num with
  | Fin q => (3 # 5 < q /\ q <= 99 # 100)%Q
  | _ => False
  end.
Proof.
  unfold calculateSpikeSeverity, spikeThreshold, Num.gtb, Num.geb. cbv zeta.
  destruct (Num.abs zScore) as [| |q|] eqn:E; try discriminate.
  - intro H. apply NumFacts.ltb_Fin in H. split.
    + destruct (Num.leb (Fin 5) (Fin q)); [discriminate|].
      destruct (Num.leb (Fin 4) (Fin q)); [discriminate|].
      destruct (Num.leb (Fin 3) (Fin q)) eqn:E3; [discriminate|].
      apply NumFacts.leb_Fin_false in E3. lra.
    + cbn [Num.div]. change (Num.Qsign 5) with Gt. cbv iota.
      unfold Num.min. rewrite NumFacts.cmp_Fin.
      assert (Hq : (3 # 5 < q / 5)%Q)
        by (unfold Qdiv; change (/ 5)%Q with (1 # 5)%Q; lra).
      destruct ((99 # 100) ?= Qred (q / 5))%Q eqn:Ec.
      * split; [reflexivity | lra].
      * split; [reflexivity | lra].
      * apply Qgt_alt in Ec. rewrite Qred_correct in *. split; [exact Hq | lra].
  - intros _. split; [discriminate|]. vm_compute. split; [reflexivity | discriminate].
Qed.

Lemma detectVolumeSpikes_ok (timeline : list TimelineEvent.t) :
  Forall spike_ok (detectVolumeSpikes timeline).
Proof.
  unfold detectVolumeSpikes. cbv zeta.
  apply GraphFacts.fold_invariant; [constructor|].
  intros anomalies [timestamp volume] Hacc.
  destruct (Num.abs (zScore_of volume _) >? spikeThreshold)%num eqn:E; [|exact Hacc].
  apply Forall_app. split; [exact Hacc|]. constructor; [|constructor].
  destruct (beyond_threshold _ E) as [Hsev Hconf].
  unfold spike_ok. cbn [Anomaly.type Anomaly.severity Anomaly.metrics AnomalyMetrics.confidence].
  split; [reflexivity|]. split; [exact Hsev | exact Hconf].
Qed.

End SpikeBounds.

Module WindowFacts.

Import AnomalyDetector.

Lemma splitIntoWindows_loop_concat (windowSize : Z) :
  forall todo windows currentWindow windowStart,
    concat (splitIntoWindows_loop windowSize todo windows currentWindow windowStart)
    = concat windows ++ currentWindow ++ todo.
Proof.
  induction todo as [|e t IH]; intros windows currentWindow windowStart;
    cbn [splitIntoWindows_loop].
  - rewrite app_nil_r. destruct currentWindow as [|x c]; cbn [length Nat.ltb Nat.leb].
    + rewrite app_nil_r. reflexivity.
    + rewrite concat_app. cbn [concat]. rewrite app_nil_r. reflexivity.
  - destruct (windowSize <? TimelineEvent.timestamp e - windowStart)%Z; rewrite IH.
    + destruct currentWindow as [|x c]; cbn [length Nat.ltb Nat.leb]; [reflexivity|].
      rewrite concat_app. cbn [concat]. rewrite app_nil_r, <- app_assoc. reflexivity.
    + rewrite <- app_assoc. reflexivity.
Qed.

Lemma window_state_closed (windowSize : Z) (todo : list TimelineEvent.t)
    (x : TimelineEvent.t) (c : list TimelineEvent.t) (windowStart : Z) :
  window_state windowSize todo (x :: c) windowStart -> window_ok windowSize (x :: c).
Proof.
  intros [Hx Hall]. exists x, c. split; [reflexivity|]. rewrite Hx. exact Hall.
Qed.

Lemma splitIntoWindows_loop_ok (windowSize : Z) :
  (0 <= windowSize)%Z ->
  forall todo windows currentWindow windowStart,
    Forall (window_ok windowSize) windows ->
    window_state windowSize todo currentWindow windowStart ->
    Forall (window_ok windowSize)
      (splitIntoWindows_loop windowSize todo windows currentWindow windowStart).
Proof.
  intro HW. induction todo as [|e t IH]; intros windows currentWindow windowStart Hw Hs;
    cbn [splitIntoWindows_loop].
  - destruct currentWindow as [|x c]; cbn [length Nat.ltb Nat.leb]; [exact Hw|].
    apply Forall_app. split; [exact Hw|]. constructor; [|constructor].
    exact (window_state_closed _ _ _ _ _ Hs).
  - destruct (Z.ltb_spec windowSize (TimelineEvent.timestamp e - windowStart)) as [Hlt|Hge].
    + apply IH.
      * destruct currentWindow as [|x c]; cbn [length Nat.ltb Nat.leb]; [exact Hw|].
        apply Forall_app. split; [exact Hw|]. constructor; [|constructor].
        exact (window_state_closed _ _ _ _ _ Hs).
      * cbn [window_state]. split; [reflexivity|]. constructor; [lia | constructor].
    + apply IH; [exact Hw|].
      destruct currentWindow as [|x c]; cbn [app window_state] in *.
      * split; [symmetry; exact Hs|]. constructor; [lia | constructor].
      * destruct Hs as [Hx Hall]. split; [exact Hx|].
        change (x :: c ++ [e]) with ((x :: c) ++ [e]).
        apply Forall_app. split; [exact Hall|]. constructor; [exact Hge | constructor].
Qed.

Lemma rate_test (a m c : Z) :
  (0 < m)%Z ->
  (Num.of_Z a / Num.of_Z m >? Fin (inject_Z c))%num = (c * m <? a)%Z.
Proof.
  intro Hm. rewrite (IntFacts.div_of_Z a m Hm). unfold Num.gtb.
  assert (Hpos : (0 < inject_Z m)%Q)
    by (change 0%Q with (inject_Z 0); rewrite <- Zlt_Qlt; exact Hm).
  destruct (Z.ltb_spec (c * m) a) as [Hlt|Hge].
  - apply NumFacts.ltb_Fin. rewrite Qred_correct.
    apply Qlt_shift_div_l; [exact Hpos|].
    rewrite <- inject_Z_mult, <- Zlt_Qlt. exact Hlt.
  - apply NumFacts.ltb_Fin_false. rewrite Qred_correct.
    apply Qle_shift_div_r; [exact Hpos|].
    rewrite <- inject_Z_mult, <- Zle_Qle. exact Hge.
Qed.

Lemma compareBehavior_verdict (window1 window2 : list TimelineEvent.t) :
  rate_verdict (zlength window1) (zlength window2) (compareBehavior window1 window2).
Proof.
  unfold compareBehavior. cbv zeta.
  set (rate1 := zlength window1). set (rate2 := zlength window2).
  assert (H1 : (0 <= rate1)%Z) by (unfold rate1, zlength; lia).
  assert (H2 : (0 <= rate2)%Z) by (unfold rate2, zlength; lia).
  assert (Hm : (0 < Z.max rate1 1)%Z) by lia.
  change (Fin 2) with (Fin (inject_Z 2)). change (Fin 5) with (Fin (inject_Z 5)).
  rewrite !(rate_test _ _ _ Hm).
  destruct (Z.ltb_spec (2 * Z.max rate1 1) (Z.abs (rate2 - rate1))) as [Hlt|Hge].
  - assert (Hup : (2 * Z.max rate1 1 < rate2 - rate1)%Z) by lia.
    destruct window2 as [|first rest].
    + exfalso. unfold rate2, zlength in Hup. cbn [length] in Hup. lia.
    + cbn [rate_verdict BehaviorChange.severity]. split; [exact Hup|].
      replace (Z.abs (rate2 - rate1)) with (rate2 - rate1)%Z by lia. reflexivity.
  - cbn [rate_verdict]. lia.
Qed.

End WindowFacts.

Module PipelineFacts.

Import AnomalyDetector.

Lemma extractTimeline_first_hand (spreadData : SpreadData.t) :
  Forall (first_hand (author_of spreadData)) (AnalysisEngine.extractTimeline spreadData).
Proof.
  unfold AnalysisEngine.extractTimeline. cbv zeta.
  apply Forall_forall. intros e He. apply in_map_iff in He.
  destruct He as ([i [[type createdAt] authorId]] & <- & Hin).
  apply in_combine_r in Hin. destruct Hin as [Hin|Hin].
  - injection Hin as <- <- <-. left. split; reflexivity.
  - right. apply in_app_or in Hin.
    destruct Hin as [Hin|Hin]; apply in_map_iff in Hin;
      destruct Hin as (x & Hx & _); injection Hx as <- <- <-; reflexivity.
Qed.

Lemma fold_max_bound (bound : Z) (l : list Z) :
  forall x, (x <= bound)%Z -> Forall (fun y => (y <= bound)%Z) l ->
            (fold_left Z.max l x <= bound)%Z.
Proof.
  induction l as [|y t IH]; intros x Hx Hl; cbn [fold_left]; [exact Hx|].
  inversion Hl; subst. apply IH; [lia | assumption].
Qed.

(** On a timeline of first-hand events the cascade is not deep, and the
    one account that can trigger a star is the author. *)
Lemma detectNetworkAnomalies_first_hand (author : string)
    (timeline : list TimelineEvent.t) (w : World) :
  Forall (first_hand author) timeline ->
  exists out w',
    detectNetworkAnomalies timeline w = Ok (out, w') /\
    length out <= 1 /\
    Forall (star_around author) out.
Proof.
  intro Hfh. unfold detectNetworkAnomalies.
  destruct (map TimelineEvent.cascadeDepth timeline) as [|d ds] eqn:Hd.
  { eexists _, _. split; [reflexivity|]. split; [cbn; lia | constructor]. }
  cbv zeta.
  assert (Hmax : (10 <? Zmax_list d ds)%Z = false).
  { apply Z.ltb_ge. unfold Zmax_list.
    assert (Hall : Forall (fun y => (y <= 1)%Z) (d :: ds)).
    { rewrite <- Hd. apply Forall_map. revert Hfh. apply Forall_impl.
      intros e [[He _]|He]; lia. }
    inversion Hall; subst.
    pose proof (fold_max_bound 1 ds d ltac:(assumption) ltac:(assumption)). lia. }
  rewrite Hmax.
  set (triggerCounts := fold_left _ timeline []).
  assert (Htc : triggerCounts = [] \/ exists n, triggerCounts = [(author, n)]).
  { unfold triggerCounts.
    apply (@ClusterFacts.fold_invariant_In _ _
             (fun m : list (string * Z) => m = [] \/ exists n, m = [(author, n)])).
    - left. reflexivity.
    - intros m e He Hm.
      destruct (TimelineEvent.cascadeDepth e =? 0)%Z eqn:E0; [|exact Hm].
      apply Z.eqb_eq in E0.
      assert (Hacct : TimelineEvent.accountId e = author).
      { pose proof (proj1 (Forall_forall _ _) Hfh e He) as [[_ Ha]|H1]; [exact Ha | lia]. }
      rewrite Hacct. right.
      destruct Hm as [->|[n ->]]; cbn [JS.set]; [|rewrite seq_refl]; eexists; reflexivity. }
  unfold bind at 1. unfold ret at 1.
  destruct Htc as [->|[n ->]]; cbn [filter].
  - eexists _, _. split; [reflexivity|]. split; [cbn; lia | constructor].
  - destruct (20 <? n)%Z; cbn [mapM]; unfold bind, ret, date_now.
    + eexists _, _. split; [reflexivity|]. split; [cbn; lia|].
      constructor; [|constructor]. repeat split.
    + eexists _, _. split; [reflexivity|]. split; [cbn; lia | constructor].
Qed.

Lemma detectTemporalPatterns_loop_typed :
  forall todo anomalies w,
    Forall (fun a => Anomaly.type a <> network) anomalies ->
    exists out w',
      detectTemporalPatterns_loop todo anomalies w = Ok (out, w') /\
      Forall (fun a => Anomaly.type a <> network) out.
Proof.
  induction todo as [|[accountId events] rest IH]; intros anomalies w Hacc;
    cbn [detectTemporalPatterns_loop].
  - eexists _, _. split; [reflexivity | exact Hacc].
  - destruct (length events <? 5)%nat eqn:E5; [apply IH, Hacc|].
    unfold calculateIntervals.
    destruct (_ >? _)%num; [|apply IH, Hacc].
    unfold bind at 1, date_now at 1.
    destruct (JS.sort event_after events) as [|e sorted] eqn:Es.
    + exfalso. apply Nat.ltb_ge in E5.
      rewrite <- (JSFacts.sort_length event_after events), Es in E5. simpl in E5. lia.
    + unfold bind at 1, lift at 1. apply IH.
      apply Forall_app. split; [exact Hacc|]. constructor; [|constructor].
      cbn [Anomaly.type]. discriminate.
Qed.

Lemma detectBehaviorAnomalies_loop_typed :
  forall todo anomalies out,
    detectBehaviorAnomalies_loop todo anomalies = Ok out ->
    Forall (fun a => Anomaly.type a <> network) anomalies ->
    Forall (fun a => Anomaly.type a <> network) out.
Proof.
  induction todo as [|[behavior_key events] rest IH]; intros anomalies out;
    cbn [detectBehaviorAnomalies_loop].
  - intro H. injection H as <-. auto.
  - destruct (detectBehaviorChanges events) as [changes|e]; [|discriminate].
    cbn [rbind]. intros H Hacc. apply (IH _ _ H).
    apply Forall_app. split; [exact Hacc|].
    apply Forall_map, Forall_forall. intros c _. cbn [anomaly_of_change Anomaly.type].
    discriminate.
Qed.

Lemma candidates_network (author : string) (timeline : list TimelineEvent.t) (w : World) :
  Forall (first_hand author) timeline ->
  exists cands w',
    candidates timeline w = Ok (cands, w') /\
    Forall (network_is_star author) cands.
Proof.
  intro Hfh. unfold candidates. cbv zeta.
  destruct (detectTemporalPatterns_loop_typed
              (fold_left (fun m e => group_push m (TimelineEvent.accountId e) e) timeline [])
              [] w (Forall_nil _)) as (ps & w1 & Hps & Htps).
  fold (detectTemporalPatterns timeline) in Hps. bind_step Hps.
  destruct (AnomalyFacts.detectBehaviorAnomalies_total timeline) as [bs Hbs].
  bind_step (@lift_Ok _ _ _ w1 Hbs).
  destruct (detectNetworkAnomalies_first_hand author timeline w1 Hfh)
    as (ns & w2 & Hns & _ & Htns).
  bind_step Hns. unfold ret. eexists _, _. split; [reflexivity|].
  assert (Hother : forall l, Forall (fun a => Anomaly.type a <> network) l ->
                             Forall (network_is_star author) l).
  { intros l. apply Forall_impl. intros a Ha Hn. contradiction. }
  repeat (apply Forall_app; split).
  - apply Hother. generalize (SpikeBounds.detectVolumeSpikes_ok timeline).
    apply Forall_impl. intros a [Ht _]. rewrite Ht. discriminate.
  - apply Hother, Htps.
  - apply Hother.
    exact (detectBehaviorAnomalies_loop_typed _ _ _ Hbs (Forall_nil _)).
  - revert Htns. apply Forall_impl. intros a Ha _. exact Ha.
Qed.

Lemma detectAnomalies_network (author : string) (timeline : list TimelineEvent.t)
    (analysisId : string) (w : World) :
  Forall (first_hand author) timeline ->
  exists out w',
    detectAnomalies timeline analysisId w = Ok (out, w') /\
    Forall (network_is_star author) out.
Proof.
  intro Hfh. unfold detectAnomalies.
  destruct (length timeline <? minEventsForAnalysis)%nat.
  - eexists _, _. split; [reflexivity | constructor].
  - cbv zeta.
    assert (Hsorted : Forall (first_hand author) (JS.sort event_after timeline)).
    { apply Forall_forall. intros e He. apply JSFacts.sort_In in He.
      exact (proj1 (Forall_forall _ _) Hfh e He). }
    destruct (candidates_network author _ w Hsorted) as (cands & w' & Hc & Hall).
    bind_step Hc. unfold ret. eexists _, _. split; [reflexivity|].
    apply Forall_forall. intros a Ha.
    destruct (DedupFacts.prioritizeAnomalies_spec cands) as (_ & _ & Hincl).
    exact (proj1 (Forall_forall _ _) Hall a (Hincl a Ha)).
Qed.

End PipelineFacts.

(** X12.  The volume map of a timeline, for a window of positive size: its keys
    are distinct multiples of the window size; the volume under a key is
    the number of events in the window that starts there, and is not zero;
    and the volumes add up to the number of events, so that each event is
    counted once. *)
Theorem calculateVolumeByWindow_counts (timeline : list TimelineEvent.t) (windowSize : Z) :
  (0 < windowSize)%Z ->
  volumes_ok windowSize timeline
    (AnomalyDetector.calculateVolumeByWindow timeline windowSize) /\
  Zsum (JS.values (AnomalyDetector.calculateVolumeByWindow timeline windowSize))
  = zlength timeline.
Proof.
  intro H. split; [apply VolumeFacts.calculateVolumeByWindow_ok, H | apply VolumeFacts.volume_sum].
Qed.

Lemma calculateVolumeByWindow_counts_witness :
  (0 < 300000)%Z /\
  volumes_ok 300000 steady_timeline
    (AnomalyDetector.calculateVolumeByWindow steady_timeline 300000) /\
  Zsum (JS.values (AnomalyDetector.calculateVolumeByWindow steady_timeline 300000))
  = zlength steady_timeline.
Proof.
  split; [lia | apply calculateVolumeByWindow_counts; lia].
Defined.

(** X13.  A volume spike is never of low severity: a window is reported when its
    z-score is beyond 3 in absolute value, which makes the severity medium,
    high or critical, and the confidence a number above 0.6 and of 0.99 at
    most. *)
Theorem detectVolumeSpikes_never_low (timeline : list TimelineEvent.t) :
  Forall spike_ok (AnomalyDetector.detectVolumeSpikes timeline).
Proof. apply SpikeBounds.detectVolumeSpikes_ok. Qed.

(** X14.  [splitIntoWindows] cuts the events, sorted by time, into consecutive
    windows: put end to end the windows are the sorted events, no window is
    empty, and no event of a window is more than the window size after the
    first event of the window. *)
Theorem splitIntoWindows_partition (events : list TimelineEvent.t) (windowSize : Z) :
  (0 <= windowSize)%Z ->
  concat (AnomalyDetector.splitIntoWindows events windowSize)
  = JS.sort AnomalyDetector.event_after events /\
  Forall (window_ok windowSize) (AnomalyDetector.splitIntoWindows events windowSize).
Proof.
  intro HW. unfold AnomalyDetector.splitIntoWindows. cbv zeta. split.
  - rewrite WindowFacts.splitIntoWindows_loop_concat. reflexivity.
  - apply WindowFacts.splitIntoWindows_loop_ok; [exact HW | constructor |].
    destruct (JS.sort AnomalyDetector.event_after events); exact I || reflexivity.
Qed.

Lemma splitIntoWindows_partition_witness :
  (0 <= 600000)%Z /\
  concat (AnomalyDetector.splitIntoWindows steady_timeline 600000)
  = JS.sort AnomalyDetector.event_after steady_timeline /\
  Forall (window_ok 600000) (AnomalyDetector.splitIntoWindows steady_timeline 600000).
Proof.
  split; [lia | apply splitIntoWindows_partition; lia].
Defined.

(** X15.  [compareBehavior] never throws and flags increases only.  From a
    window of [rate1] events to a window of [rate2] events a change is
    reported exactly when [rate2 - rate1] exceeds twice [max(rate1, 1)], and
    it is of high severity exactly when it exceeds five times that; a drop in
    activity is never reported, and the first event of the second window is
    read only when that window is not empty. *)
Theorem compareBehavior_flags_increases (window1 window2 : list TimelineEvent.t) :
  rate_verdict (zlength window1) (zlength window2)
    (AnomalyDetector.compareBehavior window1 window2).
Proof. apply WindowFacts.compareBehavior_verdict. Qed.

(** X16.  The deep-cascade anomaly cannot come out of the pipeline: the
    timeline [extractTimeline] builds has the post at depth 0 and every
    repost and quote at depth 1, whatever depth the dataset records.  Every
    network anomaly [runFullAnalysis] returns is a star pattern around the
    author of the post. *)
Theorem runFullAnalysis_network_anomalies
    (spreadData : SpreadData.t) (analysisId : string) (w : World) :
  exists r w',
    AnalysisEngine.runFullAnalysis spreadData analysisId w = Ok (r, w') /\
    Forall (network_is_star (author_of spreadData)) (FullAnalysis.anomalies r).
Proof.
  unfold AnalysisEngine.runFullAnalysis.
  destruct (ClusterFacts.analyzeNetwork_spec spreadData analysisId w)
    as (cs & infl & v & Hn & _).
  bind_step Hn.
  destruct (EngineFacts.detectBots_total (AnalysisEngine.extractAccounts spreadData) v)
    as (b & x & Hb).
  bind_step Hb.
  destruct (detectCoordination_total
              (AnalysisEngine.extractActivities spreadData) analysisId) as [ps Hps].
  bind_step (@lift_Ok _ _ _ x Hps).
  destruct (PipelineFacts.detectAnomalies_network (author_of spreadData)
              (AnalysisEngine.extractTimeline spreadData) analysisId x
              (PipelineFacts.extractTimeline_first_hand spreadData))
    as (a & y & Ha & Hall).
  bind_step Ha.
  match goal with
  | |- context [bind (AnalysisEngine.generateSummary ?n ?b ?c ?a) _ y] =>
      destruct (EngineFacts.generateSummary_total n b c a y) as (s & z & Hs)
  end.
  bind_step Hs. unfold ret. eexists _, _. split; [reflexivity|]. exact Hall.
Qed.
Unset Implicit Arguments.

(* ================================================================== *)
(** * CoordinationDetector: similarity and grouping *)
(* ================================================================== *)

Module SimilarityFacts.

Import CoordinationDetector.

Lemma split_loop_nonempty (l : list ascii) :
  forall in_space cur, Str.split_loop in_space cur l <> [].
Proof.
  induction l as [|c t IH]; intros in_space cur; cbn [Str.split_loop]; [discriminate|].
  destruct (Str.is_space c); [destruct in_space; [apply IH | discriminate] | apply IH].
Qed.

Lemma suniq_nonempty (l : list string) : l <> [] -> suniq l <> [].
Proof.
  destruct l as [|x t]; [congruence|]. intros _ H.
  assert (Hx : In x (suniq (x :: t))) by (apply suniq_In; left; reflexivity).
  rewrite H in Hx. destruct Hx.
Qed.

Lemma words_nonempty (s : string) : words s <> [].
Proof. unfold words, Str.split_spaces. apply suniq_nonempty, split_loop_nonempty. Qed.

Lemma words_NoDup (s : string) : NoDup (words s).
Proof. apply suniq_NoDup. Qed.

(** Two duplicate-free lists with the same elements have the same length. *)
Lemma same_length (s t : list string) :
  NoDup s -> NoDup t -> (forall x, In x s <-> In x t) -> length s = length t.
Proof.
  intros Hs Ht H. apply Permutation_length, NoDup_Permutation; assumption.
Qed.

Lemma inter_length_sym (A B : list string) :
  length (suniq (filter (fun x => smem B x) A))
  = length (suniq (filter (fun x => smem A x) B)).
Proof.
  apply same_length; try apply suniq_NoDup.
  intro x. rewrite !suniq_In, !filter_In, !smem_In. tauto.
Qed.

Lemma union_length_sym (A B : list string) :
  length (suniq (A ++ B)) = length (suniq (B ++ A)).
Proof.
  apply same_length; try apply suniq_NoDup.
  intro x. rewrite !suniq_In, !in_app_iff. tauto.
Qed.

Lemma inter_le_union (A B : list string) :
  length (suniq (filter (fun x => smem B x) A)) <= length (suniq (A ++ B)).
Proof.
  apply NoDup_incl_length; [apply suniq_NoDup|].
  intros x Hx. rewrite suniq_In, filter_In in Hx.
  rewrite suniq_In. apply in_or_app. left. apply Hx.
Qed.

(** A ratio of two counts, the first not above the second. *)
Lemma ratio_unit (i u : nat) :
  i <= u -> 0 < u -> in_unit (Num.of_nat i / Num.of_nat u)%num.
Proof.
  intros Hle Hu. unfold Num.of_nat.
  rewrite IntFacts.div_of_Z by lia. cbn [in_unit]. rewrite Qred_correct.
  assert (Hpos : (0 < inject_Z (Z.of_nat u))%Q)
    by (change 0%Q with (inject_Z 0); rewrite <- Zlt_Qlt; lia).
  split.
  - apply Qle_shift_div_l; [exact Hpos|]. rewrite Qmult_0_l.
    change 0%Q with (inject_Z 0). rewrite <- Zle_Qle. lia.
  - apply Qle_shift_div_r; [exact Hpos|]. rewrite Qmult_1_l.
    rewrite <- Zle_Qle. lia.
Qed.

Lemma ratio_one (n : nat) : 0 < n -> (Num.of_nat n / Num.of_nat n)%num = Num.one.
Proof.
  intro Hn. unfold Num.of_nat. rewrite IntFacts.div_of_Z by lia.
  unfold Num.one. f_equal. change 1%Q with (Qred 1). apply Qred_complete.
  unfold Qdiv. apply Qmult_inv_r. intro E.
  unfold Qeq, inject_Z in E. cbn [Qnum Qden] in E. lia.
Qed.

Lemma similarity_unit (a b : SpreadEvent.t) : in_unit (calculateContentSimilarity a b).
Proof.
  unfold calculateContentSimilarity.
  assert (H0 : in_unit Num.zero) by (vm_compute; split; discriminate).
  destruct (SpreadEvent.content a) as [ca|]; [|exact H0].
  destruct (SpreadEvent.content b) as [cb|]; [|exact H0].
  destruct (BotDetector.falsy (Some ca) || BotDetector.falsy (Some cb)); [exact H0|].
  cbv zeta. destruct (Nat.ltb_spec 0 (length (suniq (words ca ++ words cb)))) as [Hu|_];
    [|exact H0].
  apply ratio_unit; [apply inter_le_union | exact Hu].
Qed.

Lemma similarity_sym (a b : SpreadEvent.t) :
  calculateContentSimilarity a b = calculateContentSimilarity b a.
Proof.
  unfold calculateContentSimilarity.
  destruct (SpreadEvent.content a) as [ca|], (SpreadEvent.content b) as [cb|];
    try reflexivity.
  rewrite (Bool.orb_comm (BotDetector.falsy (Some cb))).
  destruct (BotDetector.falsy (Some ca) || BotDetector.falsy (Some cb)); [reflexivity|].
  cbv zeta.
  rewrite (inter_length_sym (words ca) (words cb)),
    (union_length_sym (words ca) (words cb)). reflexivity.
Qed.

Lemma similarity_self (a : SpreadEvent.t) :
  has_content a -> calculateContentSimilarity a a = Num.one.
Proof.
  unfold has_content, calculateContentSimilarity.
  destruct (SpreadEvent.content a) as [ca|]; [|discriminate].
  intro H. rewrite H. cbn [orb]. cbv zeta.
  assert (Hinter : length (suniq (filter (fun x => smem (words ca) x) (words ca)))
                   = length (words ca)).
  { apply same_length; [apply suniq_NoDup | apply words_NoDup |].
    intro x. rewrite suniq_In, filter_In, smem_In. tauto. }
  assert (Hunion : length (suniq (words ca ++ words ca)) = length (words ca)).
  { apply same_length; [apply suniq_NoDup | apply words_NoDup |].
    intro x. rewrite suniq_In, in_app_iff. tauto. }
  rewrite Hinter, Hunion.
  assert (Hn : 0 < length (words ca)).
  { pose proof (words_nonempty ca). destruct (words ca); [congruence | simpl; lia]. }
  replace (0 <? length (words ca))%nat with true by (symmetry; apply Nat.ltb_lt, Hn).
  apply ratio_one, Hn.
Qed.

End SimilarityFacts.

Module GroupFacts.

Import CoordinationDetector.

Lemma push_near_some :
  forall groups time activity groups',
    push_near groups time activity = Some groups' ->
    SpreadEvent.timestamp activity = time ->
    JS.keys groups' = JS.keys groups /\
    Permutation (concat (JS.values groups')) (activity :: concat (JS.values groups)) /\
    (Forall group_ok groups -> Forall group_ok groups').
Proof.
  induction groups as [|[groupTime group] rest IH]; intros time activity groups';
    cbn [push_near]; [discriminate|].
  destruct (Z.leb_spec (Z.abs (time - groupTime)) timeWindowThreshold) as [Hle|Hgt].
  - intros H Ht. injection H as <-. split; [reflexivity|]. split.
    + cbn [JS.values map snd concat]. rewrite <- app_assoc. cbn [app].
      apply Permutation_sym, Permutation_middle.
    + intro Hok. inversion Hok as [|? ? (first & more & Hg & Hf & Hall) Hrest]; subst.
      constructor; [|exact Hrest]. cbn [fst snd] in *.
      destruct group as [|x xs]; [discriminate Hg|]. injection Hg as <- <-.
      exists x, (xs ++ [activity]). split; [reflexivity|]. split; [exact Hf|].
      change (x :: xs ++ [activity]) with ((x :: xs) ++ [activity]).
      apply Forall_app. split; [exact Hall|]. constructor; [|constructor].
      exact Hle.
  - destruct (push_near rest time activity) as [rest'|] eqn:E; [|discriminate].
    cbn [option_map]. intros H Ht. injection H as <-.
    destruct (IH _ _ _ E Ht) as (Hk & Hp & Hok). split; [|split].
    + cbn [JS.keys map fst]. f_equal. exact Hk.
    + cbn [JS.values map snd concat].
      apply Permutation_trans with (group ++ activity :: concat (JS.values rest)).
      * apply Permutation_app_head. exact Hp.
      * apply Permutation_sym, Permutation_middle.
    + intro H. inversion H; subst. constructor; [assumption | apply Hok; assumption].
Qed.

Lemma push_near_none :
  forall groups time activity,
    push_near groups time activity = None ->
    Forall (fun k => anchors_apart k time) (JS.keys groups).
Proof.
  induction groups as [|[groupTime group] rest IH]; intros time activity;
    cbn [push_near]; [constructor|].
  destruct (Z.leb_spec (Z.abs (time - groupTime)) timeWindowThreshold) as [Hle|Hgt];
    [discriminate|].
  destruct (push_near rest time activity) eqn:E; [discriminate|]. intros _.
  cbn [JS.keys map fst]. constructor; [|exact (IH _ _ E)].
  unfold anchors_apart. lia.
Qed.

Lemma ordered_pairs_snoc {A} (R : A -> A -> Prop) (l : list A) (y : A) :
  ForallOrdPairs R l -> Forall (fun x => R x y) l -> ForallOrdPairs R (l ++ [y]).
Proof.
  induction 1 as [|x l Hx Hl IH]; intro Hy; cbn [app].
  - constructor; constructor.
  - inversion Hy; subst. constructor.
    + apply Forall_app. split; [exact Hx | constructor; [assumption | constructor]].
    + apply IH. assumption.
Qed.

Lemma groups_fold (l : list SpreadEvent.t) :
  forall groups processed,
    Permutation (concat (JS.values groups)) processed ->
    Forall group_ok groups ->
    ForallOrdPairs anchors_apart (JS.keys groups) ->
    let groups' :=
      fold_left (fun groups activity =>
          let time := SpreadEvent.timestamp activity in
          match push_near groups time activity with
          | Some groups' => groups'
          | None => JS.set Z.eqb groups time [activity]
          end) l groups in
    Permutation (concat (JS.values groups')) (processed ++ l) /\
    Forall group_ok groups' /\
    ForallOrdPairs anchors_apart (JS.keys groups').
Proof.
  induction l as [|a t IH]; intros groups processed Hp Hok Hap; cbv zeta; cbn [fold_left].
  - rewrite app_nil_r. auto.
  - replace (processed ++ a :: t) with ((processed ++ [a]) ++ t)
      by (rewrite <- app_assoc; reflexivity).
    destruct (push_near groups (SpreadEvent.timestamp a) a) as [groups'|] eqn:E.
    + destruct (push_near_some _ _ _ _ E eq_refl) as (Hk & Hperm & Hok').
      apply IH.
      * apply Permutation_trans with (a :: concat (JS.values groups)); [exact Hperm|].
        apply Permutation_trans with (a :: processed); [apply perm_skip, Hp|].
        apply Permutation_cons_append.
      * apply Hok', Hok.
      * rewrite Hk. exact Hap.
    + pose proof (push_near_none _ _ _ E) as Hfar.
      assert (Hfresh : JS.get Z.eqb groups (SpreadEvent.timestamp a) = None).
      { apply (@JSFacts.get_None_keys Z Z.eqb Z.eqb_eq). intro Hin.
        pose proof (proj1 (Forall_forall _ _) Hfar _ Hin) as Hself.
        unfold anchors_apart, timeWindowThreshold in Hself. lia. }
      rewrite (@JSFacts.set_fresh Z Z.eqb _ groups _ [a] Hfresh).
      apply IH.
      * unfold JS.values. rewrite map_app, concat_app. cbn [map snd concat].
        rewrite app_nil_r. apply Permutation_app_tail, Hp.
      * apply Forall_app. split; [exact Hok|]. constructor; [|constructor].
        exists a, []. cbn [fst snd]. split; [reflexivity|]. split; [reflexivity|].
        constructor; [|constructor]. unfold timeWindowThreshold. lia.
      * unfold JS.keys. rewrite map_app. cbn [map fst].
        apply ordered_pairs_snoc; [exact Hap | exact Hfar].
Qed.

Lemma groupByTimeWindow_ok (activities : list SpreadEvent.t) :
  Permutation (concat (JS.values (groupByTimeWindow activities))) activities /\
  Forall group_ok (groupByTimeWindow activities) /\
  ForallOrdPairs anchors_apart (JS.keys (groupByTimeWindow activities)).
Proof.
  unfold groupByTimeWindow.
  destruct (groups_fold (JS.sort activity_after activities) [] []
              (Permutation_refl _) (Forall_nil _) (FOP_nil _)) as (Hp & Hok & Hap).
  cbv zeta in Hp, Hok, Hap. cbn [app] in Hp.
  split; [|split; assumption].
  apply Permutation_trans with (JS.sort activity_after activities); [exact Hp|].
  apply Permutation_sym, JSFacts.sort_perm.
Qed.

End GroupFacts.

(** X17.  The content similarity is a Jaccard index: a number of the interval
    [0,1], the same in both directions, and 1 between an event with a
    non-empty text and itself. *)
Theorem calculateContentSimilarity_jaccard (a b : SpreadEvent.t) :
  in_unit (CoordinationDetector.calculateContentSimilarity a b) /\
  CoordinationDetector.calculateContentSimilarity a b
  = CoordinationDetector.calculateContentSimilarity b a /\
  (has_content a -> CoordinationDetector.calculateContentSimilarity a a = Num.one).
Proof.
  split; [apply SimilarityFacts.similarity_unit|].
  split; [apply SimilarityFacts.similarity_sym | apply SimilarityFacts.similarity_self].
Qed.

(** X18.  [groupByTimeWindow] puts every activity in one group: the groups,
    put end to end, are a permutation of the activities.  The key of a group
    is the time of its first activity, every activity of the group is within
    3 minutes of the key, and two keys are more than 3 minutes apart. *)
Theorem groupByTimeWindow_partition (activities : list SpreadEvent.t) :
  Permutation (concat (JS.values (CoordinationDetector.groupByTimeWindow activities)))
    activities /\
  Forall group_ok (CoordinationDetector.groupByTimeWindow activities) /\
  ForallOrdPairs anchors_apart (JS.keys (CoordinationDetector.groupByTimeWindow activities)).
Proof. apply GroupFacts.groupByTimeWindow_ok. Qed.
Unset Implicit Arguments.

(* ================================================================== *)
(** * CoordinationDetector: the accounts of a pattern *)
(* ================================================================== *)

Module AccountsFacts.

Import CoordinationDetector.

(** A traversal adds each account once, and accounts of [S] only when the
    queue and the adjacency stay within [S]. *)
Lemma expandLoop_cluster (adj : Traversal.adjacency) (S : list string) :
  (forall k n, In n (Traversal.neighbours adj k) -> In n S) ->
  forall fuel queue visited cluster c v,
    Traversal.expandLoop fuel adj queue visited cluster = Ok (c, v) ->
    NoDup cluster -> incl cluster visited -> incl cluster S -> incl queue S ->
    NoDup c /\ incl c v /\ incl c S.
Proof.
  intro Hadj. induction fuel as [|fuel IH]; intros queue visited cluster c v;
    destruct queue as [|current rest]; cbn [Traversal.expandLoop].
  - intro H. injection H as <- <-. auto.
  - discriminate.
  - intro H. injection H as <- <-. auto.
  - destruct (smem visited current) eqn:Ev.
    + intros H Hnd Hcv HcS HqS. apply (IH _ _ _ _ _ H); try assumption.
      intros x Hx. apply HqS. right. exact Hx.
    + cbv zeta. intros H Hnd Hcv HcS HqS.
      apply StarFacts.smem_false in Ev.
      apply (IH _ _ _ _ _ H).
      * apply NoDup_app; [exact Hnd | repeat constructor; intros [] |].
        intros x Hx [<-|[]]. apply Ev, Hcv, Hx.
      * intros x Hx. apply sadd_In. apply in_app_or in Hx.
        destruct Hx as [Hx|[<-|[]]]; [left; apply Hcv, Hx | right; reflexivity].
      * intros x Hx. apply in_app_or in Hx.
        destruct Hx as [Hx|[<-|[]]]; [apply HcS, Hx | apply HqS; left; reflexivity].
      * intros x Hx. apply in_app_or in Hx. destruct Hx as [Hx|Hx].
        -- apply HqS. right. exact Hx.
        -- apply filter_In in Hx. apply (Hadj current x), Hx.
Qed.

Lemma buildInteractionMap_within (activities : list SpreadEvent.t) :
  forall k v, In (k, v) (buildInteractionMap activities) ->
              In k (accounts_in activities) /\ incl v (accounts_in activities).
Proof.
  unfold buildInteractionMap.
  apply (ClusterFacts.fold_invariant_In
           (fun m : Traversal.adjacency =>
              forall k v, In (k, v) m ->
                          In k (accounts_in activities) /\ incl v (accounts_in activities))).
  - intros k v [].
  - intros m a Ha Hm.
    set (account := SpreadEvent.sourceAccountId a).
    assert (Hacc : In account (accounts_in activities)) by (apply in_map; exact Ha).
    apply ClusterFacts.fold_invariant_In.
    + destruct (shas m account); [exact Hm|].
      intros k v Hin. apply sset_In in Hin. destruct Hin as [Hin|Hin].
      * injection Hin as -> ->. split; [exact Hacc | intros x []].
      * eapply Hm, Hin.
    + intros m' rel Hrel Hm'. destruct (sget m' account) as [s|] eqn:Es; [|exact Hm'].
      intros k v Hin. apply sset_In in Hin. destruct Hin as [Hin|Hin].
      * injection Hin as -> ->. split; [exact Hacc|].
        intros x Hx. apply sadd_In in Hx. destruct Hx as [Hx | ->].
        -- apply sget_In in Es. exact (proj2 (Hm' _ _ Es) x Hx).
        -- apply in_map. apply filter_In in Hrel. apply Hrel.
      * eapply Hm', Hin.
Qed.

Lemma interaction_neighbours (activities : list SpreadEvent.t) :
  forall k n,
    In n (Traversal.neighbours (buildInteractionMap activities) k) ->
    In n (accounts_in activities).
Proof.
  intros k n. unfold Traversal.neighbours.
  destruct (sget (buildInteractionMap activities) k) as [s|] eqn:E; [|intros []].
  apply sget_In in E. intro Hn. exact (proj2 (buildInteractionMap_within _ _ _ E) n Hn).
Qed.

Lemma findNetworkClusters_loop_within (activities : list SpreadEvent.t) :
  forall todo visited clusters cs,
    findNetworkClusters_loop (buildInteractionMap activities) todo visited clusters = Ok cs ->
    (forall k v, In (k, v) todo -> In k (accounts_in activities)) ->
    Forall (fun c => NoDup (NetworkCluster.accounts c) /\
                     incl (NetworkCluster.accounts c) (accounts_in activities)) clusters ->
    Forall (fun c => NoDup (NetworkCluster.accounts c) /\
                     incl (NetworkCluster.accounts c) (accounts_in activities)) cs.
Proof.
  induction todo as [|[account connections] rest IH]; intros visited clusters cs;
    cbn [findNetworkClusters_loop].
  - intro H. injection H as <-. auto.
  - intros H Hkeys Hc.
    assert (Hrest : forall k v, In (k, v) rest -> In k (accounts_in activities)).
    { intros k v Hin. apply (Hkeys k v). right. exact Hin. }
    destruct (negb (smem visited account) && _)%bool; [|exact (IH _ _ _ H Hrest Hc)].
    destruct (expandCluster account (buildInteractionMap activities) visited)
      as [[cluster visited']|e] eqn:Hex; [|discriminate].
    cbn [rbind] in H. apply (IH _ _ _ H Hrest).
    destruct (_ <=? _)%nat; [|exact Hc].
    apply Forall_app. split; [exact Hc|]. constructor; [|constructor].
    cbn [NetworkCluster.accounts].
    unfold expandCluster, Traversal.expandCluster in Hex.
    destruct (expandLoop_cluster (buildInteractionMap activities) (accounts_in activities)
                (interaction_neighbours activities) _ _ _ _ _ _ Hex)
      as (Hnd & _ & Hin).
    + constructor.
    + intros x [].
    + intros x [].
    + intros x [<-|[]]. apply (Hkeys account connections). left. reflexivity.
    + split; assumption.
Qed.

Lemma detectNetworkCoordination_loop_ok (activities : list SpreadEvent.t) :
  forall todo patterns ps,
    detectNetworkCoordination_loop activities todo patterns = Ok ps ->
    Forall (fun c => NoDup (NetworkCluster.accounts c) /\
                     incl (NetworkCluster.accounts c) (accounts_in activities)) todo ->
    Forall (pattern_ok activities) patterns ->
    Forall (pattern_ok activities) ps.
Proof.
  induction todo as [|cluster rest IH]; intros patterns ps;
    cbn [detectNetworkCoordination_loop].
  - intro H. injection H as <-. auto.
  - intros H Htodo Hp. inversion Htodo as [|? ? [Hnd Hin] Hrest]; subst.
    destruct (Nat.leb_spec minGroupSize (length (NetworkCluster.accounts cluster)))
      as [Hlen|_]; [|exact (IH _ _ H Hrest Hp)].
    cbv zeta in H.
    destruct (createNetworkPattern _ (NetworkCluster.accounts cluster)) as [pattern|e] eqn:Hc;
      [|discriminate].
    cbn [rbind] in H. apply (IH _ _ H Hrest).
    apply Forall_app. split; [exact Hp|]. constructor; [|constructor].
    unfold createNetworkPattern in Hc.
    destruct (generateNetworkEvidence _ _) as [evidence|e]; [|discriminate].
    cbn [rbind] in Hc. injection Hc as <-.
    unfold pattern_ok. cbn [CoordinationPattern.accounts].
    split; [exact Hnd|]. split; [exact Hlen | exact Hin].
Qed.

Lemma detectNetworkCoordination_ok (activities : list SpreadEvent.t)
    (ps : list CoordinationPattern.t) :
  detectNetworkCoordination activities = Ok ps -> Forall (pattern_ok activities) ps.
Proof.
  unfold detectNetworkCoordination.
  destruct (findNetworkClusters activities) as [clusters|e] eqn:Hc; [|discriminate].
  cbn [rbind]. intro H.
  apply (detectNetworkCoordination_loop_ok activities _ _ _ H); [|constructor].
  unfold findNetworkClusters in Hc. cbv zeta in Hc.
  apply (findNetworkClusters_loop_within activities _ _ _ _ Hc); [|constructor].
  intros k v Hin. exact (proj1 (buildInteractionMap_within _ _ _ Hin)).
Qed.

Lemma accounts_of_ok (activities group : list SpreadEvent.t) :
  incl group activities ->
  NoDup (accounts_of group) /\ incl (accounts_of group) (accounts_in activities).
Proof.
  intro H. unfold accounts_of. split; [apply suniq_NoDup|].
  intros x Hx. rewrite suniq_In in Hx. apply in_map_iff in Hx.
  destruct Hx as (a & <- & Ha). apply in_map, H, Ha.
Qed.

Lemma detectTemporalCoordination_ok (activities : list SpreadEvent.t) :
  Forall (pattern_ok activities) (detectTemporalCoordination activities).
Proof.
  unfold detectTemporalCoordination.
  apply ClusterFacts.fold_invariant_In; [constructor|].
  intros patterns [t group] Hin Hp.
  destruct (minGroupSize <=? length group)%nat; [|exact Hp].
  destruct (Nat.leb_spec minGroupSize (length (accounts_of group))) as [Hlen|_]; [|exact Hp].
  apply Forall_app. split; [exact Hp|]. constructor; [|constructor].
  assert (Hincl : incl group activities).
  { intros a Ha. destruct (GroupFacts.groupByTimeWindow_ok activities) as (Hperm & _).
    apply (Permutation_in _ Hperm). apply in_concat. exists group. split; [|exact Ha].
    unfold JS.values. apply in_map_iff. exists (t, group). split; [reflexivity | exact Hin]. }
  destruct (accounts_of_ok activities group Hincl) as [Hnd Hsub].
  unfold pattern_ok, createTemporalPattern. cbn [CoordinationPattern.accounts].
  split; [exact Hnd|]. split; [exact Hlen | exact Hsub].
Qed.

Lemma similar_to_incl (L : list SpreadEvent.t) (base : SpreadEvent.t) :
  forall rest used group,
    incl rest L -> incl group L -> incl (fst (similar_to base rest used group)) L.
Proof.
  induction rest as [|other rest IH]; intros used group Hr Hg; cbn [similar_to];
    [exact Hg|].
  assert (Hrest : incl rest L) by (intros x Hx; apply Hr; right; exact Hx).
  destruct (smem used (SpreadEvent.id other)); [apply IH; assumption|].
  destruct (_ >=? _)%num; [|apply IH; assumption].
  apply IH; [exact Hrest|]. intros x Hx. apply in_app_or in Hx.
  destruct Hx as [Hx|[<-|[]]]; [apply Hg, Hx | apply Hr; left; reflexivity].
Qed.

Lemma groupBySimilarContent_loop_incl (L : list SpreadEvent.t) :
  forall todo used groups,
    incl todo L ->
    Forall (fun g => incl g L) groups ->
    Forall (fun g => incl g L) (groupBySimilarContent_loop todo used groups).
Proof.
  induction todo as [|base rest IH]; intros used groups Ht Hg;
    cbn [groupBySimilarContent_loop]; [exact Hg|].
  assert (Hrest : incl rest L) by (intros x Hx; apply Ht; right; exact Hx).
  destruct (smem used (SpreadEvent.id base)); [apply IH; assumption|].
  pose proof (similar_to_incl L base rest (sadd used (SpreadEvent.id base)) [base] Hrest)
    as Hsim.
  destruct (similar_to base rest _ [base]) as [group used'].
  apply IH; [exact Hrest|].
  destruct (_ <=? _)%nat; [|exact Hg].
  apply Forall_app. split; [exact Hg|]. constructor; [|constructor].
  apply Hsim. intros x [<-|[]]. apply Ht. left. reflexivity.
Qed.

Lemma detectContentCoordination_ok (activities : list SpreadEvent.t) :
  Forall (pattern_ok activities) (detectContentCoordination activities).
Proof.
  unfold detectContentCoordination.
  apply ClusterFacts.fold_invariant_In; [constructor|].
  intros patterns group Hin Hp.
  destruct (minGroupSize <=? length group)%nat; [|exact Hp].
  destruct (Nat.leb_spec minGroupSize (length (accounts_of group))) as [Hlen|_]; [|exact Hp].
  apply Forall_app. split; [exact Hp|]. constructor; [|constructor].
  assert (Hincl : incl group activities).
  { pose proof (groupBySimilarContent_loop_incl activities activities [] []
                  (incl_refl _) (Forall_nil _)) as H.
    exact (proj1 (Forall_forall _ _) H group Hin). }
  destruct (accounts_of_ok activities group Hincl) as [Hnd Hsub].
  unfold pattern_ok, createContentPattern. cbn [CoordinationPattern.accounts].
  split; [exact Hnd|]. split; [exact Hlen | exact Hsub].
Qed.

Lemma fold_sadd_length (l s : list string) : length s <= length (fold_left sadd l s).
Proof.
  revert s. induction l as [|x t IH]; intro s; cbn [fold_left]; [lia|].
  apply Nat.le_trans with (length (sadd s x)); [|apply IH].
  unfold JS.add. destruct (smem s x); [lia|]. rewrite length_app. lia.
Qed.

Lemma fold_sadd_incl (S l s : list string) :
  incl s S -> incl l S -> incl (fold_left sadd l s) S.
Proof.
  intros Hs Hl x Hx. apply (@JSFacts.fold_add_In string String.eqb String.eqb_eq) in Hx.
  destruct Hx as [Hx|Hx]; [apply Hs, Hx | apply Hl, Hx].
Qed.

Lemma merge_into_accounts (S : list string) :
  forall rest j used accountSet evidenceList,
    Forall (fun p => incl (CoordinationPattern.accounts p) S) rest ->
    3 <= length accountSet -> incl accountSet S ->
    3 <= length (snd (fst (merge_into j rest used accountSet evidenceList))) /\
    incl (snd (fst (merge_into j rest used accountSet evidenceList))) S.
Proof.
  induction rest as [|other rest IH]; intros j used accountSet evidenceList Hr Hlen Hs;
    cbn [merge_into]; [auto|].
  inversion Hr as [|? ? Ho Hrest]; subst.
  destruct (nmem used j); [apply IH; assumption|].
  destruct (_ <=? _)%nat; [|apply IH; assumption].
  apply IH; [exact Hrest | | apply fold_sadd_incl; assumption].
  apply Nat.le_trans with (length accountSet); [exact Hlen | apply fold_sadd_length].
Qed.

Lemma mergePatterns_loop_ok (activities : list SpreadEvent.t)
    (patterns : list CoordinationPattern.t) :
  forall todo i used merged,
    Forall (pattern_ok activities) todo ->
    Forall (pattern_ok activities) merged ->
    Forall (pattern_ok activities) (mergePatterns_loop patterns i todo used merged).
Proof.
  induction todo as [|basePattern rest IH]; intros i used merged Ht Hm;
    cbn [mergePatterns_loop]; [exact Hm|].
  inversion Ht as [|? ? (Hnd & Hlen & Hin) Hrest]; subst.
  destruct (nmem used i); [apply IH; assumption|].
  assert (Hrest' : Forall (fun p => incl (CoordinationPattern.accounts p)
                                      (accounts_in activities)) rest).
  { revert Hrest. apply Forall_impl. intros p Hp. apply Hp. }
  rewrite (suniq_id Hnd).
  pose proof (@MergeFacts.merge_into_NoDup rest (S i) used
                (CoordinationPattern.accounts basePattern)
                (CoordinationPattern.evidence basePattern) Hnd) as Hn.
  pose proof (merge_into_accounts (accounts_in activities) rest (S i) used
                (CoordinationPattern.accounts basePattern)
                (CoordinationPattern.evidence basePattern) Hrest' Hlen Hin) as [Hl Hs].
  destruct (merge_into _ _ _ _ _) as [[used' accountSet] evidenceList].
  apply IH; [exact Hrest|]. apply Forall_app. split; [exact Hm|].
  constructor; [|constructor]. unfold pattern_ok. cbn [CoordinationPattern.accounts].
  cbn [fst snd] in Hn, Hl, Hs. auto.
Qed.

Lemma detectCoordination_ok (activities : list SpreadEvent.t) (analysisId : string) :
  exists patterns,
    detectCoordination activities analysisId = Ok patterns /\
    Forall (pattern_ok activities) patterns.
Proof.
  unfold detectCoordination. cbv zeta.
  destruct (CoordinationFacts.detectNetworkCoordination_total activities) as [ns Hns].
  rewrite Hns. cbn [rbind]. eexists. split; [reflexivity|].
  apply mergePatterns_loop_ok; [|constructor].
  repeat (apply Forall_app; split).
  - apply detectTemporalCoordination_ok.
  - apply detectContentCoordination_ok.
  - apply detectNetworkCoordination_ok, Hns.
Qed.

End AccountsFacts.

(** X19.  Every pattern [detectCoordination] returns names at least three
    accounts, names no account twice, and names accounts of the activities
    only: each detector asks for three distinct accounts, and the merge only
    adds accounts to a pattern. *)
Theorem detectCoordination_accounts
    (activities : list SpreadEvent.t) (analysisId : string) :
  exists patterns,
    CoordinationDetector.detectCoordination activities analysisId = Ok patterns /\
    Forall (pattern_ok activities) patterns.
Proof. apply AccountsFacts.detectCoordination_ok. Qed.

(** X20.  Activities of fewer than three distinct accounts give no pattern. *)
Theorem detectCoordination_needs_three
    (activities : list SpreadEvent.t) (analysisId : string) :
  length (CoordinationDetector.accounts_of activities) < 3 ->
  CoordinationDetector.detectCoordination activities analysisId = Ok [].
Proof.
  intro Hfew.
  destruct (AccountsFacts.detectCoordination_ok activities analysisId)
    as (patterns & Hp & Hok).
  rewrite Hp. f_equal. destruct patterns as [|p rest]; [reflexivity|]. exfalso.
  inversion Hok as [|? ? (Hnd & Hlen & Hin) _]; subst.
  assert (Hle : length (CoordinationPattern.accounts p)
                <= length (CoordinationDetector.accounts_of activities)).
  { apply NoDup_incl_length; [exact Hnd|]. intros x Hx.
    unfold CoordinationDetector.accounts_of. rewrite suniq_In. apply Hin, Hx. }
  lia.
Qed.

Lemma detectCoordination_needs_three_witness :
  length (CoordinationDetector.accounts_of lone_activities) < 3 /\
  CoordinationDetector.detectCoordination lone_activities "analysis-1" = Ok [].
Proof.
  split; [vm_compute; lia | apply detectCoordination_needs_three; vm_compute; lia].
Defined.
Unset Implicit Arguments.

(* ================================================================== *)
(** * CoordinationDetector: what the merge keeps *)
(* ================================================================== *)

Module KeepFacts.

Import CoordinationDetector.

Lemma nmem_In (s : list nat) (k : nat) : nmem s k = true <-> In k s.
Proof. exact (@JSFacts.mem_In nat Nat.eqb Nat.eqb_eq s k). Qed.

Lemma nadd_In (s : list nat) (c x : nat) : In x (JS.add Nat.eqb s c) <-> In x s \/ x = c.
Proof. exact (@JSFacts.add_In nat Nat.eqb Nat.eqb_eq s c x). Qed.

Lemma fold_sadd_In (l s : list string) (x : string) :
  In x (fold_left sadd l s) <-> In x s \/ In x l.
Proof. exact (@JSFacts.fold_add_In string String.eqb String.eqb_eq l s x). Qed.

(** The inner loop only adds accounts, and every index it marks as used
    is the index of a pattern whose accounts it has taken in. *)
Lemma merge_into_spec :
  forall rest j used accountSet evidenceList,
    incl accountSet (snd (fst (merge_into j rest used accountSet evidenceList))) /\
    forall k,
      In k (fst (fst (merge_into j rest used accountSet evidenceList))) ->
      In k used \/
      (j <= k /\
       exists p, nth_error rest (k - j) = Some p /\
                 incl (CoordinationPattern.accounts p)
                   (snd (fst (merge_into j rest used accountSet evidenceList)))).
Proof.
  induction rest as [|other rest IH]; intros j used accountSet evidenceList;
    cbn [merge_into].
  - split; [apply incl_refl | intros k Hk; left; exact Hk].
  - assert (Hshift : forall k, S j <= k ->
                               nth_error (other :: rest) (k - j) = nth_error rest (k - S j)).
    { intros k Hk. replace (k - j) with (S (k - S j)) by lia. reflexivity. }
    destruct (nmem used j).
    { destruct (IH (S j) used accountSet evidenceList) as [Hinc Hused].
      split; [exact Hinc|]. intros k Hk.
      destruct (Hused k Hk) as [H|(Hle & p & Hp & Hin)]; [left; exact H|].
      right. split; [lia|]. exists p. rewrite (Hshift k Hle). auto. }
    destruct (_ <=? _)%nat.
    + set (acc1 := fold_left sadd (CoordinationPattern.accounts other) accountSet).
      destruct (IH (S j) (JS.add Nat.eqb used j) acc1
                  (evidenceList ++ CoordinationPattern.evidence other)) as [Hinc Hused].
      split.
      * intros x Hx. apply Hinc. apply fold_sadd_In. left. exact Hx.
      * intros k Hk. destruct (Hused k Hk) as [H|(Hle & p & Hp & Hin)].
        -- apply nadd_In in H. destruct H as [H | ->]; [left; exact H|].
           right. split; [lia|]. exists other. rewrite Nat.sub_diag. split; [reflexivity|].
           intros x Hx. apply Hinc. apply fold_sadd_In. right. exact Hx.
        -- right. split; [lia|]. exists p. rewrite (Hshift k Hle). auto.
    + destruct (IH (S j) used accountSet evidenceList) as [Hinc Hused].
      split; [exact Hinc|]. intros k Hk.
      destruct (Hused k Hk) as [H|(Hle & p & Hp & Hin)]; [left; exact H|].
      right. split; [lia|]. exists p. rewrite (Hshift k Hle). auto.
Qed.

Lemma merge_into_incl (S : list string) :
  forall rest j used accountSet evidenceList,
    Forall (fun p => incl (CoordinationPattern.accounts p) S) rest ->
    incl accountSet S ->
    incl (snd (fst (merge_into j rest used accountSet evidenceList))) S.
Proof.
  induction rest as [|other rest IH]; intros j used accountSet evidenceList Hr Hs;
    cbn [merge_into]; [exact Hs|].
  inversion Hr as [|? ? Ho Hrest]; subst.
  destruct (nmem used j); [apply IH; assumption|].
  destruct (_ <=? _)%nat; [|apply IH; assumption].
  apply IH; [exact Hrest|]. intros x Hx. apply fold_sadd_In in Hx.
  destruct Hx as [Hx|Hx]; [apply Hs, Hx | apply Ho, Hx].
Qed.

Lemma covered_more (p : CoordinationPattern.t) (merged more : list CoordinationPattern.t) :
  covered p merged -> covered p (merged ++ more).
Proof.
  intros (q & Hq & Hin). exists q. split; [apply in_or_app; left; exact Hq | exact Hin].
Qed.

Lemma mergePatterns_loop_covers (patterns : list CoordinationPattern.t) :
  forall todo i used merged,
    todo = skipn i patterns ->
    (forall k p, In k used -> nth_error patterns k = Some p -> covered p merged) ->
    (forall k p, k < i -> nth_error patterns k = Some p -> covered p merged) ->
    forall k p,
      nth_error patterns k = Some p ->
      covered p (mergePatterns_loop patterns i todo used merged).
Proof.
  induction todo as [|basePattern rest IH]; intros i used merged Htodo Hused Hbefore k p Hp;
    cbn [mergePatterns_loop].
  - apply (Hbefore k p); [|exact Hp].
    assert (Hk : k < length patterns) by (apply nth_error_Some; rewrite Hp; discriminate).
    assert (Hlen : length (skipn i patterns) = 0) by (rewrite <- Htodo; reflexivity).
    rewrite length_skipn in Hlen. lia.
  - assert (Hbase : nth_error patterns i = Some basePattern).
    { rewrite <- (Nat.add_0_r i), <- nth_error_skipn, <- Htodo. reflexivity. }
    assert (Hrest : rest = skipn (S i) patterns).
    { change (S i) with (1 + i). rewrite <- skipn_skipn, <- Htodo. reflexivity. }
    destruct (nmem used i) eqn:Ei.
    + eapply IH; [exact Hrest | exact Hused | | exact Hp].
      intros k' p' Hk' Hp'. destruct (Nat.eq_dec k' i) as [->|Hne].
      * apply (Hused i p'); [apply nmem_In, Ei | exact Hp'].
      * apply (Hbefore k' p'); [lia | exact Hp'].
    + pose proof (merge_into_spec rest (S i) used
                    (suniq (CoordinationPattern.accounts basePattern))
                    (CoordinationPattern.evidence basePattern)) as [Hinc Hnew].
      destruct (merge_into _ _ _ _ _) as [[used' accountSet] evidenceList].
      cbn [fst snd] in Hinc, Hnew.
      set (q0 := CoordinationPattern.mk accountSet PatternType.mixed _ evidenceList _).
      assert (Hq0 : forall p', incl (CoordinationPattern.accounts p') accountSet ->
                               covered p' (merged ++ [q0])).
      { intros p' Hin. exists q0. split; [apply in_or_app; right; left; reflexivity|].
        exact Hin. }
      eapply IH; [exact Hrest | | | exact Hp].
      * intros k' p' Hk' Hp'. destruct (Hnew k' Hk') as [H|(Hle & p'' & Hp'' & Hin)].
        -- apply covered_more. exact (Hused k' p' H Hp').
        -- apply Hq0. rewrite Hrest, nth_error_skipn in Hp''.
           replace (S i + (k' - S i)) with k' in Hp'' by lia.
           rewrite Hp' in Hp''. injection Hp'' as <-. exact Hin.
      * intros k' p' Hk' Hp'. destruct (Nat.eq_dec k' i) as [->|Hne].
        -- apply Hq0. rewrite Hbase in Hp'. injection Hp' as <-.
           intros x Hx. apply Hinc. rewrite suniq_In. exact Hx.
        -- apply covered_more. apply (Hbefore k' p'); [lia | exact Hp'].
Qed.

Lemma mergePatterns_loop_within (S : list string) (patterns : list CoordinationPattern.t) :
  forall todo i used merged,
    Forall (fun p => incl (CoordinationPattern.accounts p) S) todo ->
    Forall (fun p => incl (CoordinationPattern.accounts p) S) merged ->
    Forall (fun p => incl (CoordinationPattern.accounts p) S)
      (mergePatterns_loop patterns i todo used merged).
Proof.
  induction todo as [|basePattern rest IH]; intros i used merged Ht Hm;
    cbn [mergePatterns_loop]; [exact Hm|].
  inversion Ht as [|? ? Hb Hrest]; subst.
  destruct (nmem used i); [apply IH; assumption|].
  pose proof (merge_into_incl S rest (Datatypes.S i) used
                (suniq (CoordinationPattern.accounts basePattern))
                (CoordinationPattern.evidence basePattern) Hrest) as Hin.
  destruct (merge_into _ _ _ _ _) as [[used' accountSet] evidenceList].
  apply IH; [exact Hrest|]. apply Forall_app. split; [exact Hm|].
  constructor; [|constructor]. cbn [CoordinationPattern.accounts fst snd] in *.
  apply Hin. intros x Hx. rewrite suniq_In in Hx. apply Hb, Hx.
Qed.

Lemma mergePatterns_loop_length (patterns : list CoordinationPattern.t) :
  forall todo i used merged,
    length (mergePatterns_loop patterns i todo used merged) <= length merged + length todo.
Proof.
  induction todo as [|basePattern rest IH]; intros i used merged;
    cbn [mergePatterns_loop length]; [lia|].
  destruct (nmem used i).
  - specialize (IH (S i) used merged). lia.
  - destruct (merge_into _ _ _ _ _) as [[used' accountSet] evidenceList].
    match goal with
    | |- length (mergePatterns_loop _ _ _ _ (merged ++ [?q])) <= _ =>
        specialize (IH (S i) used' (merged ++ [q]))
    end.
    rewrite length_app in IH. cbn [length] in IH. lia.
Qed.

Lemma mergePatterns_keeps (patterns : list CoordinationPattern.t) :
  (forall p, In p patterns -> covered p (mergePatterns patterns)) /\
  Forall (fun q => incl (CoordinationPattern.accounts q)
                     (flat_map CoordinationPattern.accounts patterns))
    (mergePatterns patterns) /\
  length (mergePatterns patterns) <= length patterns.
Proof.
  unfold mergePatterns. split; [|split].
  - intros p Hp. apply In_nth_error in Hp. destruct Hp as [k Hk].
    apply (mergePatterns_loop_covers patterns patterns 0 [] [] eq_refl) with (k := k).
    + intros k' p' [].
    + intros k' p' Hlt. lia.
    + exact Hk.
  - apply mergePatterns_loop_within; [|constructor].
    apply Forall_forall. intros p Hp x Hx. apply in_flat_map. exists p. auto.
  - apply (mergePatterns_loop_length patterns patterns 0 [] []).
Qed.

End KeepFacts.

(** X21.  The merge loses no account and invents none: every account of a
    pattern given to [mergePatterns] is in one of the patterns it returns,
    together with the other accounts of that pattern; every account of a
    returned pattern comes from a given pattern; and no more patterns are
    returned than were given. *)
Theorem mergePatterns_keeps_accounts (patterns : list CoordinationPattern.t) :
  (forall p, In p patterns -> covered p (CoordinationDetector.mergePatterns patterns)) /\
  Forall (fun q => incl (CoordinationPattern.accounts q)
                     (flat_map CoordinationPattern.accounts patterns))
    (CoordinationDetector.mergePatterns patterns) /\
  length (CoordinationDetector.mergePatterns patterns) <= length patterns.
Proof. apply KeepFacts.mergePatterns_keeps. Qed.
Unset Implicit Arguments.

(* ================================================================== *)
(** * CoordinationDetector: activities on one post *)
(* ================================================================== *)

Module SameTargetFacts.

Import CoordinationDetector.

(** The closure of a traversal: the accounts it adds and the accounts
    visited before make up the visited set it leaves, which holds the queue
    and every neighbour of an added account. *)
Lemma expandLoop_closure (adj : Traversal.adjacency) :
  forall fuel queue visited cluster c v,
    Traversal.expandLoop fuel adj queue visited cluster = Ok (c, v) ->
    exists added,
      c = cluster ++ added /\
      (forall x, In x v <-> In x visited \/ In x added) /\
      (forall x, In x queue -> In x v) /\
      (forall x n, In x added -> In n (Traversal.neighbours adj x) -> In n v).
Proof.
  induction fuel as [|fuel IH]; intros queue visited cluster c v;
    destruct queue as [|current rest]; cbn [Traversal.expandLoop].
  - intro H. injection H as <- <-. exists []. rewrite app_nil_r.
    split; [reflexivity|]. split; [intro x; simpl; tauto|].
    split; [intros x [] | intros x n []].
  - discriminate.
  - intro H. injection H as <- <-. exists []. rewrite app_nil_r.
    split; [reflexivity|]. split; [intro x; simpl; tauto|].
    split; [intros x [] | intros x n []].
  - destruct (smem visited current) eqn:Ev.
    + intro H. destruct (IH _ _ _ _ _ H) as (added & Hc & Hv & Hq & Hn).
      exists added. split; [exact Hc|]. split; [exact Hv|]. split; [|exact Hn].
      intros x [<-|Hx]; [|exact (Hq x Hx)].
      apply Hv. left. apply smem_In, Ev.
    + cbv zeta. intro H. destruct (IH _ _ _ _ _ H) as (added & Hc & Hv & Hq & Hn).
      exists (current :: added). split; [rewrite Hc, <- app_assoc; reflexivity|].
      assert (Hcur : In current v).
      { apply Hv. left. apply sadd_In. right. reflexivity. }
      split; [|split].
      * intro x. rewrite Hv, sadd_In. simpl. split.
        -- intros [[H1|H1]|H1]; auto.
        -- intros [H1|[H1|H1]]; auto.
      * intros x [<-|Hx]; [exact Hcur|]. apply Hq, in_or_app. left. exact Hx.
      * intros x n [<-|Hx] Hnb; [|exact (Hn x n Hx Hnb)].
        destruct (smem (sadd visited current) n) eqn:En.
        -- apply Hv. left. apply smem_In, En.
        -- apply Hq, in_or_app. right. apply filter_In. split; [exact Hnb|].
           rewrite En. reflexivity.
Qed.

Lemma sget_snoc_fresh {V} (m : list (string * V)) (k : string) (s : V) :
  sget m k = None -> sget (m ++ [(k, s)]) k = Some s.
Proof.
  induction m as [|[k' v'] t IH]; cbn [JS.get app].
  - rewrite seq_refl. reflexivity.
  - destruct (String.eqb k' k); [discriminate | exact IH].
Qed.

Lemma sset_snoc_fresh {V} (m : list (string * V)) (k : string) (s s' : V) :
  sget m k = None -> sset (m ++ [(k, s)]) k s' = m ++ [(k, s')].
Proof.
  induction m as [|[k' v'] t IH]; cbn [JS.get JS.set app].
  - rewrite seq_refl. reflexivity.
  - destruct (String.eqb k' k); [discriminate|]. intro H. rewrite (IH H). reflexivity.
Qed.

Lemma map_filter_comm {A B} (f : A -> B) (p : B -> bool) (l : list A) :
  map f (filter (fun x => p (f x)) l) = filter p (map f l).
Proof.
  induction l as [|x t IH]; cbn [filter map]; [reflexivity|].
  destruct (p (f x)); cbn [map]; rewrite IH; reflexivity.
Qed.

(** The inner loop on an account that has its full set already *)
Lemma related_fold_fixed (m : Traversal.adjacency) (account : string) (V : list string) :
  sget m account = Some V ->
  forall related : list SpreadEvent.t,
    (forall rel, In rel related -> In (SpreadEvent.sourceAccountId rel) V) ->
    fold_left (fun m rel =>
        match sget m account with
        | Some s => sset m account (sadd s (SpreadEvent.sourceAccountId rel))
        | None => m
        end) related m = m.
Proof.
  intros Hget related. induction related as [|rel t IH]; intro H; cbn [fold_left];
    [reflexivity|].
  rewrite Hget, (StarFacts.sadd_present V _ (H rel (or_introl eq_refl))).
  rewrite (StarFacts.sset_same m account V Hget).
  apply IH. intros r Hr. apply H. right. exact Hr.
Qed.

(** The inner loop on an account that has just been given an empty set *)
Lemma related_fold_fresh (m : Traversal.adjacency) (account : string) :
  sget m account = None ->
  forall (related : list SpreadEvent.t) (s : list string),
    fold_left (fun m rel =>
        match sget m account with
        | Some s => sset m account (sadd s (SpreadEvent.sourceAccountId rel))
        | None => m
        end) related (m ++ [(account, s)])
    = m ++ [(account, fold_left sadd (map SpreadEvent.sourceAccountId related) s)].
Proof.
  intros Hnone related. induction related as [|rel t IH]; intro s; cbn [fold_left map];
    [reflexivity|].
  rewrite (sget_snoc_fresh m account s Hnone), (sset_snoc_fresh m account s _ Hnone).
  apply IH.
Qed.

Lemma complete_adjacency_get (activities processed : list SpreadEvent.t) (k : string) :
  sget (complete_adjacency activities processed) k
  = if smem (accounts_in processed) k then Some (others activities k) else None.
Proof.
  unfold complete_adjacency. destruct (smem (accounts_in processed) k) eqn:E.
  - apply (StarFacts.sget_map_key _ (others activities)).
    rewrite suniq_In. apply smem_In, E.
  - apply sget_None. unfold JS.keys. rewrite map_map. cbn [fst]. rewrite map_id.
    rewrite suniq_In. apply StarFacts.smem_false, E.
Qed.

Lemma buildInteractionMap_fold (activities : list SpreadEvent.t) :
  same_target activities ->
  forall l processed,
    activities = processed ++ l ->
    fold_left (fun adjacencyMap activity =>
        let account := SpreadEvent.sourceAccountId activity in
        let m := if shas adjacencyMap account then adjacencyMap
                 else sset adjacencyMap account [] in
        let related := filter (fun a =>
            String.eqb (SpreadEvent.targetTweetId a) (SpreadEvent.targetTweetId activity)
            && negb (String.eqb (SpreadEvent.sourceAccountId a) account)) activities in
        fold_left (fun m rel =>
            match sget m account with
            | Some s => sset m account (sadd s (SpreadEvent.sourceAccountId rel))
            | None => m
            end) related m) l (complete_adjacency activities processed)
    = complete_adjacency activities activities.
Proof.
  intro Hsame. induction l as [|a t IH]; intros processed Hsplit; cbn [fold_left].
  - rewrite app_nil_r in Hsplit. rewrite Hsplit. reflexivity.
  - cbv zeta. set (account := SpreadEvent.sourceAccountId a).
    assert (Ha : In a activities) by (rewrite Hsplit; apply in_or_app; right; left; reflexivity).
    assert (Hrelated : filter (fun x =>
                           String.eqb (SpreadEvent.targetTweetId x) (SpreadEvent.targetTweetId a)
                           && negb (String.eqb (SpreadEvent.sourceAccountId x) account))
                         activities
                       = filter (fun x => negb (String.eqb (SpreadEvent.sourceAccountId x) account))
                           activities).
    { apply filter_ext_in. intros x Hx. rewrite (Hsame x a Hx Ha), seq_refl. reflexivity. }
    rewrite Hrelated.
    assert (Hnext : complete_adjacency activities (processed ++ [a])
                    = if smem (accounts_in processed) account
                      then complete_adjacency activities processed
                      else complete_adjacency activities processed
                           ++ [(account, others activities account)]).
    { unfold complete_adjacency, accounts_in. rewrite map_app. cbn [map].
      rewrite StarFacts.suniq_snoc. fold account. unfold JS.add.
      rewrite smem_suniq.
      destruct (smem (map SpreadEvent.sourceAccountId processed) account); [reflexivity|].
      rewrite map_app. reflexivity. }
    rewrite <- (IH (processed ++ [a])) by (rewrite <- app_assoc; exact Hsplit).
    f_equal. rewrite Hnext. unfold JS.has.
    rewrite (complete_adjacency_get activities processed account).
    destruct (smem (accounts_in processed) account) eqn:E.
    + apply (related_fold_fixed _ account (others activities account)).
      * rewrite complete_adjacency_get, E. reflexivity.
      * intros rel Hrel. apply filter_In in Hrel. destruct Hrel as [Hin Hne].
        unfold others. rewrite suniq_In. apply filter_In. split; [|exact Hne].
        apply in_map, Hin.
    + assert (Hnone : sget (complete_adjacency activities processed) account = None)
        by (rewrite complete_adjacency_get, E; reflexivity).
      rewrite (@sset_fresh _ _ account [] Hnone), (related_fold_fresh _ _ Hnone).
      f_equal. f_equal. f_equal.
      rewrite (map_filter_comm SpreadEvent.sourceAccountId
                 (fun x => negb (String.eqb x account))).
      reflexivity.
Qed.

(** When every activity reacts to the same post, every account is linked
    to every other account. *)
Lemma buildInteractionMap_complete (activities : list SpreadEvent.t) :
  same_target activities ->
  buildInteractionMap activities = complete_adjacency activities activities.
Proof.
  intro Hsame. unfold buildInteractionMap.
  exact (buildInteractionMap_fold activities Hsame activities [] eq_refl).
Qed.

Lemma findNetworkClusters_loop_skip (adj : Traversal.adjacency) (visited : list string)
    (clusters : list NetworkCluster.t) :
  forall todo,
    (forall k v, In (k, v) todo -> In k visited) ->
    findNetworkClusters_loop adj todo visited clusters = Ok clusters.
Proof.
  induction todo as [|[account connections] rest IH]; intro H;
    cbn [findNetworkClusters_loop]; [reflexivity|].
  assert (Hv : smem visited account = true)
    by (apply smem_In, (H account connections); left; reflexivity).
  rewrite Hv. cbn [negb andb]. apply IH. intros k v Hin. apply (H k v). right. exact Hin.
Qed.

(** One cluster, of all the accounts, when they are three or more. *)
Lemma findNetworkClusters_complete (activities : list SpreadEvent.t) :
  same_target activities ->
  3 <= length (accounts_of activities) ->
  exists c density,
    findNetworkClusters activities = Ok [NetworkCluster.mk c density] /\
    NoDup c /\ 3 <= length c /\
    (forall k, In k c <-> In k (accounts_in activities)).
Proof.
  intros Hsame Hlen. unfold findNetworkClusters. cbv zeta.
  pose proof (buildInteractionMap_complete activities Hsame) as HA.
  set (A := buildInteractionMap activities) in *.
  assert (HU : NoDup (accounts_of activities)) by apply suniq_NoDup.
  assert (Hmem : forall k, In k (accounts_of activities) <-> In k (accounts_in activities))
    by (intro k; apply suniq_In).
  destruct (accounts_of activities) as [|k0 R] eqn:EU; [simpl in Hlen; lia|].
  assert (Htodo : A = (k0, others activities k0) :: map (fun k => (k, others activities k)) R).
  { rewrite HA. unfold complete_adjacency.
    change (suniq (accounts_in activities)) with (accounts_of activities). rewrite EU.
    reflexivity. }
  inversion HU as [|? ? Hk0 HR]; subst.
  assert (Hk0in : In k0 (accounts_in activities)) by (apply Hmem; left; reflexivity).
  assert (Hothers : forall r, In r R -> In r (others activities k0)).
  { intros r Hr. unfold others. rewrite suniq_In. apply filter_In. split.
    - apply Hmem. right. exact Hr.
    - destruct (String.eqb_spec r k0) as [->|_]; [contradiction | reflexivity]. }
  assert (Hconns : 2 <= length (others activities k0)).
  { apply Nat.le_trans with (length R); [simpl in Hlen; lia|].
    apply NoDup_incl_length; [exact HR | exact Hothers]. }
  destruct (TraversalFacts.expandCluster_total k0 A []) as [[c v] Hex].
  pose proof Hex as Hex'. unfold Traversal.expandCluster in Hex'.
  destruct (AccountsFacts.expandLoop_cluster A (accounts_in activities)
              (AccountsFacts.interaction_neighbours activities) _ _ _ _ _ _ Hex')
    as (Hnd & Hcv & HcS);
    [constructor | intros x [] | intros x [] | intros x [<-|[]]; exact Hk0in |].
  destruct (expandLoop_closure A _ _ _ _ _ _ Hex') as (added & Hc & Hv & Hq & Hn).
  cbn [app] in Hc. subst added.
  assert (Hk0c : In k0 c).
  { pose proof (Hq k0 (or_introl eq_refl)) as H. apply (Hv k0) in H.
    destruct H as [[]|H]. exact H. }
  assert (HRc : forall r, In r R -> In r c).
  { intros r Hr.
    assert (Hnb : In r (Traversal.neighbours A k0)).
    { unfold Traversal.neighbours. rewrite HA, complete_adjacency_get.
      apply smem_In in Hk0in. rewrite Hk0in. apply Hothers, Hr. }
    pose proof (Hn k0 r Hk0c Hnb) as H. apply (Hv r) in H.
    destruct H as [[]|H]. exact H. }
  assert (Hall : forall k, In k c <-> In k (accounts_in activities)).
  { intro k. split; [apply HcS|]. intro Hk. apply Hmem in Hk.
    destruct Hk as [<-|Hk]; [exact Hk0c | exact (HRc k Hk)]. }
  assert (Hclen : 3 <= length c).
  { apply Nat.le_trans with (length (k0 :: R)); [exact Hlen|].
    apply NoDup_incl_length; [exact HU|]. intros k Hk. apply Hall, Hmem, Hk. }
  exists c, (calculateClusterDensity c A).
  split; [|split; [exact Hnd | split; [exact Hclen | exact Hall]]].
  rewrite Htodo at 2. cbn [findNetworkClusters_loop JS.mem existsb negb andb].
  unfold minGroupSize at 1.
  replace (3 - 1 <=? length (others activities k0))%nat with true
    by (symmetry; apply Nat.leb_le; exact Hconns).
  unfold expandCluster. rewrite Hex. cbn [rbind]. unfold minGroupSize.
  replace (3 <=? length c)%nat with true by (symmetry; apply Nat.leb_le; exact Hclen).
  apply findNetworkClusters_loop_skip.
  intros k conns Hin. apply in_map_iff in Hin. destruct Hin as (r & Hr & HrR).
  injection Hr as <- _. apply Hcv, HRc, HrR.
Qed.

Lemma detectNetworkCoordination_complete (activities : list SpreadEvent.t) :
  same_target activities ->
  3 <= length (accounts_of activities) ->
  exists pattern,
    detectNetworkCoordination activities = Ok [pattern] /\
    lists_everyone activities pattern.
Proof.
  intros Hsame Hlen.
  destruct (findNetworkClusters_complete activities Hsame Hlen)
    as (c & density & Hc & Hnd & Hclen & Hall).
  unfold detectNetworkCoordination. rewrite Hc. cbn [rbind detectNetworkCoordination_loop].
  cbn [NetworkCluster.accounts]. unfold minGroupSize.
  replace (3 <=? length c)%nat with true by (symmetry; apply Nat.leb_le; exact Hclen).
  cbv zeta.
  assert (Hne : exists y ys,
             filter (fun a => smem c (SpreadEvent.sourceAccountId a)) activities = y :: ys).
  { destruct activities as [|a t]; [simpl in Hlen; lia|].
    apply (CoordinationFacts.filter_nonempty _ (a :: t) a); [left; reflexivity|].
    apply smem_In, Hall. left. reflexivity. }
  destruct Hne as (y & ys & Hf). rewrite Hf.
  unfold createNetworkPattern, generateNetworkEvidence. cbn [rbind].
  eexists. split; [reflexivity|]. intro k. cbn [CoordinationPattern.accounts]. apply Hall.
Qed.

(** Three accounts on one post make a pattern of everybody. *)
Lemma detectCoordination_complete (activities : list SpreadEvent.t) (analysisId : string) :
  same_target activities ->
  3 <= length (accounts_of activities) ->
  exists patterns q,
    detectCoordination activities analysisId = Ok patterns /\
    In q patterns /\
    lists_everyone activities q.
Proof.
  intros Hsame Hlen.
  destruct (AccountsFacts.detectCoordination_ok activities analysisId) as (patterns & Hp & Hok).
  destruct (detectNetworkCoordination_complete activities Hsame Hlen) as (N & HN & Hall).
  pose proof Hp as Hp'. unfold detectCoordination in Hp'. cbv zeta in Hp'.
  rewrite HN in Hp'. cbn [rbind] in Hp'. injection Hp' as Hp'.
  destruct (KeepFacts.mergePatterns_keeps
              (detectTemporalCoordination activities
               ++ detectContentCoordination activities ++ [N])) as (Hcov & _).
  destruct (Hcov N) as (q & Hq & Hin).
  { apply in_or_app. right. apply in_or_app. right. left. reflexivity. }
  rewrite Hp' in Hq.
  exists patterns, q. split; [exact Hp|]. split; [exact Hq|].
  intro k. split.
  - intro Hk. destruct (proj1 (Forall_forall _ _) Hok q Hq) as (_ & _ & Hsub).
    apply Hsub, Hk.
  - intro Hk. apply Hin, Hall, Hk.
Qed.

Lemma extractActivities_same_target (spreadData : SpreadData.t) :
  same_target (AnalysisEngine.extractActivities spreadData).
Proof.
  assert (H : forall a, In a (AnalysisEngine.extractActivities spreadData) ->
                        SpreadEvent.targetTweetId a
                        = Tweet.id (SpreadData.originalTweet spreadData)).
  { intros a Ha. unfold AnalysisEngine.extractActivities in Ha. cbv zeta in Ha.
    apply in_app_or in Ha.
    destruct Ha as [Ha|Ha]; apply in_map_iff in Ha; destruct Ha as (x & <- & _);
      reflexivity. }
  intros a b Ha Hb. rewrite (H a Ha), (H b Hb). reflexivity.
Qed.

End SameTargetFacts.

(** X22.  Activities that react to one post link every account to every other
    account.  With three distinct accounts or more, however far apart in
    time and whatever they wrote, the network detector finds one cluster of
    everybody, and [detectCoordination] returns a pattern that lists every
    account of the activities. *)
Theorem detectCoordination_one_post
    (activities : list SpreadEvent.t) (analysisId : string) :
  same_target activities ->
  3 <= length (CoordinationDetector.accounts_of activities) ->
  exists patterns q,
    CoordinationDetector.detectCoordination activities analysisId = Ok patterns /\
    In q patterns /\
    lists_everyone activities q.
Proof. apply SameTargetFacts.detectCoordination_complete. Qed.

Lemma detectCoordination_one_post_witness :
  same_target one_post_activities /\
  3 <= length (CoordinationDetector.accounts_of one_post_activities) /\
  exists patterns q,
    CoordinationDetector.detectCoordination one_post_activities "analysis-1" = Ok patterns /\
    In q patterns /\
    lists_everyone one_post_activities q.
Proof.
  assert (Hsame : same_target one_post_activities).
  { intros a b Ha Hb. simpl in Ha, Hb.
    destruct Ha as [<-|[<-|[<-|[]]]]; destruct Hb as [<-|[<-|[<-|[]]]]; reflexivity. }
  assert (Hlen : 3 <= length (CoordinationDetector.accounts_of one_post_activities))
    by (vm_compute; lia).
  split; [exact Hsame|]. split; [exact Hlen|].
  exact (detectCoordination_one_post one_post_activities "analysis-1" Hsame Hlen).
Defined.

(** X23.  In the pipeline every activity reacts to the post under analysis.  So
    as soon as three distinct accounts have reposted or quoted the post,
    [runFullAnalysis] reports a coordination pattern, and one of its patterns
    lists every account that reposted or quoted. *)
Theorem runFullAnalysis_three_accounts
    (spreadData : SpreadData.t) (analysisId : string) (w : World) :
  3 <= length (CoordinationDetector.accounts_of (AnalysisEngine.extractActivities spreadData)) ->
  exists r w' q,
    AnalysisEngine.runFullAnalysis spreadData analysisId w = Ok (r, w') /\
    In q (FullAnalysis.coordination r) /\
    lists_everyone (AnalysisEngine.extractActivities spreadData) q.
Proof.
  intro Hlen. unfold AnalysisEngine.runFullAnalysis.
  destruct (ClusterFacts.analyzeNetwork_spec spreadData analysisId w)
    as (cs & infl & v & Hn & _).
  bind_step Hn.
  destruct (EngineFacts.detectBots_total (AnalysisEngine.extractAccounts spreadData) v)
    as (b & x & Hb).
  bind_step Hb.
  destruct (SameTargetFacts.detectCoordination_complete
              (AnalysisEngine.extractActivities spreadData) analysisId
              (SameTargetFacts.extractActivities_same_target spreadData) Hlen)
    as (ps & q & Hps & Hq & Hall).
  bind_step (@lift_Ok _ _ _ x Hps).
  destruct (AnomalyFacts.detectAnomalies_total
              (AnalysisEngine.extractTimeline spreadData) analysisId x) as (a & y & Ha).
  bind_step Ha.
  match goal with
  | |- context [bind (AnalysisEngine.generateSummary ?n ?b ?c ?a) _ y] =>
      destruct (EngineFacts.generateSummary_total n b c a y) as (s & z & Hs)
  end.
  bind_step Hs. unfold ret. eexists _, _, q. split; [reflexivity|].
  split; [exact Hq | exact Hall].
Qed.

Lemma runFullAnalysis_three_accounts_witness :
  3 <= length (CoordinationDetector.accounts_of
                 (AnalysisEngine.extractActivities three_reposts)) /\
  exists r w' q,
    AnalysisEngine.runFullAnalysis three_reposts "analysis-1" (still_world 20000000)
    = Ok (r, w') /\
    In q (FullAnalysis.coordination r) /\
    lists_everyone (AnalysisEngine.extractActivities three_reposts) q.
Proof.
  assert (Hlen : 3 <= length (CoordinationDetector.accounts_of
                                (AnalysisEngine.extractActivities three_reposts)))
    by (vm_compute; lia).
  split; [exact Hlen|].
  exact (runFullAnalysis_three_accounts three_reposts "analysis-1"
           (still_world 20000000) Hlen).
Defined.
Unset Implicit Arguments.

(* ================================================================== *)
(** * AnalysisEngine: the accounts and the scores *)
(* ================================================================== *)

Module AccountMapFacts.

Import AnalysisEngine.

(** [m.set(k, v)] keeps the keys in place and adds a new key at the end. *)
Lemma keys_sset {V} (m : list (string * V)) (k : string) (v : V) :
  JS.keys (sset m k v) = sadd (JS.keys m) k.
Proof.
  destruct (sget m k) as [v0|] eqn:E.
  - rewrite (@skeys_sset_present _ m k v v0 E). symmetry. apply StarFacts.sadd_present.
    apply sget_In in E. apply (in_map fst) in E. exact E.
  - rewrite (@sset_fresh _ m k v E). unfold JS.keys. rewrite map_app. cbn [map fst].
    symmetry. apply StarFacts.sadd_fresh. apply sget_None. exact E.
Qed.

(** The authors that are missing leave the map as it is. *)
Lemma fold_add_author (authors : list (option Account.t)) :
  forall accountMap,
    fold_left add_author authors accountMap
    = fold_left (fun m a => sset m (Account.id a) a) (flat_map present authors) accountMap.
Proof.
  induction authors as [|[a|] t IH]; intro accountMap; cbn [fold_left flat_map present app];
    [reflexivity | apply IH | apply IH].
Qed.

(** The map of the accounts set one after the other: its keys are the ids
    in the order of their first occurrence, and the account under an id is
    the last one set. *)
Lemma set_all (l : list Account.t) :
  JS.keys (fold_left (fun m a => sset m (Account.id a) a) l [])
  = suniq (map Account.id l) /\
  forall k, sget (fold_left (fun m a => sset m (Account.id a) a) l []) k
            = find (fun a => Account.id a =? k)%string (rev l).
Proof.
  induction l as [|a l [IHk IHg]] using rev_ind.
  - split; [reflexivity | intro k; reflexivity].
  - rewrite fold_left_app. cbn [fold_left]. split.
    + rewrite keys_sset, IHk, map_app. cbn [map]. symmetry. apply StarFacts.suniq_snoc.
    + intro k. rewrite rev_app_distr. cbn [rev app find].
      destruct (String.eqb_spec (Account.id a) k) as [<-|Hne].
      * apply sget_sset_same.
      * rewrite sget_sset_other by exact Hne. apply IHg.
Qed.

Lemma extractAccounts_fold (spreadData : SpreadData.t) :
  extractAccounts spreadData
  = JS.values (fold_left (fun m a => sset m (Account.id a) a) (authors_of spreadData) []).
Proof.
  unfold extractAccounts, authors_of. cbv zeta. f_equal.
  rewrite <- (fold_add_author _ []). reflexivity.
Qed.

Lemma extractAccounts_spec (spreadData : SpreadData.t) :
  map Account.id (extractAccounts spreadData)
  = suniq (map Account.id (authors_of spreadData)) /\
  Forall (fun a => last_author spreadData (Account.id a) = Some a)
    (extractAccounts spreadData).
Proof.
  rewrite extractAccounts_fold.
  destruct (set_all (authors_of spreadData)) as [Hk Hg].
  set (m := fold_left (fun m a => sset m (Account.id a) a) (authors_of spreadData) []) in *.
  assert (Hnd : NoDup (JS.keys m)) by (rewrite Hk; apply suniq_NoDup).
  assert (He : forall k v, In (k, v) m ->
                           last_author spreadData k = Some v /\ Account.id v = k).
  { intros k v Hin. apply (DedupFacts.NoDup_keys_get _ _ _ _ Hnd) in Hin.
    rewrite Hg in Hin. split; [exact Hin|].
    apply find_some in Hin. destruct Hin as [_ Hin]. apply String.eqb_eq, Hin. }
  split.
  - rewrite <- Hk. unfold JS.values, JS.keys. rewrite map_map.
    apply map_ext_in. intros [k v] Hin. cbn [fst snd]. apply (He k v Hin).
  - apply Forall_forall. intros v Hin. unfold JS.values in Hin.
    apply in_map_iff in Hin. destruct Hin as ([k v'] & E & Hin). cbn [snd] in E. subst v'.
    destruct (He k v Hin) as [Hl Hid]. rewrite Hid. exact Hl.
Qed.

End AccountMapFacts.

(** X24.  [extractAccounts] returns one account for each author id of the
    dataset, in the order in which the ids first occur among the post, the
    reposts, the quotes and the replies; when several author objects carry
    the same id, the account returned is the last of them. *)
Theorem extractAccounts_one_per_id (spreadData : SpreadData.t) :
  map Account.id (AnalysisEngine.extractAccounts spreadData)
  = suniq (map Account.id (authors_of spreadData)) /\
  NoDup (map Account.id (AnalysisEngine.extractAccounts spreadData)) /\
  Forall (fun a => last_author spreadData (Account.id a) = Some a)
    (AnalysisEngine.extractAccounts spreadData).
Proof.
  destruct (AccountMapFacts.extractAccounts_spec spreadData) as [Hk Hl].
  split; [exact Hk|]. split; [|exact Hl]. rewrite Hk. apply suniq_NoDup.
Qed.

(** ** The engagement shares *)

Module EngagementFacts.

Import AnalysisEngine.

Lemma count_app {A} (p : A -> bool) (l1 l2 : list A) :
  count p (l1 ++ l2) = (count p l1 + count p l2)%Z.
Proof. unfold count. rewrite filter_app, length_app. lia. Qed.

Lemma count_map {A B} (f : A -> B) (p : B -> bool) (l : list A) :
  count p (map f l) = count (fun x => p (f x)) l.
Proof.
  unfold count. f_equal. induction l as [|x t IH]; cbn [map filter]; [reflexivity|].
  destruct (p (f x)); cbn [length]; rewrite IH; reflexivity.
Qed.

Lemma zlength_edges (context : SpreadData.t) :
  (zlength (SpreadData.retweets context) + zlength (SpreadData.quotes context)
   + zlength (SpreadData.replies context))%Z
  = zlength (interaction_edges context).
Proof.
  unfold interaction_edges, zlength. cbv zeta. rewrite !length_app, !length_map. lia.
Qed.

Lemma calculateEngagement_edges (accountId : string) (context : SpreadData.t) :
  calculateEngagement accountId context
  = if (0 <? zlength (interaction_edges context))%Z
    then (Num.of_Z (interactions_of context accountId)
          / Num.of_Z (zlength (interaction_edges context)) * Fin 100)%num
    else Num.zero.
Proof.
  unfold calculateEngagement. cbv zeta. rewrite zlength_edges.
  replace (count (fun r => Retweet.authorId r =? accountId)%string (SpreadData.retweets context)
           + count (fun q => Quote.authorId q =? accountId)%string (SpreadData.quotes context)
           + count (fun r => Reply.authorId r =? accountId)%string (SpreadData.replies context))%Z
    with (interactions_of context accountId); [reflexivity|].
  unfold interactions_of, interaction_edges. cbv zeta.
  rewrite !count_app, !count_map. cbn [NetworkEdge.source]. lia.
Qed.

(** The share of [c] interactions out of [T]. *)
Lemma share_value (c T : Z) :
  (0 < T)%Z ->
  exists q,
    (Num.of_Z c / Num.of_Z T * Fin 100)%num = Fin q /\
    (q == inject_Z c * (100 / inject_Z T))%Q.
Proof.
  intro HT. unfold Num.of_Z. cbn [Num.div].
  rewrite (NumFacts.Qsign_pos (NumFacts.inject_Z_pos HT)). cbn [Num.mul].
  eexists. split; [reflexivity|]. rewrite !Qred_correct.
  assert (H : ~ (inject_Z T == 0)%Q).
  { intro E. unfold Qeq, inject_Z in E. cbn [Qnum Qden] in E. lia. }
  field. exact H.
Qed.

Lemma engagement_range (accountId : string) (context : SpreadData.t) :
  in_range 100 (calculateEngagement accountId context).
Proof.
  rewrite calculateEngagement_edges.
  destruct (0 <? zlength (interaction_edges context))%Z eqn:E.
  - apply Z.ltb_lt in E.
    destruct (share_value (interactions_of context accountId) _ E) as (q & -> & Hq).
    cbn [in_range]. rewrite Hq.
    pose proof (KeyFacts.count_bounds
                  (fun e => NetworkEdge.source e =? accountId)%string
                  (interaction_edges context)) as [H0 H1].
    fold (interactions_of context accountId) in H0, H1.
    set (c := interactions_of context accountId) in *.
    set (T := zlength (interaction_edges context)) in *.
    assert (Hc : (0 <= inject_Z c)%Q) by (apply NumFacts.inject_Z_nonneg; exact H0).
    assert (HT : (0 < inject_Z T)%Q) by (apply NumFacts.inject_Z_pos; exact E).
    assert (HcT : (inject_Z c <= inject_Z T)%Q) by (rewrite <- Zle_Qle; exact H1).
    assert (Hd : (0 < 100 / inject_Z T)%Q).
    { apply Qlt_shift_div_l; [exact HT | lra]. }
    split.
    + apply Qmult_le_0_compat; [exact Hc | lra].
    + setoid_replace (100 : Q) with (inject_Z T * (100 / inject_Z T))%Q at 2
        by (field; lra).
      apply Qmult_le_compat_r; [exact HcT | lra].
  - vm_compute. split; discriminate.
Qed.

(** The share grows with the number of interactions. *)
Lemma engagement_monotone (a b : string) (context : SpreadData.t) :
  (interactions_of context a <= interactions_of context b)%Z ->
  Num.leb (calculateEngagement a context) (calculateEngagement b context) = true.
Proof.
  intro Hab. rewrite !calculateEngagement_edges.
  destruct (0 <? zlength (interaction_edges context))%Z eqn:E; [|reflexivity].
  apply Z.ltb_lt in E.
  destruct (share_value (interactions_of context a) _ E) as (qa & -> & Ha).
  destruct (share_value (interactions_of context b) _ E) as (qb & -> & Hb).
  apply NumFacts.leb_Fin. rewrite Ha, Hb.
  assert (HT : (0 < inject_Z (zlength (interaction_edges context)))%Q)
    by (apply NumFacts.inject_Z_pos; exact E).
  assert (Hd : (0 < 100 / inject_Z (zlength (interaction_edges context)))%Q).
  { apply Qlt_shift_div_l; [exact HT | lra]. }
  apply Qmult_le_compat_r; [rewrite <- Zle_Qle; exact Hab | lra].
Qed.

(** No interaction, no engagement. *)
Lemma engagement_none (accountId : string) (context : SpreadData.t) :
  interactions_of context accountId = 0%Z ->
  calculateEngagement accountId context = Num.zero.
Proof.
  intro H0. rewrite calculateEngagement_edges.
  destruct (0 <? zlength (interaction_edges context))%Z eqn:E; [|reflexivity].
  apply Z.ltb_lt in E.
  destruct (share_value (interactions_of context accountId) _ E) as (q & Hq & Hv).
  rewrite Hq. unfold Num.zero. f_equal.
  assert (Hred : Qred q = q).
  { unfold Num.of_Z in Hq. cbn [Num.div] in Hq.
    rewrite (NumFacts.Qsign_pos (NumFacts.inject_Z_pos E)) in Hq. cbn [Num.mul] in Hq.
    injection Hq as <-. apply Qred_complete, Qred_correct. }
  rewrite <- Hred. change 0%Q with (Qred 0). apply Qred_complete.
  rewrite Hv, H0. change (inject_Z 0) with 0%Q. ring.
Qed.

(** The account behind every interaction has an engagement of 100. *)
Lemma engagement_all (accountId : string) (context : SpreadData.t) :
  interaction_edges context <> [] ->
  interactions_of context accountId = zlength (interaction_edges context) ->
  calculateEngagement accountId context = Fin 100.
Proof.
  intros Hne Hall. rewrite calculateEngagement_edges.
  assert (E : (0 < zlength (interaction_edges context))%Z).
  { unfold zlength. destruct (interaction_edges context); [contradiction | cbn [length]; lia]. }
  destruct (0 <? zlength (interaction_edges context))%Z eqn:E'; [|lia].
  destruct (share_value (interactions_of context accountId) _ E) as (q & Hq & Hv).
  rewrite Hq. f_equal.
  assert (Hred : Qred q = q).
  { unfold Num.of_Z in Hq. cbn [Num.div] in Hq.
    rewrite (NumFacts.Qsign_pos (NumFacts.inject_Z_pos E)) in Hq. cbn [Num.mul] in Hq.
    injection Hq as <-. apply Qred_complete, Qred_correct. }
  rewrite <- Hred. change 100%Q with (Qred 100). apply Qred_complete.
  rewrite Hv, Hall. field.
  intro H. unfold Qeq, inject_Z in H. cbn [Qnum Qden] in H. lia.
Qed.

End EngagementFacts.

(** X25.  The engagement of an account is its share of the reposts,
    quotes and replies, in percent: a number between 0 and 100, which is 0
    for an account without an interaction and 100 for the account behind
    every interaction, and an account with more interactions never has the
    lower engagement. *)
Theorem calculateEngagement_shares (context : SpreadData.t) :
  (forall accountId,
      in_range 100 (AnalysisEngine.calculateEngagement accountId context)) /\
  (forall accountId,
      interactions_of context accountId = 0%Z ->
      AnalysisEngine.calculateEngagement accountId context = Num.zero) /\
  (forall accountId,
      interaction_edges context <> [] ->
      interactions_of context accountId = zlength (interaction_edges context) ->
      AnalysisEngine.calculateEngagement accountId context = Fin 100) /\
  (forall a b,
      (interactions_of context a <= interactions_of context b)%Z ->
      Num.leb (AnalysisEngine.calculateEngagement a context)
        (AnalysisEngine.calculateEngagement b context) = true).
Proof.
  split; [intro accountId; apply EngagementFacts.engagement_range|].
  split; [intro accountId; apply EngagementFacts.engagement_none|].
  split; [intro accountId; apply EngagementFacts.engagement_all|].
  intros a b. apply EngagementFacts.engagement_monotone.
Qed.

Lemma calculateEngagement_shares_witness :
  (interactions_of three_reposts "A" <= interactions_of three_reposts "B")%Z /\
  Num.leb (AnalysisEngine.calculateEngagement "A" three_reposts)
    (AnalysisEngine.calculateEngagement "B" three_reposts) = true.
Proof.
  assert (H : (interactions_of three_reposts "A" <= interactions_of three_reposts "B")%Z)
    by (vm_compute; discriminate).
  split; [exact H|].
  apply (proj2 (proj2 (proj2 (calculateEngagement_shares three_reposts)))). exact H.
Defined.

(** ** The amplification *)

Module AmplificationFacts.

Import AnalysisEngine.

Lemma fold_add_map {A} (g : A -> Z) (l : list A) :
  forall s, fold_left (fun s a => s + g a)%Z l s = (s + Zsum (map g l))%Z.
Proof.
  induction l as [|x t IH]; intro s; cbn [fold_left map].
  - change (Zsum []) with 0%Z. lia.
  - rewrite IH, DegreeFacts.Zsum_cons. lia.
Qed.

Lemma Zsum_app (l1 l2 : list Z) : Zsum (l1 ++ l2) = (Zsum l1 + Zsum l2)%Z.
Proof.
  induction l1 as [|x t IH]; cbn [app]; [change (Zsum []) with 0%Z; lia|].
  rewrite !DegreeFacts.Zsum_cons, IH. lia.
Qed.

Lemma Zsum_le {A} (g1 g2 : A -> Z) (l : list A) :
  (forall x, In x l -> (g1 x <= g2 x)%Z) ->
  (Zsum (map g1 l) <= Zsum (map g2 l))%Z.
Proof.
  induction l as [|x t IH]; intro H; cbn [map]; [lia|].
  rewrite !DegreeFacts.Zsum_cons.
  assert (g1 x <= g2 x)%Z by (apply H; left; reflexivity).
  assert (Zsum (map g1 t) <= Zsum (map g2 t))%Z by (apply IH; intros y Hy; apply H; right; exact Hy).
  lia.
Qed.

Lemma Zsum_nonneg {A} (g : A -> Z) (l : list A) :
  (forall x, (0 <= g x)%Z) -> (0 <= Zsum (map g l))%Z.
Proof.
  intro H. induction l as [|x t IH]; cbn [map]; [change (Zsum []) with 0%Z; lia|].
  rewrite DegreeFacts.Zsum_cons. specialize (H x). lia.
Qed.

(** One more event adds at most one to a count. *)
Lemma count_insert {A} (p : A -> bool) (before after : list A) (e : A) :
  count p (before ++ e :: after)
  = (count p (before ++ after) + if p e then 1 else 0)%Z.
Proof.
  rewrite !EngagementFacts.count_app, KeyFacts.count_cons. lia.
Qed.

Lemma count_nonneg' {A} (p : A -> bool) (l : list A) : (0 <= count p l)%Z.
Proof. apply KeyFacts.count_bounds. Qed.

(** The amplification in closed form: the pairs, capped at 100. *)
Lemma calculateAmplification_pairs (accountId : string) (context : SpreadData.t) :
  calculateAmplification accountId context
  = Num.of_Z (Z.min 100 (following_pairs accountId (SpreadData.timeline context))).
Proof.
  unfold calculateAmplification, following_pairs. cbv zeta.
  destruct (filter _ (SpreadData.timeline context)) as [|a l] eqn:E.
  - reflexivity.
  - cbn [length Nat.eqb]. rewrite fold_add_map. cbn [Z.add].
    change (Fin 100) with (Num.of_Z 100). apply IntFacts.min_of_Z.
Qed.

Lemma following_pairs_nonneg (accountId : string) (timeline : list TimelineEvent.t) :
  (0 <= following_pairs accountId timeline)%Z.
Proof. apply Zsum_nonneg. intro a. apply count_nonneg'. Qed.

(** One more event in the timeline takes no pair away. *)
Lemma following_pairs_insert (accountId : string)
    (before after : list TimelineEvent.t) (e : TimelineEvent.t) :
  (following_pairs accountId (before ++ after)
   <= following_pairs accountId (before ++ e :: after))%Z.
Proof.
  unfold following_pairs. rewrite !filter_app. cbn [filter].
  rewrite !map_app, !Zsum_app.
  assert (Hb : forall l : list TimelineEvent.t,
             (Zsum (map (fun action => count (follows action) (before ++ after)) l)
              <= Zsum (map (fun action => count (follows action) (before ++ e :: after)) l))%Z).
  { intro l. apply Zsum_le. intros a _. rewrite count_insert.
    destruct (follows a e); lia. }
  pose proof (Hb (filter (fun e0 => TimelineEvent.accountId e0 =? accountId)%string before)).
  pose proof (Hb (filter (fun e0 => TimelineEvent.accountId e0 =? accountId)%string after)).
  destruct (TimelineEvent.accountId e =? accountId)%string; [|lia].
  cbn [map]. rewrite DegreeFacts.Zsum_cons.
  pose proof (count_nonneg' (follows e) (before ++ e :: after)). lia.
Qed.

End AmplificationFacts.

(** X26.  The amplification of an account is a whole number between 0
    and 100, and one more event in the timeline, wherever it is put and
    whoever it is from, never lowers the amplification of an account. *)
Theorem calculateAmplification_monotone
    (accountId : string) (context context' : SpreadData.t)
    (before after : list TimelineEvent.t) (e : TimelineEvent.t) :
  SpreadData.timeline context = before ++ after ->
  SpreadData.timeline context' = before ++ e :: after ->
  exists n n',
    AnalysisEngine.calculateAmplification accountId context = Num.of_Z n /\
    AnalysisEngine.calculateAmplification accountId context' = Num.of_Z n' /\
    (0 <= n <= n')%Z /\ (n' <= 100)%Z.
Proof.
  intros H H'. rewrite !AmplificationFacts.calculateAmplification_pairs, H, H'.
  eexists _, _. split; [reflexivity|]. split; [reflexivity|].
  pose proof (AmplificationFacts.following_pairs_nonneg accountId (before ++ after)).
  pose proof (AmplificationFacts.following_pairs_insert accountId before after e).
  lia.
Qed.

Lemma calculateAmplification_monotone_witness :
  exists n n',
    AnalysisEngine.calculateAmplification "A"
      (with_timeline [timeline_event original 0 "A"; timeline_event (spread retweet) 10 "B"])
    = Num.of_Z n /\
    AnalysisEngine.calculateAmplification "A"
      (with_timeline [timeline_event original 0 "A"; timeline_event (spread retweet) 10 "B";
                      timeline_event (spread retweet) 20 "C"])
    = Num.of_Z n' /\
    (0 <= n <= n')%Z /\ (n' <= 100)%Z.
Proof.
  apply (calculateAmplification_monotone "A" _ _
           [timeline_event original 0 "A"; timeline_event (spread retweet) 10 "B"] []
           (timeline_event (spread retweet) 20 "C")); reflexivity.
Defined.

(** ** The network position *)

Module PositionFacts.

Import NetworkAnalyzer AnalysisEngine.

Lemma find_spreader (author : string) (edges : list NetworkEdge.t) (k : string)
    (ks : list string) :
  find (fun n => NetworkNode.accountId n =? k)%string (map (spreader_node author edges) ks)
  = if smem ks k then Some (spreader_node author edges k) else None.
Proof.
  unfold JS.mem. induction ks as [|x t IH]; cbn [map find existsb]; [reflexivity|].
  cbn [spreader_node NetworkNode.accountId]. rewrite (String.eqb_sym k x).
  destruct (String.eqb_spec x k) as [->|_]; [reflexivity | exact IH].
Qed.

(** At most one element of a duplicate-free list is filtered out with [a]. *)
Lemma length_without (a : string) (l : list string) :
  NoDup l -> length l <= 1 + length (filter (fun k => negb (String.eqb k a)) l).
Proof.
  induction l as [|x t IH]; intro Hnd; cbn [filter length]; [lia|].
  inversion Hnd as [|? ? Hx Ht]; subst.
  destruct (String.eqb_spec x a) as [->|_]; cbn [negb length].
  - assert (E : filter (fun k => negb (String.eqb k a)) t = t).
    { clear IH Ht Hnd. induction t as [|y t IH]; [reflexivity|]. cbn [filter].
      destruct (String.eqb_spec y a) as [->|_]; [exfalso; apply Hx; left; reflexivity|].
      cbn [negb]. f_equal. apply IH. intro H. apply Hx. right. exact H. }
    rewrite E. lia.
  - specialize (IH Ht). lia.
Qed.

Lemma star_size (spreadData : SpreadData.t) :
  (0 < zlength (star_nodes spreadData))%Z /\
  (zlength (interacting spreadData) <= zlength (star_nodes spreadData))%Z.
Proof.
  unfold zlength, star_nodes. cbv zeta. cbn [length]. rewrite length_map.
  pose proof (length_without (author_of spreadData) (interacting spreadData)
                (suniq_NoDup _)) as H.
  fold (spreaders_of spreadData) in H. split; lia.
Qed.

(** The position of a node with [c] connections among [n] nodes, with the
    type score [t] and no bridge score *)
Lemma position_value (c n : Z) (t : Q) :
  (0 < n)%Z ->
  is_number (Num.of_Z c / Num.of_Z n * Fin 50 + Num.zero + Fin t)%num
    (inject_Z c / inject_Z n * 50 + t).
Proof.
  intro Hn. unfold Num.of_Z, Num.zero. cbn [Num.div].
  rewrite (NumFacts.Qsign_pos (NumFacts.inject_Z_pos Hn)).
  cbn [Num.mul Num.add is_number]. rewrite !Qred_correct. ring.
Qed.

Lemma at_most_one_cluster (clusters : list Cluster.t) (accountId : string) :
  length clusters <= 1 ->
  (1 <? count (fun c => smem (Cluster.nodes c) accountId) clusters)%Z = false.
Proof.
  intro H. apply Z.ltb_ge.
  pose proof (KeyFacts.count_bounds (fun c => smem (Cluster.nodes c) accountId) clusters).
  unfold zlength in *. lia.
Qed.

Lemma position_star (spreadData : SpreadData.t) (clusters : list Cluster.t)
    (influencers : list InfluencerNode.t) (paths : list PropagationPath.t)
    (metrics : NetworkMetrics.t) (accountId : string) :
  length clusters <= 1 ->
  is_number
    (calculateNetworkPosition accountId
       (NetworkAnalysis.mk (star_nodes spreadData) (interaction_edges spreadData)
          clusters influencers paths metrics))
    (star_position spreadData accountId).
Proof.
  intro Hc. unfold calculateNetworkPosition, star_position.
  cbn [NetworkAnalysis.nodes NetworkAnalysis.clusters]. cbv zeta.
  destruct (star_size spreadData) as [Hn _].
  unfold star_nodes at 1. cbv zeta. cbn [find NetworkNode.accountId].
  rewrite (String.eqb_sym accountId (author_of spreadData)).
  destruct (String.eqb (author_of spreadData) accountId).
  - cbn [NetworkNode.connections NetworkNode.type].
    rewrite (at_most_one_cluster clusters accountId Hc).
    apply position_value. exact Hn.
  - rewrite find_spreader. destruct (smem (spreaders_of spreadData) accountId).
    + cbn [spreader_node NetworkNode.connections NetworkNode.type].
      rewrite (at_most_one_cluster clusters accountId Hc).
      pose proof (position_value 1 (zlength (star_nodes spreadData)) 0 Hn) as H.
      change (zlength [author_of spreadData]) with 1%Z.
      change Num.zero with (Fin 0) at 2.
      destruct (Num.of_Z 1 / Num.of_Z (zlength (star_nodes spreadData)) * Fin 50
                + Num.zero + Fin 0)%num; cbn [is_number] in *; try contradiction.
      rewrite H. change (inject_Z 1) with 1%Q. ring.
    + cbn [is_number Num.zero]. reflexivity.
Qed.

Lemma star_position_range (spreadData : SpreadData.t) (accountId : string) :
  (0 <= star_position spreadData accountId <= 70)%Q.
Proof.
  unfold star_position. cbv zeta.
  destruct (star_size spreadData) as [Hn Hc].
  assert (Hn' : (0 < inject_Z (zlength (star_nodes spreadData)))%Q)
    by (apply NumFacts.inject_Z_pos; exact Hn).
  assert (H1 : (inject_Z 1 <= inject_Z (zlength (star_nodes spreadData)))%Q)
    by (rewrite <- Zle_Qle; lia).
  change (inject_Z 1) with 1%Q in H1.
  assert (Hc' : (inject_Z (zlength (interacting spreadData))
                 <= inject_Z (zlength (star_nodes spreadData)))%Q)
    by (rewrite <- Zle_Qle; exact Hc).
  assert (Hc0 : (0 <= inject_Z (zlength (interacting spreadData)))%Q)
    by (apply NumFacts.inject_Z_nonneg; unfold zlength; lia).
  set (n := inject_Z (zlength (star_nodes spreadData))) in *.
  set (c := inject_Z (zlength (interacting spreadData))) in *.
  assert (Hcn : (0 <= c / n <= 1)%Q).
  { split.
    - apply Qle_shift_div_l; [exact Hn' | lra].
    - apply Qle_shift_div_r; [exact Hn' | lra]. }
  assert (H1n : (0 <= 1 / n <= 1)%Q).
  { split.
    - apply Qle_shift_div_l; [exact Hn' | lra].
    - apply Qle_shift_div_r; [exact Hn' | lra]. }
  destruct (accountId =? author_of spreadData)%string; [lra|].
  destruct (smem (spreaders_of spreadData) accountId); lra.
Qed.

End PositionFacts.

(** X27.  On the analysis [analyzeNetwork] returns no account is given the
    bridge score of 30, as no account is in two clusters: the network
    position of the author is the share of the nodes it is connected to
    times 50, plus 20; that of another account that interacted is 50 over
    the number of nodes; that of an unknown account is 0.  The position is
    between 0 and 70. *)
Theorem calculateNetworkPosition_no_bridge
    (spreadData : SpreadData.t) (analysisId : string) (w : World) :
  exists r w',
    NetworkAnalyzer.analyzeNetwork spreadData analysisId w = Ok (r, w') /\
    forall accountId,
      is_number (AnalysisEngine.calculateNetworkPosition accountId r)
        (star_position spreadData accountId) /\
      in_range 70 (AnalysisEngine.calculateNetworkPosition accountId r).
Proof.
  destruct (StarFacts.analyzeNetwork_star spreadData analysisId w)
    as (clusters & influencers & w' & Hr & Hc & _).
  destruct (StarFacts.detectClusters_star spreadData w) as (cs & v & Hcs & Hshape).
  rewrite Hc in Hcs. injection Hcs as <- <-.
  assert (Hlen : length clusters <= 1).
  { destruct (3 <=? length (star_nodes spreadData))%nat.
    - destruct Hshape as (c & -> & _). cbn [length]. lia.
    - rewrite Hshape. cbn [length]. lia. }
  eexists _, _. split; [exact Hr|]. intro accountId.
  pose proof (PositionFacts.position_star spreadData clusters influencers []
                (NetworkAnalyzer.calculateNetworkMetrics (star_nodes spreadData)
                   (interaction_edges spreadData)) accountId Hlen) as H.
  split; [exact H|].
  destruct (AnalysisEngine.calculateNetworkPosition accountId _);
    cbn [is_number in_range] in *; try contradiction.
  rewrite H. apply PositionFacts.star_position_range.
Qed.
Unset Implicit Arguments.

(* ================================================================== *)
(** * NetworkAnalyzer: the clustering coefficient *)
(* ================================================================== *)

Module ClusteringFacts.

Import NetworkAnalyzer.

(** The neighbours of an account of the star that is not the author *)
Lemma neighbours_other (spreadData : SpreadData.t) (x : string) :
  In x (interacting spreadData) -> x <> author_of spreadData ->
  Traversal.neighbours (star_adjacency spreadData) x = [author_of spreadData].
Proof.
  intros Hx Hne. apply StarFacts.star_neighbours_spreader.
  apply filter_In. split; [exact Hx|].
  destruct (String.eqb_spec x (author_of spreadData)); [contradiction | reflexivity].
Qed.

Lemma count_all {A} (p : A -> bool) (l : list A) :
  (forall x, In x l -> p x = true) -> count p l = zlength l.
Proof.
  intro H. unfold count, zlength. f_equal. f_equal.
  induction l as [|x t IH]; [reflexivity|]. cbn [filter].
  rewrite (H x (or_introl eq_refl)). f_equal. apply IH.
  intros y Hy. apply H. right. exact Hy.
Qed.

Lemma count_none {A} (p : A -> bool) (l : list A) :
  (forall x, In x l -> p x = false) -> count p l = 0%Z.
Proof.
  intro H. unfold count.
  replace (filter p l) with (@nil A); [reflexivity|].
  induction l as [|x t IH]; [reflexivity|]. cbn [filter].
  rewrite (H x (or_introl eq_refl)). apply IH.
  intros y Hy. apply H. right. exact Hy.
Qed.

(** The occurrences of [a] in a list without duplicates *)
Lemma count_one (a : string) (l : list string) :
  NoDup l ->
  count (fun y => smem [a] y) l = if smem l a then 1%Z else 0%Z.
Proof.
  induction l as [|x t IH]; intro Hnd; [reflexivity|].
  inversion Hnd as [|? ? Hx Ht]; subst.
  rewrite KeyFacts.count_cons.
  change (smem [a] x) with (String.eqb x a || false).
  change (smem (x :: t) a) with (String.eqb a x || smem t a).
  rewrite Bool.orb_false_r, (String.eqb_sym a x).
  destruct (String.eqb_spec x a) as [->|Hne].
  - cbn [orb]. rewrite count_none; [reflexivity|].
    intros y Hy. change (smem [a] y) with (String.eqb y a || false).
    rewrite Bool.orb_false_r.
    destruct (String.eqb_spec y a) as [->|_]; [contradiction | reflexivity].
  - cbn [orb]. rewrite (IH Ht). destruct (smem t a); reflexivity.
Qed.

(** The linked pairs among neighbours of the author: each pair with the
    author in it, and no other. *)
Lemma linked_pairs_star (spreadData : SpreadData.t) (l : list string) :
  NoDup l -> incl l (interacting spreadData) ->
  linked_pairs (star_adjacency spreadData) l
  = if smem l (author_of spreadData) then (zlength l - 1)%Z else 0%Z.
Proof.
  induction l as [|x t IH]; intros Hnd Hin; [reflexivity|].
  inversion Hnd as [|? ? Hx Ht]; subst.
  assert (Ht' : incl t (interacting spreadData))
    by (intros y Hy; apply Hin; right; exact Hy).
  cbn [linked_pairs]. rewrite (IH Ht Ht').
  change (smem (x :: t) (author_of spreadData))
    with (String.eqb (author_of spreadData) x || smem t (author_of spreadData)).
  rewrite (String.eqb_sym (author_of spreadData) x).
  destruct (String.eqb_spec x (author_of spreadData)) as [->|Hne].
  - rewrite StarFacts.star_neighbours_author. cbn [orb].
    assert (E : smem t (author_of spreadData) = false)
      by (apply StarFacts.smem_false; exact Hx).
    rewrite E, count_all.
    + unfold zlength. cbn [length]. lia.
    + intros y Hy. apply smem_In, Ht', Hy.
  - rewrite neighbours_other by (try exact Hne; apply Hin; left; reflexivity).
    rewrite (count_one _ _ Ht). cbn [orb].
    destruct (smem t (author_of spreadData)); unfold zlength; cbn [length]; lia.
Qed.

(** The accounts with one neighbour do not count. *)
Lemma spreaders_skip (spreadData : SpreadData.t) (ks : list string) :
  Forall (fun k => In k (spreaders_of spreadData)) ks ->
  forall acc : num * Z,
    fold_left (fun '(total, valid) node =>
        let neighbors :=
          Traversal.neighbours (star_adjacency spreadData) (NetworkNode.accountId node) in
        if (2 <=? length neighbors)%nat
        then
          let k := zlength neighbors in
          let possibleEdges := (Num.of_Z (k * (k - 1)) / Fin 2)%num in
          let actualEdges := linked_pairs (star_adjacency spreadData) neighbors in
          ((total + Num.of_Z actualEdges / possibleEdges)%num, (valid + 1)%Z)
        else (total, valid))
      (map (spreader_node (author_of spreadData) (interaction_edges spreadData)) ks) acc
    = acc.
Proof.
  induction 1 as [|k t Hk _ IH]; intros [total valid]; cbn [map fold_left]; [reflexivity|].
  cbn [spreader_node NetworkNode.accountId].
  rewrite (StarFacts.star_neighbours_spreader spreadData k Hk). cbn [length Nat.leb].
  apply IH.
Qed.

(** The coefficient of a node with [k] neighbours and [a] linked pairs,
    as the one valid node *)
Lemma coefficient_value (a k : Z) :
  (2 <= k)%Z ->
  is_number
    ((Num.zero + Num.of_Z a / (Num.of_Z (k * (k - 1)) / Fin 2)) / Num.of_Z (0 + 1))%num
    (inject_Z a / (inject_Z k * (inject_Z k - 1) / 2)).
Proof.
  intro Hk. unfold Num.of_Z, Num.zero. cbn [Num.div].
  change (Num.Qsign 2) with Gt. cbv iota.
  assert (Hp : (0 < inject_Z (k * (k - 1)))%Q) by (apply NumFacts.inject_Z_pos; nia).
  assert (Hq : (0 < Qred (inject_Z (k * (k - 1)) / 2))%Q).
  { rewrite Qred_correct. apply Qlt_shift_div_l; lra. }
  cbn [Num.div]. rewrite (NumFacts.Qsign_pos Hq). cbn [Num.add Num.div Z.add].
  change (Num.Qsign (inject_Z 1)) with Gt. cbv iota. cbn [is_number].
  rewrite !Qred_correct. rewrite inject_Z_mult.
  replace (k - 1)%Z with (k + - 1)%Z by lia. rewrite inject_Z_plus.
  change (inject_Z (-1)) with (-1)%Q. change (inject_Z 1) with 1%Q.
  assert (Hk' : (2 <= inject_Z k)%Q).
  { change 2%Q with (inject_Z 2). rewrite <- Zle_Qle. exact Hk. }
  field. split; [|lra]. intro E.
  assert (0 < inject_Z k * (inject_Z k - 1))%Q by (apply Qmult_lt_0_compat; lra).
  lra.
Qed.

Lemma calculateClusteringCoefficient_star (spreadData : SpreadData.t) :
  is_number
    (calculateClusteringCoefficient (star_nodes spreadData) (interaction_edges spreadData))
    (star_clustering spreadData).
Proof.
  unfold calculateClusteringCoefficient. rewrite StarFacts.buildAdjacencyList_star.
  cbv zeta. unfold star_nodes at 1. cbv zeta. cbn [fold_left NetworkNode.accountId].
  rewrite StarFacts.star_neighbours_author.
  unfold star_clustering.
  destruct (2 <=? length (interacting spreadData))%nat eqn:E.
  - rewrite spreaders_skip by (apply Forall_forall; intros k Hk; exact Hk).
    cbn [Z.ltb Z.compare Z.add]. apply Nat.leb_le in E.
    assert (Hk : (2 <= zlength (interacting spreadData))%Z) by (unfold zlength; lia).
    rewrite linked_pairs_star by (try apply suniq_NoDup; apply incl_refl).
    pose proof (coefficient_value
                  (if smem (interacting spreadData) (author_of spreadData)
                   then zlength (interacting spreadData) - 1 else 0)
                  (zlength (interacting spreadData)) Hk) as H.
    change (0 + 1)%Z with 1%Z in H.
    destruct (Num.div _ (Num.of_Z 1)); cbn [is_number] in *; try contradiction.
    rewrite H. rewrite Bool.andb_true_r.
    assert (Hk' : (2 <= inject_Z (zlength (interacting spreadData)))%Q).
    { change 2%Q with (inject_Z 2). rewrite <- Zle_Qle. exact Hk. }
    destruct (smem (interacting spreadData) (author_of spreadData)).
    + replace (zlength (interacting spreadData) - 1)%Z
        with (zlength (interacting spreadData) + - 1)%Z by lia.
      rewrite inject_Z_plus. change (inject_Z (-1)) with (-1)%Q.
      field. split; lra.
    + change (inject_Z 0) with 0%Q. field. split; lra.
  - rewrite spreaders_skip by (apply Forall_forall; intros k Hk; exact Hk).
    cbn [Z.ltb Z.compare]. rewrite Bool.andb_false_r. cbn [is_number Num.zero].
    reflexivity.
Qed.

End ClusteringFacts.

(** X28.  The clustering coefficient [analyzeNetwork] reports is 0 unless
    the author reacted to their own post: two neighbours of the author are
    never linked with each other, and the accounts with one neighbour are
    left out.  When the author is among its own neighbours, each of its [k]
    neighbours makes a linked pair with it, and the coefficient is [2 / k]. *)
Theorem analyzeNetwork_clustering_coefficient
    (spreadData : SpreadData.t) (analysisId : string) (w : World) :
  exists r w',
    NetworkAnalyzer.analyzeNetwork spreadData analysisId w = Ok (r, w') /\
    is_number (NetworkMetrics.clusteringCoefficient (NetworkAnalysis.metrics r))
      (star_clustering spreadData).
Proof.
  destruct (StarFacts.analyzeNetwork_star spreadData analysisId w)
    as (clusters & influencers & w' & Hr & _).
  eexists _, _. split; [exact Hr|].
  cbn [NetworkAnalysis.metrics]. unfold NetworkAnalyzer.calculateNetworkMetrics.
  cbv zeta. cbn [NetworkMetrics.clusteringCoefficient].
  apply ClusteringFacts.calculateClusteringCoefficient_star.
Qed.
Unset Implicit Arguments.

(* ================================================================== *)
(** * NetworkAnalyzer: the time-of-day histograms *)
(* ================================================================== *)

Module HistogramFacts.

Import NetworkAnalyzer.

Lemma bump_length (i : nat) (arr : list Z) : length (bump i arr) = length arr.
Proof.
  revert i. induction arr as [|c t IH]; intros [|i]; cbn [bump length]; try reflexivity.
  rewrite IH. reflexivity.
Qed.

(** [arr[i]++] inside the array adds one to the sum of the bins. *)
Lemma bump_sum (i : nat) (arr : list Z) :
  i < length arr -> Zsum (bump i arr) = (Zsum arr + 1)%Z.
Proof.
  revert i. induction arr as [|c t IH]; intros [|i] H; cbn [bump length] in *; try lia.
  - rewrite !DegreeFacts.Zsum_cons. lia.
  - rewrite !DegreeFacts.Zsum_cons, IH by lia. lia.
Qed.

Lemma bump_nonneg (i : nat) (arr : list Z) :
  Forall (fun c => 0 <= c)%Z arr -> Forall (fun c => 0 <= c)%Z (bump i arr).
Proof.
  revert i. induction arr as [|c t IH]; intros [|i] H; cbn [bump]; try exact H;
    inversion H as [|? ? Hc Ht]; subst; constructor; try lia; try exact Ht.
  apply IH, Ht.
Qed.

(** The bins after one increment for each element of [l] *)
Lemma histogram_fold {A} (index : A -> nat) (l : list A) :
  forall arr,
    (forall x, index x < length arr) ->
    Forall (fun c => 0 <= c)%Z arr ->
    let bins := fold_left (fun arr x => bump (index x) arr) l arr in
    length bins = length arr /\
    Zsum bins = (Zsum arr + zlength l)%Z /\
    Forall (fun c => 0 <= c)%Z bins.
Proof.
  induction l as [|x t IH]; intros arr Hi Hn; cbn [fold_left]; cbv zeta.
  - unfold zlength. cbn [length]. split; [reflexivity|]. split; [lia | exact Hn].
  - destruct (IH (bump (index x) arr)) as (Hl & Hs & Hp).
    + intro y. rewrite bump_length. apply Hi.
    + apply bump_nonneg, Hn.
    + cbv zeta in Hl, Hs, Hp. rewrite Hl, Hs, bump_length, bump_sum by apply Hi.
      split; [reflexivity|]. split; [|exact Hp].
      unfold zlength. cbn [length]. lia.
Qed.

Lemma Zsum_repeat_zero (n : nat) : Zsum (repeat 0%Z n) = 0%Z.
Proof.
  induction n as [|n IH]; [reflexivity|]. cbn [repeat].
  rewrite DegreeFacts.Zsum_cons, IH. reflexivity.
Qed.

(** A bin is at most the sum of the bins. *)
Lemma bin_le_sum (bins : list Z) (c : Z) :
  Forall (fun c => 0 <= c)%Z bins -> In c bins -> (0 <= c <= Zsum bins)%Z.
Proof.
  induction 1 as [|x t Hx Ht IH]; intro Hin; [contradiction|].
  rewrite DegreeFacts.Zsum_cons.
  assert (0 <= Zsum t)%Z.
  { clear IH Hin. induction Ht as [|y t Hy _ IH]; [unfold Zsum; cbn; lia|].
    rewrite DegreeFacts.Zsum_cons. lia. }
  destruct Hin as [<-|Hin]; [lia|]. specialize (IH Hin). lia.
Qed.

(** A quotient by the positive total *)
Lemma fraction_value (c T : Z) :
  (0 < T)%Z ->
  (Num.of_Z c / Num.of_Z T)%num = Fin (Qred (inject_Z c / inject_Z T)).
Proof.
  intro HT. unfold Num.of_Z. cbn [Num.div].
  rewrite (NumFacts.Qsign_pos (NumFacts.inject_Z_pos HT)). reflexivity.
Qed.

(** The normalised bins of a histogram of [T] instants *)
Lemma normalised (timestamps : list Z) (bins : list Z) :
  Zsum bins = zlength timestamps ->
  Forall (fun c => 0 <= c)%Z bins ->
  histogram_ok timestamps (length bins)
    (map (fun c => Num.of_Z c / Num.of_nat (length timestamps))%num bins).
Proof.
  intros Hs Hp. exists bins. split; [reflexivity|]. split; [exact Hp|].
  split; [exact Hs|]. split; [reflexivity|].
  destruct timestamps as [|t0 ts].
  - apply Forall_forall. intros x Hx. apply in_map_iff in Hx. destruct Hx as (c & <- & Hc).
    assert (E : c = 0%Z).
    { pose proof (bin_le_sum bins c Hp Hc) as H. rewrite Hs in H.
      unfold zlength in H. cbn [length] in H. lia. }
    subst c. reflexivity.
  - set (T := zlength (t0 :: ts)) in *.
    assert (HT : (0 < T)%Z) by (unfold T, zlength; cbn [length]; lia).
    change (Num.of_nat (length (t0 :: ts))) with (Num.of_Z T).
    apply Forall_forall. intros x Hx. apply in_map_iff in Hx.
    destruct Hx as (c & <- & Hc).
    pose proof (bin_le_sum bins c Hp Hc) as [H0 H1]. rewrite Hs in H1.
    rewrite (fraction_value c T HT). unfold in_unit.
    assert (HTq : (0 < inject_Z T)%Q) by (apply NumFacts.inject_Z_pos; exact HT).
    assert (Hc0 : (0 <= inject_Z c)%Q) by (apply NumFacts.inject_Z_nonneg; exact H0).
    assert (HcT : (inject_Z c <= inject_Z T)%Q) by (rewrite <- Zle_Qle; exact H1).
    rewrite Qred_correct. split.
    + apply Qle_shift_div_l; [exact HTq | lra].
    + apply Qle_shift_div_r; [exact HTq | lra].
Qed.

(** The loop on the pairs of an instant and of its offset *)
Lemma fold_pairs {A B C} (g : A -> B -> C -> C) (l : list (A * B)) :
  forall arr,
    fold_left (fun arr '(t, o) => g t o arr) l arr
    = fold_left (fun arr (p : A * B) => g (fst p) (snd p) arr) l arr.
Proof.
  induction l as [|[t o] l IH]; intro arr; [reflexivity|].
  cbn [fold_left fst snd]. apply IH.
Qed.

Lemma getHours_bound (t offset : Z) : Z.to_nat (getHours t offset) < 24.
Proof.
  unfold getHours. pose proof (Z.mod_pos_bound ((t + offset) / 3600000) 24). lia.
Qed.

Lemma getDay_bound (t offset : Z) : Z.to_nat (getDay t offset) < 7.
Proof.
  unfold getDay. pose proof (Z.mod_pos_bound ((t + offset) / 86400000 + 4) 7). lia.
Qed.

End HistogramFacts.

(** X29.  [calculateTimeDistribution] returns 24 hourly and 7 daily bins
    and reads nothing but the time zone.  Every instant is counted in one
    hour and in one day: the bins are the counts, which add up to the
    number of instants, each divided by that number.  On a non-empty list
    every bin is a number between 0 and 1, and on the empty list every bin
    is NaN. *)
Theorem calculateTimeDistribution_counts (timestamps : list Z) (w : World) :
  exists d,
    NetworkAnalyzer.calculateTimeDistribution timestamps w = Ok (d, w) /\
    histogram_ok timestamps 24 (TimeDistribution.hourly d) /\
    histogram_ok timestamps 7 (TimeDistribution.daily d).
Proof.
  unfold NetworkAnalyzer.calculateTimeDistribution.
  bind_step (ClusterFacts.mapM_local_offset timestamps w). cbv zeta. unfold ret.
  eexists. split; [reflexivity|].
  cbn [TimeDistribution.hourly TimeDistribution.daily].
  set (local := combine timestamps (map (tzOffset w) timestamps)).
  assert (Hlen : zlength local = zlength timestamps).
  { unfold local, zlength. rewrite length_combine, length_map, Nat.min_id. reflexivity. }
  destruct (HistogramFacts.histogram_fold
              (fun p : Z * Z => Z.to_nat (NetworkAnalyzer.getHours (fst p) (snd p)))
              local (repeat 0%Z 24)) as (Hl & Hs & Hp).
  { intro p. apply HistogramFacts.getHours_bound. }
  { apply Forall_forall. intros c Hc. apply repeat_spec in Hc. subst c. cbv beta. lia. }
  destruct (HistogramFacts.histogram_fold
              (fun p : Z * Z => Z.to_nat (NetworkAnalyzer.getDay (fst p) (snd p)))
              local (repeat 0%Z 7)) as (Hl' & Hs' & Hp').
  { intro p. apply HistogramFacts.getDay_bound. }
  { apply Forall_forall. intros c Hc. apply repeat_spec in Hc. subst c. cbv beta. lia. }
  cbv zeta in Hl, Hs, Hp, Hl', Hs', Hp'.
  rewrite HistogramFacts.Zsum_repeat_zero, Hlen in Hs, Hs'.
  rewrite repeat_length in Hl, Hl'.
  rewrite (HistogramFacts.fold_pairs
             (fun t o arr => NetworkAnalyzer.bump (Z.to_nat (NetworkAnalyzer.getHours t o)) arr)),
    (HistogramFacts.fold_pairs
       (fun t o arr => NetworkAnalyzer.bump (Z.to_nat (NetworkAnalyzer.getDay t o)) arr)).
  split.
  - match goal with
    | |- histogram_ok _ _ (map _ ?bins) =>
        pose proof (HistogramFacts.normalised timestamps bins ltac:(lia) Hp) as H
    end.
    rewrite Hl in H. exact H.
  - match goal with
    | |- histogram_ok _ _ (map _ ?bins) =>
        pose proof (HistogramFacts.normalised timestamps bins ltac:(lia) Hp') as H
    end.
    rewrite Hl' in H. exact H.
Qed.
Unset Implicit Arguments.

(* ================================================================== *)
(** * CoordinationDetector: the confidence of a pattern *)
(* ================================================================== *)

Module ConfidenceFacts.

Import CoordinationDetector.

(** ** Numbers *)

Lemma min_one_nonneg (x : num) : nonneg x -> in_unit (Num.min Num.one x).
Proof.
  destruct x as [| |q|]; cbn [nonneg]; try contradiction.
  - intro H. unfold Num.min, Num.one. rewrite NumFacts.cmp_Fin.
    destruct (1 ?= q)%Q eqn:E; cbn [in_unit].
    + lra.
    + lra.
    + apply Qgt_alt in E. lra.
  - intros _. vm_compute. split; discriminate.
Qed.

(** A quotient of a non-negative number by a positive one *)
Lemma div_pos_nonneg (a b : Q) :
  (0 <= a)%Q -> (0 < b)%Q ->
  exists q, Num.div (Fin a) (Fin b) = Fin q /\ (0 <= q)%Q /\ (q == a / b)%Q.
Proof.
  intros Ha Hb. cbn [Num.div]. rewrite (NumFacts.Qsign_pos Hb).
  eexists. split; [reflexivity|]. rewrite Qred_correct. split; [|reflexivity].
  apply Qle_shift_div_l; [exact Hb | lra].
Qed.

Lemma square_nonneg (x : Q) : (0 <= x * x)%Q.
Proof. destruct x as [n d]. unfold Qle, Qmult. cbn [Qnum Qden]. nia. Qed.

Lemma Qsqrt_nonneg (q : Q) : (0 <= Num.Qsqrt q)%Q.
Proof.
  unfold Num.Qsqrt. destruct (Qle_bool q 0); [lra|].
  rewrite Qred_correct. unfold Qle. cbn [Qnum Qden].
  pose proof (Z.sqrt_nonneg (Qnum q * Z.pos (Qden q) * 2 ^ 128)). lia.
Qed.

(** The three terms of the temporal confidence *)
Lemma temporal_terms (a b c : num) :
  in_unit a -> in_unit b -> nan_or in_unit c ->
  nan_or in_unit
    ((Num.one - a) * Fin (2 # 5) + (Num.one - b) * Fin (3 # 10) + c * Fin (3 # 10))%num.
Proof.
  destruct a as [| |a|]; cbn [in_unit]; try contradiction. intros [Ha0 Ha1].
  destruct b as [| |b|]; cbn [in_unit]; try contradiction. intros [Hb0 Hb1].
  intros [->|Hc].
  - left. reflexivity.
  - right. destruct c as [| |c|]; cbn [in_unit] in Hc; try contradiction.
    destruct Hc as [Hc0 Hc1].
    unfold Num.sub, Num.one. cbn [Num.neg Num.add Num.mul in_unit].
    rewrite !Qred_correct. split; lra.
Qed.

Lemma content_terms (a b : num) :
  in_unit a -> in_unit b ->
  in_unit (a * Fin (7 # 10) + (Num.one - b) * Fin (3 # 10))%num.
Proof.
  destruct a as [| |a|]; cbn [in_unit]; try contradiction. intros [Ha0 Ha1].
  destruct b as [| |b|]; cbn [in_unit]; try contradiction. intros [Hb0 Hb1].
  unfold Num.sub, Num.one. cbn [Num.neg Num.add Num.mul in_unit].
  rewrite !Qred_correct. split; lra.
Qed.

Lemma network_terms (a b : num) :
  in_unit a -> in_unit b ->
  in_unit (a * Fin (3 # 5) + b * Fin (2 # 5))%num.
Proof.
  destruct a as [| |a|]; cbn [in_unit]; try contradiction. intros [Ha0 Ha1].
  destruct b as [| |b|]; cbn [in_unit]; try contradiction. intros [Hb0 Hb1].
  cbn [Num.add Num.mul in_unit]. rewrite !Qred_correct. split; lra.
Qed.

Lemma running_step (total : num) (n : Z) (x : num) :
  running total n -> in_unit x -> running (total + x)%num (n + 1).
Proof.
  intros (Hn & t & -> & Ht0 & Ht1) Hx.
  destruct x as [| |x|]; cbn [in_unit] in Hx; try contradiction.
  destruct Hx as [Hx0 Hx1]. split; [lia|].
  eexists. split; [reflexivity|]. rewrite Qred_correct, inject_Z_plus.
  change (inject_Z 1) with 1%Q. split; lra.
Qed.

Lemma running_average (total : num) (n : Z) :
  running total n ->
  in_unit (if (0 <? n)%Z then (total / Num.of_Z n)%num else Num.zero).
Proof.
  intros (Hn & t & -> & Ht0 & Ht1).
  destruct (0 <? n)%Z eqn:E; [|vm_compute; split; discriminate].
  apply Z.ltb_lt in E. rewrite IntFacts.div_Fin_of_Z by exact E.
  cbn [in_unit]. rewrite Qred_correct.
  assert (Hq : (0 < inject_Z n)%Q) by (apply NumFacts.inject_Z_pos; exact E).
  split.
  - apply Qle_shift_div_l; [exact Hq | lra].
  - apply Qle_shift_div_r; [exact Hq | lra].
Qed.

(** ** The terms of the temporal confidence *)

Lemma accounts_le (activities : list SpreadEvent.t) :
  length (accounts_of activities) <= length activities.
Proof.
  unfold accounts_of.
  rewrite <- (length_map SpreadEvent.sourceAccountId activities).
  apply NoDup_incl_length; [apply suniq_NoDup|].
  intros x Hx. apply (suniq_In (map SpreadEvent.sourceAccountId activities)), Hx.
Qed.

Lemma calculateAccountDiversity_unit (activities : list SpreadEvent.t) :
  activities <> [] -> in_unit (calculateAccountDiversity activities).
Proof.
  intro H. unfold calculateAccountDiversity.
  apply SimilarityFacts.ratio_unit; [apply accounts_le|].
  destruct activities; [contradiction | cbn [length]; lia].
Qed.

Lemma calculateTimeSpread_unit (activities : list SpreadEvent.t) :
  activities <> [] -> in_unit (calculateTimeSpread activities).
Proof.
  destruct activities as [|a t]; [intro H; contradiction|]. intros _.
  unfold calculateTimeSpread, times_of. cbv zeta.
  rewrite <- (map_map SpreadEvent.timestamp Num.of_Z). cbn [map].
  change (Num.of_Z (SpreadEvent.timestamp a) :: map Num.of_Z (map SpreadEvent.timestamp t))
    with (map Num.of_Z (SpreadEvent.timestamp a :: map SpreadEvent.timestamp t)).
  rewrite IntFacts.max_list_of_Z, IntFacts.min_list_of_Z, IntFacts.sub_of_Z.
  destruct (IntFacts.fold_max_ge (map SpreadEvent.timestamp t) (SpreadEvent.timestamp a))
    as [Hmax _].
  destruct (IntFacts.fold_min_le (map SpreadEvent.timestamp t) (SpreadEvent.timestamp a))
    as [Hmin _].
  apply min_one_nonneg. unfold Num.of_Z.
  destruct (div_pos_nonneg
              (inject_Z (fold_left Z.max (map SpreadEvent.timestamp t) (SpreadEvent.timestamp a)
                         - fold_left Z.min (map SpreadEvent.timestamp t)
                             (SpreadEvent.timestamp a)))
              (60 * 60 * 1000)) as (q & -> & Hq & _).
  - apply NumFacts.inject_Z_nonneg. lia.
  - reflexivity.
  - exact Hq.
Qed.

(** Inserting into a list in ascending order keeps the order: no
    interval is negative. *)
Lemma insert_intervals (x : Z) (l : list Z) :
  Forall (fun d => 0 <= d)%Z (intervals_of l) ->
  Forall (fun d => 0 <= d)%Z
    (intervals_of (JS.insert (fun a b => (0 <? a - b)%Z) x l)).
Proof.
  induction l as [|y t IH]; intro H; [constructor|].
  cbn [JS.insert]. destruct (0 <? x - y)%Z eqn:E.
  - apply Z.ltb_lt in E. destruct t as [|z t'].
    + cbn [JS.insert intervals_of]. constructor; [lia | constructor].
    + cbn [intervals_of] in H. inversion H as [|? ? Hzy Ht]; subst.
      specialize (IH Ht). cbn [JS.insert] in IH |- *.
      destruct (0 <? x - z)%Z eqn:E'.
      * cbn [intervals_of] in IH |- *. constructor; [exact Hzy | exact IH].
      * apply Z.ltb_ge in E'. cbn [intervals_of]. 
        constructor; [lia|]. constructor; [lia | exact Ht].
  - apply Z.ltb_ge in E. cbn [intervals_of]. constructor; [lia | exact H].
Qed.

Lemma sort_times_intervals (l : list Z) :
  Forall (fun d => 0 <= d)%Z (intervals_of (sort_times l)).
Proof.
  unfold sort_times, JS.sort. induction l as [|x t IH]; cbn [fold_right]; [constructor|].
  apply insert_intervals, IH.
Qed.

Lemma intervals_length (l : list Z) : length (intervals_of l) = Nat.pred (length l).
Proof.
  induction l as [|a [|b t] IH]; [reflexivity | reflexivity|].
  change (intervals_of (a :: b :: t)) with ((b - a)%Z :: intervals_of (b :: t)).
  cbn [length] in *. rewrite IH. reflexivity.
Qed.

Lemma Zsum_Forall_nonneg (l : list Z) : Forall (fun d => 0 <= d)%Z l -> (0 <= Zsum l)%Z.
Proof.
  induction 1 as [|x t Hx _ IH]; [unfold Zsum; cbn; lia|].
  rewrite DegreeFacts.Zsum_cons. lia.
Qed.

(** The sum of the squared deviations is a non-negative number. *)
Lemma deviations_nonneg (mean : Q) (l : list Z) :
  forall acc, (0 <= acc)%Q ->
  exists v,
    fold_left (fun sum interval => sum + Num.sq (interval - Fin mean))%num
      (map Num.of_Z l) (Fin acc) = Fin v /\ (0 <= v)%Q.
Proof.
  induction l as [|x t IH]; intros acc Hacc; cbn [map fold_left].
  - exists acc. split; [reflexivity | exact Hacc].
  - unfold Num.of_Z at 1, Num.sub, Num.sq. cbn [Num.neg Num.add Num.mul].
    apply IH. set (y := Qred (inject_Z x + Qred (- mean))).
    rewrite !Qred_correct. pose proof (square_nonneg y). lra.
Qed.

Lemma calculateBurstiness_unit (activities : list SpreadEvent.t) :
  nan_or in_unit (calculateBurstiness activities).
Proof.
  unfold calculateBurstiness. cbv zeta.
  set (timestamps := sort_times (map SpreadEvent.timestamp activities)).
  destruct (length timestamps <? 2)%nat eqn:E.
  { right. vm_compute. split; discriminate. }
  apply Nat.ltb_ge in E.
  pose proof (sort_times_intervals (map SpreadEvent.timestamp activities)) as Hpos.
  fold timestamps in Hpos.
  pose proof (intervals_length timestamps) as Hlen.
  set (intervals := intervals_of timestamps) in *.
  assert (Hn : (0 < Z.of_nat (length intervals))%Z) by lia.
  rewrite IntFacts.sum_of_Z, length_map. unfold Num.of_nat.
  rewrite (IntFacts.div_of_Z (Zsum intervals) _ Hn).
  set (mean := Qred (inject_Z (Zsum intervals) / inject_Z (Z.of_nat (length intervals)))).
  assert (Hmean : (0 <= mean)%Q).
  { unfold mean. rewrite Qred_correct. apply Qle_shift_div_l.
    - apply NumFacts.inject_Z_pos, Hn.
    - rewrite Qmult_0_l. apply NumFacts.inject_Z_nonneg, Zsum_Forall_nonneg, Hpos. }
  destruct (deviations_nonneg mean intervals 0) as (v & Hv & Hv0); [lra|].
  change Num.zero with (Fin 0). rewrite Hv.
  rewrite (IntFacts.div_Fin_of_Z v _ Hn).
  assert (Hvar : (0 <= Qred (v / inject_Z (Z.of_nat (length intervals))))%Q).
  { rewrite Qred_correct. apply Qle_shift_div_l.
    - apply NumFacts.inject_Z_pos, Hn.
    - lra. }
  set (variance := Qred (v / inject_Z (Z.of_nat (length intervals)))) in *.
  cbn [Num.sqrt].
  destruct (Num.Qsign variance) eqn:Es;
    [| exfalso; exact (NumFacts.Qsign_nonneg Hvar Es) |].
  - pose proof (Qsqrt_nonneg variance) as Hs. cbn [Num.div].
    destruct (Num.Qsign mean) eqn:Em.
    + destruct (Num.Qsign (Num.Qsqrt variance)) eqn:Eq; cbn [Num.inf_of_sign].
      * left. reflexivity.
      * exfalso. exact (NumFacts.Qsign_nonneg Hs Eq).
      * right. vm_compute. split; discriminate.
    + exfalso. exact (NumFacts.Qsign_nonneg Hmean Em).
    + right. apply min_one_nonneg. cbn [nonneg]. rewrite Qred_correct.
      apply Qle_shift_div_l; [apply NumFacts.Qsign_Gt; exact Em | lra].
  - pose proof (Qsqrt_nonneg variance) as Hs. cbn [Num.div].
    destruct (Num.Qsign mean) eqn:Em.
    + destruct (Num.Qsign (Num.Qsqrt variance)) eqn:Eq; cbn [Num.inf_of_sign].
      * left. reflexivity.
      * exfalso. exact (NumFacts.Qsign_nonneg Hs Eq).
      * right. vm_compute. split; discriminate.
    + exfalso. exact (NumFacts.Qsign_nonneg Hmean Em).
    + right. apply min_one_nonneg. cbn [nonneg]. rewrite Qred_correct.
      apply Qle_shift_div_l; [apply NumFacts.Qsign_Gt; exact Em | lra].
Qed.

Lemma calculateTemporalConfidence_ok (activities : list SpreadEvent.t) :
  activities <> [] -> nan_or in_unit (calculateTemporalConfidence activities).
Proof.
  intro H. unfold calculateTemporalConfidence. cbv zeta.
  apply temporal_terms.
  - apply calculateTimeSpread_unit, H.
  - apply calculateAccountDiversity_unit, H.
  - apply calculateBurstiness_unit.
Qed.

(** ** The terms of the content confidence *)

Lemma similarity_row (a : SpreadEvent.t) (rest : list SpreadEvent.t) :
  forall total comparisons,
    running total comparisons ->
    running
      (fst (fold_left (fun '(total, comparisons) b =>
                ((total + calculateContentSimilarity a b)%num, (comparisons + 1)%Z))
              rest (total, comparisons)))
      (snd (fold_left (fun '(total, comparisons) b =>
                ((total + calculateContentSimilarity a b)%num, (comparisons + 1)%Z))
              rest (total, comparisons))).
Proof.
  induction rest as [|b t IH]; intros total comparisons H; cbn [fold_left]; [exact H|].
  apply IH. apply running_step; [exact H | apply SimilarityFacts.similarity_unit].
Qed.

Lemma pairwise_similarity_running (activities : list SpreadEvent.t) :
  forall acc, running (fst acc) (snd acc) ->
              running (fst (pairwise_similarity activities acc))
                (snd (pairwise_similarity activities acc)).
Proof.
  induction activities as [|a rest IH]; intros [total comparisons] H;
    cbn [pairwise_similarity]; [exact H|].
  apply IH. apply similarity_row. exact H.
Qed.

Lemma calculateAverageContentSimilarity_unit (activities : list SpreadEvent.t) :
  in_unit (calculateAverageContentSimilarity activities).
Proof.
  unfold calculateAverageContentSimilarity.
  destruct (length activities <? 2)%nat; [vm_compute; split; discriminate|].
  pose proof (pairwise_similarity_running activities (Num.zero, 0%Z)) as H.
  destruct (pairwise_similarity activities (Num.zero, 0%Z)) as [total comparisons].
  cbn [fst snd] in H. apply running_average, H.
  split; [lia|]. exists 0%Q. split; [reflexivity|]. change (inject_Z 0) with 0%Q. lra.
Qed.

Lemma calculateContentConfidence_unit (activities : list SpreadEvent.t) :
  activities <> [] -> in_unit (calculateContentConfidence activities).
Proof.
  intro H. unfold calculateContentConfidence. cbv zeta.
  apply content_terms.
  - apply calculateAverageContentSimilarity_unit.
  - apply calculateAccountDiversity_unit, H.
Qed.

(** ** The terms of the network confidence *)

Lemma calculateActivityDensity_unit (activities : list SpreadEvent.t)
    (accounts : list string) :
  accounts <> [] -> in_unit (calculateActivityDensity activities accounts).
Proof.
  intro H. unfold calculateActivityDensity. cbv zeta. apply min_one_nonneg.
  unfold Num.of_nat, Num.of_Z.
  destruct (div_pos_nonneg (inject_Z (Z.of_nat (length activities)))
              (inject_Z (Z.of_nat (length accounts)))) as (q & -> & Hq & _).
  - apply NumFacts.inject_Z_nonneg. lia.
  - apply NumFacts.inject_Z_pos. destruct accounts; [contradiction | cbn [length]; lia].
  - destruct (div_pos_nonneg q 10 Hq) as (r & -> & Hr & _); [reflexivity | exact Hr].
Qed.

(** A set built from a list has no more elements than the list. *)
Lemma uniq_length {K} (keq : K -> K -> bool) (l : list K) :
  forall s, length (fold_left (JS.add keq) l s) <= length s + length l.
Proof.
  induction l as [|x t IH]; intro s; cbn [fold_left length]; [lia|].
  specialize (IH (JS.add keq s x)). unfold JS.add in *.
  destruct (JS.mem keq s x); [lia|]. rewrite length_app in IH. cbn [length] in IH. lia.
Qed.

Lemma calculateAccountConsistency_unit (activities : list SpreadEvent.t) :
  activities <> [] -> in_unit (calculateAccountConsistency activities).
Proof.
  intro H. unfold calculateAccountConsistency. cbv zeta.
  pose proof (uniq_length Interaction_eqb (map SpreadEvent.type activities) []) as Hle.
  fold (JS.uniq Interaction_eqb (map SpreadEvent.type activities)) in Hle.
  cbn [length Nat.add] in Hle.
  assert (Hpos : 0 < length (map SpreadEvent.type activities)).
  { rewrite length_map. destruct activities; [contradiction | cbn [length]; lia]. }
  pose proof (SimilarityFacts.ratio_unit _ _ Hle Hpos) as Hu.
  destruct (Num.of_nat (length (JS.uniq Interaction_eqb (map SpreadEvent.type activities)))
            / Num.of_nat (length (map SpreadEvent.type activities)))%num as [| |q|];
    cbn [in_unit] in Hu; try contradiction.
  unfold Num.sub, Num.one. cbn [Num.neg Num.add in_unit]. rewrite !Qred_correct.
  split; lra.
Qed.

Lemma calculateBehaviorConsistency_unit (activities : list SpreadEvent.t) :
  in_unit (calculateBehaviorConsistency activities).
Proof.
  unfold calculateBehaviorConsistency. cbv zeta.
  generalize (fold_left (fun m a =>
      sset m (SpreadEvent.sourceAccountId a)
        (match sget m (SpreadEvent.sourceAccountId a) with Some l => l | None => [] end
         ++ [a])) activities []).
  intro accountActivities.
  assert (H : forall acc : num * Z,
             running (fst acc) (snd acc) ->
             running
               (fst (fold_left (fun '(total, n) '(_, accountActs) =>
                   if (2 <=? length accountActs)%nat
                   then ((total + calculateAccountConsistency accountActs)%num, (n + 1)%Z)
                   else (total, n)) accountActivities acc))
               (snd (fold_left (fun '(total, n) '(_, accountActs) =>
                   if (2 <=? length accountActs)%nat
                   then ((total + calculateAccountConsistency accountActs)%num, (n + 1)%Z)
                   else (total, n)) accountActivities acc))).
  { induction accountActivities as [|[k acts] t IH]; intros [total n] Hr;
      cbn [fold_left]; [exact Hr|].
    apply IH. destruct (2 <=? length acts)%nat eqn:E; [|exact Hr].
    cbn [fst snd] in *. apply running_step; [exact Hr|].
    apply calculateAccountConsistency_unit. apply Nat.leb_le in E.
    destruct acts; [cbn [length] in E; lia | discriminate]. }
  specialize (H (Num.zero, 0%Z)).
  destruct (fold_left _ accountActivities (Num.zero, 0%Z)) as [total n].
  cbn [fst snd] in H. apply running_average, H.
  split; [lia|]. exists 0%Q. split; [reflexivity|]. change (inject_Z 0) with 0%Q. lra.
Qed.

Lemma calculateNetworkConfidence_unit (activities : list SpreadEvent.t)
    (accounts : list string) :
  accounts <> [] -> in_unit (calculateNetworkConfidence activities accounts).
Proof.
  intro H. unfold calculateNetworkConfidence. cbv zeta. apply network_terms.
  - apply calculateActivityDensity_unit, H.
  - apply calculateBehaviorConsistency_unit.
Qed.

(** ** The detectors *)

Lemma long_nonempty {A} (l : list A) : (minGroupSize <=? length l)%nat = true -> l <> [].
Proof. destruct l; [discriminate | discriminate]. Qed.

Lemma detectTemporalCoordination_confidence (activities : list SpreadEvent.t) :
  Forall confidence_ok (detectTemporalCoordination activities).
Proof.
  unfold detectTemporalCoordination.
  apply (@GraphFacts.fold_invariant _ _ (Forall confidence_ok)); [constructor|].
  intros patterns [k group] Hp.
  destruct (minGroupSize <=? length group)%nat eqn:E; [|exact Hp].
  cbv zeta. destruct (minGroupSize <=? length (accounts_of group))%nat; [|exact Hp].
  apply Forall_app. split; [exact Hp|]. constructor; [|constructor].
  unfold confidence_ok, createTemporalPattern. cbv zeta.
  cbn [CoordinationPattern.confidence].
  apply calculateTemporalConfidence_ok, long_nonempty, E.
Qed.

Lemma detectContentCoordination_confidence (activities : list SpreadEvent.t) :
  Forall confidence_ok (detectContentCoordination activities).
Proof.
  unfold detectContentCoordination.
  apply (@GraphFacts.fold_invariant _ _ (Forall confidence_ok)); [constructor|].
  intros patterns group Hp.
  destruct (minGroupSize <=? length group)%nat eqn:E; [|exact Hp].
  cbv zeta. destruct (minGroupSize <=? length (accounts_of group))%nat; [|exact Hp].
  apply Forall_app. split; [exact Hp|]. constructor; [|constructor].
  unfold confidence_ok, createContentPattern. cbv zeta.
  cbn [CoordinationPattern.confidence]. right.
  apply calculateContentConfidence_unit, long_nonempty, E.
Qed.

Lemma detectNetworkCoordination_loop_confidence (activities : list SpreadEvent.t)
    (todo : list NetworkCluster.t) :
  forall patterns out,
    Forall confidence_ok patterns ->
    detectNetworkCoordination_loop activities todo patterns = Ok out ->
    Forall confidence_ok out.
Proof.
  induction todo as [|cluster rest IH]; intros patterns out Hp;
    cbn [detectNetworkCoordination_loop].
  - intro H. injection H as <-. exact Hp.
  - destruct (minGroupSize <=? length (NetworkCluster.accounts cluster))%nat eqn:E;
      [|apply IH; exact Hp].
    cbv zeta. unfold createNetworkPattern. cbv zeta.
    destruct (generateNetworkEvidence _ (NetworkCluster.accounts cluster)) as [evidence|e];
      cbn [rbind]; [|discriminate].
    apply IH. apply Forall_app. split; [exact Hp|]. constructor; [|constructor].
    unfold confidence_ok. cbn [CoordinationPattern.confidence]. right.
    apply calculateNetworkConfidence_unit, long_nonempty, E.
Qed.

Lemma detectNetworkCoordination_confidence (activities : list SpreadEvent.t)
    (patterns : list CoordinationPattern.t) :
  detectNetworkCoordination activities = Ok patterns -> Forall confidence_ok patterns.
Proof.
  unfold detectNetworkCoordination.
  destruct (findNetworkClusters activities) as [clusters|e]; cbn [rbind]; [|discriminate].
  apply detectNetworkCoordination_loop_confidence. constructor.
Qed.

(** ** The merge *)

(** [Math.max] of two confidences *)
Lemma max_ok (x y : num) :
  nan_or in_unit x -> nan_or in_unit y -> nan_or in_unit (Num.max x y).
Proof.
  intros [->|Hx] [->|Hy].
  - left. reflexivity.
  - left. reflexivity.
  - left. destruct x; reflexivity.
  - right. destruct x as [| |a|]; cbn [in_unit] in Hx; try contradiction.
    destruct y as [| |b|]; cbn [in_unit] in Hy; try contradiction.
    unfold Num.max. rewrite NumFacts.cmp_Fin. destruct (a ?= b)%Q; assumption.
Qed.

Lemma max_list_ok (x : num) (l : list num) :
  nan_or in_unit x -> Forall (nan_or in_unit) l ->
  nan_or in_unit (Num.max_list (x :: l)).
Proof.
  intros Hx Hl. unfold Num.max_list. cbn [fold_left].
  assert (E : Num.max NInf x = x).
  { destruct Hx as [->|Hx]; [reflexivity|].
    destruct x; cbn [in_unit] in Hx; try contradiction. reflexivity. }
  rewrite E. clear E. revert x Hx.
  induction Hl as [|y t Hy _ IH]; intros x Hx; cbn [fold_left]; [exact Hx|].
  apply IH, max_ok; assumption.
Qed.

Lemma used_patterns_incl (patterns : list CoordinationPattern.t) (used : list nat) :
  forall i, incl (used_patterns i patterns used) patterns.
Proof.
  induction patterns as [|p t IH]; intro i; cbn [used_patterns]; [apply incl_refl|].
  destruct (nmem used i).
  - intros x [<-|Hx]; [left; reflexivity | right; exact (IH (S i) x Hx)].
  - intros x Hx. right. exact (IH (S i) x Hx).
Qed.

Lemma mergePatterns_loop_confidence (patterns : list CoordinationPattern.t) :
  Forall confidence_ok patterns ->
  forall todo i used merged,
    Forall confidence_ok todo ->
    Forall confidence_ok merged ->
    Forall confidence_ok (mergePatterns_loop patterns i todo used merged).
Proof.
  intro Hall. induction todo as [|basePattern rest IH]; intros i used merged Ht Hm;
    cbn [mergePatterns_loop]; [exact Hm|].
  inversion Ht as [|? ? Hb Hrest]; subst.
  destruct (nmem used i); [apply IH; assumption|].
  destruct (merge_into (S i) rest used _ _) as [[used' accountSet] evidenceList].
  apply IH; [exact Hrest|].
  apply Forall_app. split; [exact Hm|]. constructor; [|constructor].
  unfold confidence_ok. cbn [CoordinationPattern.confidence].
  apply max_list_ok; [exact Hb|].
  apply Forall_forall. intros x Hx. apply in_map_iff in Hx. destruct Hx as (p & <- & Hp).
  apply used_patterns_incl in Hp.
  exact (proj1 (Forall_forall confidence_ok patterns) Hall p Hp).
Qed.

Lemma detectCoordination_confidence_ok
    (activities : list SpreadEvent.t) (analysisId : string)
    (patterns : list CoordinationPattern.t) :
  detectCoordination activities analysisId = Ok patterns ->
  Forall confidence_ok patterns.
Proof.
  unfold detectCoordination. cbv zeta.
  destruct (detectNetworkCoordination activities) as [np|e] eqn:E; cbn [rbind];
    [|discriminate].
  intro H. injection H as <-.
  assert (Hall : Forall confidence_ok
                   (detectTemporalCoordination activities
                    ++ detectContentCoordination activities ++ np)).
  { apply Forall_app. split; [apply detectTemporalCoordination_confidence|].
    apply Forall_app. split; [apply detectContentCoordination_confidence|].
    apply (detectNetworkCoordination_confidence activities), E. }
  unfold mergePatterns. apply mergePatterns_loop_confidence; [exact Hall | exact Hall|].
  constructor.
Qed.

End ConfidenceFacts.

(** X30.  The confidence of a pattern [detectCoordination] returns is a
    number between 0 and 1, or NaN.  The temporal, content and network
    confidences are weighted sums of terms of the unit interval with weights
    that add up to 1, and the merge takes the maximum.  The content and
    network confidences are never NaN; the temporal confidence is NaN when
    its burstiness term, a quotient by the mean interval, is. *)
Theorem detectCoordination_confidence
    (activities : list SpreadEvent.t) (analysisId : string) :
  exists patterns,
    CoordinationDetector.detectCoordination activities analysisId = Ok patterns /\
    Forall confidence_ok patterns.
Proof.
  destruct (detectCoordination_total activities analysisId) as [patterns H].
  exists patterns. split; [exact H|].
  exact (ConfidenceFacts.detectCoordination_confidence_ok activities analysisId patterns H).
Qed.
Unset Implicit Arguments.

(* ================================================================== *)
(** * AnalysisEngine: two runs on one dataset *)
(* ================================================================== *)

Module TwoRunsFacts.

Lemma Forall2_same {A} (R : A -> A -> Prop) (P : A -> Prop) (l : list A) :
  (forall x, P x -> R x x) -> Forall P l -> Forall2 R l l.
Proof.
  intros H Hl. induction Hl as [|x t Hx _ IH]; constructor; [apply H, Hx | exact IH].
Qed.

(** ** The clusters *)

Lemma calculateActivityPattern_zone (clusterNodes : list string)
    (allNodes : list NetworkNode.t) (w1 w2 : World) :
  same_zone w1 w2 ->
  exists ap,
    NetworkAnalyzer.calculateActivityPattern clusterNodes allNodes w1 = Ok (ap, w1) /\
    NetworkAnalyzer.calculateActivityPattern clusterNodes allNodes w2 = Ok (ap, w2).
Proof.
  intro Hz. unfold NetworkAnalyzer.calculateActivityPattern,
    NetworkAnalyzer.calculateTimeDistribution. cbv zeta.
  set (timestamps := NetworkAnalyzer.defined
                       (map (NetworkAnalyzer.node_timestamp allNodes) clusterNodes)).
  unfold bind, ret.
  rewrite (ClusterFacts.mapM_local_offset timestamps w1),
    (ClusterFacts.mapM_local_offset timestamps w2).
  rewrite (map_ext (tzOffset w1) (tzOffset w2) Hz).
  destruct (NetworkAnalyzer.calculateCoordinationScore timestamps) as [score ts'].
  eexists. split; reflexivity.
Qed.

Lemma analyzeCluster_zone (clusterNodes : list string) (allNodes : list NetworkNode.t)
    (edges : list NetworkEdge.t) (w1 w2 : World) :
  same_zone w1 w2 ->
  exists c1 c2 w1' w2',
    NetworkAnalyzer.analyzeCluster clusterNodes allNodes edges w1 = Ok (c1, w1') /\
    NetworkAnalyzer.analyzeCluster clusterNodes allNodes edges w2 = Ok (c2, w2') /\
    same_cluster c1 c2 /\
    same_zone w1' w2'.
Proof.
  intro Hz. unfold NetworkAnalyzer.analyzeCluster. cbv zeta.
  destruct (calculateActivityPattern_zone clusterNodes allNodes w1 w2 Hz) as (ap & H1 & H2).
  rewrite (@bind_Ok _ _ _ _ w1 _ _ H1). rewrite (@bind_Ok _ _ _ _ w2 _ _ H2).
  unfold bind, date_now, math_random36, ret.
  eexists _, _, _, _. split; [reflexivity|]. split; [reflexivity|].
  split; [repeat split | exact Hz].
Qed.

Lemma detectClusters_loop_zone (allNodes : list NetworkNode.t)
    (edges : list NetworkEdge.t) (adj : Traversal.adjacency) :
  forall todo visited cs1 cs2 w1 w2,
    same_zone w1 w2 ->
    Forall2 same_cluster cs1 cs2 ->
    exists o1 o2 w1' w2',
      NetworkAnalyzer.detectClusters_loop todo allNodes edges adj visited cs1 w1
      = Ok (o1, w1') /\
      NetworkAnalyzer.detectClusters_loop todo allNodes edges adj visited cs2 w2
      = Ok (o2, w2') /\
      Forall2 same_cluster o1 o2.
Proof.
  induction todo as [|node rest IH]; intros visited cs1 cs2 w1 w2 Hz Hcs;
    cbn [NetworkAnalyzer.detectClusters_loop].
  - eexists _, _, _, _. split; [reflexivity|]. split; [reflexivity | exact Hcs].
  - destruct (smem visited (NetworkNode.accountId node)); [apply IH; assumption|].
    destruct (TraversalFacts.expandCluster_total (NetworkNode.accountId node) adj visited)
      as [[cluster visited'] Hex].
    unfold NetworkAnalyzer.expandCluster.
    rewrite (@bind_Ok _ _ _ _ w1 _ _ (@lift_Ok _ _ _ w1 Hex)).
    rewrite (@bind_Ok _ _ _ _ w2 _ _ (@lift_Ok _ _ _ w2 Hex)).
    cbv beta iota.
    destruct (3 <=? length cluster)%nat; [|apply IH; assumption].
    destruct (analyzeCluster_zone cluster allNodes edges w1 w2 Hz)
      as (c1 & c2 & w1' & w2' & H1 & H2 & Hc & Hz').
    rewrite (@bind_Ok _ _ _ _ w1 _ _ H1). rewrite (@bind_Ok _ _ _ _ w2 _ _ H2).
    apply IH; [exact Hz'|]. apply Forall2_app; [exact Hcs|]. constructor; [exact Hc|].
    constructor.
Qed.

(** ** The bot detection results *)

Lemma extractSignals_clock_free (account : Account.t) (w1 w2 : World) :
  exists s1 s2 w1' w2',
    BotDetector.extractSignals account w1 = Ok (s1, w1') /\
    BotDetector.extractSignals account w2 = Ok (s2, w2') /\
    length s1 = 7 /\ length s2 = 7 /\
    skipn 2 s1 = skipn 2 s2.
Proof.
  unfold BotDetector.extractSignals, BotDetector.calculateMetrics,
    BotDetector.accountAgeAnalysis, bind, date_now, ret.
  eexists _, _, _, _. repeat split.
Qed.

Lemma analyzeAccount_two (account : Account.t) (w1 w2 : World) :
  exists r1 r2 w1' w2',
    BotDetector.analyzeAccount account w1 = Ok (r1, w1') /\
    BotDetector.analyzeAccount account w2 = Ok (r2, w2') /\
    same_account r1 r2.
Proof.
  unfold BotDetector.analyzeAccount.
  destruct (extractSignals_clock_free account w1 w2)
    as (s1 & s2 & v1 & v2 & H1 & H2 & L1 & L2 & Hs).
  rewrite (@bind_Ok _ _ _ _ w1 _ _ H1). rewrite (@bind_Ok _ _ _ _ w2 _ _ H2).
  destruct (EngineFacts.prepareFeatures_spec account s1 v1) as (f1 & x1 & Hf1 & Hl1).
  destruct (EngineFacts.prepareFeatures_spec account s2 v2) as (f2 & x2 & Hf2 & Hl2).
  rewrite (@bind_Ok _ _ _ _ v1 _ _ Hf1). rewrite (@bind_Ok _ _ _ _ v2 _ _ Hf2).
  destruct (@EngineFacts.fallbackCalculation_total f1) as [p1 Hp1]; [lia|].
  destruct (@EngineFacts.fallbackCalculation_total f2) as [p2 Hp2]; [lia|].
  unfold BotDetector.calculateBotProbability.
  rewrite (@bind_Ok _ _ _ _ x1 _ _ (@lift_Ok _ _ _ x1 Hp1)).
  rewrite (@bind_Ok _ _ _ _ x2 _ _ (@lift_Ok _ _ _ x2 Hp2)).
  unfold ret. eexists _, _, _, _. split; [reflexivity|]. split; [reflexivity|].
  split; [reflexivity | exact Hs].
Qed.

(** One action run on every element of a list, in two worlds *)
Lemma mapM_two {A B} (f : A -> M B) (R : B -> B -> Prop) :
  (forall x w1 w2, exists y1 y2 w1' w2',
      f x w1 = Ok (y1, w1') /\ f x w2 = Ok (y2, w2') /\ R y1 y2) ->
  forall l w1 w2, exists ys1 ys2 w1' w2',
      mapM f l w1 = Ok (ys1, w1') /\ mapM f l w2 = Ok (ys2, w2') /\ Forall2 R ys1 ys2.
Proof.
  intro Hf. induction l as [|x t IH]; intros w1 w2; cbn [mapM].
  - eexists _, _, _, _. split; [reflexivity|]. split; [reflexivity | constructor].
  - destruct (Hf x w1 w2) as (y1 & y2 & v1 & v2 & H1 & H2 & Hy).
    rewrite (@bind_Ok _ _ _ _ w1 _ _ H1). rewrite (@bind_Ok _ _ _ _ w2 _ _ H2).
    destruct (IH v1 v2) as (ys1 & ys2 & x1 & x2 & G1 & G2 & Hys).
    rewrite (@bind_Ok _ _ _ _ v1 _ _ G1). rewrite (@bind_Ok _ _ _ _ v2 _ _ G2).
    unfold ret. eexists _, _, _, _. split; [reflexivity|]. split; [reflexivity|].
    constructor; assumption.
Qed.

Lemma detectBots_two (accounts : list Account.t) (w1 w2 : World) :
  exists b1 b2 w1' w2',
    BotDetector.detectBots accounts w1 = Ok (b1, w1') /\
    BotDetector.detectBots accounts w2 = Ok (b2, w2') /\
    Forall2 same_account b1 b2.
Proof. apply (mapM_two BotDetector.analyzeAccount same_account analyzeAccount_two). Qed.

(** ** The anomalies *)

Import AnomalyDetector.

(** The key of an anomaly starts with its type. *)
Lemma key_type (a b : Anomaly.t) :
  anomaly_key a = anomaly_key b -> Anomaly.type a = Anomaly.type b.
Proof.
  unfold anomaly_key.
  destruct (Anomaly.type a), (Anomaly.type b); cbn [AnomalyType_name append];
    intro H; try reflexivity; discriminate H.
Qed.

Lemma same_anomaly_refl (a : Anomaly.t) : same_anomaly a a.
Proof. repeat split. Qed.

Lemma same_type (a b : Anomaly.t) : same_anomaly a b -> Anomaly.type a = Anomaly.type b.
Proof. intros [H _]. unfold anomaly_core in H. congruence. Qed.

Lemma same_severity (a b : Anomaly.t) :
  same_anomaly a b -> getSeverityScore a = getSeverityScore b.
Proof.
  intros [H _]. unfold anomaly_core in H. unfold getSeverityScore.
  replace (Anomaly.severity b) with (Anomaly.severity a) by congruence. reflexivity.
Qed.

Lemma same_score (a b : Anomaly.t) : same_anomaly a b -> anomaly_score a = anomaly_score b.
Proof.
  intro H. unfold anomaly_score. rewrite (same_severity a b H).
  destruct H as [H _]. unfold anomaly_core in H.
  replace (Anomaly.metrics b) with (Anomaly.metrics a) by congruence. reflexivity.
Qed.

Lemma tied_key (a b : Anomaly.t) : tied a b -> anomaly_key a = anomaly_key b.
Proof.
  intros [(Hc & _ & Ht) Hn]. unfold anomaly_key. unfold anomaly_core in Hc.
  rewrite (Ht Hn).
  replace (Anomaly.type b) with (Anomaly.type a) by congruence.
  replace (Anomaly.affectedAccounts b) with (Anomaly.affectedAccounts a) by congruence.
  reflexivity.
Qed.

Lemma tied_same (l1 l2 : list Anomaly.t) :
  Forall2 tied l1 l2 -> Forall2 same_anomaly l1 l2.
Proof. apply Forall2_impl. intros a b [H _]. exact H. Qed.

Lemma tied_types (l1 l2 : list Anomaly.t) :
  Forall2 tied l1 l2 ->
  Forall (fun a => Anomaly.type a <> network) l1 /\
  Forall (fun a => Anomaly.type a <> network) l2.
Proof.
  induction 1 as [|a b l1 l2 [Hs Hn] _ [IH1 IH2]]; [split; constructor|].
  split; constructor; try assumption. rewrite <- (same_type a b Hs). exact Hn.
Qed.

(** The same key looked up in two tied maps *)
Lemma sget_tied (m1 m2 : list (string * Anomaly.t)) (k : string) :
  Forall2 tied_entries m1 m2 ->
  match sget m1 k, sget m2 k with
  | Some a, Some b => tied a b
  | None, None => True
  | _, _ => False
  end.
Proof.
  induction 1 as [|[k1 a] [k2 b] m1 m2 [Hk Ht] _ IH]; cbn [JS.get]; [exact I|].
  cbn [fst snd] in Hk, Ht. subst k2.
  destruct (String.eqb k1 k); [exact Ht | exact IH].
Qed.

Lemma sset_tied (m1 m2 : list (string * Anomaly.t)) (k : string) (a b : Anomaly.t) :
  Forall2 tied_entries m1 m2 -> tied a b ->
  Forall2 tied_entries (sset m1 k a) (sset m2 k b).
Proof.
  intros Hm Hab.
  induction Hm as [|[k1 a1] [k2 a2] m1 m2 [Hk Ht] Hm IH]; cbn [JS.set].
  - constructor; [split; [reflexivity | exact Hab] | constructor].
  - cbn [fst snd] in Hk, Ht. subst k2.
    destruct (String.eqb k1 k).
    + constructor; [split; [reflexivity | exact Hab] | exact Hm].
    + constructor; [split; [reflexivity | exact Ht] | exact IH].
Qed.

(** The deduplication of two tied lists keeps the same positions. *)
Lemma deduplicate_fold_tied (l1 l2 : list Anomaly.t) :
  Forall2 tied l1 l2 ->
  forall m1 m2,
    Forall2 tied_entries m1 m2 ->
    Forall2 tied_entries
      (fold_left (fun unique anomaly =>
           let key := anomaly_key anomaly in
           match sget unique key with
           | None => sset unique key anomaly
           | Some kept =>
               if (getSeverityScore kept <? getSeverityScore anomaly)%Z
               then sset unique key anomaly
               else unique
           end) l1 m1)
      (fold_left (fun unique anomaly =>
           let key := anomaly_key anomaly in
           match sget unique key with
           | None => sset unique key anomaly
           | Some kept =>
               if (getSeverityScore kept <? getSeverityScore anomaly)%Z
               then sset unique key anomaly
               else unique
           end) l2 m2).
Proof.
  induction 1 as [|a b l1 l2 Hab _ IH]; intros m1 m2 Hm; cbn [fold_left]; [exact Hm|].
  apply IH. cbv zeta. rewrite <- (tied_key a b Hab).
  pose proof (sget_tied m1 m2 (anomaly_key a) Hm) as Hg.
  destruct (sget m1 (anomaly_key a)) as [k1|], (sget m2 (anomaly_key a)) as [k2|];
    try contradiction.
  - rewrite <- (same_severity k1 k2 (proj1 Hg)), <- (same_severity a b (proj1 Hab)).
    destruct (getSeverityScore k1 <? getSeverityScore a)%Z; [|exact Hm].
    apply sset_tied; assumption.
  - apply sset_tied; assumption.
Qed.

Lemma deduplicate_tied (l1 l2 : list Anomaly.t) :
  Forall2 tied l1 l2 ->
  Forall2 tied_entries (deduplicate l1) (deduplicate l2).
Proof.
  intro Hl. unfold deduplicate. apply deduplicate_fold_tied; [exact Hl | constructor].
Qed.

(** A network anomaly after anomalies of the other detectors has a key of
    its own. *)
Lemma deduplicate_network (l : list Anomaly.t) (n : Anomaly.t) :
  Forall (fun a => Anomaly.type a <> network) l ->
  Anomaly.type n = network ->
  deduplicate (l ++ [n]) = deduplicate l ++ [(anomaly_key n, n)].
Proof.
  intros Hl Hn. unfold deduplicate at 1. rewrite fold_left_app.
  fold (deduplicate l). cbn [fold_left]. cbv zeta.
  destruct (sget (deduplicate l) (anomaly_key n)) as [kept|] eqn:E.
  - exfalso. apply sget_In in E.
    destruct (DedupFacts.deduplicate_ok l) as (_ & He & _).
    destruct (He _ _ E) as [Hk Hin].
    apply key_type in Hk.
    apply (proj1 (Forall_forall _ _) Hl kept Hin). rewrite Hk. exact Hn.
  - apply (@sset_fresh _ (deduplicate l) (anomaly_key n) n E).
Qed.

Lemma values_tied (m1 m2 : list (string * Anomaly.t)) :
  Forall2 tied_entries m1 m2 -> Forall2 same_anomaly (JS.values m1) (JS.values m2).
Proof.
  unfold JS.values. induction 1 as [|kv1 kv2 m1 m2 [_ [H _]] _ IH]; cbn [map];
    constructor; assumption.
Qed.

(** The sort looks at the severity and at the confidence only. *)
Lemma insert_same (x1 x2 : Anomaly.t) (l1 l2 : list Anomaly.t) :
  same_anomaly x1 x2 -> Forall2 same_anomaly l1 l2 ->
  Forall2 same_anomaly
    (JS.insert (fun a b => (anomaly_score b - anomaly_score a >? Num.zero)%num) x1 l1)
    (JS.insert (fun a b => (anomaly_score b - anomaly_score a >? Num.zero)%num) x2 l2).
Proof.
  intros Hx Hl. induction Hl as [|y1 y2 l1 l2 Hy Hl IH]; cbn [JS.insert].
  - constructor; [exact Hx | constructor].
  - rewrite <- (same_score x1 x2 Hx), <- (same_score y1 y2 Hy).
    destruct (anomaly_score y1 - anomaly_score x1 >? Num.zero)%num.
    + constructor; [exact Hy | exact IH].
    + constructor; [exact Hx|]. constructor; [exact Hy | exact Hl].
Qed.

Lemma sort_same (l1 l2 : list Anomaly.t) :
  Forall2 same_anomaly l1 l2 ->
  Forall2 same_anomaly
    (JS.sort (fun a b => (anomaly_score b - anomaly_score a >? Num.zero)%num) l1)
    (JS.sort (fun a b => (anomaly_score b - anomaly_score a >? Num.zero)%num) l2).
Proof.
  unfold JS.sort. induction 1 as [|x1 x2 l1 l2 Hx _ IH]; cbn [fold_right];
    [constructor | apply insert_same; assumption].
Qed.

(** The anomalies kept and sorted in two runs: tied anomalies of the
    timeline detectors, then at most one network anomaly. *)
Lemma prioritizeAnomalies_two (l1 l2 n1 n2 : list Anomaly.t) :
  Forall2 tied l1 l2 ->
  Forall2 same_anomaly n1 n2 ->
  length n1 <= 1 ->
  Forall (fun a => Anomaly.type a = network) n1 ->
  Forall2 same_anomaly (prioritizeAnomalies (l1 ++ n1)) (prioritizeAnomalies (l2 ++ n2)).
Proof.
  intros Hl Hn Hlen Ht1. unfold prioritizeAnomalies. apply sort_same.
  destruct (tied_types l1 l2 Hl) as [T1 T2].
  destruct Hn as [|a b n1 n2 Hab Hn].
  - rewrite !app_nil_r. apply values_tied, deduplicate_tied, Hl.
  - destruct Hn; [|cbn [length] in Hlen; lia].
    inversion Ht1 as [|? ? Ha _]; subst.
    rewrite (deduplicate_network l1 a T1 Ha).
    rewrite (deduplicate_network l2 b T2) by (rewrite <- (same_type a b Hab); exact Ha).
    unfold JS.values. rewrite !map_app. cbn [map snd].
    apply Forall2_app.
    + apply (values_tied _ _ (deduplicate_tied l1 l2 Hl)).
    + constructor; [exact Hab | constructor].
Qed.

(** The regular accounts found in two runs: the ids alone carry the
    time of the run. *)
Lemma detectTemporalPatterns_loop_two :
  forall todo acc1 acc2 w1 w2,
    Forall2 tied acc1 acc2 ->
    exists o1 o2 w1' w2',
      detectTemporalPatterns_loop todo acc1 w1 = Ok (o1, w1') /\
      detectTemporalPatterns_loop todo acc2 w2 = Ok (o2, w2') /\
      Forall2 tied o1 o2.
Proof.
  induction todo as [|[accountId events] rest IH]; intros acc1 acc2 w1 w2 Hacc;
    cbn [detectTemporalPatterns_loop].
  - unfold ret. eexists _, _, _, _. split; [reflexivity|]. split; [reflexivity | exact Hacc].
  - destruct (length events <? 5)%nat eqn:E5; [apply IH, Hacc|].
    unfold calculateIntervals.
    destruct (_ >? _)%num; [|apply IH, Hacc].
    destruct (JS.sort event_after events) as [|e sorted] eqn:Es.
    + exfalso. apply Nat.ltb_ge in E5.
      rewrite <- (JSFacts.sort_length event_after events), Es in E5. simpl in E5. lia.
    + unfold bind, date_now, lift. apply IH.
      apply Forall2_app; [exact Hacc|]. constructor; [|constructor].
      split; [|cbn [Anomaly.type]; discriminate].
      split; [reflexivity|]. split; [|reflexivity].
      cbn [Anomaly.type]. intro H. exfalso. apply H. reflexivity.
Qed.

(** On a timeline of first-hand events the network detector finds the same
    star in two runs, or none, stamped with the time of the run. *)
Lemma detectNetworkAnomalies_two (author : string)
    (timeline : list TimelineEvent.t) (w1 w2 : World) :
  Forall (first_hand author) timeline ->
  exists n1 n2 w1' w2',
    detectNetworkAnomalies timeline w1 = Ok (n1, w1') /\
    detectNetworkAnomalies timeline w2 = Ok (n2, w2') /\
    Forall2 same_anomaly n1 n2 /\
    length n1 <= 1 /\
    Forall (fun a => Anomaly.type a = network) n1.
Proof.
  intro Hfh. unfold detectNetworkAnomalies.
  destruct (map TimelineEvent.cascadeDepth timeline) as [|d ds] eqn:Hd.
  { unfold ret. eexists _, _, _, _. split; [reflexivity|]. split; [reflexivity|].
    split; [constructor|]. split; [cbn; lia | constructor]. }
  cbv zeta.
  assert (Hmax : (10 <? Zmax_list d ds)%Z = false).
  { apply Z.ltb_ge. unfold Zmax_list.
    assert (Hall : Forall (fun y => (y <= 1)%Z) (d :: ds)).
    { rewrite <- Hd. apply Forall_map. revert Hfh. apply Forall_impl.
      intros e [[He _]|He]; lia. }
    inversion Hall; subst.
    pose proof (PipelineFacts.fold_max_bound 1 ds d ltac:(assumption) ltac:(assumption)).
    lia. }
  rewrite Hmax.
  set (triggerCounts := fold_left _ timeline []).
  assert (Htc : triggerCounts = [] \/ exists n, triggerCounts = [(author, n)]).
  { unfold triggerCounts.
    apply (@ClusterFacts.fold_invariant_In _ _
             (fun m : list (string * Z) => m = [] \/ exists n, m = [(author, n)])).
    - left. reflexivity.
    - intros m e He Hm.
      destruct (TimelineEvent.cascadeDepth e =? 0)%Z eqn:E0; [|exact Hm].
      apply Z.eqb_eq in E0.
      assert (Hacct : TimelineEvent.accountId e = author).
      { pose proof (proj1 (Forall_forall _ _) Hfh e He) as [[_ Ha]|H1]; [exact Ha | lia]. }
      rewrite Hacct. right.
      destruct Hm as [->|[n ->]]; cbn [JS.set]; [|rewrite seq_refl]; eexists; reflexivity. }
  destruct Htc as [->|[n ->]]; cbn [filter].
  - cbn [mapM]. unfold bind, ret.
    eexists _, _, _, _. split; [reflexivity|]. split; [reflexivity|].
    split; [constructor|]. split; [cbn; lia | constructor].
  - destruct (20 <? n)%Z; cbn [mapM]; unfold bind, ret, date_now.
    + eexists _, _, _, _. split; [reflexivity|]. split; [reflexivity|].
      cbn [app]. split; [|split; [cbn; lia | constructor; [reflexivity | constructor]]].
      constructor; [|constructor].
      split; [reflexivity|]. split; [intros _; reflexivity|].
      cbn [Anomaly.type]. intro H. exfalso. apply H. reflexivity.
    + eexists _, _, _, _. split; [reflexivity|]. split; [reflexivity|].
      split; [constructor|]. split; [cbn; lia | constructor].
Qed.

Lemma tied_all (l : list Anomaly.t) :
  Forall (fun a => Anomaly.type a <> network) l -> Forall2 tied l l.
Proof.
  apply (Forall2_same tied). intros a Ha. split; [apply same_anomaly_refl | exact Ha].
Qed.

(** The candidates of two runs on a timeline of first-hand events *)
Lemma candidates_two (author : string) (timeline : list TimelineEvent.t) (w1 w2 : World) :
  Forall (first_hand author) timeline ->
  exists l1 l2 n1 n2 w1' w2',
    candidates timeline w1 = Ok (l1 ++ n1, w1') /\
    candidates timeline w2 = Ok (l2 ++ n2, w2') /\
    Forall2 tied l1 l2 /\
    Forall2 same_anomaly n1 n2 /\
    length n1 <= 1 /\
    Forall (fun a => Anomaly.type a = network) n1.
Proof.
  intro Hfh. unfold candidates. cbv zeta.
  destruct (detectTemporalPatterns_loop_two
              (fold_left (fun m e => group_push m (TimelineEvent.accountId e) e) timeline [])
              [] [] w1 w2 (Forall2_nil _)) as (p1 & p2 & v1 & v2 & Hp1 & Hp2 & Hp).
  fold (detectTemporalPatterns timeline) in Hp1, Hp2.
  rewrite (@bind_Ok _ _ _ _ w1 _ _ Hp1). rewrite (@bind_Ok _ _ _ _ w2 _ _ Hp2).
  destruct (AnomalyFacts.detectBehaviorAnomalies_total timeline) as [bs Hbs].
  rewrite (@bind_Ok _ _ _ _ v1 _ _ (@lift_Ok _ _ _ v1 Hbs)).
  rewrite (@bind_Ok _ _ _ _ v2 _ _ (@lift_Ok _ _ _ v2 Hbs)).
  destruct (detectNetworkAnomalies_two author timeline v1 v2 Hfh)
    as (n1 & n2 & x1 & x2 & Hn1 & Hn2 & Hn & Hlen & Ht).
  rewrite (@bind_Ok _ _ _ _ v1 _ _ Hn1). rewrite (@bind_Ok _ _ _ _ v2 _ _ Hn2).
  unfold ret.
  exists (detectVolumeSpikes timeline ++ p1 ++ bs),
         (detectVolumeSpikes timeline ++ p2 ++ bs), n1, n2, x1, x2.
  split; [rewrite <- !app_assoc; reflexivity|].
  split; [rewrite <- !app_assoc; reflexivity|].
  split; [|split; [exact Hn | split; [exact Hlen | exact Ht]]].
  apply Forall2_app; [|apply Forall2_app; [exact Hp|]].
  - apply tied_all. generalize (SpikeBounds.detectVolumeSpikes_ok timeline).
    apply Forall_impl. intros a [Hs _]. rewrite Hs. discriminate.
  - apply tied_all.
    exact (PipelineFacts.detectBehaviorAnomalies_loop_typed _ _ _ Hbs (Forall_nil _)).
Qed.

Lemma detectAnomalies_two (author : string) (timeline : list TimelineEvent.t)
    (analysisId : string) (w1 w2 : World) :
  Forall (first_hand author) timeline ->
  exists a1 a2 w1' w2',
    detectAnomalies timeline analysisId w1 = Ok (a1, w1') /\
    detectAnomalies timeline analysisId w2 = Ok (a2, w2') /\
    Forall2 same_anomaly a1 a2.
Proof.
  intro Hfh. unfold detectAnomalies.
  destruct (length timeline <? minEventsForAnalysis)%nat.
  - unfold ret. eexists _, _, _, _. split; [reflexivity|]. split; [reflexivity|].
    constructor.
  - cbv zeta.
    assert (Hsorted : Forall (first_hand author) (JS.sort event_after timeline)).
    { apply Forall_forall. intros e He. apply JSFacts.sort_In in He.
      exact (proj1 (Forall_forall _ _) Hfh e He). }
    destruct (candidates_two author _ w1 w2 Hsorted)
      as (l1 & l2 & n1 & n2 & v1 & v2 & H1 & H2 & Hl & Hn & Hlen & Ht).
    rewrite (@bind_Ok _ _ _ _ w1 _ _ H1). rewrite (@bind_Ok _ _ _ _ w2 _ _ H2).
    unfold ret. eexists _, _, _, _. split; [reflexivity|]. split; [reflexivity|].
    apply prioritizeAnomalies_two; assumption.
Qed.

End TwoRunsFacts.

(** C3, amended.  For every dataset and analysis id the pipeline returns
    under every clock, random source and time zone, and two runs agree on
    what is not computed from the age of an account.  The nodes, edges,
    influencers, propagation paths and metrics of the network analysis are
    equal, and so are the coordination patterns.  The clusters are equal but
    for their ids, and for their time-of-day histograms when the time zone
    differs between the runs.  The anomalies are the same, in the same
    order, but for the id of a pattern anomaly and the timestamp of a
    network anomaly, which carry the time of the run.  The bot detection
    results are for the same accounts in the same order and agree on the
    signals that do not read the clock; the probability, the class and the
    confidence are computed from the age of the account at the time of the
    run and are not promised to agree. *)
Theorem pipeline_clock_independent_part
    (spreadData : SpreadData.t) (analysisId : string) (w1 w2 : World) :
  exists r1 r2 w1' w2',
    AnalysisEngine.runFullAnalysis spreadData analysisId w1 = Ok (r1, w1') /\
    AnalysisEngine.runFullAnalysis spreadData analysisId w2 = Ok (r2, w2') /\
    same_analysis r1 r2 /\
    Forall2 same_anomaly (FullAnalysis.anomalies r1) (FullAnalysis.anomalies r2) /\
    Forall2 same_account (FullAnalysis.bots r1) (FullAnalysis.bots r2) /\
    (same_zone w1 w2 ->
     Forall2 same_cluster
       (NetworkAnalysis.clusters (FullAnalysis.network r1))
       (NetworkAnalysis.clusters (FullAnalysis.network r2))).
Proof.
  unfold AnalysisEngine.runFullAnalysis.
  destruct (ClusterFacts.analyzeNetwork_spec spreadData analysisId w1)
    as (cs1 & infl1 & v1 & Hn1 & _ & Hc1 & Hi1).
  destruct (ClusterFacts.analyzeNetwork_spec spreadData analysisId w2)
    as (cs2 & infl2 & v2 & Hn2 & _ & Hc2 & Hi2).
  assert (Hinfl : infl1 = infl2) by congruence. subst infl2.
  assert (Hcore : map cluster_core cs1 = map cluster_core cs2).
  { unfold NetworkAnalyzer.detectClusters in Hc1, Hc2.
    destruct (EngineFacts.detectClusters_loop_core
                (fst (NetworkAnalyzer.buildNetworkGraph spreadData))
                (snd (NetworkAnalyzer.buildNetworkGraph spreadData))
                (NetworkAnalyzer.buildAdjacencyList
                   (fst (NetworkAnalyzer.buildNetworkGraph spreadData))
                   (snd (NetworkAnalyzer.buildNetworkGraph spreadData)))
                (fst (NetworkAnalyzer.buildNetworkGraph spreadData))
                [] [] [] w1 w2 eq_refl)
      as (o1 & o2 & u1 & u2 & Ho1 & Ho2 & Ho).
    rewrite Hc1 in Ho1. rewrite Hc2 in Ho2.
    injection Ho1 as <- _. injection Ho2 as <- _. exact Ho. }
  assert (Hzone : same_zone w1 w2 -> Forall2 same_cluster cs1 cs2).
  { intro Hz. unfold NetworkAnalyzer.detectClusters in Hc1, Hc2.
    destruct (TwoRunsFacts.detectClusters_loop_zone
                (fst (NetworkAnalyzer.buildNetworkGraph spreadData))
                (snd (NetworkAnalyzer.buildNetworkGraph spreadData))
                (NetworkAnalyzer.buildAdjacencyList
                   (fst (NetworkAnalyzer.buildNetworkGraph spreadData))
                   (snd (NetworkAnalyzer.buildNetworkGraph spreadData)))
                (fst (NetworkAnalyzer.buildNetworkGraph spreadData))
                [] [] [] w1 w2 Hz (Forall2_nil _))
      as (o1 & o2 & u1 & u2 & Ho1 & Ho2 & Ho).
    rewrite Hc1 in Ho1. rewrite Hc2 in Ho2.
    injection Ho1 as <- _. injection Ho2 as <- _. exact Ho. }
  rewrite (@bind_Ok _ _ _ _ w1 _ _ Hn1). rewrite (@bind_Ok _ _ _ _ w2 _ _ Hn2).
  destruct (TwoRunsFacts.detectBots_two (AnalysisEngine.extractAccounts spreadData) v1 v2)
    as (b1 & b2 & x1 & x2 & Hb1 & Hb2 & Hb).
  rewrite (@bind_Ok _ _ _ _ v1 _ _ Hb1). rewrite (@bind_Ok _ _ _ _ v2 _ _ Hb2).
  destruct (detectCoordination_total
              (AnalysisEngine.extractActivities spreadData) analysisId) as [ps Hps].
  rewrite (@bind_Ok _ _ _ _ x1 _ _ (@lift_Ok _ _ _ x1 Hps)).
  rewrite (@bind_Ok _ _ _ _ x2 _ _ (@lift_Ok _ _ _ x2 Hps)).
  destruct (TwoRunsFacts.detectAnomalies_two (author_of spreadData)
              (AnalysisEngine.extractTimeline spreadData) analysisId x1 x2
              (PipelineFacts.extractTimeline_first_hand spreadData))
    as (a1 & a2 & y1 & y2 & Ha1 & Ha2 & Ha).
  rewrite (@bind_Ok _ _ _ _ x1 _ _ Ha1). rewrite (@bind_Ok _ _ _ _ x2 _ _ Ha2).
  match goal with
  | |- context [bind (AnalysisEngine.generateSummary ?n ?b ?c ?a) _ y1] =>
      destruct (EngineFacts.generateSummary_total n b c a y1) as (s1 & z1 & Hs1)
  end.
  match goal with
  | |- context [bind (AnalysisEngine.generateSummary ?n ?b ?c ?a) _ y2] =>
      destruct (EngineFacts.generateSummary_total n b c a y2) as (s2 & z2 & Hs2)
  end.
  rewrite (@bind_Ok _ _ _ _ y1 _ _ Hs1). rewrite (@bind_Ok _ _ _ _ y2 _ _ Hs2).
  unfold ret. eexists _, _, _, _. split; [reflexivity|]. split; [reflexivity|].
  cbn [FullAnalysis.anomalies FullAnalysis.bots FullAnalysis.network
       NetworkAnalysis.clusters].
  split; [|split; [exact Ha | split; [exact Hb | exact Hzone]]].
  unfold same_analysis. cbn. repeat split; try reflexivity. exact Hcore.
Qed.

Lemma pipeline_clock_independent_part_witness :
  same_zone (still_world 1000) later_world /\
  exists r1 r2 w1' w2',
    AnalysisEngine.runFullAnalysis parallel_edges "analysis-1" (still_world 1000)
    = Ok (r1, w1') /\
    AnalysisEngine.runFullAnalysis parallel_edges "analysis-1" later_world
    = Ok (r2, w2') /\
    Forall2 same_cluster
      (NetworkAnalysis.clusters (FullAnalysis.network r1))
      (NetworkAnalysis.clusters (FullAnalysis.network r2)).
Proof.
  assert (Hz : same_zone (still_world 1000) later_world) by (intro t; reflexivity).
  split; [exact Hz|].
  destruct (pipeline_clock_independent_part parallel_edges "analysis-1"
              (still_world 1000) later_world)
    as (r1 & r2 & w1' & w2' & H1 & H2 & _ & _ & _ & Hc).
  exists r1, r2, w1', w2'. split; [exact H1|]. split; [exact H2 | exact (Hc Hz)].
Defined.
